(** * The hotel recommendation engine (src/services/RecommendationEngine.ts)

    A shallow embedding of the [RecommendationEngine] class: the aggregation
    of raw rows into [AggregatedHotel]s, the filter pipeline of
    [generateRecommendations], the fuzzy ranking with its popularity
    fallback, the insights, and the two secondary queries.

    The methods are given on three levels.  First on values with exact
    arithmetic, where a hotel is a record, an array is a list and the
    aggregation of a row always returns: this is the model of the
    statements that hold whatever the rounding (ranges that rounding keeps,
    filters, the city stage, the tags, the coordinates).  Then in binary64
    ([Double]), where every operation rounds and the aggregation and the
    initialization throw where the source does: this is the model of the
    statements on the values of the scores, on the order of the hotels and
    on the initialization.  Last on a heap ([Shared]), where arrays and
    hotel records are cells shared by reference and [sort] writes in place:
    this is the model of the statement on what a request leaves unchanged,
    and it is proved to compute what the first model computes.

    Modelling conventions.
    - A JavaScript number is an IEEE-754 double.  It is modelled by [number]:
      a real, one of the two infinities, or NaN; zero is unsigned (it acts
      as +0) and the special values follow IEEE-754 and ECMAScript.  The
      operations of [Num] are exact; those of [Binary64] round their result
      to the nearest binary64 number, ties to even, and overflow to an
      infinity.
    - A JavaScript string is modelled by the bytes of its UTF-8 encoding;
      case conversion and white space are the ASCII ones, and lengths count
      bytes, which are the UTF-16 code units of the source for ASCII texts.
    - What the class obtains from outside (the fetched table, [JSON.parse],
      [Math.random], Fuse.js, the geocoding response, and in binary64 the
      functions of [Math] whose last bits the implementation chooses) is
      read from a [World].
    - A thrown [TypeError] is the [Throw] completion.
    - Requests are served one after the other.

    After the engine come the helpers of the screens that show its
    recommendations: the price bands of the hotel card, the platform
    ratings the hook [useAI] hands over, and the distance and the fuzzy
    matching of the area search. *)

From Stdlib Require Import Reals Lra Lia ZArith Bool List String Ascii.
From Stdlib Require Import Sorting.Sorted Sorting.Permutation.
From stdpp Require Import base decidable option list gmap gmultiset strings.

Import ListNotations.
Local Open Scope R_scope.

(** ** JavaScript numbers *)

Module Num.

Inductive number : Type :=
| Fin (x : R)
| PInf
| NInf
| NaN.

Definition Reqb (x y : R) : bool := if Req_dec_T x y then true else false.
Definition Rltb (x y : R) : bool := if Rlt_dec x y then true else false.

Definition zero : number := Fin 0.

(** [-a] *)
Definition neg (a : number) : number :=
  match a with
  | Fin x => Fin (- x)
  | PInf => NInf
  | NInf => PInf
  | NaN => NaN
  end.

(** [a + b] *)
Definition add (a b : number) : number :=
  match a, b with
  | NaN, _ | _, NaN => NaN
  | Fin x, Fin y => Fin (x + y)
  | PInf, NInf | NInf, PInf => NaN
  | PInf, _ | _, PInf => PInf
  | NInf, _ | _, NInf => NInf
  end.

(** [a - b] *)
Definition sub (a b : number) : number := add a (neg b).

(** The infinity that has the sign of [x * s], for [x <> 0]. *)
Definition signed_inf (x : R) (positive : bool) : number :=
  if Reqb x 0 then NaN
  else if Bool.eqb (Rltb 0 x) positive then PInf else NInf.

(** [a * b] *)
Definition mul (a b : number) : number :=
  match a, b with
  | NaN, _ | _, NaN => NaN
  | Fin x, Fin y => Fin (x * y)
  | Fin x, PInf | PInf, Fin x => signed_inf x true
  | Fin x, NInf | NInf, Fin x => signed_inf x false
  | PInf, PInf | NInf, NInf => PInf
  | PInf, NInf | NInf, PInf => NInf
  end.

(** [a / b]; a zero divisor is +0. *)
Definition div (a b : number) : number :=
  match a, b with
  | NaN, _ | _, NaN => NaN
  | Fin x, Fin y =>
      if Reqb y 0 then signed_inf x true else Fin (x / y)
  | Fin _, (PInf | NInf) => Fin 0
  | PInf, Fin y => if Rltb y 0 then NInf else PInf
  | NInf, Fin y => if Rltb y 0 then PInf else NInf
  | (PInf | NInf), (PInf | NInf) => NaN
  end.

(** [a < b]: false as soon as one side is NaN. *)
Definition lt (a b : number) : bool :=
  match a, b with
  | NaN, _ | _, NaN => false
  | Fin x, Fin y => Rltb x y
  | NInf, (Fin _ | PInf) => true
  | Fin _, PInf => true
  | _, _ => false
  end.

(** [a === b] on numbers. *)
Definition eq (a b : number) : bool :=
  match a, b with
  | Fin x, Fin y => Reqb x y
  | PInf, PInf | NInf, NInf => true
  | _, _ => false
  end.

Definition gt (a b : number) : bool := lt b a.
Definition le (a b : number) : bool := lt a b || eq a b.
Definition ge (a b : number) : bool := le b a.

(** [Set.prototype.has] compares with SameValueZero: NaN equals NaN. *)
Definition same_value_zero (a b : number) : bool :=
  match a, b with
  | NaN, NaN => true
  | _, _ => eq a b
  end.

(** ToBoolean: 0 and NaN are falsy. *)
Definition truthy (a : number) : bool :=
  match a with
  | Fin x => negb (Reqb x 0)
  | NaN => false
  | PInf | NInf => true
  end.

(** [a || b] on numbers. *)
Definition or (a b : number) : number := if truthy a then a else b.

(** [Math.min(a, b)] *)
Definition min (a b : number) : number :=
  match a, b with
  | NaN, _ | _, NaN => NaN
  | _, _ => if lt b a then b else a
  end.

(** [Math.floor(a)] *)
Definition floor (a : number) : number :=
  match a with
  | Fin x => Fin (IZR (Int_part x))
  | _ => a
  end.

(** [Math.round(a)] is [floor(a + 1/2)]: halves go up. *)
Definition round (a : number) : number :=
  match a with
  | Fin x => Fin (IZR (Int_part (x + / 2)))
  | _ => a
  end.

(** [Math.log(a)] *)
Definition log (a : number) : number :=
  match a with
  | Fin x =>
      if Reqb x 0 then NInf
      else if Rltb x 0 then NaN
      else Fin (ln x)
  | PInf => PInf
  | NInf | NaN => NaN
  end.

(** [Math.sqrt(a)] *)
Definition sqrt (a : number) : number :=
  match a with
  | Fin x => if Rltb x 0 then NaN else Fin (R_sqrt.sqrt x)
  | PInf => PInf
  | NInf | NaN => NaN
  end.

(** [Math.sin(a)], [Math.cos(a)] *)
Definition sin (a : number) : number :=
  match a with Fin x => Fin (Rtrigo_def.sin x) | _ => NaN end.
Definition cos (a : number) : number :=
  match a with Fin x => Fin (Rtrigo_def.cos x) | _ => NaN end.

(** [Math.atan2] on two reals. *)
Definition Ratan2 (y x : R) : R :=
  if Rltb 0 x then atan (y / x)
  else if Rltb x 0 then
    (if Rltb y 0 then atan (y / x) - PI else atan (y / x) + PI)
  else if Rltb 0 y then PI / 2
  else if Rltb y 0 then - (PI / 2)
  else 0.

(** [Math.atan2(y, x)] *)
Definition atan2 (y x : number) : number :=
  match y, x with
  | NaN, _ | _, NaN => NaN
  | Fin b, Fin a => Fin (Ratan2 b a)
  | Fin b, PInf => Fin 0
  | Fin b, NInf => if Rltb b 0 then Fin (- PI) else Fin PI
  | PInf, Fin _ => Fin (PI / 2)
  | NInf, Fin _ => Fin (- (PI / 2))
  | PInf, PInf => Fin (PI / 4)
  | PInf, NInf => Fin (3 * PI / 4)
  | NInf, PInf => Fin (- (PI / 4))
  | NInf, NInf => Fin (- (3 * PI / 4))
  end.

(** [a ** 2] *)
Definition square (a : number) : number := mul a a.

Definition of_nat (n : nat) : number := Fin (INR n).

(** The number is a real (neither NaN nor infinite). *)
Definition is_finite (a : number) : bool :=
  match a with Fin _ => true | _ => false end.


End Num.

Export Num (number, Fin, PInf, NInf, NaN).

(** ** JavaScript strings *)

Module Str.

Definition chr (n : nat) : ascii := ascii_of_nat n.
Definition str1 (c : ascii) : string := String c EmptyString.

(** The characters the source names in its literals and patterns. *)
Definition bar : ascii := chr 124.
Definition apostrophe : ascii := chr 39.
Definition dquote : ascii := chr 34.
(** U+2022 (the bullet) and U+2026 (the ellipsis) in UTF-8. *)
Definition bullet : string := String (chr 226) (String (chr 128) (str1 (chr 162))).
Definition ellipsis : string := String (chr 226) (String (chr 128) (str1 (chr 166))).

Definition is_upper (c : ascii) : bool :=
  let n := nat_of_ascii c in (65 <=? n)%nat && (n <=? 90)%nat.
Definition is_digit (c : ascii) : bool :=
  let n := nat_of_ascii c in (48 <=? n)%nat && (n <=? 57)%nat.
Definition is_space (c : ascii) : bool :=
  let n := nat_of_ascii c in ((9 <=? n)%nat && (n <=? 13)%nat) || (n =? 32)%nat.

Definition lower (c : ascii) : ascii :=
  if is_upper c then chr (nat_of_ascii c + 32) else c.

(** [s.toLowerCase()] *)
Fixpoint toLowerCase (s : string) : string :=
  match s with
  | EmptyString => EmptyString
  | String c s' => String (lower c) (toLowerCase s')
  end.

(** [s.includes(sub)] *)
Fixpoint includes (s sub : string) : bool :=
  match s with
  | EmptyString => String.prefix sub EmptyString
  | String _ s' => String.prefix sub s || includes s' sub
  end.

(** A string is truthy when it is not empty. *)
Definition nonempty (s : string) : bool :=
  match s with EmptyString => false | String _ _ => true end.

Fixpoint trimStart (s : string) : string :=
  match s with
  | EmptyString => EmptyString
  | String c s' => if is_space c then trimStart s' else s
  end.

(** [s.trim()] *)
Definition trim (s : string) : string :=
  String.rev (trimStart (String.rev (trimStart s))).

(** [l.join(sep)] *)
Definition join (sep : string) (l : list string) : string := String.concat sep l.

(** [s.replace(/'/g, dquote)] *)
Fixpoint requote (s : string) : string :=
  match s with
  | EmptyString => EmptyString
  | String c s' =>
      String (if Ascii.eqb c apostrophe then dquote else c) (requote s')
  end.

(** [s.replace(/[^0-9]/g, '')] *)
Fixpoint digitsOnly (s : string) : string :=
  match s with
  | EmptyString => EmptyString
  | String c s' => if is_digit c then String c (digitsOnly s') else digitsOnly s'
  end.

(** The value of a string of decimal digits. *)
Fixpoint digitsValue (acc : N) (s : string) : N :=
  match s with
  | EmptyString => acc
  | String c s' => digitsValue (10 * acc + (N.of_nat (nat_of_ascii c) - 48))%N s'
  end.

(** [parseInt(s)] for a string of decimal digits: NaN on the empty one. *)
Definition parseIntDigits (s : string) : number :=
  match s with
  | EmptyString => NaN
  | _ => Fin (IZR (Z.of_N (digitsValue 0 s)))
  end.

Definition pushChar (c : ascii) (pieces : list string) : list string :=
  match pieces with
  | [] => [str1 c]
  | p :: ps => String c p :: ps
  end.

(** [s.split(/[•|]/)]: cut at every bar and at every bullet. *)
Fixpoint splitFacilities (s : string) : list string :=
  match s with
  | EmptyString => [EmptyString]
  | String c s1 =>
      if Ascii.eqb c bar then EmptyString :: splitFacilities s1
      else
        match s1 with
        | String c2 (String c3 s3) =>
            if Ascii.eqb c (chr 226) && Ascii.eqb c2 (chr 128) && Ascii.eqb c3 (chr 162)
            then EmptyString :: splitFacilities s3
            else pushChar c (splitFacilities s1)
        | _ => pushChar c (splitFacilities s1)
        end
  end.

(** [pattern] matches at the start of [s], ignoring case. *)
Definition startsWithCI (pattern s : string) : bool :=
  String.prefix (toLowerCase pattern) (toLowerCase s).

(** [s.match(/a1|a2|.../i)]: the text of the leftmost match, the earlier
    alternative winning at one position. *)
Fixpoint matchCI (alternatives : list string) (s : string) : option string :=
  match List.find (fun p => startsWithCI p s) alternatives with
  | Some p => Some (String.substring 0 (String.length p) s)
  | None =>
      match s with
      | EmptyString => None
      | String _ s' => matchCI alternatives s'
      end
  end.

Fixpoint noSpace (s : string) : bool :=
  match s with
  | EmptyString => true
  | String c s' => negb (is_space c) && noSpace s'
  end.

(** [s] is matched as a whole by [\s+\S*]. *)
Definition spacesThenWord (s : string) : bool :=
  match s with
  | String c _ => is_space c && noSpace (trimStart s)
  | EmptyString => false
  end.

(** [s.replace(/\s+\S*$/, '')]: cut at the leftmost place from which the
    rest is white space followed by at most one word. *)
Fixpoint dropLastWord (s : string) : string :=
  if spacesThenWord s then EmptyString
  else
    match s with
    | EmptyString => EmptyString
    | String c s' => String c (dropLastWord s')
    end.

(** [s.slice(0, n)] *)
Definition sliceTo (n : nat) (s : string) : string := String.substring 0 n s.

(** The default order of [Array.prototype.sort]: by code units. *)
Definition ltb (s1 s2 : string) : bool := String.ltb s1 s2.

(** The canonical decimal spelling of an array index ([0], or digits with
    no leading zero, below 2^32 - 1): such property names are enumerated
    first, in numeric order. *)
Definition allDigits (s : string) : bool :=
  nonempty s && String.eqb (digitsOnly s) s.
Definition arrayIndex (s : string) : option N :=
  if allDigits s
     && (String.eqb s (str1 (chr 48)) || negb (String.prefix (str1 (chr 48)) s))
     && (String.length s <=? 10)%nat
     && (digitsValue 0 s <? 4294967295)%N
  then Some (digitsValue 0 s)
  else None.

End Str.

(** ** JavaScript arrays and objects *)

Module Arr.

Section Sort.
Context {A : Type}.

(** A stable insertion sort; [after x y] tells that [x] must come after
    [y]. *)
Fixpoint insertBy (after : A -> A -> bool) (x : A) (l : list A) : list A :=
  match l with
  | [] => [x]
  | y :: l' => if after x y then y :: insertBy after x l' else x :: l
  end.

Fixpoint sortBy (after : A -> A -> bool) (l : list A) : list A :=
  match l with
  | [] => []
  | x :: l' => insertBy after x (sortBy after l')
  end.

(** [after comparator x y]: the comparator puts [x] after [y] (its value is
    > 0; a NaN value counts as 0). *)
Definition after (comparator : A -> A -> number) (x y : A) : bool :=
  Num.gt (comparator x y) Num.zero.

(** [l.sort(comparator)]: the stable sort ECMAScript prescribes. *)
Definition sort (comparator : A -> A -> number) (l : list A) : list A :=
  sortBy (after comparator) l.
End Sort.

(** [l.slice(0, n)] *)
Definition slice0 {A : Type} (n : nat) (l : list A) : list A := take n l.

(** [l.sort()] on strings: by code units. *)
Definition sortStrings (l : list string) : list string :=
  sortBy (fun a b => Str.ltb b a) l.

(** [[...new Set(l)]]: the first occurrence of each value, in order. *)
Fixpoint distinct (seen : gset string) (l : list string) : list string :=
  match l with
  | [] => []
  | x :: l' =>
      if decide (x ∈ seen) then distinct seen l'
      else x :: distinct ({[x]} ∪ seen) l'
  end.

End Arr.

(** The property names every object literal inherits from
    [Object.prototype]; each of them holds a function or an object, so it is
    truthy and is not an array. *)
Definition Object_prototype_keys : list string :=
  [ "constructor"; "__defineGetter__"; "__defineSetter__"; "hasOwnProperty";
    "__lookupGetter__"; "__lookupSetter__"; "isPrototypeOf";
    "propertyIsEnumerable"; "toString"; "valueOf"; "__proto__";
    "toLocaleString" ]%string.

(** What [table[key]] finds on an object literal. *)
Inductive property (A : Type) : Type :=
| Own (a : A)
| Inherited
| Missing.
Arguments Own {A} a.
Arguments Inherited {A}.
Arguments Missing {A}.

Fixpoint assoc {A : Type} (key : string) (table : list (string * A)) : option A :=
  match table with
  | [] => None
  | (k, v) :: table' => if String.eqb k key then Some v else assoc key table'
  end.

Definition getProperty {A : Type} (table : list (string * A)) (key : string) : property A :=
  match assoc key table with
  | Some v => Own v
  | None =>
      if existsb (String.eqb key) Object_prototype_keys then Inherited else Missing
  end.

(** A normal completion, or a thrown [TypeError]. *)
Inductive completion (A : Type) : Type :=
| Normal (a : A)
| Throw.
Arguments Normal {A} a.
Arguments Throw {A}.


Local Open Scope string_scope.
Local Open Scope list_scope.
Local Open Scope R_scope.

(** ** The data model *)

(** The fields of a raw row ([HotelData]) that the engine reads; the numeric
    ones were coerced by the loader ([parseFloat(value) || 0]).  A line cut
    short lacks its last columns: an absent text reads as the empty one
    wherever the engine guards the access, which it does for every column
    but the address, so the row tells whether it has one. *)
Module Raw.
Record HotelData : Type := {
  property_name : string;
  address : string;
  has_address : bool;
  city : string;
  country : string;
  hotel_facilities : string;
  hotel_star_rating : string;
  latitude : number;
  longitude : number;
  room_type : string;
  reviews_from_different_sites : string;
  price : number;
  top_positive_review : string;
  top_negative_review : string;
  average_rating : number;
  reviews_summary : string
}.
End Raw.

Record Coordinates : Type := { lat : number; lng : number }.

(** One platform's entry of [platformRatings]; a field that is absent or
    [null] in the parsed JSON is [None]. *)
Record PlatformRating : Type := {
  rating : option number;
  reviews_count : option number
}.

(** [Record<string, { rating, reviews_count }>] in property order; an entry
    that is [null] is [None]. *)
Definition PlatformRatings : Type := list (string * option PlatformRating).

Module Agg.
Record AggregatedHotel : Type := {
  name : string;
  address : string;
  city : string;
  country : string;
  averageScore : number;
  totalReviews : number;
  positiveWordCount : number;
  negativeWordCount : number;
  tags : list string;
  reviews : list string;
  confidenceScore : number;
  priceRange : number;
  coordinates : Coordinates;
  platformRatings : PlatformRatings;
  starRating : option number;
  roomType : option string;
  facilitiesBrief : string;
  reviewSummary : option string
}.
End Agg.
Export Agg (AggregatedHotel).

(** [{ ...hotel, finalScore }] *)
Record ScoredHotel : Type := {
  hotel : AggregatedHotel;
  finalScore : number
}.

Record CityStats : Type := {
  stats_name : string;
  hotelCount : number;
  avgRating : number
}.

Record Insights : Type := {
  totalAnalyzed : number;
  averageRating : number;
  topFeatures : list string;
  cityStats : CityStats
}.

Record RecommendationResult : Type := {
  hotels : list ScoredHotel;
  insights : Insights
}.

(** The [options] argument of [generateRecommendations]; an absent field is
    [None]. *)
Record Options : Type := {
  priceMin : option number;
  priceMax : option number;
  starRatings : option (list number);
  avgRatingMin : option number;
  avgRatingMax : option number;
  area : option string;
  extraRequirements : option string
}.

(** ** The outside world *)

Record FuseOptions : Type := {
  keys : list (string * R);
  threshold : R
}.

(** One hit of [fuse.search]: the matched element and its distance. *)
Record FuseResult : Type := {
  item : AggregatedHotel;
  refIndex : nat;
  score : option number
}.

(** One element of the geocoder's JSON array, its [lat] and [lon] already
    read by [parseFloat] (NaN when they do not parse). *)
Record GeoHit : Type := { hit_lat : number; hit_lon : number }.

Inductive GeoBody : Type :=
| BodyUnreadable                 (* [resp.json()] rejects *)
| BodyNull                       (* the body is [null] *)
| BodyHits (hits : list GeoHit).

Inductive FetchOutcome : Type :=
| NetworkError                   (* [fetch] rejects *)
| Response (ok : bool) (body : GeoBody).

Record World : Type := {
  (** the rows [Papa.parse] returns for the fetched table; [None] when the
      request or the parse fails *)
  fetchTable : option (list Raw.HotelData);
  (** [JSON.parse], its result read at the declared type; [None] when it
      throws *)
  JSON_parse : string -> option PlatformRatings;
  (** the draw of [Math.random()] made for the row of a given index *)
  Math_random : nat -> R;
  (** [new Fuse(list, options).search(query)] *)
  Fuse_search : FuseOptions -> list AggregatedHotel -> string -> list FuseResult;
  (** the response to the geocoding request for a query *)
  fetchGeocode : string -> FetchOutcome;
  (** the text an inherited property value takes in a template literal *)
  inheritedText : string -> string;
  (** [JSON.parse] returns [null] for the text *)
  JSON_null : string -> bool;
  (** the functions whose last bits ECMAScript leaves to the implementation *)
  Math_log : number -> number;
  Math_sin : number -> number;
  Math_cos : number -> number;
  Math_sqrt : number -> number;
  Math_atan2 : number -> number -> number;
  (** [base ** exponent] *)
  Math_pow : number -> number -> number
}.

(** The private state of the engine. *)
Record Engine : Type := {
  hotelData : list Raw.HotelData;
  aggregatedHotels : list AggregatedHotel;
  isInitialized : bool
}.

(** [new RecommendationEngine()] *)
Definition newEngine : Engine :=
  {| hotelData := []; aggregatedHotels := []; isInitialized := false |}.

(** ** The aggregator *)

Definition cityPatterns : list (list string) :=
  [ ["New Delhi"; "Delhi"]; ["Mumbai"]; ["Bangalore"]; ["Chennai"]; ["Kolkata"];
    ["Jaipur"]; ["Goa"]; ["Hyderabad"]; ["Pune"]; ["Agra"] ].

Fixpoint firstPatternMatch (patterns : list (list string)) (address : string) : option string :=
  match patterns with
  | [] => None
  | pattern :: rest =>
      match Str.matchCI pattern address with
      | Some m => Some m
      | None => firstPatternMatch rest address
      end
  end.

Definition extractCityFromAddress (address : string) : string :=
  match firstPatternMatch cityPatterns address with
  | Some m => if String.eqb (Str.toLowerCase m) "new delhi" then "Delhi" else m
  | None => "Delhi"
  end.

Definition calculateConfidenceScore
    (avgScore totalReviews positiveWords negativeWords : number) : number :=
  let reviewWeight := Num.div (Num.log (Num.add totalReviews (Fin 1))) (Fin 10) in
  let sentimentRatio :=
    Num.div positiveWords (Num.add (Num.add positiveWords negativeWords) (Fin 1)) in
  let baseScore := Num.div avgScore (Fin 10) in
  Num.min (Fin 100)
    (Num.round
       (Num.mul
          (Num.add
             (Num.add (Num.mul baseScore (Fin 0.5)) (Num.mul reviewWeight (Fin 0.3)))
             (Num.mul sentimentRatio (Fin 0.2)))
          (Fin 100))).

(** [Math.floor(Math.random() * width) + base] *)
Definition randomIn (u : R) (width base : R) : number :=
  Num.add (Num.floor (Num.mul (Fin u) (Fin width))) (Fin base).

Definition estimatePriceRange
    (u : R) (tags : list string) (avgScore : number) (address : string) : number :=
  let tagArray := Str.toLowerCase (Str.join " " tags) in
  let addressLower := Str.toLowerCase address in
  if Str.includes tagArray "luxury" || Str.includes tagArray "palace"
     || Str.includes tagArray "oberoi" || Str.includes tagArray "taj"
     || Str.includes addressLower "palace" || Num.gt avgScore (Fin 9.0)
  then randomIn u 3000 4000
  else if Str.includes tagArray "business" || Str.includes tagArray "spa"
          || Num.gt avgScore (Fin 8.5)
  then randomIn u 1000 2500
  else if Num.gt avgScore (Fin 7.5)
  then randomIn u 1000 1500
  else randomIn u 500 800.

Definition cityCoords : list (string * Coordinates) :=
  [ ("Delhi", {| lat := Fin 28.6139; lng := Fin 77.2090 |});
    ("Mumbai", {| lat := Fin 19.0760; lng := Fin 72.8777 |});
    ("Bangalore", {| lat := Fin 12.9716; lng := Fin 77.5946 |});
    ("Chennai", {| lat := Fin 13.0827; lng := Fin 80.2707 |});
    ("Kolkata", {| lat := Fin 22.5726; lng := Fin 88.3639 |});
    ("Jaipur", {| lat := Fin 26.9124; lng := Fin 75.7873 |});
    ("Goa", {| lat := Fin 15.2993; lng := Fin 74.1240 |});
    ("Hyderabad", {| lat := Fin 17.3850; lng := Fin 78.4867 |});
    ("Pune", {| lat := Fin 18.5204; lng := Fin 73.8567 |});
    ("Agra", {| lat := Fin 27.1767; lng := Fin 78.0081 |}) ].

(** [cityCoords[city] || cityCoords['Delhi']].  An inherited property is
    truthy and is returned as it is; its [lat] and [lng] are [undefined],
    which every later use turns into NaN. *)
Definition getCoordinatesForCity (city : string) : Coordinates :=
  match getProperty cityCoords city with
  | Own c => c
  | Inherited => {| lat := NaN; lng := NaN |}
  | Missing => {| lat := Fin 28.6139; lng := Fin 77.2090 |}
  end.

Definition getCoordinatesForRow (row : Raw.HotelData) (city : string) : Coordinates :=
  if Num.truthy (Raw.latitude row) && Num.truthy (Raw.longitude row)
  then {| lat := Raw.latitude row; lng := Raw.longitude row |}
  else getCoordinatesForCity city.

(** [x || 0] for a field that may be absent. *)
Definition orZero (x : option number) : number :=
  match x with
  | Some n => Num.or n (Fin 0)
  | None => Fin 0
  end.

(** [Object.values(platformRatings)] *)
Definition values (platformRatings : PlatformRatings) : list (option PlatformRating) :=
  map snd platformRatings.

(** [p?.reviews_count || 0] *)
Definition countOf (p : option PlatformRating) : number :=
  match p with
  | Some e => orZero (reviews_count e)
  | None => Fin 0
  end.

(** [Object.values(platformRatings).filter(Boolean)] *)
Definition entriesOf (platformRatings : PlatformRatings) : list PlatformRating :=
  omap (fun p : option PlatformRating => p) (values platformRatings).

Definition computeWeightedAverage (platformRatings : PlatformRatings) : number :=
  let entries := entriesOf platformRatings in
  if (length entries =? 0)%nat then Fin 0
  else
    let total :=
      fold_left
        (fun acc p => Num.add acc (Num.mul (orZero (rating p)) (orZero (reviews_count p))))
        entries (Fin 0) in
    let count :=
      fold_left (fun acc p => Num.add acc (orZero (reviews_count p))) entries (Fin 0) in
    if Num.truthy count then Num.div total count
    else
      Num.div
        (fold_left (fun a p => Num.add a (orZero (rating p))) entries (Fin 0))
        (Num.of_nat (length entries)).

Definition truncateSentence (text : string) : string :=
  if (String.length text <=? 140)%nat then text
  else Str.dropLastWord (Str.sliceTo 140 text) +:+ Str.ellipsis.

Definition buildSimpleReviewSummary (pos neg : string) : option string :=
  let p := Str.trim pos in
  let n := Str.trim neg in
  if negb (Str.nonempty p) && negb (Str.nonempty n) then None
  else
    let pros := if Str.nonempty p then "Guests appreciated " +:+ truncateSentence p else EmptyString in
    let cons := if Str.nonempty n then "Some mentioned " +:+ truncateSentence n else EmptyString in
    Some (Str.join ". " (List.filter Str.nonempty [pros; cons])
          +:+ (if Str.nonempty pros || Str.nonempty cons then "." else EmptyString)).

(** The trimmed, non-empty pieces of the facilities field. *)
Definition facilityTokens (facilities : string) : list string :=
  List.filter Str.nonempty (map Str.trim (Str.splitFacilities facilities)).

(** The rating table of a row: [reviews_summary] when it parses, else the
    requoted [reviews_from_different_sites], else the empty object. *)
Definition parsePlatformRatings (w : World) (row : Raw.HotelData) : PlatformRatings :=
  let raw := Str.trim (Raw.reviews_summary row) in
  if Str.nonempty raw then
    match JSON_parse w raw with
    | Some r => r
    | None =>
        match JSON_parse w (Str.requote (Raw.reviews_from_different_sites row)) with
        | Some r => r
        | None => []
        end
    end
  else [].

(** The callback of [this.hotelData.map] in [aggregateHotelData], for the row
    of index [i]. *)
Definition aggregateRow (w : World) (i : nat) (row : Raw.HotelData) : AggregatedHotel :=
  let name := Raw.property_name row in
  let address := Raw.address row in
  let city :=
    if Str.nonempty (Raw.city row) then Raw.city row else extractCityFromAddress address in
  let platformRatings := parsePlatformRatings w row in
  let totalReviews :=
    fold_left (fun s p => Num.add s (countOf p)) (values platformRatings) (Fin 0) in
  let avgScore := Num.or (Raw.average_rating row) (computeWeightedAverage platformRatings) in
  let tags :=
    if Str.nonempty (Raw.hotel_facilities row)
    then Arr.distinct ∅ (map Str.toLowerCase (facilityTokens (Raw.hotel_facilities row)))
    else [] in
  let reviews :=
    (if Str.nonempty (Raw.top_positive_review row)
     then [Str.trim (Raw.top_positive_review row)] else [])
    ++ (if Str.nonempty (Raw.top_negative_review row)
        then [Str.trim (Raw.top_negative_review row)] else []) in
  let confidenceScore := calculateConfidenceScore avgScore totalReviews (Fin 1) (Fin 0) in
  let priceRange :=
    if Num.truthy (Raw.price row) && Num.gt (Raw.price row) (Fin 0)
    then Raw.price row
    else estimatePriceRange (Math_random w i) tags avgScore address in
  let stars := Str.parseIntDigits (Str.digitsOnly (Raw.hotel_star_rating row)) in
  {| Agg.name := name;
     Agg.address := address;
     Agg.city := city;
     Agg.country := Raw.country row;
     Agg.averageScore := avgScore;
     Agg.totalReviews := totalReviews;
     Agg.positiveWordCount := Fin 1;
     Agg.negativeWordCount := Fin 0;
     Agg.tags := Arr.slice0 10 tags;
     Agg.reviews := reviews;
     Agg.confidenceScore := confidenceScore;
     Agg.priceRange := priceRange;
     Agg.coordinates := getCoordinatesForRow row city;
     Agg.platformRatings := platformRatings;
     Agg.starRating := if Num.truthy stars then Some stars else None;
     Agg.roomType := if Str.nonempty (Raw.room_type row) then Some (Raw.room_type row) else None;
     Agg.facilitiesBrief := Str.join ", " (Arr.slice0 6 (facilityTokens (Raw.hotel_facilities row)));
     Agg.reviewSummary :=
       buildSimpleReviewSummary (Raw.top_positive_review row) (Raw.top_negative_review row) |}.

Definition aggregateHotelData (w : World) (rows : list Raw.HotelData) : list AggregatedHotel :=
  imap (aggregateRow w) rows.

(** [loadHotelData]: the rows that have a name, or no row at all when the
    table cannot be loaded. *)
Definition loadHotelData (w : World) : list Raw.HotelData :=
  match fetchTable w with
  | Some rows => List.filter (fun d => Str.nonempty (Raw.property_name d)) rows
  | None => []
  end.

Definition initialize (w : World) (e : Engine) : Engine :=
  if isInitialized e then e
  else
    let rows := loadHotelData w in
    {| hotelData := rows;
       aggregatedHotels := aggregateHotelData w rows;
       isInitialized := true |}.

(** ** The filter pipeline *)

(** The key [`${h.name}|${h.address}`] of the merge. *)
Definition hotelKey (h : AggregatedHotel) : string :=
  Agg.name h +:+ "|" +:+ Agg.address h.

(** The [filter] that merges without repetition; [seen] is the object [map],
    which only ever holds [true] (no key of it is inherited: each contains a
    bar). *)
Fixpoint mergeUnique (seen : gset string) (l : list AggregatedHotel) : list AggregatedHotel :=
  match l with
  | [] => []
  | h :: l' =>
      if decide (hotelKey h ∈ seen) then mergeUnique seen l'
      else h :: mergeUnique ({[hotelKey h]} ∪ seen) l'
  end.

Definition byExact (all : list AggregatedHotel) (cityLower : string) : list AggregatedHotel :=
  List.filter (fun h => String.eqb (Str.toLowerCase (Agg.city h)) cityLower) all.

Definition byAddress (all : list AggregatedHotel) (cityLower : string) : list AggregatedHotel :=
  List.filter (fun h => Str.includes (Str.toLowerCase (Agg.address h)) cityLower) all.

(** [city && city !== 'all'] *)
Definition cityGiven (city : string) : bool :=
  Str.nonempty city && negb (String.eqb city "all").

(** The city stage of [generateRecommendations]. *)
Definition cityFilter (all : list AggregatedHotel) (city : string) : list AggregatedHotel :=
  if cityGiven city then
    let cityLower := Str.toLowerCase city in
    let candidateHotels := mergeUnique ∅ (byExact all cityLower ++ byAddress all cityLower) in
    if (length candidateHotels =? 0)%nat then all else candidateHotels
  else all.

Definition priceFilter (o : Options) (l : list AggregatedHotel) : list AggregatedHotel :=
  match priceMin o, priceMax o with
  | Some lo, Some hi =>
      List.filter (fun h => Num.ge (Agg.priceRange h) lo && Num.le (Agg.priceRange h) hi) l
  | _, _ => l
  end.

(** [h.starRating && set.has(h.starRating)] *)
Definition starMatches (stars : list number) (h : AggregatedHotel) : bool :=
  match Agg.starRating h with
  | Some s => Num.truthy s && existsb (Num.same_value_zero s) stars
  | None => false
  end.

Definition starFilter (o : Options) (l : list AggregatedHotel) : list AggregatedHotel :=
  match starRatings o with
  | Some (s :: stars) => List.filter (starMatches (s :: stars)) l
  | _ => l
  end.

Definition ratingMatches (lo hi : option number) (h : AggregatedHotel) : bool :=
  let val := Agg.averageScore h in
  match lo with
  | Some m => if Num.lt val m then false
              else match hi with Some M => negb (Num.gt val M) | None => true end
  | None => match hi with Some M => negb (Num.gt val M) | None => true end
  end.

Definition ratingFilter (o : Options) (l : list AggregatedHotel) : list AggregatedHotel :=
  match avgRatingMin o, avgRatingMax o with
  | None, None => l
  | lo, hi => List.filter (ratingMatches lo hi) l
  end.

(** [geocode]: the first hit, or [null] on any failure. *)
Definition geocode (w : World) (q : string) : option Coordinates :=
  match fetchGeocode w q with
  | NetworkError => None
  | Response false _ => None
  | Response true BodyUnreadable => None
  | Response true BodyNull => None
  | Response true (BodyHits []) => None
  | Response true (BodyHits (hit :: _)) => Some {| lat := hit_lat hit; lng := hit_lon hit |}
  end.

Definition toRad (deg : number) : number :=
  Num.div (Num.mul deg (Fin PI)) (Fin 180).

Definition haversineKm (lat1 lon1 lat2 lon2 : number) : number :=
  let R := Fin 6371 in
  let dLat := toRad (Num.sub lat2 lat1) in
  let dLon := toRad (Num.sub lon2 lon1) in
  let a :=
    Num.add
      (Num.square (Num.sin (Num.div dLat (Fin 2))))
      (Num.mul
         (Num.mul (Num.cos (toRad lat1)) (Num.cos (toRad lat2)))
         (Num.square (Num.sin (Num.div dLon (Fin 2))))) in
  let c := Num.mul (Fin 2) (Num.atan2 (Num.sqrt a) (Num.sqrt (Num.sub (Fin 1) a))) in
  Num.mul R c.

(** The distance of a candidate from the resolved point. *)
Definition distanceFrom (geo : Coordinates) (h : AggregatedHotel) : number :=
  haversineKm (lat geo) (lng geo) (lat (Agg.coordinates h)) (lng (Agg.coordinates h)).

(** [candidates.map(h => ({h, d})).sort((a, b) => a.d - b.d).map(x => x.h)] *)
Definition sortByDistance (geo : Coordinates) (l : list AggregatedHotel) : list AggregatedHotel :=
  map fst
    (Arr.sort (fun a b => Num.sub (snd a) (snd b))
       (map (fun h => (h, distanceFrom geo h)) l)).

Definition areaFuseOptions : FuseOptions :=
  {| keys := [("address", 0.7); ("city", 0.2); ("country", 0.1)]; threshold := 0.4 |}.

(** [area && area.trim()] *)
Definition areaGiven (o : Options) : option string :=
  match area o with
  | Some a => if Str.nonempty a && Str.nonempty (Str.trim a) then Some a else None
  | None => None
  end.

(** The area stage: the fuzzy matches when there are some, else the
    candidates ordered by distance when the area geocodes, else the
    candidates as they are. *)
Definition areaFilter (w : World) (o : Options) (city : string)
    (l : list AggregatedHotel) : list AggregatedHotel :=
  match areaGiven o with
  | Some a =>
      let areaResults := Fuse_search w areaFuseOptions l (Str.trim a) in
      if negb (length areaResults =? 0)%nat then map item areaResults
      else
        match geocode w (a +:+ ", " +:+ city) with
        | Some geo => sortByDistance geo l
        | None => l
        end
  | None => l
  end.

(** The stages that follow the city stage, when [options] is given. *)
Definition applyOptions (w : World) (options : option Options) (city : string)
    (l : list AggregatedHotel) : list AggregatedHotel :=
  match options with
  | Some o => areaFilter w o city (ratingFilter o (starFilter o (priceFilter o l)))
  | None => l
  end.

(** The candidates that reach the ranking. *)
Definition candidatesOf (w : World) (all : list AggregatedHotel) (city : string)
    (options : option Options) : list AggregatedHotel :=
  applyOptions w options city (cityFilter all city).

(** ** The fuzzy ranker *)

Definition personaQueries : list (string * string) :=
  [ ("Family", "family friendly kids children pool playground safe amenities");
    ("Business", "business meeting conference wifi executive professional");
    ("Luxury", "luxury premium spa fine dining exceptional service");
    ("Solo", "safe secure central location convenient transportation");
    ("Couple", "romantic intimate spa dining views peaceful quiet") ].

Definition buildSearchQuery (w : World) (persona : string) (preferences : list string) : string :=
  let baseQuery :=
    match getProperty personaQueries persona with
    | Own q => q
    | Inherited => inheritedText w persona
    | Missing => EmptyString
    end in
  let preferencesQuery := Str.join " " preferences in
  Str.trim (baseQuery +:+ " " +:+ preferencesQuery).

Definition bonusKeywords : list (string * list string) :=
  [ ("Family", ["family"; "kids"; "children"; "pool"; "playground"]);
    ("Business", ["business"; "meeting"; "conference"; "executive"; "wifi"]);
    ("Luxury", ["luxury"; "spa"; "fine"; "premium"; "exceptional"]);
    ("Solo", ["safe"; "secure"; "central"; "convenient"; "transport"]);
    ("Couple", ["romantic"; "intimate"; "peaceful"; "quiet"; "views"]) ].

(** The body of [keywords.forEach]: one more 0.02 for a keyword found. *)
Definition bonusStep (tags reviews : string) (bonus : number) (keyword : string) : number :=
  if Str.includes tags keyword || Str.includes reviews keyword
  then Num.add bonus (Fin 0.02)
  else bonus.

(** [getPersonaBonus].  For a persona that names an inherited property,
    [keywords] is not an array and [keywords.forEach] throws. *)
Definition getPersonaBonus (h : AggregatedHotel) (persona : string) : completion number :=
  let tags := Str.toLowerCase (Str.join " " (Agg.tags h)) in
  let reviews := Str.toLowerCase (Str.join " " (Agg.reviews h)) in
  match getProperty bonusKeywords persona with
  | Own keywords =>
      Normal (Num.min (fold_left (bonusStep tags reviews) keywords (Fin 0)) (Fin 0.1))
  | Missing =>
      Normal (Num.min (fold_left (bonusStep tags reviews) [] (Fin 0)) (Fin 0.1))
  | Inherited => Throw
  end.

(** [Math.min(1, Math.log(totalReviews + 1) / 8)] *)
Definition reviewConfidence (h : AggregatedHotel) : number :=
  Num.min (Fin 1) (Num.div (Num.log (Num.add (Agg.totalReviews h) (Fin 1))) (Fin 8)).

Definition calculateFinalScore (h : AggregatedHotel) (persona : string)
    (searchScore : number) : completion number :=
  let score := Fin 0 in
  let score := Num.add score (Num.mul (Num.div (Agg.averageScore h) (Fin 10)) (Fin 0.4)) in
  let score := Num.add score (Num.mul searchScore (Fin 0.3)) in
  let score := Num.add score (Num.mul (reviewConfidence h) (Fin 0.15)) in
  let sentimentRatio :=
    Num.div (Agg.positiveWordCount h)
      (Num.add (Num.add (Agg.positiveWordCount h) (Agg.negativeWordCount h)) (Fin 1)) in
  let score := Num.add score (Num.mul sentimentRatio (Fin 0.15)) in
  match getPersonaBonus h persona with
  | Normal bonus => Normal (Num.round (Num.mul (Num.add score bonus) (Fin 100)))
  | Throw => Throw
  end.

Definition rankFuseOptions : FuseOptions :=
  {| keys := [("tags", 0.4); ("reviews", 0.3); ("name", 0.2); ("address", 0.1)];
     threshold := 0.6 |}.

(** [1 - (result.score || 0)] *)
Definition searchScoreOf (r : FuseResult) : number :=
  Num.sub (Fin 1) (orZero (score r)).

(** The callback of [searchResults.map]. *)
Definition scoreResult (persona : string) (r : FuseResult) : completion ScoredHotel :=
  match calculateFinalScore (item r) persona (searchScoreOf r) with
  | Normal s => Normal {| hotel := item r; finalScore := s |}
  | Throw => Throw
  end.

(** [l.map(f)] for a callback that may throw: the first throw ends it. *)
Fixpoint mapThrowing {A B : Type} (f : A -> completion B) (l : list A) : completion (list B) :=
  match l with
  | [] => Normal []
  | x :: l' =>
      match f x with
      | Normal y =>
          match mapThrowing f l' with
          | Normal ys => Normal (y :: ys)
          | Throw => Throw
          end
      | Throw => Throw
      end
  end.

(** The callback of the fallback [candidateHotels.map]. *)
Definition popularityScore (h : AggregatedHotel) : ScoredHotel :=
  let popularity :=
    Num.add (Num.mul (Num.div (Agg.averageScore h) (Fin 10)) (Fin 0.7))
            (Num.mul (reviewConfidence h) (Fin 0.3)) in
  {| hotel := h; finalScore := Num.round (Num.mul popularity (Fin 100)) |}.

(** [scoredHotels] after the fallback test. *)
Definition withFallback (candidateHotels : list AggregatedHotel)
    (scoredHotels : list ScoredHotel) : list ScoredHotel :=
  if (length scoredHotels =? 0)%nat then map popularityScore candidateHotels
  else scoredHotels.

(** The comparator [(a, b) => b.finalScore - a.finalScore]. *)
Definition byScoreDescending (a b : ScoredHotel) : number :=
  Num.sub (finalScore b) (finalScore a).

(** [scoredHotels.sort((a, b) => b.finalScore - a.finalScore).slice(0, 5)] *)
Definition topHotels (scoredHotels : list ScoredHotel) : list ScoredHotel :=
  Arr.slice0 5 (Arr.sort byScoreDescending scoredHotels).

(** ** The insights *)

(** The value held for a tag in [tagCounts]: a count, or the string that
    [+ 1] makes of an inherited property value. *)
Inductive TagValue : Type :=
| Count (n : nat)
| Text.

(** [acc[tag] = (acc[tag] || 0) + 1] on an object kept in insertion order.
    Assigning a string to [__proto__] is ignored. *)
Fixpoint bump (tag : string) (acc : list (string * TagValue)) : list (string * TagValue) :=
  match acc with
  | [] =>
      if String.eqb tag "__proto__" then []
      else if existsb (String.eqb tag) Object_prototype_keys then [(tag, Text)]
      else [(tag, Count 1)]
  | (k, v) :: acc' =>
      if String.eqb k tag
      then (k, match v with Count n => Count (S n) | Text => Text end) :: acc'
      else (k, v) :: bump tag acc'
  end.

(** The comparator [([, a], [, b]) => b - a] puts the first entry after
    the second when [b - a > 0]: both values are counts and the second is
    the larger (with a string the difference is NaN). *)
Definition fewerThan (x y : string * TagValue) : bool :=
  match snd x, snd y with
  | Count a, Count b => (a <? b)%nat
  | _, _ => false
  end.

Definition isIndexKey (kv : string * TagValue) : bool :=
  match Str.arrayIndex (fst kv) with
  | Some _ => true
  | None => false
  end.

Definition indexAfter (x y : string * TagValue) : bool :=
  match Str.arrayIndex (fst x), Str.arrayIndex (fst y) with
  | Some i, Some j => (j <? i)%N
  | _, _ => false
  end.

(** [Object.entries]: the array-index names in numeric order, then the other
    names in insertion order. *)
Definition entries (acc : list (string * TagValue)) : list (string * TagValue) :=
  Arr.sortBy indexAfter (List.filter isIndexKey acc)
  ++ List.filter (fun kv => negb (isIndexKey kv)) acc.

Definition generateInsights (l : list AggregatedHotel) (city : string) : Insights :=
  let totalAnalyzed := Num.of_nat (length l) in
  let averageRating :=
    Num.div (fold_left (fun sum h => Num.add sum (Agg.averageScore h)) l (Fin 0))
            totalAnalyzed in
  let allTags := flat_map Agg.tags l in
  let tagCounts := fold_left (fun acc tag => bump tag acc) allTags [] in
  let topFeatures :=
    map fst
      (Arr.slice0 5 (Arr.sortBy fewerThan (entries tagCounts))) in
  let rounded := Num.div (Num.round (Num.mul averageRating (Fin 10))) (Fin 10) in
  {| totalAnalyzed := totalAnalyzed;
     averageRating := rounded;
     topFeatures := topFeatures;
     cityStats := {| stats_name := city; hotelCount := totalAnalyzed; avgRating := rounded |} |}.

(** ** The public methods *)

(** The search query of a request: the persona phrase, the preferences and
    the extra requirement. *)
Definition searchQueryOf (w : World) (persona : string) (preferences : list string)
    (options : option Options) : string :=
  let extra :=
    match options with
    | Some o =>
        match extraRequirements o with
        | Some x => if Str.nonempty x then [x] else []
        | None => []
        end
    | None => []
    end in
  buildSearchQuery w persona (preferences ++ extra).

(** [scoredHotels] as it reaches the sort: the scored fuzzy hits, or the
    candidates scored by popularity when there is no hit. *)
Definition scoredHotelsOf (w : World) (candidateHotels : list AggregatedHotel)
    (persona searchQuery : string) : completion (list ScoredHotel) :=
  let searchResults := Fuse_search w rankFuseOptions candidateHotels searchQuery in
  match mapThrowing (scoreResult persona) searchResults with
  | Normal scoredHotels => Normal (withFallback candidateHotels scoredHotels)
  | Throw => Throw
  end.

(** What [generateRecommendations] computes on an initialized collection. *)
Definition recommend (w : World) (all : list AggregatedHotel)
    (persona city : string) (preferences : list string) (options : option Options)
    : completion RecommendationResult :=
  let candidateHotels := candidatesOf w all city options in
  let searchQuery := searchQueryOf w persona preferences options in
  match scoredHotelsOf w candidateHotels persona searchQuery with
  | Normal scoredHotels =>
      Normal {| hotels := topHotels scoredHotels;
                insights := generateInsights candidateHotels city |}
  | Throw => Throw
  end.

Definition generateRecommendations (w : World) (e : Engine)
    (persona city : string) (preferences : list string) (options : option Options)
    : Engine * completion RecommendationResult :=
  let e' := initialize w e in
  (e', recommend w (aggregatedHotels e') persona city preferences options).

Definition searchHotelsByCity (w : World) (e : Engine) (city : string)
    : Engine * list AggregatedHotel :=
  let e' := initialize w e in
  (e',
   if negb (Str.nonempty city) || String.eqb city "all" then aggregatedHotels e'
   else
     List.filter
       (fun h => String.eqb (Str.toLowerCase (Agg.city h)) (Str.toLowerCase city))
       (aggregatedHotels e')).

Definition getAvailableCities (e : Engine) : Engine * list string :=
  (e, Arr.sortStrings (Arr.distinct ∅ (map Agg.city (aggregatedHotels e)))).
(** ** Binary64 arithmetic *)

(** The rounding of IEEE 754 binary64, to nearest with ties to even, as a
    function of the exact result; zero is unsigned. *)
Module Binary64.

(** [2^e] *)
Definition pow2 (e : Z) : R := powerRZ 2 e.

(** The binary exponent of a real that is not zero: the [k] with
    [2^k <= |x| < 2^(k+1)]. *)
Definition magnitude (x : R) : Z := Int_part (ln (Rabs x) / ln 2).

(** The exponent of the unit in the last place at [x]: 53 significant bits,
    and no unit below 2^-1074, that of the subnormal numbers. *)
Definition exponent (x : R) : Z := Z.max (magnitude x - 52) (-1074).

(** The nearest integer, the even one of two that are equally near. *)
Definition nearestEven (x : R) : Z :=
  let f := Int_part x in
  if Num.Rltb (x - IZR f) (/ 2) then f
  else if Num.Rltb (/ 2) (x - IZR f) then (f + 1)%Z
  else if Z.even f then f else (f + 1)%Z.

(** The nearest multiple of the unit in the last place. *)
Definition nearest (x : R) : R :=
  IZR (nearestEven (x / pow2 (exponent x))) * pow2 (exponent x).

(** The binary64 number a real rounds to: an infinity when the nearest
    multiple reaches 2^1024. *)
Definition round (x : R) : number :=
  if Num.Rltb (Rabs (nearest x)) (pow2 1024) then Fin (nearest x)
  else if Num.Rltb 0 x then PInf else NInf.

(** The real is a binary64 number: a multiple of a power of two from
    2^-1074 on, by an integer of at most 53 bits, below 2^1024. *)
Definition representable (x : R) : Prop :=
  exists m e : Z,
    x = IZR m * pow2 e /\ (Z.abs m <= 2 ^ 53)%Z /\ (-1074 <= e)%Z /\ Rabs x < pow2 1024.

(** The result of an operation, from its exact value. *)
Definition fl (a : number) : number :=
  match a with
  | Fin x => round x
  | _ => a
  end.

(** [a + b], [a - b], [a * b], [a / b] *)
Definition add (a b : number) : number := fl (Num.add a b).
Definition sub (a b : number) : number := fl (Num.sub a b).
Definition mul (a b : number) : number := fl (Num.mul a b).
Definition div (a b : number) : number := fl (Num.div a b).

(** A decimal literal of the source. *)
Definition lit (x : R) : number := round x.

(** [Math.log], [Math.sin], [Math.cos], [Math.sqrt] and [Math.atan2] of an
    implementation that rounds them correctly, and its [**], which the
    engine asks for squares only. *)
Definition log (a : number) : number := fl (Num.log a).
Definition sin (a : number) : number := fl (Num.sin a).
Definition cos (a : number) : number := fl (Num.cos a).
Definition sqrt (a : number) : number := fl (Num.sqrt a).
Definition atan2 (y x : number) : number := fl (Num.atan2 y x).
Definition pow (a b : number) : number :=
  if Num.eq b (Fin 2) then mul a a else NaN.

(** A number of the program is a binary64 number, an infinity or NaN. *)
Definition isDouble (a : number) : Prop :=
  match a with
  | Fin x => representable x
  | _ => True
  end.

(** The number is a real between two bounds. *)
Definition within (lo hi : R) (a : number) : Prop :=
  exists x : R, a = Fin x /\ lo <= x <= hi.

End Binary64.

(** * The engine in binary64 arithmetic

    The methods whose result depends on the rounding of the arithmetic or on
    a [TypeError] of the aggregation, given again: every operation rounds to
    binary64, the functions whose last bits ECMAScript leaves to the
    implementation ([Math.log], [Math.sin], [Math.cos], [Math.sqrt],
    [Math.atan2] and [**]) are read from the world, and the aggregation of a
    row throws where the source does.  [Math.round], [Math.floor],
    [Math.min] and the comparisons are exact on binary64 numbers and are
    those of [Num].  The methods that neither compute nor throw (the city
    stage, the price, star and rating filters, the search query, the
    listing) are those of the first part. *)
Module Double.

(** ** The aggregator *)

Definition computeWeightedAverage (platformRatings : PlatformRatings) : number :=
  let entries := entriesOf platformRatings in
  if (length entries =? 0)%nat then Fin 0
  else
    let total :=
      fold_left
        (fun acc p =>
           Binary64.add acc (Binary64.mul (orZero (rating p)) (orZero (reviews_count p))))
        entries (Fin 0) in
    let count :=
      fold_left (fun acc p => Binary64.add acc (orZero (reviews_count p))) entries (Fin 0) in
    if Num.truthy count then Binary64.div total count
    else
      Binary64.div
        (fold_left (fun a p => Binary64.add a (orZero (rating p))) entries (Fin 0))
        (Num.of_nat (length entries)).

Definition calculateConfidenceScore (w : World)
    (avgScore totalReviews positiveWords negativeWords : number) : number :=
  let reviewWeight :=
    Binary64.div (Math_log w (Binary64.add totalReviews (Fin 1))) (Fin 10) in
  let sentimentRatio :=
    Binary64.div positiveWords
      (Binary64.add (Binary64.add positiveWords negativeWords) (Fin 1)) in
  let baseScore := Binary64.div avgScore (Fin 10) in
  Num.min (Fin 100)
    (Num.round
       (Binary64.mul
          (Binary64.add
             (Binary64.add (Binary64.mul baseScore (Binary64.lit 0.5))
                           (Binary64.mul reviewWeight (Binary64.lit 0.3)))
             (Binary64.mul sentimentRatio (Binary64.lit 0.2)))
          (Fin 100))).

(** [Math.floor(Math.random() * width) + base] *)
Definition randomIn (u : R) (width base : R) : number :=
  Binary64.add (Num.floor (Binary64.mul (Fin u) (Fin width))) (Fin base).

Definition estimatePriceRange
    (u : R) (tags : list string) (avgScore : number) (address : string) : number :=
  let tagArray := Str.toLowerCase (Str.join " " tags) in
  let addressLower := Str.toLowerCase address in
  if Str.includes tagArray "luxury" || Str.includes tagArray "palace"
     || Str.includes tagArray "oberoi" || Str.includes tagArray "taj"
     || Str.includes addressLower "palace" || Num.gt avgScore (Fin 9)
  then randomIn u 3000 4000
  else if Str.includes tagArray "business" || Str.includes tagArray "spa"
          || Num.gt avgScore (Binary64.lit 8.5)
  then randomIn u 1000 2500
  else if Num.gt avgScore (Binary64.lit 7.5)
  then randomIn u 1000 1500
  else randomIn u 500 800.

(** What [platformRatings] holds after the parsing step: [None] when it is
    [null] ([JSON.parse] returned [null], which is not caught). *)
Definition parsePlatformRatings (w : World) (row : Raw.HotelData) : option PlatformRatings :=
  let raw := Str.trim (Raw.reviews_summary row) in
  if Str.nonempty raw then
    if JSON_null w raw then None
    else
      match JSON_parse w raw with
      | Some r => Some r
      | None =>
          let repaired := Str.requote (Raw.reviews_from_different_sites row) in
          if JSON_null w repaired then None
          else
            match JSON_parse w repaired with
            | Some r => Some r
            | None => Some []
            end
      end
  else Some [].

(** [parseInt(s)] for a string of decimal digits (of 20 digits at most;
    beyond, ECMAScript lets the implementation drop digits). *)
Definition parseIntDigits (s : string) : number :=
  match s with
  | EmptyString => NaN
  | _ => Binary64.round (IZR (Z.of_N (Str.digitsValue 0 s)))
  end.

(** The callback of [this.hotelData.map] in [aggregateHotelData], for the row
    of index [i].  It throws a [TypeError] on [address.match] and on
    [address.toLowerCase] when the row has no address, and on
    [Object.values(platformRatings)] when the ratings are [null].  A hotel
    made of a row without address (one that has a city and a price) has no
    address either; the empty text stands for it. *)
Definition aggregateRow (w : World) (i : nat) (row : Raw.HotelData)
    : completion AggregatedHotel :=
  let name := Raw.property_name row in
  let address := if Raw.has_address row then Raw.address row else EmptyString in
  if negb (Str.nonempty (Raw.city row)) && negb (Raw.has_address row) then Throw
  else
    let city :=
      if Str.nonempty (Raw.city row) then Raw.city row else extractCityFromAddress address in
    match parsePlatformRatings w row with
    | None => Throw
    | Some platformRatings =>
        let totalReviews :=
          fold_left (fun s p => Binary64.add s (countOf p)) (values platformRatings) (Fin 0) in
        let avgScore :=
          Num.or (Raw.average_rating row) (computeWeightedAverage platformRatings) in
        let tags :=
          if Str.nonempty (Raw.hotel_facilities row)
          then Arr.distinct ∅ (map Str.toLowerCase (facilityTokens (Raw.hotel_facilities row)))
          else [] in
        let reviews :=
          (if Str.nonempty (Raw.top_positive_review row)
           then [Str.trim (Raw.top_positive_review row)] else [])
          ++ (if Str.nonempty (Raw.top_negative_review row)
              then [Str.trim (Raw.top_negative_review row)] else []) in
        let confidenceScore :=
          calculateConfidenceScore w avgScore totalReviews (Fin 1) (Fin 0) in
        let priced := Num.truthy (Raw.price row) && Num.gt (Raw.price row) (Fin 0) in
        if negb priced && negb (Raw.has_address row) then Throw
        else
          let priceRange :=
            if priced then Raw.price row
            else estimatePriceRange (Math_random w i) tags avgScore address in
          let stars := parseIntDigits (Str.digitsOnly (Raw.hotel_star_rating row)) in
          Normal
            {| Agg.name := name;
               Agg.address := address;
               Agg.city := city;
               Agg.country := Raw.country row;
               Agg.averageScore := avgScore;
               Agg.totalReviews := totalReviews;
               Agg.positiveWordCount := Fin 1;
               Agg.negativeWordCount := Fin 0;
               Agg.tags := Arr.slice0 10 tags;
               Agg.reviews := reviews;
               Agg.confidenceScore := confidenceScore;
               Agg.priceRange := priceRange;
               Agg.coordinates := getCoordinatesForRow row city;
               Agg.platformRatings := platformRatings;
               Agg.starRating := if Num.truthy stars then Some stars else None;
               Agg.roomType :=
                 if Str.nonempty (Raw.room_type row) then Some (Raw.room_type row) else None;
               Agg.facilitiesBrief :=
                 Str.join ", " (Arr.slice0 6 (facilityTokens (Raw.hotel_facilities row)));
               Agg.reviewSummary :=
                 buildSimpleReviewSummary (Raw.top_positive_review row)
                   (Raw.top_negative_review row) |}
    end.

(** [rows.map(callback)] from the index [i] on: the first row that throws
    ends it. *)
Fixpoint aggregateFrom (w : World) (i : nat) (rows : list Raw.HotelData)
    : completion (list AggregatedHotel) :=
  match rows with
  | [] => Normal []
  | row :: rest =>
      match aggregateRow w i row with
      | Normal h =>
          match aggregateFrom w (S i) rest with
          | Normal hs => Normal (h :: hs)
          | Throw => Throw
          end
      | Throw => Throw
      end
  end.

Definition aggregateHotelData (w : World) (rows : list Raw.HotelData)
    : completion (list AggregatedHotel) :=
  aggregateFrom w 0 rows.

(** [initialize]: the engine it leaves, and whether it returns or rethrows.
    When the aggregation throws, the rows are loaded, the collection is as
    it was and the engine is not marked initialized. *)
Definition initialize (w : World) (e : Engine) : Engine * completion unit :=
  if isInitialized e then (e, Normal tt)
  else
    let rows := loadHotelData w in
    match aggregateHotelData w rows with
    | Normal hotels =>
        ({| hotelData := rows; aggregatedHotels := hotels; isInitialized := true |},
         Normal tt)
    | Throw =>
        ({| hotelData := rows; aggregatedHotels := aggregatedHotels e;
            isInitialized := false |},
         Throw)
    end.

(** ** The area stage *)

Definition toRad (deg : number) : number :=
  Binary64.div (Binary64.mul deg (Binary64.lit PI)) (Fin 180).

Definition haversineKm (w : World) (lat1 lon1 lat2 lon2 : number) : number :=
  let R := Fin 6371 in
  let dLat := toRad (Binary64.sub lat2 lat1) in
  let dLon := toRad (Binary64.sub lon2 lon1) in
  let a :=
    Binary64.add
      (Math_pow w (Math_sin w (Binary64.div dLat (Fin 2))) (Fin 2))
      (Binary64.mul
         (Binary64.mul (Math_cos w (toRad lat1)) (Math_cos w (toRad lat2)))
         (Math_pow w (Math_sin w (Binary64.div dLon (Fin 2))) (Fin 2))) in
  let c :=
    Binary64.mul (Fin 2)
      (Math_atan2 w (Math_sqrt w a) (Math_sqrt w (Binary64.sub (Fin 1) a))) in
  Binary64.mul R c.

(** The distance of a candidate from the resolved point. *)
Definition distanceFrom (w : World) (geo : Coordinates) (h : AggregatedHotel) : number :=
  haversineKm w (lat geo) (lng geo) (lat (Agg.coordinates h)) (lng (Agg.coordinates h)).

(** [candidates.map(h => ({h, d})).sort((a, b) => a.d - b.d).map(x => x.h)] *)
Definition sortByDistance (w : World) (geo : Coordinates) (l : list AggregatedHotel)
    : list AggregatedHotel :=
  map fst
    (Arr.sort (fun a b => Binary64.sub (snd a) (snd b))
       (map (fun h => (h, distanceFrom w geo h)) l)).

(** The area stage: the fuzzy matches when there are some, else the
    candidates ordered by distance when the area geocodes, else the
    candidates as they are. *)
Definition areaFilter (w : World) (o : Options) (city : string)
    (l : list AggregatedHotel) : list AggregatedHotel :=
  match areaGiven o with
  | Some a =>
      let areaResults := Fuse_search w areaFuseOptions l (Str.trim a) in
      if negb (length areaResults =? 0)%nat then map item areaResults
      else
        match geocode w (a +:+ ", " +:+ city) with
        | Some geo => sortByDistance w geo l
        | None => l
        end
  | None => l
  end.

Definition applyOptions (w : World) (options : option Options) (city : string)
    (l : list AggregatedHotel) : list AggregatedHotel :=
  match options with
  | Some o => areaFilter w o city (ratingFilter o (starFilter o (priceFilter o l)))
  | None => l
  end.

(** The candidates that reach the ranking. *)
Definition candidatesOf (w : World) (all : list AggregatedHotel) (city : string)
    (options : option Options) : list AggregatedHotel :=
  applyOptions w options city (cityFilter all city).

(** ** The fuzzy ranker *)

(** The body of [keywords.forEach]: one more 0.02 for a keyword found. *)
Definition bonusStep (tags reviews : string) (bonus : number) (keyword : string) : number :=
  if Str.includes tags keyword || Str.includes reviews keyword
  then Binary64.add bonus (Binary64.lit 0.02)
  else bonus.

Definition getPersonaBonus (h : AggregatedHotel) (persona : string) : completion number :=
  let tags := Str.toLowerCase (Str.join " " (Agg.tags h)) in
  let reviews := Str.toLowerCase (Str.join " " (Agg.reviews h)) in
  match getProperty bonusKeywords persona with
  | Own keywords =>
      Normal (Num.min (fold_left (bonusStep tags reviews) keywords (Fin 0)) (Binary64.lit 0.1))
  | Missing =>
      Normal (Num.min (fold_left (bonusStep tags reviews) [] (Fin 0)) (Binary64.lit 0.1))
  | Inherited => Throw
  end.

(** [Math.min(1, Math.log(totalReviews + 1) / 8)] *)
Definition reviewConfidence (w : World) (h : AggregatedHotel) : number :=
  Num.min (Fin 1)
    (Binary64.div (Math_log w (Binary64.add (Agg.totalReviews h) (Fin 1))) (Fin 8)).

Definition calculateFinalScore (w : World) (h : AggregatedHotel) (persona : string)
    (searchScore : number) : completion number :=
  let score := Fin 0 in
  let score :=
    Binary64.add score
      (Binary64.mul (Binary64.div (Agg.averageScore h) (Fin 10)) (Binary64.lit 0.4)) in
  let score := Binary64.add score (Binary64.mul searchScore (Binary64.lit 0.3)) in
  let score :=
    Binary64.add score (Binary64.mul (reviewConfidence w h) (Binary64.lit 0.15)) in
  let sentimentRatio :=
    Binary64.div (Agg.positiveWordCount h)
      (Binary64.add (Binary64.add (Agg.positiveWordCount h) (Agg.negativeWordCount h))
         (Fin 1)) in
  let score := Binary64.add score (Binary64.mul sentimentRatio (Binary64.lit 0.15)) in
  match getPersonaBonus h persona with
  | Normal bonus => Normal (Num.round (Binary64.mul (Binary64.add score bonus) (Fin 100)))
  | Throw => Throw
  end.

(** [1 - (result.score || 0)] *)
Definition searchScoreOf (r : FuseResult) : number :=
  Binary64.sub (Fin 1) (orZero (score r)).

(** The callback of [searchResults.map]. *)
Definition scoreResult (w : World) (persona : string) (r : FuseResult)
    : completion ScoredHotel :=
  match calculateFinalScore w (item r) persona (searchScoreOf r) with
  | Normal s => Normal {| hotel := item r; finalScore := s |}
  | Throw => Throw
  end.

(** The callback of the fallback [candidateHotels.map]. *)
Definition popularityScore (w : World) (h : AggregatedHotel) : ScoredHotel :=
  let popularity :=
    Binary64.add
      (Binary64.mul (Binary64.div (Agg.averageScore h) (Fin 10)) (Binary64.lit 0.7))
      (Binary64.mul (reviewConfidence w h) (Binary64.lit 0.3)) in
  {| hotel := h; finalScore := Num.round (Binary64.mul popularity (Fin 100)) |}.

(** [scoredHotels] after the fallback test. *)
Definition withFallback (w : World) (candidateHotels : list AggregatedHotel)
    (scoredHotels : list ScoredHotel) : list ScoredHotel :=
  if (length scoredHotels =? 0)%nat then map (popularityScore w) candidateHotels
  else scoredHotels.

(** The comparator [(a, b) => b.finalScore - a.finalScore]. *)
Definition byScoreDescending (a b : ScoredHotel) : number :=
  Binary64.sub (finalScore b) (finalScore a).

(** [scoredHotels.sort((a, b) => b.finalScore - a.finalScore).slice(0, 5)] *)
Definition topHotels (scoredHotels : list ScoredHotel) : list ScoredHotel :=
  Arr.slice0 5 (Arr.sort byScoreDescending scoredHotels).

(** ** The insights *)

Definition generateInsights (l : list AggregatedHotel) (city : string) : Insights :=
  let totalAnalyzed := Num.of_nat (length l) in
  let averageRating :=
    Binary64.div (fold_left (fun sum h => Binary64.add sum (Agg.averageScore h)) l (Fin 0))
                 totalAnalyzed in
  let allTags := flat_map Agg.tags l in
  let tagCounts := fold_left (fun acc tag => bump tag acc) allTags [] in
  let topFeatures :=
    map fst
      (Arr.slice0 5 (Arr.sortBy fewerThan (entries tagCounts))) in
  let rounded :=
    Binary64.div (Num.round (Binary64.mul averageRating (Fin 10))) (Fin 10) in
  {| totalAnalyzed := totalAnalyzed;
     averageRating := rounded;
     topFeatures := topFeatures;
     cityStats := {| stats_name := city; hotelCount := totalAnalyzed; avgRating := rounded |} |}.

(** ** The public methods *)

(** [scoredHotels] as it reaches the sort: the scored fuzzy hits, or the
    candidates scored by popularity when there is no hit. *)
Definition scoredHotelsOf (w : World) (candidateHotels : list AggregatedHotel)
    (persona searchQuery : string) : completion (list ScoredHotel) :=
  let searchResults := Fuse_search w rankFuseOptions candidateHotels searchQuery in
  match mapThrowing (scoreResult w persona) searchResults with
  | Normal scoredHotels => Normal (withFallback w candidateHotels scoredHotels)
  | Throw => Throw
  end.

(** What [generateRecommendations] computes on an initialized collection. *)
Definition recommend (w : World) (all : list AggregatedHotel)
    (persona city : string) (preferences : list string) (options : option Options)
    : completion RecommendationResult :=
  let candidateHotels := candidatesOf w all city options in
  let searchQuery := searchQueryOf w persona preferences options in
  match scoredHotelsOf w candidateHotels persona searchQuery with
  | Normal scoredHotels =>
      Normal {| hotels := topHotels scoredHotels;
                insights := generateInsights candidateHotels city |}
  | Throw => Throw
  end.

(** A call that finds the engine uninitialized initializes it first, and
    rejects when the initialization throws. *)
Definition generateRecommendations (w : World) (e : Engine)
    (persona city : string) (preferences : list string) (options : option Options)
    : Engine * completion RecommendationResult :=
  match initialize w e with
  | (e', Normal _) =>
      (e', recommend w (aggregatedHotels e') persona city preferences options)
  | (e', Throw) => (e', Throw)
  end.

Definition searchHotelsByCity (w : World) (e : Engine) (city : string)
    : Engine * completion (list AggregatedHotel) :=
  match initialize w e with
  | (e', Normal _) =>
      (e',
       Normal
         (if negb (Str.nonempty city) || String.eqb city "all" then aggregatedHotels e'
          else
            List.filter
              (fun h => String.eqb (Str.toLowerCase (Agg.city h)) (Str.toLowerCase city))
              (aggregatedHotels e')))
  | (e', Throw) => (e', Throw)
  end.

End Double.

(** ** The engine on a heap

    The methods again, with the arrays and the hotel records as cells of a
    heap that are shared by reference: [filter], [map], [slice] and the
    spread allocate, [sort] writes the array it is called on.  A computation
    is stuck ([None]) on a reference that does not hold what is read from
    it, which does not happen from a well-formed heap. *)

Module Shared.

(** References are natural numbers. *)
Abbreviation loc := nat (only parsing).

Inductive Cell : Type :=
| HotelObj (h : AggregatedHotel) (finalScore : option number)
    (* a hotel record; [finalScore] is set on a scored copy only *)
| PairObj (h : loc) (d : number)
    (* the record [{ h, d }] of the distance sort *)
| ArrayObj (elems : list loc).

Abbreviation Heap := (gmap nat Cell) (only parsing).

(** *** Reading *)

Definition arrayAt (σ : Heap) (a : loc) : option (list loc) :=
  match σ !! a with
  | Some (ArrayObj elems) => Some elems
  | _ => None
  end.

Definition hotelAt (σ : Heap) (l : loc) : option (loc * AggregatedHotel) :=
  match σ !! l with
  | Some (HotelObj h _) => Some (l, h)
  | _ => None
  end.

Definition scoredAt (σ : Heap) (l : loc) : option (loc * ScoredHotel) :=
  match σ !! l with
  | Some (HotelObj h (Some s)) => Some (l, {| hotel := h; finalScore := s |})
  | _ => None
  end.

Definition pairAt (σ : Heap) (l : loc) : option (loc * (loc * number)) :=
  match σ !! l with
  | Some (PairObj h d) => Some (l, (h, d))
  | _ => None
  end.

(** The elements of the array at [a], each read by [read], with their
    references. *)
Definition elementsAt {A : Type} (read : Heap -> loc -> option (loc * A))
    (σ : Heap) (a : loc) : option (list (loc * A)) :=
  match arrayAt σ a with
  | Some elems => mapM (read σ) elems
  | None => None
  end.

Definition hotelsAt : Heap -> loc -> option (list (loc * AggregatedHotel)) :=
  elementsAt hotelAt.
Definition scoredHotelsAt : Heap -> loc -> option (list (loc * ScoredHotel)) :=
  elementsAt scoredAt.
Definition pairsAt : Heap -> loc -> option (list (loc * (loc * number))) :=
  elementsAt pairAt.

(** *** Computations on the heap *)

Definition M (A : Type) : Type := Heap -> option (A * Heap).

Definition ret {A : Type} (a : A) : M A := fun σ => Some (a, σ).

Definition bind {A B : Type} (m : M A) (k : A -> M B) : M B :=
  fun σ =>
    match m σ with
    | Some (a, σ') => k a σ'
    | None => None
    end.

Notation "'let!' x ':=' m 'in' k" := (bind m (fun x => k))
  (at level 10, x name, m at level 100, k at level 200).

(** Read something from the heap. *)
Definition get {A : Type} (view : Heap -> option A) : M A :=
  fun σ =>
    match view σ with
    | Some a => Some (a, σ)
    | None => None
    end.

(** Allocate a cell at a fresh reference. *)
Definition alloc (c : Cell) : M loc :=
  fun σ => let l := fresh (dom σ) in Some (l, <[l := c]> σ).

Fixpoint allocAll (cells : list Cell) : M (list loc) :=
  match cells with
  | [] => ret []
  | c :: cells' =>
      let! l := alloc c in
      let! ls := allocAll cells' in
      ret (l :: ls)
  end.

(** A new array of the given elements. *)
Definition newArray (elems : list loc) : M loc := alloc (ArrayObj elems).

(** Overwrite the elements of an existing array. *)
Definition setArray (a : loc) (elems : list loc) : M unit :=
  fun σ =>
    match arrayAt σ a with
    | Some _ => Some (tt, <[a := ArrayObj elems]> σ)
    | None => None
    end.

(** *** Array methods *)

(** [a.filter(h => p(h))] *)
Definition filterH (p : AggregatedHotel -> bool) (a : loc) : M loc :=
  let! lh := get (fun σ => hotelsAt σ a) in
  newArray (map fst (List.filter (fun x => p (snd x)) lh)).

(** [[...a, ...b]] *)
Definition concatH (a b : loc) : M loc :=
  let! ea := get (fun σ => arrayAt σ a) in
  let! eb := get (fun σ => arrayAt σ b) in
  newArray (ea ++ eb).

(** [mergeUnique] on elements that carry their reference. *)
Fixpoint mergeUniqueRefs (seen : gset string) (l : list (loc * AggregatedHotel))
    : list (loc * AggregatedHotel) :=
  match l with
  | [] => []
  | x :: l' =>
      if decide (hotelKey (snd x) ∈ seen) then mergeUniqueRefs seen l'
      else x :: mergeUniqueRefs ({[hotelKey (snd x)]} ∪ seen) l'
  end.

(** The [filter] of the merge. *)
Definition mergeUniqueH (a : loc) : M loc :=
  let! lh := get (fun σ => hotelsAt σ a) in
  newArray (map fst (mergeUniqueRefs ∅ lh)).

(** [a.length] *)
Definition lengthH (a : loc) : M nat :=
  let! e := get (fun σ => arrayAt σ a) in ret (length e).

(** [a.slice(0, n)] *)
Definition sliceH (n : nat) (a : loc) : M loc :=
  let! e := get (fun σ => arrayAt σ a) in newArray (Arr.slice0 n e).

(** [a.sort(comparator)] in place, on an array of elements read by [read]. *)
Definition sortH {A : Type} (read : Heap -> loc -> option (loc * A))
    (comparator : A -> A -> number) (a : loc) : M unit :=
  let! ls := get (fun σ => elementsAt read σ a) in
  setArray a (map fst (Arr.sort (fun x y => comparator (snd x) (snd y)) ls)).

(** [a.sort((x, y) => y.finalScore - x.finalScore)] *)
Definition sortScoredH (a : loc) : M unit := sortH scoredAt byScoreDescending a.

(** [a.sort((x, y) => x.d - y.d)] *)
Definition sortPairsH (a : loc) : M unit :=
  sortH pairAt (fun x y => Num.sub (snd x) (snd y)) a.

(** *** The stages *)

Definition cityFilterH (all : loc) (city : string) : M loc :=
  if cityGiven city then
    let cityLower := Str.toLowerCase city in
    let! byExact :=
      filterH (fun h => String.eqb (Str.toLowerCase (Agg.city h)) cityLower) all in
    let! byAddress :=
      filterH (fun h => Str.includes (Str.toLowerCase (Agg.address h)) cityLower) all in
    let! spread := concatH byExact byAddress in
    let! candidateHotels := mergeUniqueH spread in
    let! n := lengthH candidateHotels in
    if (n =? 0)%nat then ret all else ret candidateHotels
  else ret all.

Definition priceFilterH (o : Options) (a : loc) : M loc :=
  match priceMin o, priceMax o with
  | Some lo, Some hi =>
      filterH (fun h => Num.ge (Agg.priceRange h) lo && Num.le (Agg.priceRange h) hi) a
  | _, _ => ret a
  end.

Definition starFilterH (o : Options) (a : loc) : M loc :=
  match starRatings o with
  | Some (s :: stars) => filterH (starMatches (s :: stars)) a
  | _ => ret a
  end.

Definition ratingFilterH (o : Options) (a : loc) : M loc :=
  match avgRatingMin o, avgRatingMax o with
  | None, None => ret a
  | lo, hi => filterH (ratingMatches lo hi) a
  end.

(** [new Fuse(a, options).search(q)]: each hit with the reference of its
    item, which is the element of index [refIndex]. *)
Definition searchH (w : World) (opts : FuseOptions) (a : loc) (q : string)
    : M (list (loc * FuseResult)) :=
  let! lh := get (fun σ => hotelsAt σ a) in
  get (fun _ =>
         mapM (fun r => (fun x => (fst x, r)) <$> lh !! refIndex r)
              (Fuse_search w opts (map snd lh) q)).

(** [a.map(h => ({ h, d })).sort((x, y) => x.d - y.d).map(x => x.h)] *)
Definition sortByDistanceH (geo : Coordinates) (a : loc) : M loc :=
  let! lh := get (fun σ => hotelsAt σ a) in
  let! records := allocAll (map (fun x => PairObj (fst x) (distanceFrom geo (snd x))) lh) in
  let! decorated := newArray records in
  let! sorted := sortPairsH decorated in
  let! ps := get (fun σ => pairsAt σ decorated) in
  newArray (map (fun p => fst (snd p)) ps).

Definition areaFilterH (w : World) (o : Options) (city : string) (a : loc) : M loc :=
  match areaGiven o with
  | Some ar =>
      let! areaResults := searchH w areaFuseOptions a (Str.trim ar) in
      if negb (length areaResults =? 0)%nat then newArray (map fst areaResults)
      else
        match geocode w (ar +:+ ", " +:+ city) with
        | Some geo => sortByDistanceH geo a
        | None => ret a
        end
  | None => ret a
  end.

Definition applyOptionsH (w : World) (options : option Options) (city : string)
    (a : loc) : M loc :=
  match options with
  | Some o =>
      let! a1 := priceFilterH o a in
      let! a2 := starFilterH o a1 in
      let! a3 := ratingFilterH o a2 in
      areaFilterH w o city a3
  | None => ret a
  end.

(** The scored copy [{ ...hotel, finalScore }] of a hit, as a cell. *)
Definition scoredCopy (persona : string) (x : AggregatedHotel * FuseResult)
    : completion Cell :=
  match calculateFinalScore (fst x) persona (searchScoreOf (snd x)) with
  | Normal s => Normal (HotelObj (fst x) (Some s))
  | Throw => Throw
  end.

(** [searchResults.map(result => ({ ...result.item, finalScore }))] *)
Definition scoreHitsH (persona : string) (hits : list (loc * FuseResult))
    : M (completion loc) :=
  let! items := get (fun σ => mapM (fun x => (fun y => (snd y, snd x)) <$> hotelAt σ (fst x)) hits) in
  match mapThrowing (scoredCopy persona) items with
  | Normal cells =>
      let! copies := allocAll cells in
      let! scoredHotels := newArray copies in
      ret (Normal scoredHotels)
  | Throw => ret Throw
  end.

(** [candidateHotels.map(hotel => ({ ...hotel, finalScore }))] of the
    fallback. *)
Definition scoreByPopularityH (candidateHotels : loc) : M loc :=
  let! lh := get (fun σ => hotelsAt σ candidateHotels) in
  let! copies :=
    allocAll
      (map (fun x => HotelObj (snd x) (Some (finalScore (popularityScore (snd x))))) lh) in
  newArray copies.

(** What [generateRecommendations] does on an initialized engine whose
    collection is the array at [all]: the reference of the array of the top
    hotels, and the insights. *)
Definition recommendH (w : World) (all : loc)
    (persona city : string) (preferences : list string) (options : option Options)
    : M (completion (loc * Insights)) :=
  let! afterCity := cityFilterH all city in
  let! candidateHotels := applyOptionsH w options city afterCity in
  let searchQuery := searchQueryOf w persona preferences options in
  let! searchResults := searchH w rankFuseOptions candidateHotels searchQuery in
  let! scored := scoreHitsH persona searchResults in
  match scored with
  | Normal scoredHotels =>
      let! n := lengthH scoredHotels in
      let! scoredHotels :=
        (if (n =? 0)%nat then scoreByPopularityH candidateHotels else ret scoredHotels) in
      let! sorted := sortScoredH scoredHotels in
      let! topHotels := sliceH 5 scoredHotels in
      let! lh := get (fun σ => hotelsAt σ candidateHotels) in
      ret (Normal (topHotels, generateInsights (map snd lh) city))
  | Throw => ret Throw
  end.

(** The fields of [this]: the collection is held by reference. *)
Record EngineRef : Type := {
  hotelDataRef : list Raw.HotelData;
  aggregatedRef : loc;
  initializedRef : bool
}.

(** [initialize]: the aggregated records and their array are allocated on
    the first call only. *)
Definition initializeH (w : World) (e : EngineRef) : M EngineRef :=
  if initializedRef e then ret e
  else
    let rows := loadHotelData w in
    let! records := allocAll (map (fun h => HotelObj h None) (aggregateHotelData w rows)) in
    let! collection := newArray records in
    ret {| hotelDataRef := rows; aggregatedRef := collection; initializedRef := true |}.

Definition generateRecommendationsH (w : World) (e : EngineRef)
    (persona city : string) (preferences : list string) (options : option Options)
    : M (EngineRef * completion (loc * Insights)) :=
  let! e' := initializeH w e in
  let! r := recommendH w (aggregatedRef e') persona city preferences options in
  ret (e', r).

(** One request: the world it runs in and its arguments. *)
Record Request : Type := {
  world : World;
  persona : string;
  city : string;
  preferences : list string;
  options : option Options
}.

(** A sequence of requests on one engine. *)
Fixpoint serve (requests : list Request) (e : EngineRef) : M EngineRef :=
  match requests with
  | [] => ret e
  | r :: rest =>
      let! x := generateRecommendationsH (world r) e (persona r) (city r) (preferences r) (options r) in
      serve rest (fst x)
  end.

(** The collection of the engine is an array of hotel records. *)
Definition wellFormed (σ : Heap) (e : EngineRef) : Prop :=
  exists lh, hotelsAt σ (aggregatedRef e) = Some lh.

(** Fuse.js returns, as the item of a hit, the element of the searched list
    that has the index [refIndex]. *)
Definition fuseItems (w : World) : Prop :=
  forall opts l q r,
    In r (Fuse_search w opts l q) -> l !! refIndex r = Some (item r).

End Shared.

(** ** Vocabulary of the heap statements *)

Module SharedSpec.
Import Shared.

(** The computation runs from [σ] and ends in a result and a heap that
    satisfy [Q], every cell of [σ0] being still there, unchanged. *)
Definition runsOver (σ0 : Heap) {A : Type} (m : M A) (σ : Heap)
    (Q : A -> Heap -> Prop) : Prop :=
  exists (a : A) (σ' : Heap), m σ = Some (a, σ') /\ σ0 ⊆ σ' /\ Q a σ'.

(** The same, over the heap it starts from: the computation only allocates,
    or writes what it has allocated. *)
Definition runs {A : Type} (m : M A) (σ : Heap) (Q : A -> Heap -> Prop) : Prop :=
  runsOver σ m σ Q.

(** The array at [a] holds references to hotel records whose values are
    the list [l]. *)
Definition holds (σ : Heap) (a : loc) (l : list AggregatedHotel) : Prop :=
  exists lh, hotelsAt σ a = Some lh /\ map snd lh = l.

(** The array at [a] holds references to scored copies whose values are
    the list [l], none of which is a cell of [σ0]. *)
Definition holdsCopies (σ0 σ : Heap) (a : loc) (l : list ScoredHotel) : Prop :=
  exists ls, scoredHotelsAt σ a = Some ls /\ map snd ls = l
             /\ List.Forall (fun x => σ0 !! fst x = None) ls.

(** A reader is [stable] when what it reads stays readable in a larger
    heap, depends on the cell read only, which is not an array, and carries
    the reference it was read at. *)
Definition stable {A : Type} (read : Heap -> loc -> option (loc * A)) : Prop :=
  (forall σ σ' l x, read σ l = Some x -> σ ⊆ σ' -> read σ' l = Some x)
  /\ (forall σ l x, read σ l = Some x -> fst x = l /\ forall e, σ !! l <> Some (ArrayObj e))
  /\ (forall σ σ' l, σ !! l = σ' !! l -> read σ l = read σ' l).

(** The cell of a scored copy. *)
Definition cellOfScored (s : ScoredHotel) : Cell :=
  HotelObj (hotel s) (Some (finalScore s)).

(** The outcome on the heap is the outcome [pure] of the request on values:
    the same insights, and an array, new with respect to [σ0], of scored
    copies that are new with respect to [σ0] and hold the returned hotels
    with their final scores. *)
Definition refines (σ0 : Heap) (pure : completion RecommendationResult)
    (r : completion (loc * Insights)) (σ' : Heap) : Prop :=
  match pure, r with
  | Normal res, Normal (top, ins) =>
      ins = insights res /\ σ0 !! top = None /\ holdsCopies σ0 σ' top (hotels res)
  | Throw, Throw => True
  | _, _ => False
  end.

End SharedSpec.

(** ** Vocabulary of the statements *)

(** A number that is strictly positive. *)
Definition strictlyPositive (a : number) : Prop :=
  match a with
  | Fin x => 0 < x
  | PInf => True
  | NInf | NaN => False
  end.

(** An integer of the bracket from [lo] (included) to [hi] (excluded). *)
Definition inBracket (lo hi : R) (a : number) : Prop :=
  exists z : Z, a = Fin (IZR z) /\ lo <= IZR z < hi.

(** An integer from 0 to 100. *)
Definition percentage (a : number) : Prop :=
  exists z : Z, a = Fin (IZR z) /\ (0 <= z <= 100)%Z.

(** A real from 0 to 10. *)
Definition onTenScale (a : number) : Prop :=
  exists x : R, a = Fin x /\ 0 <= x <= 10.

(** ** Sample data *)

(** A row whose [average_rating] column holds a given number. *)
Definition ratedRow (r : R) : Raw.HotelData :=
  {| Raw.property_name := "Hotel";
     Raw.address := EmptyString;
     Raw.has_address := true;
     Raw.city := EmptyString;
     Raw.country := EmptyString;
     Raw.hotel_facilities := EmptyString;
     Raw.hotel_star_rating := EmptyString;
     Raw.latitude := Fin 0;
     Raw.longitude := Fin 0;
     Raw.room_type := EmptyString;
     Raw.reviews_from_different_sites := EmptyString;
     Raw.price := Fin 0;
     Raw.top_positive_review := EmptyString;
     Raw.top_negative_review := EmptyString;
     Raw.average_rating := Fin r;
     Raw.reviews_summary := EmptyString |}.

(** A world where nothing outside answers: the table does not load, no JSON
    parses, the search finds nothing, the geocoder is unreachable. *)
Definition silentWorld : World :=
  {| fetchTable := None;
     JSON_parse := fun _ => None;
     Math_random := fun _ => 0;
     Fuse_search := fun _ _ _ => [];
     fetchGeocode := fun _ => NetworkError;
     inheritedText := fun _ => EmptyString;
     JSON_null := fun _ => false;
     Math_log := Binary64.log;
     Math_sin := Binary64.sin;
     Math_cos := Binary64.cos;
     Math_sqrt := Binary64.sqrt;
     Math_atan2 := Binary64.atan2;
     Math_pow := Binary64.pow |}.

(** The real a finite number holds. *)
Definition realOf (a : number) : R :=
  match a with
  | Fin x => x
  | _ => 0
  end.

(** The rating and the review count of an entry, absent ones counting 0. *)
Definition ratingR (p : PlatformRating) : R := realOf (orZero (rating p)).
Definition countR (p : PlatformRating) : R := realOf (orZero (reviews_count p)).

(** Both fields of the entry are reals. *)
Definition finiteEntry (p : PlatformRating) : Prop :=
  Num.is_finite (orZero (rating p)) = true
  /\ Num.is_finite (orZero (reviews_count p)) = true.

Definition sumR (f : PlatformRating -> R) (l : list PlatformRating) : R :=
  fold_right (fun p s => f p + s) 0 l.

(** The mean of the ratings weighted by the review counts, and their plain
    mean. *)
Definition weightedMean (l : list PlatformRating) : R :=
  sumR (fun p => ratingR p * countR p) l / sumR countR l.
Definition plainMean (l : list PlatformRating) : R :=
  sumR ratingR l / INR (length l).

(** A hotel with the fields the ranking reads; the others are fixed. *)
Definition sampleHotel (name address city : string) (averageScore totalReviews : R)
    (tags reviews : list string) : AggregatedHotel :=
  {| Agg.name := name;
     Agg.address := address;
     Agg.city := city;
     Agg.country := "India";
     Agg.averageScore := Fin averageScore;
     Agg.totalReviews := Fin totalReviews;
     Agg.positiveWordCount := Fin 1;
     Agg.negativeWordCount := Fin 0;
     Agg.tags := tags;
     Agg.reviews := reviews;
     Agg.confidenceScore := Fin 50;
     Agg.priceRange := Fin 1000;
     Agg.coordinates := {| lat := Fin 0; lng := Fin 0 |};
     Agg.platformRatings := [];
     Agg.starRating := None;
     Agg.roomType := None;
     Agg.facilitiesBrief := EmptyString;
     Agg.reviewSummary := None |}.

(** Two hotels of Goa with different names and addresses whose merge keys
    are the same string. *)
Definition barHotelA : AggregatedHotel :=
  sampleHotel "Sea|View" "Beach Road" "Goa" 8 0 [] [].
Definition barHotelB : AggregatedHotel :=
  sampleHotel "Sea" "View|Beach Road" "Goa" 8 0 [] [].

(** What the city stage tests on a hotel, for the lower-cased target. *)
Definition cityMatches (target : string) (h : AggregatedHotel) : bool :=
  String.eqb (Str.toLowerCase (Agg.city h)) target
  || Str.includes (Str.toLowerCase (Agg.address h)) target.



(** A world where the search returns every candidate, in order, at a fixed
    distance. *)
Definition hitEverything (d : R) (l : list AggregatedHotel) : list FuseResult :=
  imap (fun i h => {| item := h; refIndex := i; score := Some (Fin d) |}) l.
Definition matchingWorld : World :=
  {| fetchTable := None;
     JSON_parse := fun _ => None;
     Math_random := fun _ => 0;
     Fuse_search := fun _ l _ => hitEverything 0.5 l;
     fetchGeocode := fun _ => NetworkError;
     inheritedText := fun _ => EmptyString;
     JSON_null := fun _ => false;
     Math_log := Binary64.log;
     Math_sin := Binary64.sin;
     Math_cos := Binary64.cos;
     Math_sqrt := Binary64.sqrt;
     Math_atan2 := Binary64.atan2;
     Math_pow := Binary64.pow |}.

Definition poolHotel : AggregatedHotel :=
  sampleHotel "Lotus Inn" "12 Ring Road, Delhi" "Delhi" 8 0 ["pool"; "wifi"] ["Great pool"].
Definition plainHotel : AggregatedHotel :=
  sampleHotel "Harbour Stay" "4 Marine Drive, Mumbai" "Mumbai" 6 0 [] [].

(** [min(1, log(totalReviews + 1) / 8)] *)
Definition reviewVolumeConfidence (totalReviews : number) : number :=
  Num.min (Fin 1) (Num.div (Num.log (Num.add totalReviews (Fin 1))) (Fin 8)).

(** [positive / (positive + negative + 1)] *)
Definition sentimentRatio (positive negative : number) : number :=
  Num.div positive (Num.add (Num.add positive negative) (Fin 1)).

(** The popularity formula:
    [round(100 * (0.7 * averageScore / 10 + 0.3 * reviewVolumeConfidence))]. *)
Definition popularityFormula (averageScore totalReviews : number) : number :=
  Num.round
    (Num.mul (Fin 100)
       (Num.add (Num.mul (Fin 0.7) (Num.div averageScore (Fin 10)))
                (Num.mul (Fin 0.3) (reviewVolumeConfidence totalReviews)))).

(** The final-score formula:
    [round(100 * (0.4 * averageScore / 10 + 0.3 * similarity
                  + 0.15 * reviewVolumeConfidence + 0.15 * sentimentRatio
                  + personaBonus))]. *)
Definition finalScoreFormula
    (averageScore similarity totalReviews positive negative personaBonus : number) : number :=
  Num.round
    (Num.mul (Fin 100)
       (Num.add
          (Num.add
             (Num.add
                (Num.add (Num.mul (Fin 0.4) (Num.div averageScore (Fin 10)))
                         (Num.mul (Fin 0.3) similarity))
                (Num.mul (Fin 0.15) (reviewVolumeConfidence totalReviews)))
             (Num.mul (Fin 0.15) (sentimentRatio positive negative)))
          personaBonus)).

(** The keyword occurs, case put aside, in one of the texts. *)
Definition occursIn (keyword : string) (texts : list string) : bool :=
  existsb (fun t => Str.includes (Str.toLowerCase t) keyword) texts.

(** The persona bonus: 0.02 for each keyword of the persona that occurs in
    a tag or in a review, at most 0.10; 0 for a persona with no keywords. *)
Definition personaBonus (h : AggregatedHotel) (persona : string) : number :=
  match assoc persona bonusKeywords with
  | Some keywords =>
      Num.min
        (Num.mul (Fin 0.02)
           (Num.of_nat
              (length
                 (List.filter (fun k => occursIn k (Agg.tags h ++ Agg.reviews h)) keywords))))
        (Fin 0.1)
  | None => Fin 0
  end.

(** The string is not empty and holds no space. *)
Fixpoint noBlank (s : string) : bool :=
  match s with
  | EmptyString => true
  | String c s' => negb (Ascii.eqb c " ") && noBlank s'
  end.
Definition isWord (s : string) : bool := Str.nonempty s && noBlank s.

(** Both coordinates are reals. *)
Definition finitePoint (c : Coordinates) : Prop :=
  Num.is_finite (lat c) = true /\ Num.is_finite (lng c) = true.

(** The comparator [(a, b) => a.d - b.d] on the candidates themselves. *)
Definition byDistanceAscending (geo : Coordinates) (a b : AggregatedHotel) : number :=
  Num.sub (distanceFrom geo a) (distanceFrom geo b).


(** The insights the engine computes over no hotel at all. *)
Definition emptyInsights (city : string) : Insights :=
  {| totalAnalyzed := Fin 0;
     averageRating := NaN;
     topFeatures := [];
     cityStats := {| stats_name := city; hotelCount := Fin 0; avgRating := NaN |} |}.

(** The engine after an initialization that loaded no row. *)
Definition emptyEngine : Engine :=
  {| hotelData := []; aggregatedHotels := []; isInitialized := true |}.

(** A heap that holds the collection of an initialized engine, and a
    request. *)
Definition sampleHeap : Shared.Heap :=
  {[ 0%nat := Shared.HotelObj poolHotel None;
     1%nat := Shared.HotelObj plainHotel None;
     2%nat := Shared.ArrayObj [0%nat; 1%nat] ]}.
Definition sampleEngine : Shared.EngineRef :=
  {| Shared.hotelDataRef := []; Shared.aggregatedRef := 2%nat; Shared.initializedRef := true |}.
Definition sampleRequest : Shared.Request :=
  {| Shared.world := silentWorld; Shared.persona := "Family"; Shared.city := "all";
     Shared.preferences := ["pool"]; Shared.options := None |}.

(** A row with no direct average whose summary parses to two platforms and
    an entry that is [null]. *)
Definition twoPlatforms : PlatformRatings :=
  [ ("Google", Some {| rating := Some (Fin 8); reviews_count := Some (Fin 100) |});
    ("Booking", Some {| rating := Some (Fin 6); reviews_count := Some (Fin 300) |});
    ("Agoda", None) ].
Definition summaryRow : Raw.HotelData :=
  {| Raw.property_name := "Hotel";
     Raw.address := EmptyString;
     Raw.has_address := true;
     Raw.city := EmptyString;
     Raw.country := EmptyString;
     Raw.hotel_facilities := EmptyString;
     Raw.hotel_star_rating := EmptyString;
     Raw.latitude := Fin 0;
     Raw.longitude := Fin 0;
     Raw.room_type := EmptyString;
     Raw.reviews_from_different_sites := EmptyString;
     Raw.price := Fin 0;
     Raw.top_positive_review := EmptyString;
     Raw.top_negative_review := EmptyString;
     Raw.average_rating := Fin 0;
     Raw.reviews_summary := "{ platforms }" |}.
Definition ratingsWorld : World :=
  {| fetchTable := Some [summaryRow];
     JSON_parse := fun _ => Some twoPlatforms;
     Math_random := fun _ => 0;
     Fuse_search := fun _ _ _ => [];
     fetchGeocode := fun _ => NetworkError;
     inheritedText := fun _ => EmptyString;
     JSON_null := fun _ => false;
     Math_log := Binary64.log;
     Math_sin := Binary64.sin;
     Math_cos := Binary64.cos;
     Math_sqrt := Binary64.sqrt;
     Math_atan2 := Binary64.atan2;
     Math_pow := Binary64.pow |}.

(** * What the screens do with the recommendations

    The price bands of the hotel card (src/utils/priceUtils.ts), the hotels
    the hook [useAI] hands to the screens, and the distance and the fuzzy
    matching of the area search of the recommendations screen
    (utils/geo.ts).  Counters that only ever hold natural numbers are
    modelled by [nat]. *)

(** ** Price bands *)

Module PriceUtils.

Record PriceRange : Type := {
  min : number;
  max : number;
  label : string;
  tag : string;
  color : string
}.

Definition priceRanges : list PriceRange :=
  [ {| min := Fin 500; max := Fin 1000; label := "₹500 - ₹1,000"; tag := "Budget Pick";
       color := "bg-green-100 text-green-700 border-green-200" |};
    {| min := Fin 1000; max := Fin 2000; label := "₹1,000 - ₹2,000"; tag := "Mid-Range";
       color := "bg-blue-100 text-blue-700 border-blue-200" |};
    {| min := Fin 2000; max := Fin 3000; label := "₹2,000 - ₹3,000"; tag := "Premium";
       color := "bg-purple-100 text-purple-700 border-purple-200" |};
    {| min := Fin 3000; max := Fin 4000; label := "₹3,000 - ₹4,000"; tag := "Luxury";
       color := "bg-orange-100 text-orange-700 border-orange-200" |};
    {| min := Fin 4000; max := Fin 10000; label := "₹4,000+"; tag := "Ultra Luxury";
       color := "bg-pink-100 text-pink-700 border-pink-200" |} ].

(** [priceRanges.find(range => price >= range.min && price <= range.max)
     || priceRanges[priceRanges.length - 1]]; [None] stands for
    [undefined]. *)
Definition getPriceRangeInfo (price : number) : option PriceRange :=
  match
    List.find (fun range => Num.ge price (min range) && Num.le price (max range)) priceRanges
  with
  | Some range => Some range
  | None => priceRanges !! (length priceRanges - 1)%nat
  end.

End PriceUtils.

(** ** The hotels handed to the screens *)

Module UseAI.

(** The object [normalizePlatforms] builds: one entry, or [undefined], for
    each platform the app knows. *)
Record Platforms : Type := {
  Google : option PlatformRating;
  Booking : option PlatformRating;
  MakeMyTrip : option PlatformRating;
  TripAdvisor : option PlatformRating;
  Agoda : option PlatformRating;
  Goibibo : option PlatformRating;
  Expedia : option PlatformRating
}.

(** [platforms?.[k] || undefined], for the names the hook asks for (none of
    them is inherited): an entry that is missing or [null] is
    [undefined]. *)
Definition get (platforms : PlatformRatings) (k : string) : option PlatformRating :=
  match assoc k platforms with
  | Some entry => entry
  | None => None
  end.

(** [a || b] on entries. *)
Definition orElse (a b : option PlatformRating) : option PlatformRating :=
  match a with
  | Some _ => a
  | None => b
  end.

Definition normalizePlatforms (platforms : PlatformRatings) : Platforms :=
  {| Google := get platforms "Google";
     Booking := orElse (get platforms "Booking.com") (get platforms "Booking");
     MakeMyTrip := get platforms "MakeMyTrip";
     TripAdvisor := get platforms "TripAdvisor";
     Agoda := get platforms "Agoda";
     Goibibo := get platforms "Goibibo";
     Expedia := get platforms "Expedia" |}.

(** [Object.values] of a normalized object. *)
Definition valuesOf (p : Platforms) : list (option PlatformRating) :=
  [Google p; Booking p; MakeMyTrip p; TripAdvisor p; Agoda p; Goibibo p; Expedia p].

(** [v?.rating], kept when it is a number. *)
Definition ratingOf (v : option PlatformRating) : option number :=
  match v with
  | Some entry => rating entry
  | None => None
  end.

(** [avgPlatform], in binary64; [None] stands for [undefined]. *)
Definition avgPlatform (p : Platforms) : option number :=
  let vals := omap ratingOf (valuesOf p) in
  if negb (length vals =? 0)%nat
  then Some (Binary64.div (fold_left Binary64.add vals (Fin 0)) (Num.of_nat (length vals)))
  else None.

(** What the hook makes of a hotel the engine returns ([RecommendedHotel]);
    the image address, the feature scores (drawn at random) and the booking
    links are left out. *)
Record RecommendedHotel : Type := {
  name : string;
  city : string;
  overall_score : number;
  price_range : number;
  address : string;
  hotel_star_rating : option number;
  room_type : option string;
  review_summary : option string;
  facilities_brief : string;
  badges : list string;
  platform_ratings : Platforms;
  average_platform_rating : option number;
  coordinates : Coordinates
}.

(** The callback of [result.hotels.map]. *)
Definition toRecommended (h : ScoredHotel) : RecommendedHotel :=
  {| name := Agg.name (hotel h);
     city := Agg.city (hotel h);
     overall_score := Agg.confidenceScore (hotel h);
     price_range := Agg.priceRange (hotel h);
     address := Agg.address (hotel h);
     hotel_star_rating := Agg.starRating (hotel h);
     room_type := Agg.roomType (hotel h);
     review_summary := Agg.reviewSummary (hotel h);
     facilities_brief := Agg.facilitiesBrief (hotel h);
     badges := Arr.slice0 3 (Agg.tags (hotel h));
     platform_ratings := normalizePlatforms (Agg.platformRatings (hotel h));
     average_platform_rating := avgPlatform (normalizePlatforms (Agg.platformRatings (hotel h)));
     coordinates := Agg.coordinates (hotel h) |}.

End UseAI.

(** ** Distance and fuzzy matching of the area search *)

Module Geo.

Record LatLng : Type := { lat : number; lng : number }.

(** [haversineDistance], in binary64, with the functions of [Math] of the
    implementation. *)
Definition haversineDistance (w : World) (a b : LatLng) : number :=
  let toRad := fun d : number => Binary64.div (Binary64.mul d (Binary64.lit PI)) (Fin 180) in
  let R := Fin 6371 in
  let dLat := toRad (Binary64.sub (lat b) (lat a)) in
  let dLng := toRad (Binary64.sub (lng b) (lng a)) in
  let lat1 := toRad (lat a) in
  let lat2 := toRad (lat b) in
  let h :=
    Binary64.add
      (Binary64.mul (Math_sin w (Binary64.div dLat (Fin 2)))
                    (Math_sin w (Binary64.div dLat (Fin 2))))
      (Binary64.mul
         (Binary64.mul (Binary64.mul (Math_cos w lat1) (Math_cos w lat2))
                       (Math_sin w (Binary64.div dLng (Fin 2))))
         (Math_sin w (Binary64.div dLng (Fin 2)))) in
  let c :=
    Binary64.mul (Fin 2)
      (Math_atan2 w (Math_sqrt w h) (Math_sqrt w (Binary64.sub (Fin 1) h))) in
  Binary64.mul R c.

(** The pieces [str.slice(i, i + 2)] for [i] from 0 to [str.length - 2]. *)
Fixpoint pairs (str : string) : list string :=
  match str with
  | EmptyString => []
  | String c1 rest =>
      match rest with
      | EmptyString => []
      | String c2 _ => String c1 (String c2 EmptyString) :: pairs rest
      end
  end.

Definition bigrams (s : string) : list string :=
  pairs (Str.trim (Str.toLowerCase s)).

(** [bMap.set(g, (bMap.get(g) || 0) + 1)] *)
Definition countGram (bMap : gmap string nat) (g : string) : gmap string nat :=
  <[g := (default 0%nat (bMap !! g) + 1)%nat]> bMap.

(** The body of the loop over [aGrams]: a gram that [bMap] still has is a
    match and is taken out once. *)
Definition matchGram (state : nat * gmap string nat) (g : string) : nat * gmap string nat :=
  let c := default 0%nat (snd state !! g) in
  if (0 <? c)%nat then (S (fst state), <[g := (c - 1)%nat]> (snd state)) else state.

Definition diceCoefficient (a b : string) : number :=
  if negb (Str.nonempty a) || negb (Str.nonempty b) then Fin 0
  else if String.eqb (Str.toLowerCase a) (Str.toLowerCase b) then Fin 1
  else
    let aGrams := bigrams a in
    let bGrams := bigrams b in
    if (length aGrams =? 0)%nat || (length bGrams =? 0)%nat then Fin 0
    else
      let bMap := fold_left countGram bGrams ∅ in
      let matches := fst (fold_left matchGram aGrams (0%nat, bMap)) in
      Num.div (Num.mul (Fin 2) (Num.of_nat matches))
              (Num.add (Num.of_nat (length aGrams)) (Num.of_nat (length bGrams))).

(** [Math.max(a, b)] *)
Definition max2 (a b : number) : number :=
  match a, b with
  | NaN, _ | _, NaN => NaN
  | _, _ => if Num.lt a b then b else a
  end.

(** The score of a choice: its Dice coefficient with the query, and at
    least 0.75 when it contains the query, case put aside. *)
Definition scoreOf (query c : string) : number :=
  max2 (diceCoefficient query c)
       (if Str.includes (Str.toLowerCase c) (Str.toLowerCase query) then Fin 0.75 else Fin 0).

(** [getCloseMatches(query, choices, n, cutoff)], for a count [n]; the
    defaults of the source are 5 and 0.6. *)
Definition getCloseMatches (query : string) (choices : list string) (n : nat)
    (cutoff : number) : list string :=
  let scored :=
    map fst
      (Arr.slice0 n
         (Arr.sort (fun a b => Num.sub (snd b) (snd a))
            (List.filter (fun x => Num.ge (snd x) cutoff)
               (map (fun c => (c, scoreOf query c)) choices)))) in
  Arr.distinct ∅ scored.

End Geo.

(** ** Vocabulary of the further statements *)

(** The city names the address patterns look for, lower-cased, in the order
    of the patterns. *)
Definition cityNames : list string :=
  [ "delhi"; "mumbai"; "bangalore"; "chennai"; "kolkata";
    "jaipur"; "goa"; "hyderabad"; "pune"; "agra" ].

(** The first name of that order that occurs in the address, case put
    aside. *)
Definition firstCityNamed (address : string) : option string :=
  List.find (fun c => Str.includes (Str.toLowerCase address) c) cityNames.

(** The row has a name. *)
Definition named (row : Raw.HotelData) : bool := Str.nonempty (Raw.property_name row).

(** Every character of the text is an ASCII character. *)
Fixpoint asciiText (s : string) : bool :=
  match s with
  | EmptyString => true
  | String c s' => (nat_of_ascii c <? 128)%nat && asciiText s'
  end.

(** The length of a text in UTF-16 code units, which is what [length]
    counts in the program, read off its UTF-8 bytes: one unit for a
    sequence of one, two or three bytes, two for a sequence of four. *)
Fixpoint utf16Length (s : string) : nat :=
  match s with
  | EmptyString => 0%nat
  | String c s' =>
      let n := nat_of_ascii c in
      ((if (n <? 128)%nat || ((192 <=? n)%nat && (n <? 240)%nat) then 1
        else if (240 <=? n)%nat then 2 else 0)
       + utf16Length s')%nat
  end.

(** The last character of the string is white space. *)
Fixpoint endsWithSpace (s : string) : bool :=
  match s with
  | EmptyString => false
  | String c s' =>
      match s' with
      | EmptyString => Str.is_space c
      | String _ _ => endsWithSpace s'
      end
  end.

(** The city is spelled as one of the keys of the coordinates table. *)
Definition knownCity (city : string) : bool :=
  existsb (fun entry => String.eqb (fst entry) city) cityCoords.

(** The name is one of those an object literal inherits. *)
Definition inheritedName (key : string) : bool :=
  existsb (String.eqb key) Object_prototype_keys.

(** An engine that was initialized with two hotels. *)
Definition readyEngine : Engine :=
  {| hotelData := []; aggregatedHotels := [poolHotel; plainHotel]; isInitialized := true |}.

(** A request for a price between 500 and 1500. *)
Definition priceOptions : Options :=
  {| priceMin := Some (Fin 500); priceMax := Some (Fin 1500); starRatings := None;
     avgRatingMin := None; avgRatingMax := None;
     area := None; extraRequirements := None |}.

(** The two word counts are those the aggregation sets: 1 and 0. *)
Definition plainCounts (h : AggregatedHotel) : Prop :=
  Agg.positiveWordCount h = Fin 1 /\ Agg.negativeWordCount h = Fin 0.

(** A real that is not negative. *)
Definition nonNegative (a : number) : Prop :=
  exists x : R, a = Fin x /\ 0 <= x.

(** Two reals in order. *)
Definition realLe (a b : number) : Prop :=
  exists x y : R, a = Fin x /\ b = Fin y /\ x <= y.

(** An integer from [lo] to [hi]. *)
Definition integerBetween (lo hi : Z) (a : number) : Prop :=
  exists z : Z, a = Fin (IZR z) /\ (lo <= z <= hi)%Z.

(** The final score of a hotel whose fields are reals, before
    [Math.round]. *)
Definition rawFinalScore (averageScore similarity totalReviews bonus : R) : R :=
  100 * (0.4 * (averageScore / 10) + 0.3 * similarity
         + 0.15 * Rmin 1 (ln (totalReviews + 1) / 8) + 0.15 * (1 / (1 + 0 + 1)) + bonus).

(** All the tags of the hotels, and the number of times a tag occurs among
    them (the number of hotels that carry it, for hotels whose tags are
    distinct, as those of the aggregation are). *)
Definition allTagsOf (l : list AggregatedHotel) : list string := flat_map Agg.tags l.
Definition tagCount (l : list AggregatedHotel) (tag : string) : nat :=
  count_occ string_dec (allTagsOf l) tag.

(** The table of counts after the tags [seen]: one entry for each tag seen,
    holding the number of times it was seen. *)
Definition countsOf (seen : list string) (acc : list (string * TagValue)) : Prop :=
  List.NoDup (map fst acc)
  /\ (forall k v, In (k, v) acc -> v = Count (count_occ string_dec seen k))
  /\ (forall k, In k seen -> In k (map fst acc)).

(** The entry holds a count. *)
Definition counted (kv : string * TagValue) : Prop :=
  exists n : nat, snd kv = Count n.

(** The names under which [normalizePlatforms] looks for an entry. *)
Definition platformNames : list string :=
  [ "Google"; "Booking.com"; "Booking"; "MakeMyTrip"; "TripAdvisor"; "Agoda";
    "Goibibo"; "Expedia" ].

(** Every rating that one of the entries holds is a real from [lo] to
    [hi]. *)
Definition ratingsWithin (lo hi : R) (platforms : PlatformRatings) : Prop :=
  forall name entry r,
    In (name, Some entry) platforms -> rating entry = Some r ->
    exists x : R, r = Fin x /\ lo <= x <= hi.

(** The grams of a list, as a multiset. *)
Definition gramsOf (grams : list string) : gmultiset string := list_to_set_disj grams.

(** The map of counts holds the multiplicities of the multiset. *)
Definition holdsCounts (bMap : gmap string nat) (X : gmultiset string) : Prop :=
  forall g : string, default 0%nat (bMap !! g) = multiplicity g X.

(** A row of a well-formed table: its average, when it has one, is on the
    scale from 0 to 10, and so is every platform rating, with review counts
    that are not negative. *)
Definition wellFormedRow (w : World) (row : Raw.HotelData) : Prop :=
  (Num.truthy (Raw.average_rating row) = true -> onTenScale (Raw.average_rating row))
  /\ List.Forall (fun p => finiteEntry p /\ 0 <= ratingR p <= 10 /\ 0 <= countR p)
       (entriesOf (parsePlatformRatings w row)).

(** A request for a price between 5000 and 9000. *)
Definition steepOptions : Options :=
  {| priceMin := Some (Fin 5000); priceMax := Some (Fin 9000); starRatings := None;
     avgRatingMin := None; avgRatingMax := None;
     area := None; extraRequirements := None |}.

(** What the price, star and rating filters of a request keep of the
    candidates of the city stage. *)
Definition numericFilters (o : Options) (l : list AggregatedHotel) : list AggregatedHotel :=
  ratingFilter o (starFilter o (priceFilter o l)).
(** ** Vocabulary of the statements in binary64 *)

(** The formulas of the specification, evaluated in binary64 from left to
    right. *)
Module Formula.

(** The similarity of a fuzzy hit: [1 - distance], a distance that is
    absent, zero or NaN counting 0. *)
Definition similarity (distance : option number) : number :=
  Binary64.sub (Fin 1)
    (match distance with
     | Some d => if Num.truthy d then d else Fin 0
     | None => Fin 0
     end).

(** [min(1, log(totalReviews + 1) / 8)] *)
Definition reviewVolumeConfidence (w : World) (totalReviews : number) : number :=
  Num.min (Fin 1) (Binary64.div (Math_log w (Binary64.add totalReviews (Fin 1))) (Fin 8)).

(** [positive / (positive + negative + 1)] *)
Definition sentimentRatio (positive negative : number) : number :=
  Binary64.div positive (Binary64.add (Binary64.add positive negative) (Fin 1)).

(** [round(100 * (0.7 * averageScore / 10 + 0.3 * reviewVolumeConfidence))],
    where [averageScore / 10] is the rating on the unit scale. *)
Definition popularity (w : World) (averageScore totalReviews : number) : number :=
  Num.round
    (Binary64.mul (Fin 100)
       (Binary64.add
          (Binary64.mul (Binary64.lit 0.7) (Binary64.div averageScore (Fin 10)))
          (Binary64.mul (Binary64.lit 0.3) (reviewVolumeConfidence w totalReviews)))).

(** [round(100 * (0.4 * averageScore / 10 + 0.3 * similarity
                  + 0.15 * reviewVolumeConfidence + 0.15 * sentimentRatio
                  + personaBonus))] *)
Definition finalScore (w : World)
    (averageScore similarity totalReviews positive negative personaBonus : number)
    : number :=
  Num.round
    (Binary64.mul (Fin 100)
       (Binary64.add
          (Binary64.add
             (Binary64.add
                (Binary64.add
                   (Binary64.mul (Binary64.lit 0.4) (Binary64.div averageScore (Fin 10)))
                   (Binary64.mul (Binary64.lit 0.3) similarity))
                (Binary64.mul (Binary64.lit 0.15) (reviewVolumeConfidence w totalReviews)))
             (Binary64.mul (Binary64.lit 0.15) (sentimentRatio positive negative)))
          personaBonus)).

(** The persona keywords that occur, case put aside, in a tag or in a
    review of the hotel. *)
Definition keywordsFound (h : AggregatedHotel) (keywords : list string) : list string :=
  List.filter (fun k => occursIn k (Agg.tags h ++ Agg.reviews h)) keywords.

(** The persona bonus: 0.02 added for each keyword found, at most 0.10; 0
    for a persona with no keywords. *)
Definition personaBonus (h : AggregatedHotel) (persona : string) : number :=
  match assoc persona bonusKeywords with
  | Some keywords =>
      Num.min
        (Nat.iter (length (keywordsFound h keywords))
           (fun bonus => Binary64.add bonus (Binary64.lit 0.02)) (Fin 0))
        (Binary64.lit 0.1)
  | None => Fin 0
  end.

(** The sums of the weighted mean, over the entries in order. *)
Definition weightedTotal (l : list PlatformRating) : number :=
  fold_left
    (fun acc p => Binary64.add acc (Binary64.mul (orZero (rating p)) (orZero (reviews_count p))))
    l (Fin 0).
Definition countTotal (l : list PlatformRating) : number :=
  fold_left (fun acc p => Binary64.add acc (orZero (reviews_count p))) l (Fin 0).
Definition ratingTotal (l : list PlatformRating) : number :=
  fold_left (fun acc p => Binary64.add acc (orZero (rating p))) l (Fin 0).

(** The mean of the ratings weighted by the review counts, and their plain
    mean. *)
Definition weightedMean (l : list PlatformRating) : number :=
  Binary64.div (weightedTotal l) (countTotal l).
Definition plainMean (l : list PlatformRating) : number :=
  Binary64.div (ratingTotal l) (Num.of_nat (length l)).


End Formula.




(** The row makes the aggregation throw: it has no address and needs one
    (to find the city, or to estimate the price), or its ratings parse to
    [null]. *)
Definition pricedRow (row : Raw.HotelData) : bool :=
  Num.truthy (Raw.price row) && Num.gt (Raw.price row) (Fin 0).
Definition rowThrows (w : World) (row : Raw.HotelData) : bool :=
  (negb (Raw.has_address row)
   && (negb (Str.nonempty (Raw.city row)) || negb (pricedRow row)))
  || match Double.parsePlatformRatings w row with
     | None => true
     | Some _ => false
     end.

(** The implementation's logarithm of a binary64 number from 1 on is a real
    from 0 to 1024. *)
Definition soundLog (w : World) : Prop :=
  forall x : R, 1 <= x < Binary64.pow2 1024 ->
    exists y : R, Math_log w (Fin x) = Fin y /\ 0 <= y <= 1024.

(** An entry whose rating is a real from 0 to 10 and whose review count is
    a whole number that is not negative. *)
Definition wholeEntry (p : PlatformRating) : Prop :=
  (exists r : R, orZero (rating p) = Fin r /\ 0 <= r <= 10)
  /\ (exists c : Z, orZero (reviews_count p) = Fin (IZR c) /\ (0 <= c)%Z).

(** A row of a well-formed table, for the binary64 engine: its average, when
    it has one, is on the scale from 0 to 10, and so is every platform
    rating, with whole review counts; the entries and the reviews together
    are at most 2^49. *)
Definition wholeRow (ratings : PlatformRatings) (row : Raw.HotelData) : Prop :=
  (Num.truthy (Raw.average_rating row) = true -> onTenScale (Raw.average_rating row))
  /\ List.Forall wholeEntry (entriesOf ratings)
  /\ INR (length (entriesOf ratings)) + sumR countR (entriesOf ratings) <= IZR (2 ^ 49).

(** ** Sample data for the binary64 engine *)




(** Two platforms rated 10 whose review counts are the binary64 numbers
    0.2 and 0.7, and a world whose table holds one row with these ratings. *)
Definition fractionalCounts : PlatformRatings :=
  [ ("Google", Some {| rating := Some (Fin 10); reviews_count := Some (Binary64.lit 0.2) |});
    ("Booking", Some {| rating := Some (Fin 10); reviews_count := Some (Binary64.lit 0.7) |}) ].
Definition fractionalWorld : World :=
  {| fetchTable := Some [summaryRow];
     JSON_parse := fun _ => Some fractionalCounts;
     Math_random := fun _ => 0;
     Fuse_search := fun _ _ _ => [];
     fetchGeocode := fun _ => NetworkError;
     inheritedText := fun _ => EmptyString;
     JSON_null := fun _ => false;
     Math_log := Binary64.log;
     Math_sin := Binary64.sin;
     Math_cos := Binary64.cos;
     Math_sqrt := Binary64.sqrt;
     Math_atan2 := Binary64.atan2;
     Math_pow := Binary64.pow |}.

(** Three platforms rated the binary64 number 0.1. *)
Definition tenthRatings : PlatformRatings :=
  [ ("Google", Some {| rating := Some (Binary64.lit 0.1); reviews_count := None |});
    ("Agoda", Some {| rating := Some (Binary64.lit 0.1); reviews_count := None |});
    ("Expedia", Some {| rating := Some (Binary64.lit 0.1); reviews_count := None |}) ].

(** A whole number below 2^53 that is not negative. *)
Definition wholeNumber (a : number) : Prop :=
  exists n : Z, a = Fin (IZR n) /\ (0 <= n < 2 ^ 53)%Z.

(** A hotel with the best average score, 7000 reviews and the five keywords
    of a family among its tags; a hit of it at the distance 0. *)
Definition grandHotel : AggregatedHotel :=
  sampleHotel "Grand" "1 Fort Road, Goa" "Goa" 10 7000
    ["family"; "kids"; "children"; "pool"; "playground"] [].
Definition grandHit : FuseResult :=
  {| item := grandHotel; refIndex := 0; score := Some (Fin 0) |}.

(** A row whose star text is 4.5. *)
Definition starredRow : Raw.HotelData :=
  {| Raw.property_name := "Hotel";
     Raw.address := EmptyString;
     Raw.has_address := true;
     Raw.city := EmptyString;
     Raw.country := EmptyString;
     Raw.hotel_facilities := EmptyString;
     Raw.hotel_star_rating := "4.5";
     Raw.latitude := Fin 0;
     Raw.longitude := Fin 0;
     Raw.room_type := EmptyString;
     Raw.reviews_from_different_sites := EmptyString;
     Raw.price := Fin 0;
     Raw.top_positive_review := EmptyString;
     Raw.top_negative_review := EmptyString;
     Raw.average_rating := Fin 8;
     Raw.reviews_summary := EmptyString |}.

(** A hotel with an average score of 7.5 and no review. *)
Definition cedarHotel : AggregatedHotel :=
  sampleHotel "Cedar" "2 Hill Road, Goa" "Goa" 7.5 0 [] [].

(** A world whose table holds one row, the ratings of which parse to
    [null]. *)
Definition nullWorld : World :=
  {| fetchTable := Some [summaryRow];
     JSON_parse := fun _ => None;
     Math_random := fun _ => 0;
     Fuse_search := fun _ _ _ => [];
     fetchGeocode := fun _ => NetworkError;
     inheritedText := fun _ => EmptyString;
     JSON_null := fun _ => true;
     Math_log := Binary64.log;
     Math_sin := Binary64.sin;
     Math_cos := Binary64.cos;
     Math_sqrt := Binary64.sqrt;
     Math_atan2 := Binary64.atan2;
     Math_pow := Binary64.pow |}.

(** A row that has a city and a price but no address, and one that has
    neither address nor city. *)
Definition noAddressRow (city : string) (price : R) : Raw.HotelData :=
  {| Raw.property_name := "Hotel";
     Raw.address := EmptyString;
     Raw.has_address := false;
     Raw.city := city;
     Raw.country := EmptyString;
     Raw.hotel_facilities := EmptyString;
     Raw.hotel_star_rating := EmptyString;
     Raw.latitude := Fin 0;
     Raw.longitude := Fin 0;
     Raw.room_type := EmptyString;
     Raw.reviews_from_different_sites := EmptyString;
     Raw.price := Fin price;
     Raw.top_positive_review := EmptyString;
     Raw.top_negative_review := EmptyString;
     Raw.average_rating := Fin 0;
     Raw.reviews_summary := EmptyString |}.

(** * Properties *)

(** ** The definitions on small inputs *)

Example splitFacilities_example :
  facilityTokens ("Pool " +:+ Str.bullet +:+ " Spa|Gym||  | x ") = ["Pool"; "Spa"; "Gym"; "x"].
Proof. reflexivity. Qed.

Example extractCity_examples :
  extractCityFromAddress "12 MG Road, new delhi 110001" = "Delhi"
  /\ extractCityFromAddress "Marine Drive, MUMBAI" = "MUMBAI"
  /\ extractCityFromAddress "near Goa border, Delhi" = "Delhi"
  /\ extractCityFromAddress "an unknown place" = "Delhi".
Proof. repeat split. Qed.

Example dropLastWord_examples :
  Str.dropLastWord "clean rooms and frien" = "clean rooms and"
  /\ Str.dropLastWord "clean rooms  " = "clean rooms"
  /\ Str.dropLastWord "clean" = "clean".
Proof. repeat split. Qed.

Example getProperty_examples :
  getProperty personaQueries "Nobody" = Missing
  /\ getProperty personaQueries "toString" = Inherited
  /\ getProperty bonusKeywords "Solo"
     = Own ["safe"; "secure"; "central"; "convenient"; "transport"].
Proof. repeat split. Qed.

Example buildSearchQuery_example :
  buildSearchQuery silentWorld "Solo" ["wifi"; "gym"]
  = "safe secure central location convenient transportation wifi gym".
Proof. reflexivity. Qed.

Example tagCounts_example :
  entries (fold_left (fun acc tag => bump tag acc)
             ["wifi"; "pool"; "wifi"; "24"; "constructor"; "__proto__"; "7"] [])
  = [("7", Count 1); ("24", Count 1); ("wifi", Count 2); ("pool", Count 1);
     ("constructor", Text)].
Proof. reflexivity. Qed.

Example topFeatures_example :
  topFeatures (generateInsights [poolHotel; plainHotel; poolHotel] "Delhi") = ["pool"; "wifi"].
Proof. reflexivity. Qed.

Example cityFilter_examples :
  map Agg.name (cityFilter [poolHotel; plainHotel] "delhi") = ["Lotus Inn"]
  /\ map Agg.name (cityFilter [poolHotel; plainHotel] "Marine") = ["Harbour Stay"]
  /\ map Agg.name (cityFilter [poolHotel; plainHotel] "Goa") = ["Lotus Inn"; "Harbour Stay"].
Proof. repeat split. Qed.

Example getAvailableCities_example :
  snd (getAvailableCities
         {| hotelData := []; aggregatedHotels := [plainHotel; poolHotel; plainHotel];
            isInitialized := true |})
  = ["Delhi"; "Mumbai"].
Proof. reflexivity. Qed.

(** ** Arithmetic of [number] *)

Lemma Reqb_true (x y : R) : x = y -> Num.Reqb x y = true.
Proof. intros H. unfold Num.Reqb. destruct (Req_dec_T x y); [reflexivity | contradiction]. Qed.

Lemma Reqb_false (x y : R) : x <> y -> Num.Reqb x y = false.
Proof. intros H. unfold Num.Reqb. destruct (Req_dec_T x y); [contradiction | reflexivity]. Qed.

Lemma Rltb_false (x y : R) : y <= x -> Num.Rltb x y = false.
Proof. intros H. unfold Num.Rltb. destruct (Rlt_dec x y); [lra | reflexivity]. Qed.

Lemma Reqb_spec (x y : R) : Num.Reqb x y = true <-> x = y.
Proof. unfold Num.Reqb. destruct (Req_dec_T x y); split; intros; congruence. Qed.

Lemma Rltb_spec (x y : R) : Num.Rltb x y = true <-> x < y.
Proof. unfold Num.Rltb. destruct (Rlt_dec x y); split; intros; try congruence; lra. Qed.

(** Decide the comparisons of reals that occur in a goal. *)
Ltac rcases :=
  unfold Num.Reqb, Num.Rltb in *;
  repeat match goal with
    | |- context [Req_dec_T ?a ?b] => destruct (Req_dec_T a b); try lra
    | |- context [Rlt_dec ?a ?b] => destruct (Rlt_dec a b); try lra
    end.

Lemma div_fin (x y : R) : y <> 0 -> Num.div (Fin x) (Fin y) = Fin (x / y).
Proof. intros H. simpl. now rewrite Reqb_false. Qed.

Lemma div_zero_zero : Num.div (Fin 0) (Fin 0) = NaN.
Proof. simpl. rewrite Reqb_true by reflexivity. unfold Num.signed_inf. now rewrite Reqb_true. Qed.

Lemma mul_comm (a b : number) : Num.mul a b = Num.mul b a.
Proof. destruct a, b; simpl; try reflexivity. f_equal. lra. Qed.

Lemma min_fin (x y : R) : Num.min (Fin x) (Fin y) = Fin (Rmin x y).
Proof.
  simpl. unfold Rmin. rcases; destruct (Rle_dec x y); try lra; f_equal; lra.
Qed.

Lemma log_fin (x : R) : 0 < x -> Num.log (Fin x) = Fin (ln x).
Proof. intros H. simpl. rewrite Reqb_false by lra. now rewrite Rltb_false by lra. Qed.

Lemma truthy_fin (x : R) : Num.truthy (Fin x) = true <-> x <> 0.
Proof.
  simpl. unfold Num.Reqb. destruct (Req_dec_T x 0); simpl; split; intros; congruence.
Qed.

Lemma or_truthy (a b : number) : Num.truthy a = true -> Num.or a b = a.
Proof. intros H. unfold Num.or. now rewrite H. Qed.

Lemma or_falsy (a b : number) : Num.truthy a = false -> Num.or a b = b.
Proof. intros H. unfold Num.or. now rewrite H. Qed.

Lemma Int_part_IZR_half (z : Z) : Int_part (IZR z + / 2) = z.
Proof. symmetry. apply Int_part_spec. lra. Qed.

Lemma Int_part_nonneg (x : R) : 0 <= x -> (0 <= Int_part x)%Z.
Proof.
  intros H. destruct (base_Int_part x) as [_ Hlo].
  assert (Hlt : IZR (-1) < IZR (Int_part x)) by (simpl; lra).
  apply lt_IZR in Hlt. lia.
Qed.

Lemma Int_part_lt (x : R) (z : Z) : x < IZR z -> (Int_part x < z)%Z.
Proof.
  intros H. destruct (base_Int_part x) as [Hhi _].
  apply lt_IZR. lra.
Qed.

Lemma ln_nonneg (x : R) : 1 <= x -> 0 <= ln x.
Proof.
  intros H. destruct (Req_dec_T x 1) as [-> | Hne].
  - rewrite ln_1. lra.
  - rewrite <- ln_1. left. apply ln_increasing; lra.
Qed.

(** ** The aggregator: confidence score and price *)

Lemma calculateConfidenceScore_fin (a t : R) :
  0 <= t ->
  calculateConfidenceScore (Fin a) (Fin t) (Fin 1) (Fin 0)
  = Num.min (Fin 100)
      (Fin (IZR (Int_part ((a / 10 * 0.5 + ln (t + 1) / 10 * 0.3 + 1 / (1 + 0 + 1) * 0.2) * 100 + / 2)))).
Proof.
  intros Ht. unfold calculateConfidenceScore.
  cbn [Num.add]. rewrite log_fin by lra.
  rewrite !div_fin by lra. reflexivity.
Qed.

Lemma confidence_percentage (a t : R) :
  0 <= a -> 0 <= t ->
  percentage (calculateConfidenceScore (Fin a) (Fin t) (Fin 1) (Fin 0)).
Proof.
  intros Ha Ht. rewrite calculateConfidenceScore_fin by assumption.
  pose proof (ln_nonneg (t + 1) ltac:(lra)) as Hln.
  set (x := (a / 10 * 0.5 + ln (t + 1) / 10 * 0.3 + 1 / (1 + 0 + 1) * 0.2) * 100 + / 2).
  assert (Hx : 0 <= x) by (unfold x; lra).
  pose proof (Int_part_nonneg x Hx) as Hz.
  rewrite min_fin. unfold Rmin.
  destruct (Rle_dec 100 (IZR (Int_part x))) as [Hle | Hgt].
  - exists 100%Z. split; [reflexivity | lia].
  - exists (Int_part x). split; [reflexivity |].
    split; [assumption |]. apply Rnot_le_lt in Hgt. apply lt_IZR in Hgt. lia.
Qed.

(** Whatever its arguments, a confidence score that is a real is an integer
    and is at most 100. *)
Lemma confidence_at_most_100 (a t p n : number) (c : R) :
  calculateConfidenceScore a t p n = Fin c -> c <= 100 /\ exists z : Z, c = IZR z.
Proof.
  unfold calculateConfidenceScore.
  set (x := Num.mul _ (Fin 100)). destruct x as [x | | |]; cbn; try discriminate.
  - unfold Num.Rltb. destruct (Rlt_dec _ 100) as [Hlt | Hge]; intros [= <-].
    + split; [lra | eauto].
    + split; [lra | exists 100%Z; reflexivity].
  - intros [= <-]. split; [lra | exists 100%Z; reflexivity].
Qed.

Lemma randomIn_bracket (u width base : R) (zw zb : Z) :
  0 <= u < 1 -> width = IZR zw -> base = IZR zb -> 0 < width ->
  inBracket base (base + width) (randomIn u width base).
Proof.
  intros [Hu0 Hu1] -> -> Hw. unfold randomIn. cbn.
  exists (Int_part (u * IZR zw) + zb)%Z. rewrite plus_IZR. split; [reflexivity |].
  assert (H0 : 0 <= u * IZR zw) by nra.
  assert (H1 : u * IZR zw < IZR zw) by nra.
  pose proof (Int_part_nonneg _ H0) as Hz0. apply IZR_le in Hz0.
  pose proof (Int_part_lt _ _ H1) as Hz1. apply IZR_lt in Hz1.
  simpl in Hz0. lra.
Qed.

Lemma estimatePriceRange_bracket (u : R) (tags : list string) (avg : number) (address : string) :
  0 <= u < 1 ->
  inBracket 4000 7000 (estimatePriceRange u tags avg address)
  \/ inBracket 2500 3500 (estimatePriceRange u tags avg address)
  \/ inBracket 1500 2500 (estimatePriceRange u tags avg address)
  \/ inBracket 800 1300 (estimatePriceRange u tags avg address).
Proof.
  intros Hu. unfold estimatePriceRange.
  repeat match goal with |- context [if ?b then _ else _] => destruct b end.
  - left. replace 7000 with (4000 + 3000) by lra.
    apply (randomIn_bracket u 3000 4000 3000 4000); [assumption | reflexivity | reflexivity | lra].
  - right; left. replace 3500 with (2500 + 1000) by lra.
    apply (randomIn_bracket u 1000 2500 1000 2500); [assumption | reflexivity | reflexivity | lra].
  - right; right; left. replace 2500 with (1500 + 1000) by lra.
    apply (randomIn_bracket u 1000 1500 1000 1500); [assumption | reflexivity | reflexivity | lra].
  - right; right; right. replace 1300 with (800 + 500) by lra.
    apply (randomIn_bracket u 500 800 500 800); [assumption | reflexivity | reflexivity | lra].
Qed.

Lemma inBracket_positive (lo hi : R) (a : number) :
  0 < lo -> inBracket lo hi a -> strictlyPositive a.
Proof. intros Hlo (z & -> & Hz). simpl. lra. Qed.

Lemma gt_zero_positive (a : number) : Num.gt a (Fin 0) = true -> strictlyPositive a.
Proof.
  destruct a; simpl; try discriminate; try tauto.
  intros H. now apply Rltb_spec in H.
Qed.

Lemma confidenceScore_unfold (w : World) (i : nat) (row : Raw.HotelData) :
  Agg.confidenceScore (aggregateRow w i row)
  = calculateConfidenceScore (Agg.averageScore (aggregateRow w i row))
      (Agg.totalReviews (aggregateRow w i row)) (Fin 1) (Fin 0).
Proof. reflexivity. Qed.

Lemma priceRange_cases (w : World) (i : nat) (row : Raw.HotelData) :
  (Num.gt (Raw.price row) (Fin 0) = true
   /\ Agg.priceRange (aggregateRow w i row) = Raw.price row)
  \/ (exists tags avg,
        Agg.priceRange (aggregateRow w i row)
        = estimatePriceRange (Math_random w i) tags avg (Raw.address row)).
Proof.
  cbn [aggregateRow Agg.priceRange].
  destruct (Num.truthy (Raw.price row)); cbn [andb].
  - destruct (Num.gt (Raw.price row) (Fin 0)) eqn:Hgt.
    + left. split; reflexivity.
    + right. eauto.
  - right. eauto.
Qed.

(** C3, as amended.  After aggregation a confidence score that is a number
    is an integer and is at most 100, and it is an integer from 0 to 100 as
    soon as the average score and the review total are non-negative reals;
    the price is strictly positive for every row: the source price when that
    is positive, else an integer of one of the four brackets. *)
Theorem confidence_and_price_after_aggregation (w : World) (i : nat) (row : Raw.HotelData) :
  0 <= Math_random w i < 1 ->
  let h := aggregateRow w i row in
  (forall c : R, Agg.confidenceScore h = Fin c -> c <= 100 /\ exists z : Z, c = IZR z)
  /\ (forall a t : R,
        Agg.averageScore h = Fin a -> Agg.totalReviews h = Fin t ->
        0 <= a -> 0 <= t -> percentage (Agg.confidenceScore h))
  /\ strictlyPositive (Agg.priceRange h)
  /\ ((Num.gt (Raw.price row) (Fin 0) = true /\ Agg.priceRange h = Raw.price row)
      \/ inBracket 4000 7000 (Agg.priceRange h)
      \/ inBracket 2500 3500 (Agg.priceRange h)
      \/ inBracket 1500 2500 (Agg.priceRange h)
      \/ inBracket 800 1300 (Agg.priceRange h)).
Proof.
  intros Hu h.
  assert (Hprice :
    (Num.gt (Raw.price row) (Fin 0) = true /\ Agg.priceRange h = Raw.price row)
    \/ inBracket 4000 7000 (Agg.priceRange h)
    \/ inBracket 2500 3500 (Agg.priceRange h)
    \/ inBracket 1500 2500 (Agg.priceRange h)
    \/ inBracket 800 1300 (Agg.priceRange h)).
  { destruct (priceRange_cases w i row) as [H | (tags & avg & H)].
    - left. exact H.
    - right. unfold h. rewrite H. apply estimatePriceRange_bracket. exact Hu. }
  repeat split.
  - unfold h in H. rewrite confidenceScore_unfold in H.
    apply confidence_at_most_100 in H. tauto.
  - unfold h in H. rewrite confidenceScore_unfold in H.
    apply confidence_at_most_100 in H. tauto.
  - intros a t Ha Ht Ha0 Ht0. unfold h. rewrite confidenceScore_unfold.
    fold h. rewrite Ha, Ht. now apply confidence_percentage.
  - destruct Hprice as [[Hgt ->] | [H | [H | [H | H]]]].
    + now apply gt_zero_positive.
    + eapply inBracket_positive; [| exact H]; lra.
    + eapply inBracket_positive; [| exact H]; lra.
    + eapply inBracket_positive; [| exact H]; lra.
    + eapply inBracket_positive; [| exact H]; lra.
  - exact Hprice.
Qed.

Lemma silent_rated_average (r : R) :
  r <> 0 -> Agg.averageScore (aggregateRow silentWorld 0 (ratedRow r)) = Fin r.
Proof.
  intros Hr.
  change (Agg.averageScore (aggregateRow silentWorld 0 (ratedRow r)))
    with (Num.or (Fin r) (Fin 0)).
  apply or_truthy. now apply truthy_fin.
Qed.

Lemma confidence_and_price_witness :
  0 <= Math_random silentWorld 0 < 1
  /\ strictlyPositive (Agg.priceRange (aggregateRow silentWorld 0 (ratedRow 8)))
  /\ percentage (Agg.confidenceScore (aggregateRow silentWorld 0 (ratedRow 8))).
Proof.
  assert (Hu : 0 <= Math_random silentWorld 0 < 1) by (simpl; lra).
  pose proof (confidence_and_price_after_aggregation silentWorld 0 (ratedRow 8) Hu)
    as (_ & Hconf & Hpos & _).
  split; [exact Hu |]. split; [exact Hpos |].
  apply (Hconf 8 0); [apply silent_rated_average; lra | reflexivity | lra | lra].
Defined.

Lemma silent_rated_confidence (r : R) :
  r <> 0 ->
  Agg.confidenceScore (aggregateRow silentWorld 0 (ratedRow r))
  = calculateConfidenceScore (Fin r) (Fin 0) (Fin 1) (Fin 0).
Proof.
  intros Hr. rewrite confidenceScore_unfold.
  change (Agg.totalReviews (aggregateRow silentWorld 0 (ratedRow r))) with (Fin 0).
  now rewrite silent_rated_average.
Qed.

(** C3 as stated fails: a row whose source rating is -10 (and that has no
    platform ratings) gets the confidence score -40. *)
Lemma confidence_negative_counterexample :
  Agg.confidenceScore (aggregateRow silentWorld 0 (ratedRow (-10))) = Fin (-40)
  /\ ~ percentage (Agg.confidenceScore (aggregateRow silentWorld 0 (ratedRow (-10)))).
Proof.
  assert (H : Agg.confidenceScore (aggregateRow silentWorld 0 (ratedRow (-10))) = Fin (-40)).
  { rewrite silent_rated_confidence by lra.
    rewrite calculateConfidenceScore_fin by lra.
    replace (0 + 1) with 1 by lra. rewrite ln_1.
    replace ((-10 / 10 * 0.5 + 0 / 10 * 0.3 + 1 / (1 + 0 + 1) * 0.2) * 100 + / 2)
      with (IZR (-40) + / 2) by lra.
    rewrite Int_part_IZR_half, min_fin. unfold Rmin.
    destruct (Rle_dec 100 (-40)); [lra | reflexivity]. }
  split; [exact H |].
  rewrite H. intros (z & Hz & Hrange). injection Hz as Hz.
  apply eq_IZR in Hz. lia.
Qed.

(** ** The aggregator: average score *)

Lemma finiteEntry_fin (p : PlatformRating) :
  finiteEntry p ->
  orZero (rating p) = Fin (ratingR p) /\ orZero (reviews_count p) = Fin (countR p).
Proof.
  unfold finiteEntry, ratingR, countR. intros [Hr Hc].
  destruct (orZero (rating p)), (orZero (reviews_count p)); try discriminate.
  split; reflexivity.
Qed.

Lemma fold_weighted_total (l : list PlatformRating) (acc : R) :
  Forall finiteEntry l ->
  fold_left
    (fun a p => Num.add a (Num.mul (orZero (rating p)) (orZero (reviews_count p))))
    l (Fin acc)
  = Fin (acc + sumR (fun p => ratingR p * countR p) l).
Proof.
  intros H. revert acc. induction H as [| p l Hp _ IH]; intros acc; simpl.
  - f_equal. lra.
  - destruct (finiteEntry_fin p Hp) as [-> ->]. cbn [Num.mul Num.add].
    rewrite IH. f_equal. lra.
Qed.

Lemma fold_count_total (l : list PlatformRating) (acc : R) :
  Forall finiteEntry l ->
  fold_left (fun a p => Num.add a (orZero (reviews_count p))) l (Fin acc)
  = Fin (acc + sumR countR l).
Proof.
  intros H. revert acc. induction H as [| p l Hp _ IH]; intros acc; simpl.
  - f_equal. lra.
  - destruct (finiteEntry_fin p Hp) as [_ ->]. cbn [Num.add].
    rewrite IH. f_equal. lra.
Qed.

Lemma fold_rating_total (l : list PlatformRating) (acc : R) :
  Forall finiteEntry l ->
  fold_left (fun a p => Num.add a (orZero (rating p))) l (Fin acc)
  = Fin (acc + sumR ratingR l).
Proof.
  intros H. revert acc. induction H as [| p l Hp _ IH]; intros acc; simpl.
  - f_equal. lra.
  - destruct (finiteEntry_fin p Hp) as [-> _]. cbn [Num.add].
    rewrite IH. f_equal. lra.
Qed.

Lemma computeWeightedAverage_nil (r : PlatformRatings) :
  entriesOf r = [] -> computeWeightedAverage r = Fin 0.
Proof. intros H. unfold computeWeightedAverage. now rewrite H. Qed.

Lemma computeWeightedAverage_weighted (r : PlatformRatings) :
  Forall finiteEntry (entriesOf r) -> entriesOf r <> [] ->
  sumR countR (entriesOf r) <> 0 ->
  computeWeightedAverage r = Fin (weightedMean (entriesOf r)).
Proof.
  intros Hfin Hne Hsum. unfold computeWeightedAverage.
  destruct (entriesOf r) as [| p l] eqn:E; [contradiction |].
  cbn [length Nat.eqb].
  rewrite fold_weighted_total, fold_count_total by assumption.
  rewrite !Rplus_0_l.
  assert (Ht : Num.truthy (Fin (sumR countR (p :: l))) = true) by now apply truthy_fin.
  rewrite Ht. now rewrite div_fin.
Qed.

Lemma computeWeightedAverage_plain (r : PlatformRatings) :
  Forall finiteEntry (entriesOf r) -> entriesOf r <> [] ->
  sumR countR (entriesOf r) = 0 ->
  computeWeightedAverage r = Fin (plainMean (entriesOf r)).
Proof.
  intros Hfin Hne Hsum. unfold computeWeightedAverage.
  destruct (entriesOf r) as [| p l] eqn:E; [contradiction |].
  cbn [length Nat.eqb].
  rewrite fold_count_total, fold_rating_total by assumption.
  rewrite !Rplus_0_l, Hsum.
  assert (Ht : Num.truthy (Fin 0) = false).
  { simpl. now rewrite Reqb_true. }
  rewrite Ht. unfold Num.of_nat. rewrite div_fin; [reflexivity |].
  apply not_0_INR. discriminate.
Qed.

Lemma sumR_bounds (l : list PlatformRating) :
  Forall (fun p => finiteEntry p /\ 0 <= ratingR p <= 10 /\ 0 <= countR p) l ->
  0 <= sumR countR l
  /\ 0 <= sumR (fun p => ratingR p * countR p) l <= 10 * sumR countR l
  /\ 0 <= sumR ratingR l <= 10 * INR (length l).
Proof.
  induction 1 as [| p l (_ & Hr & Hc) _ IH].
  - simpl. lra.
  - cbn [sumR fold_right length]. fold (sumR countR l).
    fold (sumR (fun p => ratingR p * countR p) l). fold (sumR ratingR l).
    rewrite S_INR. nra.
Qed.

Lemma computeWeightedAverage_onTenScale (r : PlatformRatings) :
  Forall (fun p => finiteEntry p /\ 0 <= ratingR p <= 10 /\ 0 <= countR p) (entriesOf r) ->
  onTenScale (computeWeightedAverage r).
Proof.
  intros H.
  assert (Hfin : Forall finiteEntry (entriesOf r)).
  { eapply List.Forall_impl; [| exact H]. simpl. tauto. }
  destruct (sumR_bounds _ H) as (Hc & Hw & Hp).
  destruct (entriesOf r) as [| p l] eqn:E.
  - rewrite computeWeightedAverage_nil by assumption. exists 0. split; [reflexivity | lra].
  - destruct (Req_dec_T (sumR countR (p :: l)) 0) as [Hz | Hnz].
    + rewrite computeWeightedAverage_plain; rewrite ?E; try assumption; try discriminate.
      exists (plainMean (p :: l)). split; [reflexivity |].
      unfold plainMean.
      assert (Hn : 0 < INR (length (p :: l))) by (apply lt_0_INR; simpl; lia).
      split.
      * apply Rmult_le_reg_r with (INR (length (p :: l))); [assumption |].
        unfold Rdiv. rewrite Rmult_assoc, Rinv_l by lra. lra.
      * apply Rmult_le_reg_r with (INR (length (p :: l))); [assumption |].
        unfold Rdiv. rewrite Rmult_assoc, Rinv_l by lra. lra.
    + rewrite computeWeightedAverage_weighted; rewrite ?E; try assumption; try discriminate.
      exists (weightedMean (p :: l)). split; [reflexivity |].
      unfold weightedMean.
      assert (Hn : 0 < sumR countR (p :: l)) by lra.
      split.
      * apply Rmult_le_reg_r with (sumR countR (p :: l)); [assumption |].
        unfold Rdiv. rewrite Rmult_assoc, Rinv_l by lra. lra.
      * apply Rmult_le_reg_r with (sumR countR (p :: l)); [assumption |].
        unfold Rdiv. rewrite Rmult_assoc, Rinv_l by lra. lra.
Qed.

Lemma averageScore_unfold (w : World) (i : nat) (row : Raw.HotelData) :
  Agg.averageScore (aggregateRow w i row)
  = Num.or (Raw.average_rating row)
      (computeWeightedAverage (Agg.platformRatings (aggregateRow w i row))).
Proof. reflexivity. Qed.

Lemma orZero_fin (x : R) : x <> 0 -> orZero (Some (Fin x)) = Fin x.
Proof. intros H. cbn [orZero]. apply or_truthy. now apply truthy_fin. Qed.

(** Ratings 8 (100 reviews) and 6 (300 reviews) average to 6.5, over 400
    reviews. *)
Example weighted_average_example :
  Agg.averageScore (aggregateRow ratingsWorld 0 summaryRow) = Fin 6.5
  /\ Agg.totalReviews (aggregateRow ratingsWorld 0 summaryRow) = Fin 400.
Proof.
  split.
  - rewrite averageScore_unfold.
    change (Agg.platformRatings (aggregateRow ratingsWorld 0 summaryRow)) with twoPlatforms.
    rewrite or_falsy by (cbn; now rewrite Reqb_true).
    unfold computeWeightedAverage.
    cbn [entriesOf values twoPlatforms map snd omap list_omap length Nat.eqb fold_left
         rating reviews_count].
    rewrite !orZero_fin by lra. cbn [Num.mul Num.add].
    replace (Num.truthy (Fin (0 + 100 + 300))) with true
      by (symmetry; apply truthy_fin; lra).
    rewrite div_fin by lra. f_equal. lra.
  - cbn [aggregateRow Agg.totalReviews].
    change (parsePlatformRatings ratingsWorld summaryRow) with twoPlatforms.
    cbn [values twoPlatforms map snd fold_left countOf reviews_count].
    rewrite !orZero_fin by lra. cbn [Num.add]. f_equal. lra.
Qed.

(** ** The city stage *)

Lemma mergeUnique_In (l : list AggregatedHotel) (seen : gset string) (h : AggregatedHotel) :
  In h (mergeUnique seen l) -> In h l /\ hotelKey h ∉ seen.
Proof.
  revert seen. induction l as [| x l IH]; intros seen; simpl; [tauto |].
  destruct (decide (hotelKey x ∈ seen)) as [Hin | Hnin].
  - intros H. apply IH in H. tauto.
  - intros [<- | H]; [tauto |].
    apply IH in H as [H1 H2]. split; [tauto |].
    intros Hc. apply H2. apply elem_of_union. now right.
Qed.

Lemma mergeUnique_NoDup (l : list AggregatedHotel) (seen : gset string) :
  List.NoDup (map hotelKey (mergeUnique seen l)).
Proof.
  revert seen. induction l as [| x l IH]; intros seen; simpl; [constructor |].
  destruct (decide (hotelKey x ∈ seen)) as [Hin | Hnin]; [apply IH |].
  simpl. constructor; [| apply IH].
  intros Hk. apply in_map_iff in Hk as (h & Hkey & Hh).
  apply mergeUnique_In in Hh as [_ Hh]. set_solver.
Qed.

Lemma mergeUnique_complete (l : list AggregatedHotel) (seen : gset string) (h : AggregatedHotel) :
  In h l -> hotelKey h ∉ seen ->
  exists h', In h' (mergeUnique seen l) /\ hotelKey h' = hotelKey h.
Proof.
  revert seen. induction l as [| x l IH]; intros seen; simpl; [tauto |].
  intros Hin Hnot. destruct (decide (hotelKey x ∈ seen)) as [Hx | Hx].
  - destruct Hin as [-> | Hin]; [contradiction |]. now apply IH.
  - destruct (decide (hotelKey x = hotelKey h)) as [Heq | Hne].
    + exists x. split; [now left | exact Heq].
    + destruct Hin as [-> | Hin]; [contradiction |].
      destruct (IH ({[hotelKey x]} ∪ seen) Hin) as (h' & Hh' & Hk).
      { intros Hc. apply elem_of_union in Hc as [Hc | Hc]; [| contradiction].
        apply elem_of_singleton in Hc. congruence. }
      exists h'. split; [now right | exact Hk].
Qed.

Lemma mergeUnique_sublist (l : list AggregatedHotel) (seen : gset string) :
  sublist (mergeUnique seen l) l.
Proof.
  revert seen. induction l as [| x l IH]; intros seen; simpl; [constructor |].
  destruct (decide (hotelKey x ∈ seen)).
  - apply sublist_cons, IH.
  - apply sublist_skip, IH.
Qed.

Lemma mergeUnique_nil (l : list AggregatedHotel) :
  mergeUnique ∅ l = [] -> l = [].
Proof.
  destruct l as [| x l]; [reflexivity |]. simpl.
  destruct (decide (hotelKey x ∈ (∅ : gset string))) as [Hin | _]; [set_solver | discriminate].
Qed.

Lemma city_union_In (all : list AggregatedHotel) (target : string) (h : AggregatedHotel) :
  In h (byExact all target ++ byAddress all target)
  <-> In h all /\ cityMatches target h = true.
Proof.
  unfold byExact, byAddress, cityMatches.
  rewrite in_app_iff, !filter_In, orb_true_iff. tauto.
Qed.

Lemma cityFilter_given (all : list AggregatedHotel) (city : string) :
  cityGiven city = true ->
  cityFilter all city
  = match mergeUnique ∅ (byExact all (Str.toLowerCase city) ++ byAddress all (Str.toLowerCase city)) with
    | [] => all
    | merged => merged
    end.
Proof.
  intros H. unfold cityFilter. rewrite H.
  destruct (mergeUnique _ _); reflexivity.
Qed.

(** For a city that is given, the city stage yields the hotels whose city
    equals the target or whose address contains it, case put aside, in the
    order exact matches first, one hotel kept for each merge key
    [name|address]; and when no hotel matches, the whole collection: the
    stage never empties a non-empty collection. *)
Theorem city_filter_union (all : list AggregatedHotel) (city : string) :
  cityGiven city = true ->
  let target := Str.toLowerCase city in
  let union := byExact all target ++ byAddress all target in
  let out := cityFilter all city in
  ((forall h, In h all -> cityMatches target h = false) -> out = all)
  /\ ((exists h, In h all /\ cityMatches target h = true) ->
        out = mergeUnique ∅ union
        /\ (forall h, In h out -> In h all /\ cityMatches target h = true)
        /\ (forall h, In h all -> cityMatches target h = true ->
              exists h', In h' out /\ hotelKey h' = hotelKey h)
        /\ List.NoDup (map hotelKey out)
        /\ sublist out union)
  /\ (all <> [] -> out <> []).
Proof.
  intros Hgiven target union out.
  assert (Hout : out = match mergeUnique ∅ union with [] => all | m => m end)
    by (apply cityFilter_given; exact Hgiven).
  split; [| split].
  - intros Hnone. rewrite Hout.
    assert (Hu : union = []).
    { destruct union as [| x u] eqn:E; [reflexivity |].
      assert (Hx : In x union) by (rewrite E; now left).
      apply city_union_In in Hx as [Hx Hm]. rewrite (Hnone x Hx) in Hm. discriminate. }
    rewrite Hu. reflexivity.
  - intros (h0 & Hin0 & Hm0).
    assert (Hu0 : In h0 union) by (apply city_union_In; tauto).
    assert (Hmerged : out = mergeUnique ∅ union).
    { rewrite Hout. destruct (mergeUnique ∅ union) eqn:E; [| reflexivity].
      apply mergeUnique_nil in E. rewrite E in Hu0. destruct Hu0. }
    split; [exact Hmerged |]. rewrite Hmerged. repeat split.
    + apply mergeUnique_In in H as [H _]. now apply city_union_In in H.
    + apply mergeUnique_In in H as [H _]. now apply city_union_In in H.
    + intros h Hh Hm. apply mergeUnique_complete; [apply city_union_In; tauto | set_solver].
    + apply mergeUnique_NoDup.
    + apply mergeUnique_sublist.
  - intros Hall. rewrite Hout. destruct (mergeUnique ∅ union); [exact Hall | discriminate].
Qed.

Lemma city_filter_witness :
  cityGiven "Goa" = true
  /\ cityFilter [barHotelA] "Goa" <> [].
Proof.
  assert (Hg : cityGiven "Goa" = true) by reflexivity.
  split; [exact Hg |].
  apply (city_filter_union [barHotelA] "Goa" Hg). discriminate.
Defined.

(** C4.  The merge of the city stage, commented "Merge unique", tells hotels
    apart by the string [name|address], not by the pair: these two hotels
    of Goa differ in name and in address, both match the city, and the
    second is dropped because its key spells the same string as the
    first's. *)
Lemma city_filter_pair_counterexample :
  (Agg.name barHotelA, Agg.address barHotelA) <> (Agg.name barHotelB, Agg.address barHotelB)
  /\ cityMatches (Str.toLowerCase "Goa") barHotelB = true
  /\ cityFilter [barHotelA; barHotelB] "Goa" = [barHotelA]
  /\ ~ In barHotelB (cityFilter [barHotelA; barHotelB] "Goa").
Proof.
  assert (Hout : cityFilter [barHotelA; barHotelB] "Goa" = [barHotelA])
    by (vm_compute; reflexivity).
  split; [discriminate |]. split; [reflexivity |]. split; [exact Hout |].
  rewrite Hout. intros [H | []]. discriminate H.
Qed.

(** ** [Array.prototype.sort] *)

Section SortFacts.
Context {A : Type} (after : A -> A -> bool).

Lemma insertBy_Permutation (x : A) (l : list A) :
  Permutation (Arr.insertBy after x l) (x :: l).
Proof.
  induction l as [| y l IH]; simpl; [reflexivity |].
  destruct (after x y); [| reflexivity].
  rewrite IH. apply perm_swap.
Qed.

Lemma sortBy_Permutation (l : list A) : Permutation (Arr.sortBy after l) l.
Proof.
  induction l as [| x l IH]; simpl; [reflexivity |].
  rewrite insertBy_Permutation. now apply perm_skip.
Qed.

Lemma sortBy_length (l : list A) : length (Arr.sortBy after l) = length l.
Proof. apply Permutation_length, sortBy_Permutation. Qed.

Lemma sortBy_In (l : list A) (x : A) : In x (Arr.sortBy after l) <-> In x l.
Proof.
  split; apply Permutation_in; [| symmetry]; apply sortBy_Permutation.
Qed.



(** Order: on elements where the comparator is a strict weak order, the
    result is sorted. *)
Variable good : A -> Prop.
Hypothesis after_asym :
  forall x y, good x -> good y ->
    after x y = true -> after y x = false.
Hypothesis not_after_trans :
  forall x y z, good x -> good y -> good z ->
    after x y = false -> after y z = false ->
    after x z = false.

Let precedes (x y : A) : Prop := after x y = false.

Lemma insertBy_StronglySorted (x : A) (l : list A) :
  good x -> List.Forall good l ->
  StronglySorted precedes l -> StronglySorted precedes (Arr.insertBy after x l).
Proof.
  intros Hx Hl Hs. induction Hs as [| y l Hs IH Hy]; simpl.
  - repeat constructor.
  - apply List.Forall_cons_iff in Hl as [Hgy Hgl].
    destruct (after x y) eqn:Hxy.
    + constructor; [now apply IH |].
      apply List.Forall_forall. intros z Hz.
      apply (Permutation_in _ (insertBy_Permutation x l)) in Hz.
      destruct Hz as [<- | Hz].
      * now apply after_asym.
      * rewrite List.Forall_forall in Hy. now apply Hy.
    + constructor; [now constructor |].
      constructor; [exact Hxy |].
      rewrite List.Forall_forall in Hy, Hgl |- *. intros z Hz.
      apply (not_after_trans x y z); auto. now apply Hy.
Qed.

Lemma sortBy_StronglySorted (l : list A) :
  List.Forall good l -> StronglySorted precedes (Arr.sortBy after l).
Proof.
  induction l as [| x l IH]; intros Hl; simpl; [constructor |].
  apply List.Forall_cons_iff in Hl as [Hx Hl].
  apply insertBy_StronglySorted; auto.
  rewrite List.Forall_forall in Hl |- *. intros z Hz. apply Hl.
  exact (proj1 (sortBy_In l z) Hz).
Qed.
End SortFacts.


Lemma sort_length {A : Type} (comparator : A -> A -> number) (l : list A) :
  length (Arr.sort comparator l) = length l.
Proof. apply sortBy_length. Qed.

Lemma sort_In {A : Type} (comparator : A -> A -> number) (l : list A) (x : A) :
  In x (Arr.sort comparator l) <-> In x l.
Proof. apply sortBy_In. Qed.



Lemma StronglySorted_take {A : Type} (R : A -> A -> Prop) (n : nat) (l : list A) :
  StronglySorted R l -> StronglySorted R (take n l).
Proof.
  intros H. revert n. induction H as [| x l Hs IH Hx]; intros [| n]; simpl; try constructor.
  - apply IH.
  - rewrite List.Forall_forall in Hx |- *. intros y Hy. apply Hx.
    clear -Hy. revert n Hy. induction l as [| z l IHl]; intros [| n] Hy; simpl in *; try tauto.
    destruct Hy as [-> | Hy]; [now left | right; eauto].
Qed.

Lemma StronglySorted_weaken {A : Type} (R S : A -> A -> Prop) (P : A -> Prop) (l : list A) :
  (forall x y, P x -> P y -> R x y -> S x y) ->
  List.Forall P l -> StronglySorted R l -> StronglySorted S l.
Proof.
  intros HRS HP H. induction H as [| x l Hs IH Hx]; [constructor |].
  apply List.Forall_cons_iff in HP as [Hpx HP].
  constructor; [now apply IH |].
  rewrite List.Forall_forall in Hx, HP |- *. intros y Hy. apply HRS; auto.
Qed.

(** Sorting decorated elements by the decoration is sorting by the key. *)
Lemma sort_decorated {A : Type} (key : A -> number) (cmp : number -> number -> number)
    (l : list A) :
  map fst (Arr.sort (fun a b => cmp (snd a) (snd b)) (map (fun h => (h, key h)) l))
  = Arr.sort (fun a b => cmp (key a) (key b)) l.
Proof.
  set (dec := fun h : A => (h, key h)).
  assert (Hins : forall x (d : list A),
    Arr.insertBy (Arr.after (fun a b => cmp (snd a) (snd b))) (dec x) (map dec d)
    = map dec (Arr.insertBy (Arr.after (fun a b => cmp (key a) (key b))) x d)).
  { intros x d. induction d as [| y d IH]; [reflexivity |].
    cbn [map Arr.insertBy]. unfold Arr.after at 1 3. cbn [snd dec].
    destruct (Num.gt (cmp (key x) (key y)) Num.zero); [| reflexivity].
    cbn [map]. f_equal. exact IH. }
  assert (Hsort : Arr.sort (fun a b => cmp (snd a) (snd b)) (map dec l)
                  = map dec (Arr.sort (fun a b => cmp (key a) (key b)) l)).
  { unfold Arr.sort. induction l as [| x l IH]; [reflexivity |].
    cbn [map Arr.sortBy]. now rewrite IH, Hins. }
  rewrite Hsort, map_map. cbn [dec fst]. apply map_id.
Qed.

(** ** Comparators that subtract keys *)





(** ** The ranking: order, ties and length *)

Lemma topHotels_unfold (scored : list ScoredHotel) :
  topHotels scored = take 5 (Arr.sort byScoreDescending scored).
Proof. reflexivity. Qed.

(** ** The popularity fallback *)

Lemma mapThrowing_Normal {A B : Type} (f : A -> completion B) (l : list A) (ys : list B) :
  mapThrowing f l = Normal ys -> Forall2 (fun x y => f x = Normal y) l ys.
Proof.
  revert ys. induction l as [| x l IH]; intros ys; simpl.
  - intros [= <-]. constructor.
  - destruct (f x) as [y |] eqn:Hx; [| discriminate].
    destruct (mapThrowing f l) as [ys' |]; [| discriminate].
    intros [= <-]. constructor; [exact Hx | now apply IH].
Qed.

Lemma popularityScore_formula (h : AggregatedHotel) :
  popularityScore h
  = {| hotel := h;
       finalScore := popularityFormula (Agg.averageScore h) (Agg.totalReviews h) |}.
Proof.
  unfold popularityScore, popularityFormula. f_equal.
  fold (reviewVolumeConfidence (Agg.totalReviews h)). unfold reviewConfidence.
  fold (reviewVolumeConfidence (Agg.totalReviews h)).
  rewrite (mul_comm (Fin 100)), (mul_comm (Fin 0.7)), (mul_comm (Fin 0.3)).
  reflexivity.
Qed.

Lemma scoredHotelsOf_no_hit (w : World) (cands : list AggregatedHotel) (persona q : string) :
  Fuse_search w rankFuseOptions cands q = [] ->
  scoredHotelsOf w cands persona q = Normal (map popularityScore cands).
Proof. intros H. unfold scoredHotelsOf. now rewrite H. Qed.

(** ** Keywords in joined texts *)

Lemma append_empty (s : string) : EmptyString +:+ s = s.
Proof. reflexivity. Qed.

Lemma append_cons (c : ascii) (a s : string) : String c a +:+ s = String c (a +:+ s).
Proof. reflexivity. Qed.

Lemma toLowerCase_app (a b : string) :
  Str.toLowerCase (a +:+ b) = Str.toLowerCase a +:+ Str.toLowerCase b.
Proof.
  induction a as [| c a IH]; [reflexivity |].
  rewrite append_cons. cbn [Str.toLowerCase]. now rewrite IH, append_cons.
Qed.

Lemma toLowerCase_join (l : list string) :
  Str.toLowerCase (Str.join " " l) = Str.join " " (map Str.toLowerCase l).
Proof.
  induction l as [| x l IH]; [reflexivity |].
  destruct l as [| y l]; [reflexivity |].
  change (Str.join " " (x :: y :: l)) with (x +:+ " " +:+ Str.join " " (y :: l)).
  change (Str.join " " (map Str.toLowerCase (x :: y :: l)))
    with (Str.toLowerCase x +:+ " " +:+ Str.join " " (map Str.toLowerCase (y :: l))).
  rewrite !toLowerCase_app, IH. reflexivity.
Qed.

Lemma prefix_before_blank (kw x y : string) :
  noBlank kw = true ->
  String.prefix kw (x +:+ " " +:+ y) = String.prefix kw x.
Proof.
  revert x. induction kw as [| k kw IH]; intros x Hkw.
  - destruct x; reflexivity.
  - cbn [noBlank] in Hkw. apply andb_true_iff in Hkw as [Hk Hkw].
    destruct x as [| c x].
    + rewrite append_empty, append_cons. cbn [String.prefix].
      destruct (ascii_dec k " ") as [-> | _]; [discriminate | reflexivity].
    + rewrite append_cons. cbn [String.prefix].
      destruct (ascii_dec k c); [now apply IH | reflexivity].
Qed.

Lemma includes_empty (kw : string) : Str.nonempty kw = true -> Str.includes EmptyString kw = false.
Proof. destruct kw; [discriminate | reflexivity]. Qed.

Lemma includes_blank_app (kw a b : string) :
  isWord kw = true ->
  Str.includes (a +:+ " " +:+ b) kw = Str.includes a kw || Str.includes b kw.
Proof.
  unfold isWord. intros Hw. apply andb_true_iff in Hw as [Hne Hnb].
  induction a as [| c a IH].
  - rewrite includes_empty by assumption.
    rewrite append_empty, append_cons, append_empty. cbn [Str.includes].
    destruct kw as [| k kw]; [discriminate |].
    cbn [noBlank] in Hnb. apply andb_true_iff in Hnb as [Hk _].
    cbn [String.prefix]. destruct (ascii_dec k " ") as [-> | _]; [discriminate | reflexivity].
  - rewrite append_cons. cbn [Str.includes]. rewrite IH, <- append_cons.
    rewrite prefix_before_blank by assumption. now rewrite orb_assoc.
Qed.

Lemma includes_join (kw : string) (l : list string) :
  isWord kw = true ->
  Str.includes (Str.join " " l) kw = existsb (fun t => Str.includes t kw) l.
Proof.
  intros Hw. induction l as [| x l IH].
  - apply includes_empty. unfold isWord in Hw. now apply andb_true_iff in Hw as [Hne _].
  - destruct l as [| y l].
    + cbn [existsb]. now rewrite orb_false_r.
    + change (Str.join " " (x :: y :: l)) with (x +:+ " " +:+ Str.join " " (y :: l)).
      rewrite includes_blank_app by assumption. now rewrite IH.
Qed.

Lemma existsb_map_lower (kw : string) (l : list string) :
  existsb (fun t => Str.includes t kw) (map Str.toLowerCase l)
  = existsb (fun t => Str.includes (Str.toLowerCase t) kw) l.
Proof. induction l as [| x l IH]; [reflexivity |]. cbn [map existsb]. now rewrite IH. Qed.

(** What [getPersonaBonus] tests on the joined texts is the occurrence of
    the keyword in one tag or in one review. *)
Lemma keyword_test (h : AggregatedHotel) (kw : string) :
  isWord kw = true ->
  Str.includes (Str.toLowerCase (Str.join " " (Agg.tags h))) kw
  || Str.includes (Str.toLowerCase (Str.join " " (Agg.reviews h))) kw
  = occursIn kw (Agg.tags h ++ Agg.reviews h).
Proof.
  intros Hw. unfold occursIn. rewrite existsb_app, !toLowerCase_join.
  rewrite !includes_join by assumption. now rewrite !existsb_map_lower.
Qed.

(** ** The final score of a fuzzy match *)

Lemma getProperty_Own {A : Type} (table : list (string * A)) (key : string) (v : A) :
  getProperty table key = Own v <-> assoc key table = Some v.
Proof.
  unfold getProperty. destruct (assoc key table) as [v' |].
  - split; intros [= ->]; reflexivity.
  - destruct (existsb _ _); split; discriminate.
Qed.

Lemma getProperty_Missing {A : Type} (table : list (string * A)) (key : string) :
  getProperty table key = Missing -> assoc key table = None.
Proof.
  unfold getProperty. destruct (assoc key table); [discriminate | reflexivity].
Qed.

Lemma getProperty_not_inherited {A : Type} (table : list (string * A)) (key : string) :
  existsb (String.eqb key) Object_prototype_keys = false ->
  getProperty table key <> Inherited.
Proof.
  intros H. unfold getProperty. destruct (assoc key table); [discriminate |].
  rewrite H. discriminate.
Qed.

Lemma bonusKeywords_words (persona : string) (keywords : list string) :
  assoc persona bonusKeywords = Some keywords ->
  List.Forall (fun k => isWord k = true) keywords.
Proof.
  unfold bonusKeywords. cbn [assoc].
  repeat match goal with
    | |- context [String.eqb ?a persona] => destruct (String.eqb a persona)
    end;
    intros [= <-] || discriminate;
    repeat constructor.
Qed.

Lemma bonus_fold (h : AggregatedHotel) (keywords : list string) (acc : R) :
  List.Forall (fun k => isWord k = true) keywords ->
  fold_left
    (bonusStep (Str.toLowerCase (Str.join " " (Agg.tags h)))
               (Str.toLowerCase (Str.join " " (Agg.reviews h))))
    keywords (Fin acc)
  = Fin (acc + 0.02 * INR (length
           (List.filter (fun k => occursIn k (Agg.tags h ++ Agg.reviews h)) keywords))).
Proof.
  intros H. revert acc. induction H as [| k l Hk _ IH]; intros acc.
  - cbn. f_equal. lra.
  - cbn [fold_left List.filter]. unfold bonusStep at 2.
    rewrite keyword_test by assumption.
    destruct (occursIn k _).
    + cbn [Num.add length]. rewrite IH, S_INR. f_equal. lra.
    + apply IH.
Qed.

Lemma getPersonaBonus_Normal (h : AggregatedHotel) (persona : string) (b : number) :
  getPersonaBonus h persona = Normal b -> b = personaBonus h persona.
Proof.
  unfold getPersonaBonus, personaBonus.
  destruct (getProperty bonusKeywords persona) as [keywords | |] eqn:E.
  - apply getProperty_Own in E. rewrite E. intros [= <-].
    rewrite bonus_fold by (eapply bonusKeywords_words; exact E).
    cbn [Num.mul Num.of_nat]. now rewrite Rplus_0_l.
  - discriminate.
  - apply getProperty_Missing in E. rewrite E. intros [= <-].
    cbn [fold_left]. now rewrite Rltb_false by lra.
Qed.

Lemma calculateFinalScore_Normal (h : AggregatedHotel) (persona : string)
    (similarity v : number) :
  calculateFinalScore h persona similarity = Normal v ->
  v = finalScoreFormula (Agg.averageScore h) similarity (Agg.totalReviews h)
        (Agg.positiveWordCount h) (Agg.negativeWordCount h) (personaBonus h persona).
Proof.
  unfold calculateFinalScore. cbv zeta.
  destruct (getPersonaBonus h persona) as [b |] eqn:E; [| discriminate].
  apply getPersonaBonus_Normal in E. subst b. intros [= <-].
  unfold finalScoreFormula, reviewConfidence.
  fold (reviewVolumeConfidence (Agg.totalReviews h)).
  fold (sentimentRatio (Agg.positiveWordCount h) (Agg.negativeWordCount h)).
  rewrite (mul_comm (Fin 100)), (mul_comm (Fin 0.4)), (mul_comm (Fin 0.3)).
  rewrite !(mul_comm (Fin 0.15)).
  set (t := Num.mul (Num.div (Agg.averageScore h) (Fin 10)) (Fin 0.4)).
  do 6 f_equal. destruct t; try reflexivity. f_equal. lra.
Qed.

Lemma Forall2_In_r {A B : Type} (P : A -> B -> Prop) (l : list A) (k : list B) (y : B) :
  Forall2 P l k -> In y k -> exists x, In x l /\ P x y.
Proof.
  induction 1 as [| x y' l k Hxy _ IH]; simpl; [tauto |].
  intros [<- | Hy].
  - exists x. split; [now left | exact Hxy].
  - destruct (IH Hy) as (x' & Hx' & HP). exists x'. split; [now right | exact HP].
Qed.

Lemma In_take {A : Type} (n : nat) (l : list A) (x : A) : In x (take n l) -> In x l.
Proof.
  revert n. induction l as [| y l IH]; intros [| n]; simpl; try tauto.
  intros [-> | H]; [now left | right; eauto].
Qed.

(** The request returns for every persona that does not name a property
    inherited from [Object.prototype]. *)
Lemma recommend_returns (w : World) (all : list AggregatedHotel)
    (persona city : string) (preferences : list string) (options : option Options) :
  existsb (String.eqb persona) Object_prototype_keys = false ->
  exists res, recommend w all persona city preferences options = Normal res.
Proof.
  intros Hp. unfold recommend, scoredHotelsOf.
  set (hits := Fuse_search w rankFuseOptions _ _).
  assert (Hmap : exists ys, mapThrowing (scoreResult persona) hits = Normal ys).
  { induction hits as [| r hits [ys IH]]; [now exists [] |].
    cbn [mapThrowing]. unfold scoreResult at 1, calculateFinalScore, getPersonaBonus.
    pose proof (getProperty_not_inherited bonusKeywords persona Hp) as Hni.
    destruct (getProperty bonusKeywords persona); try contradiction;
      rewrite IH; eauto. }
  destruct Hmap as [ys ->]. eauto.
Qed.

(** A persona that has no keywords earns no bonus. *)
Example personaBonus_unknown : personaBonus poolHotel "Backpacker" = Fin 0.
Proof. reflexivity. Qed.

(** A persona that names an inherited property makes the request throw as
    soon as one hotel is scored. *)
Example recommend_throws :
  recommend matchingWorld [poolHotel] "constructor" "all" [] None = Throw.
Proof. reflexivity. Qed.

(** The sample hotel with the pool, matched at distance 0.5 for the Family
    persona, scores 57. *)
Example poolHotel_final_score :
  finalScoreFormula (Agg.averageScore poolHotel) (Fin 0.5) (Agg.totalReviews poolHotel)
    (Agg.positiveWordCount poolHotel) (Agg.negativeWordCount poolHotel)
    (personaBonus poolHotel "Family")
  = Fin 57.
Proof.
  unfold finalScoreFormula, reviewVolumeConfidence, sentimentRatio.
  change (personaBonus poolHotel "Family")
    with (Num.min (Num.mul (Fin 0.02) (Num.of_nat 1)) (Fin 0.1)).
  cbn [poolHotel sampleHotel Agg.averageScore Agg.totalReviews Agg.positiveWordCount
       Agg.negativeWordCount Num.add Num.mul Num.of_nat INR].
  rewrite log_fin by lra. replace (0 + 1) with 1 by lra. rewrite ln_1.
  rewrite !div_fin by lra. rewrite !min_fin.
  cbn [Num.add Num.mul Num.round]. f_equal.
  replace (Rmin 1 (0 / 8)) with 0 by (unfold Rmin; destruct (Rle_dec 1 (0 / 8)); lra).
  replace (Rmin (0.02 * 1) 0.1) with 0.02 by (unfold Rmin; destruct (Rle_dec (0.02 * 1) 0.1); lra).
  replace (100 * (0.4 * (8 / 10) + 0.3 * 0.5 + 0.15 * 0 + 0.15 * (1 / (1 + 0 + 1)) + 0.02) + / 2)
    with (57 : R) by lra.
  apply f_equal. symmetry. apply Int_part_spec. lra.
Qed.

(** ** The haversine distance *)

(** ** The area stage *)

Lemma sortByDistance_sort (geo : Coordinates) (l : list AggregatedHotel) :
  sortByDistance geo l = Arr.sort (byDistanceAscending geo) l.
Proof.
  unfold sortByDistance, byDistanceAscending.
  apply (sort_decorated (distanceFrom geo) Num.sub).
Qed.


(** ** The empty collection *)

Lemma generateInsights_nil (city : string) : generateInsights [] city = emptyInsights city.
Proof.
  unfold generateInsights, emptyInsights.
  change (Num.of_nat (length (@nil AggregatedHotel))) with (Fin 0).
  cbn [fold_left flat_map]. rewrite div_zero_zero. reflexivity.
Qed.

Lemma candidatesOf_nil (w : World) (city : string) (options : option Options) :
  (forall opts q, Fuse_search w opts [] q = []) ->
  candidatesOf w [] city options = [].
Proof.
  intros Hfuse. unfold candidatesOf.
  assert (Hcity : cityFilter [] city = []).
  { unfold cityFilter. destruct (cityGiven city); reflexivity. }
  rewrite Hcity. destruct options as [o |]; [| reflexivity].
  cbn [applyOptions].
  assert (Hp : priceFilter o [] = []).
  { unfold priceFilter. destruct (priceMin o), (priceMax o); reflexivity. }
  assert (Hst : starFilter o [] = []).
  { unfold starFilter. destruct (starRatings o) as [[| s l] |]; reflexivity. }
  assert (Hr : ratingFilter o [] = []).
  { unfold ratingFilter. destruct (avgRatingMin o), (avgRatingMax o); reflexivity. }
  rewrite Hp, Hst, Hr. unfold areaFilter.
  destruct (areaGiven o) as [a |]; [| reflexivity].
  rewrite Hfuse. cbn [length Nat.eqb negb].
  destruct (geocode w _); reflexivity.
Qed.

(** On the empty collection every request returns, with no hotel and with
    insights whose two averages are NaN. *)
Lemma recommend_nil (w : World) (persona city : string) (preferences : list string)
    (options : option Options) :
  (forall opts q, Fuse_search w opts [] q = []) ->
  recommend w [] persona city preferences options
  = Normal {| hotels := []; insights := emptyInsights city |}.
Proof.
  intros Hfuse. unfold recommend.
  rewrite candidatesOf_nil by assumption.
  rewrite scoredHotelsOf_no_hit by apply Hfuse.
  now rewrite generateInsights_nil.
Qed.

Lemma initialize_load_failure (w : World) :
  fetchTable w = None -> initialize w newEngine = emptyEngine.
Proof.
  intros H. unfold initialize, loadHotelData. cbn [isInitialized newEngine].
  now rewrite H.
Qed.

(** C8, the failing case.  When the table does not load, the first request
    returns no hotel and an insights object whose [averageRating] and
    [cityStats.avgRating] are NaN (0 divided by 0). *)
Theorem load_failure_insights_nan :
  generateRecommendations silentWorld newEngine "Family" "Delhi" ["pool"] None
  = (emptyEngine,
     Normal {| hotels := [];
               insights :=
                 {| totalAnalyzed := Fin 0;
                    averageRating := NaN;
                    topFeatures := [];
                    cityStats :=
                      {| stats_name := "Delhi"; hotelCount := Fin 0; avgRating := NaN |} |} |}).
Proof.
  unfold generateRecommendations.
  rewrite initialize_load_failure by reflexivity.
  cbn [aggregatedHotels emptyEngine].
  rewrite recommend_nil by reflexivity. reflexivity.
Qed.

(** ** The listing query *)

Lemma distinct_In (l : list string) (seen : gset string) (x : string) :
  In x (Arr.distinct seen l) <-> In x l /\ x ∉ seen.
Proof.
  revert seen. induction l as [| y l IH]; intros seen; cbn [Arr.distinct In]; [tauto |].
  destruct (decide (y ∈ seen)) as [Hy | Hy].
  - rewrite IH. split; [tauto |]. intros [[-> | H] Hx]; [contradiction | tauto].
  - cbn [In]. rewrite IH. split.
    + intros [<- | [H Hx]]; [tauto |]. split; [tauto |].
      intros Hc. apply Hx. apply elem_of_union. now right.
    + intros [[-> | H] Hx]; [now left |].
      destruct (decide (x = y)) as [-> | Hne]; [now left | right].
      split; [exact H |]. intros Hc. apply elem_of_union in Hc as [Hc | Hc]; [| contradiction].
      apply elem_of_singleton in Hc. contradiction.
Qed.

Lemma distinct_NoDup (l : list string) (seen : gset string) :
  List.NoDup (Arr.distinct seen l).
Proof.
  revert seen. induction l as [| y l IH]; intros seen; cbn [Arr.distinct]; [constructor |].
  destruct (decide (y ∈ seen)); [apply IH |].
  constructor; [| apply IH]. rewrite distinct_In. intros [_ Hy]. apply Hy.
  apply elem_of_union. left. now apply elem_of_singleton.
Qed.

Lemma ltb_false_leb (x y : string) : String.ltb y x = false <-> String.leb x y = true.
Proof.
  unfold String.ltb, String.leb. rewrite (String.compare_antisym y x).
  destruct (String.compare x y); cbn; split; intros; congruence.
Qed.

Lemma sortStrings_sorted (l : list string) :
  StronglySorted (fun a b => String.leb a b = true) (Arr.sortStrings l).
Proof.
  apply StronglySorted_weaken
    with (R := fun x y => Str.ltb y x = false) (P := fun _ => True).
  - intros x y _ _ H. now apply ltb_false_leb.
  - apply List.Forall_forall. intros; exact I.
  - unfold Arr.sortStrings.
    apply (sortBy_StronglySorted (fun a b => Str.ltb b a) (fun _ => True)).
    + intros x y _ _ H. unfold Str.ltb in *.
      destruct (String.ltb x y) eqn:E; [| reflexivity].
      unfold String.ltb in *. rewrite (String.compare_antisym y x) in H.
      destruct (String.compare x y); discriminate.
    + intros x y z _ _ _ H1 H2. unfold Str.ltb in *.
      apply ltb_false_leb in H1, H2. apply ltb_false_leb.
      apply Is_true_true. apply Is_true_true in H1, H2.
      exact (transitivity (R := String.le) H1 H2).
    + apply List.Forall_forall. intros; exact I.
Qed.

Lemma getAvailableCities_cities (e : Engine) :
  let cities := snd (getAvailableCities e) in
  (forall c, In c cities <-> In c (map Agg.city (aggregatedHotels e)))
  /\ List.NoDup cities
  /\ StronglySorted (fun a b => String.leb a b = true) cities.
Proof.
  cbn [getAvailableCities snd]. unfold Arr.sortStrings at 1 2. split; [| split].
  - intros c. rewrite sortBy_In, distinct_In. split; [tauto |].
    intros H. split; [exact H |]. apply not_elem_of_empty.
  - eapply Permutation_NoDup; [symmetry; apply sortBy_Permutation | apply distinct_NoDup].
  - apply sortStrings_sorted.
Qed.


(** ** The engine on a heap: what a request leaves unchanged *)

Module SharedFacts.
Import Shared SharedSpec.

Lemma runsOver_ret {A : Type} (σ0 : Heap) (a : A) (σ : Heap) (Q : A -> Heap -> Prop) :
  σ0 ⊆ σ -> Q a σ -> runsOver σ0 (ret a) σ Q.
Proof. intros Hsub H. exists a, σ. split; [reflexivity |]. split; assumption. Qed.

Lemma runsOver_bind {A B : Type} (σ0 : Heap) (m : M A) (k : A -> M B) (σ : Heap)
    (P : A -> Heap -> Prop) (Q : B -> Heap -> Prop) :
  runsOver σ0 m σ P ->
  (forall a σ1, σ0 ⊆ σ1 -> P a σ1 -> runsOver σ0 (k a) σ1 Q) ->
  runsOver σ0 (bind m k) σ Q.
Proof.
  intros (a & σ1 & Hm & Hsub & HP) Hk.
  destruct (Hk a σ1 Hsub HP) as (b & σ2 & Hkb & Hsub2 & HQ).
  exists b, σ2. unfold bind. rewrite Hm. auto.
Qed.

(** A step that only allocates, inside a computation over [σ0]. *)
Lemma runsOver_step {A B : Type} (σ0 : Heap) (m : M A) (k : A -> M B) (σ : Heap)
    (P : A -> Heap -> Prop) (Q : B -> Heap -> Prop) :
  σ0 ⊆ σ ->
  runs m σ P ->
  (forall a σ1, σ0 ⊆ σ1 -> σ ⊆ σ1 -> P a σ1 -> runsOver σ0 (k a) σ1 Q) ->
  runsOver σ0 (bind m k) σ Q.
Proof.
  intros Hbase (a & σ1 & Hm & Hsub & HP) Hk.
  assert (Hs : σ0 ⊆ σ1) by (etransitivity; eassumption).
  destruct (Hk a σ1 Hs Hsub HP) as (b & σ2 & Hkb & Hsub2 & HQ).
  exists b, σ2. unfold bind. rewrite Hm. auto.
Qed.

Lemma runs_ret {A : Type} (a : A) (σ : Heap) (Q : A -> Heap -> Prop) :
  Q a σ -> runs (ret a) σ Q.
Proof. intros H. now apply runsOver_ret. Qed.

Lemma runs_bind {A B : Type} (m : M A) (k : A -> M B) (σ : Heap)
    (P : A -> Heap -> Prop) (Q : B -> Heap -> Prop) :
  runs m σ P ->
  (forall a σ1, σ ⊆ σ1 -> P a σ1 -> runs (k a) σ1 (fun b σ2 => σ ⊆ σ2 -> Q b σ2)) ->
  runs (bind m k) σ Q.
Proof.
  intros (a & σ1 & Hm & Hsub & HP) Hk.
  destruct (Hk a σ1 Hsub HP) as (b & σ2 & Hkb & Hsub2 & HQ).
  exists b, σ2. unfold bind. rewrite Hm. split; [exact Hkb |].
  assert (Hs : σ ⊆ σ2) by (etransitivity; eassumption).
  split; [exact Hs | now apply HQ].
Qed.

Lemma runs_alloc (c : Cell) (σ : Heap) (Q : loc -> Heap -> Prop) :
  (forall l, σ !! l = None -> Q l (<[l := c]> σ)) -> runs (alloc c) σ Q.
Proof.
  intros HQ. set (l := fresh (dom σ)).
  assert (Hl : σ !! l = None) by (apply not_elem_of_dom, is_fresh).
  exists l, (<[l := c]> σ). split; [reflexivity |].
  split; [now apply insert_subseteq | now apply HQ].
Qed.

Lemma runs_weaken {A : Type} (m : M A) (σ : Heap) (P Q : A -> Heap -> Prop) :
  runs m σ P -> (forall a σ', σ ⊆ σ' -> P a σ' -> Q a σ') -> runs m σ Q.
Proof.
  intros (a & σ' & Hm & Hsub & HP) HPQ. exists a, σ'. auto.
Qed.

Lemma lookup_None_weaken (σ σ' : Heap) (l : loc) : σ ⊆ σ' -> σ' !! l = None -> σ !! l = None.
Proof.
  intros Hsub H. eapply lookup_weaken_None; eassumption.
Qed.

(** Every cell that is allocated is new, and holds what was asked. *)
Lemma runs_allocAll (cells : list Cell) (σ : Heap) :
  runs (allocAll cells) σ
    (fun ls σ' =>
       Forall2 (fun l c => σ' !! l = Some c) ls cells
       /\ List.Forall (fun l => σ !! l = None) ls).
Proof.
  revert σ. induction cells as [| c cells IH]; intros σ.
  - apply runs_ret. split; constructor.
  - cbn [allocAll].
    apply runs_bind with (P := fun l σ1 => σ !! l = None /\ σ1 !! l = Some c).
    + apply runs_alloc. intros l Hl.
      exact (conj Hl (lookup_insert_eq σ l c)).
    + intros l σ1 Hsub [Hl Hl1].
      apply runs_bind
        with (P := fun ls σ2 =>
                     Forall2 (fun l c => σ2 !! l = Some c) ls cells
                     /\ List.Forall (fun l => σ1 !! l = None) ls);
        [apply IH |].
      intros ls σ2 Hsub2 [Hls Hfresh]. apply runs_ret. intros Hsub3.
      split.
      * constructor; [| exact Hls]. eapply lookup_weaken; eassumption.
      * constructor; [exact Hl |].
        eapply List.Forall_impl; [| exact Hfresh].
        intros l' Hl'. now apply (lookup_None_weaken σ σ1).
Qed.

(** *** Views *)

Lemma hotelAt_stable : stable hotelAt.
Proof.
  split; [| split].
  - unfold hotelAt. intros σ σ' l x H Hsub.
    destruct (σ !! l) as [[h s | |] |] eqn:E; try discriminate.
    now rewrite (lookup_weaken _ _ _ _ E Hsub).
  - unfold hotelAt. intros σ l x H.
    destruct (σ !! l) as [[h s | |] |] eqn:E; try discriminate.
    injection H as <-. split; [reflexivity | discriminate].
  - unfold hotelAt. intros σ σ' l ->. reflexivity.
Qed.

Lemma scoredAt_stable : stable scoredAt.
Proof.
  split; [| split].
  - unfold scoredAt. intros σ σ' l x H Hsub.
    destruct (σ !! l) as [[h [s |] | |] |] eqn:E; try discriminate.
    now rewrite (lookup_weaken _ _ _ _ E Hsub).
  - unfold scoredAt. intros σ l x H.
    destruct (σ !! l) as [[h [s |] | |] |] eqn:E; try discriminate.
    injection H as <-. split; [reflexivity | discriminate].
  - unfold scoredAt. intros σ σ' l ->. reflexivity.
Qed.

Lemma pairAt_stable : stable pairAt.
Proof.
  split; [| split].
  - unfold pairAt. intros σ σ' l x H Hsub.
    destruct (σ !! l) as [[| h d |] |] eqn:E; try discriminate.
    now rewrite (lookup_weaken _ _ _ _ E Hsub).
  - unfold pairAt. intros σ l x H.
    destruct (σ !! l) as [[| h d |] |] eqn:E; try discriminate.
    injection H as <-. split; [reflexivity | discriminate].
  - unfold pairAt. intros σ σ' l ->. reflexivity.
Qed.

Lemma arrayAt_Some (σ : Heap) (a : loc) (e : list loc) :
  arrayAt σ a = Some e <-> σ !! a = Some (ArrayObj e).
Proof.
  unfold arrayAt. destruct (σ !! a) as [[| |] |]; split; intros H; try discriminate; congruence.
Qed.

Section Elements.
Context {A : Type} (read : Heap -> loc -> option (loc * A)) (Hread : stable read).

Lemma mapM_read_Some (σ : Heap) (e : list loc) (l : list (loc * A)) :
  mapM (read σ) e = Some l
  <-> e = map fst l /\ List.Forall (fun x => read σ (fst x) = Some x) l.
Proof.
  rewrite mapM_Some. split.
  - induction 1 as [| r x e l Hrx _ [IH1 IH2]]; [split; [reflexivity | constructor] |].
    destruct (proj1 (proj2 Hread) _ _ _ Hrx) as [Hfst _]. cbn [map]. split.
    + f_equal; [now symmetry | exact IH1].
    + constructor; [| exact IH2]. cbn in Hfst |- *. now subst r.
  - intros [-> H]. induction H as [| x l Hx _ IH]; constructor; assumption.
Qed.

Lemma elementsAt_Some (σ : Heap) (a : loc) (l : list (loc * A)) :
  elementsAt read σ a = Some l
  <-> σ !! a = Some (ArrayObj (map fst l))
      /\ List.Forall (fun x => read σ (fst x) = Some x) l.
Proof.
  unfold elementsAt. destruct (arrayAt σ a) as [e |] eqn:E.
  - apply arrayAt_Some in E. rewrite mapM_read_Some, E. split.
    + intros [-> H]. tauto.
    + intros [[= ->] H]. tauto.
  - split; [discriminate |]. intros [H _]. apply arrayAt_Some in H. congruence.
Qed.

Lemma elementsAt_weaken (σ σ' : Heap) (a : loc) (l : list (loc * A)) :
  elementsAt read σ a = Some l -> σ ⊆ σ' -> elementsAt read σ' a = Some l.
Proof.
  rewrite !elementsAt_Some. intros [Ha Hl] Hsub. split.
  - eapply lookup_weaken; eassumption.
  - eapply List.Forall_impl; [| exact Hl]. intros x Hx. now apply (proj1 Hread σ).
Qed.

(** A new array of elements that are readable. *)
Lemma runs_newArray (σ : Heap) (l : list (loc * A)) :
  List.Forall (fun x => read σ (fst x) = Some x) l ->
  runs (newArray (map fst l)) σ
    (fun r σ' => σ !! r = None /\ elementsAt read σ' r = Some l).
Proof.
  intros Hl. apply runs_alloc. intros r Hr. split; [exact Hr |].
  apply elementsAt_Some. split; [apply lookup_insert_eq |].
  eapply List.Forall_impl; [| exact Hl]. intros x Hx.
  apply (proj1 Hread σ); [exact Hx | now apply insert_subseteq].
Qed.

(** Sorting in place an array that is not a cell of [σ0]. *)
Lemma runsOver_sortH (comparator : A -> A -> number) (σ0 σ : Heap) (a : loc)
    (ls : list (loc * A)) :
  σ0 ⊆ σ -> σ0 !! a = None -> elementsAt read σ a = Some ls ->
  runsOver σ0 (sortH read comparator a) σ
    (fun _ σ' =>
       elementsAt read σ' a
       = Some (Arr.sort (fun x y => comparator (snd x) (snd y)) ls)).
Proof.
  intros Hbase Ha Hls.
  set (sorted := Arr.sort (fun x y => comparator (snd x) (snd y)) ls).
  exists tt, (<[a := ArrayObj (map fst sorted)]> σ).
  pose proof Hls as Hview. apply elementsAt_Some in Hview as [Harr Hread_ls].
  split; [| split].
  - unfold sortH, bind, get. rewrite Hls. unfold setArray.
    now rewrite (proj2 (arrayAt_Some σ a _) Harr).
  - now apply insert_subseteq_r.
  - apply elementsAt_Some. split; [apply lookup_insert_eq |].
    rewrite List.Forall_forall in Hread_ls |- *. intros x Hx.
    apply sort_In in Hx. specialize (Hread_ls x Hx).
    etransitivity; [| exact Hread_ls]. apply (proj2 (proj2 Hread)).
    apply lookup_insert_ne. intros Heq.
    destruct (proj1 (proj2 Hread) _ _ _ Hread_ls) as [_ Hna].
    rewrite Heq in Harr. now apply Hna in Harr.
Qed.
End Elements.


(** *** The stages *)

Lemma bind_get {A B : Type} (view : Heap -> option A) (k : A -> M B) (σ : Heap) (a : A) :
  view σ = Some a -> bind (get view) k σ = k a σ.
Proof. intros H. unfold bind, get. now rewrite H. Qed.

Lemma runsOver_get {A B : Type} (σ0 : Heap) (view : Heap -> option A) (k : A -> M B)
    (σ : Heap) (a : A) (Q : B -> Heap -> Prop) :
  view σ = Some a -> runsOver σ0 (k a) σ Q -> runsOver σ0 (bind (get view) k) σ Q.
Proof. intros H. unfold runsOver. now rewrite (bind_get view k σ a H). Qed.

(** A step that reads only. *)
Lemma runsOver_pure {A B : Type} (σ0 : Heap) (m : M A) (k : A -> M B)
    (σ : Heap) (a : A) (Q : B -> Heap -> Prop) :
  m σ = Some (a, σ) -> runsOver σ0 (k a) σ Q -> runsOver σ0 (bind m k) σ Q.
Proof. intros H. unfold runsOver, bind. now rewrite H. Qed.

Lemma lengthH_eq (σ : Heap) (a : loc) (e : list loc) :
  arrayAt σ a = Some e -> lengthH a σ = Some (length e, σ).
Proof. intros H. unfold lengthH. now rewrite (bind_get _ _ σ e H). Qed.

Lemma holds_weaken (σ σ' : Heap) (a : loc) (l : list AggregatedHotel) :
  holds σ a l -> σ ⊆ σ' -> holds σ' a l.
Proof.
  intros (lh & Hv & Hl) Hsub. exists lh. split; [| exact Hl].
  eapply elementsAt_weaken; [apply hotelAt_stable | exact Hv | exact Hsub].
Qed.

Lemma hotels_readable (σ : Heap) (a : loc) (lh : list (loc * AggregatedHotel)) :
  hotelsAt σ a = Some lh -> List.Forall (fun x => hotelAt σ (fst x) = Some x) lh.
Proof. intros H. now apply (elementsAt_Some hotelAt hotelAt_stable) in H. Qed.

Lemma filter_map_snd {A B : Type} (p : B -> bool) (l : list (A * B)) :
  map snd (List.filter (fun x => p (snd x)) l) = List.filter p (map snd l).
Proof.
  induction l as [| x l IH]; [reflexivity |]. cbn [List.filter map].
  destruct (p (snd x)); cbn [map]; now rewrite IH.
Qed.

Lemma Forall_filter_keep {A : Type} (P : A -> Prop) (p : A -> bool) (l : list A) :
  List.Forall P l -> List.Forall P (List.filter p l).
Proof.
  rewrite !List.Forall_forall. intros H x Hx. apply filter_In in Hx as [Hx _]. auto.
Qed.

(** A new array of some of the hotels of an array. *)
Lemma runs_newArray_hotels (σ : Heap) (lh : list (loc * AggregatedHotel)) :
  List.Forall (fun x => hotelAt σ (fst x) = Some x) lh ->
  runs (newArray (map fst lh)) σ
    (fun r σ' => σ !! r = None /\ holds σ' r (map snd lh)).
Proof.
  intros H. eapply runs_weaken; [apply (runs_newArray hotelAt hotelAt_stable); exact H |].
  intros r σ' _ [Hr Hv]. split; [exact Hr |]. exists lh. split; [exact Hv | reflexivity].
Qed.

Lemma filterH_runs (p : AggregatedHotel -> bool) (σ : Heap) (a : loc)
    (l : list AggregatedHotel) :
  holds σ a l ->
  runs (filterH p a) σ (fun r σ' => σ !! r = None /\ holds σ' r (List.filter p l)).
Proof.
  intros (lh & Hv & <-). unfold filterH, runs.
  apply runsOver_get with (a := lh); [exact Hv |].
  rewrite <- filter_map_snd. apply runs_newArray_hotels.
  apply Forall_filter_keep. now apply hotels_readable in Hv.
Qed.

Lemma mergeUniqueRefs_snd (l : list (loc * AggregatedHotel)) (seen : gset string) :
  map snd (mergeUniqueRefs seen l) = mergeUnique seen (map snd l).
Proof.
  revert seen. induction l as [| x l IH]; intros seen; [reflexivity |].
  cbn [mergeUniqueRefs mergeUnique map].
  destruct (decide (hotelKey (snd x) ∈ seen)); [apply IH |].
  cbn [map]. now rewrite IH.
Qed.

Lemma mergeUniqueRefs_In (l : list (loc * AggregatedHotel)) (seen : gset string)
    (x : loc * AggregatedHotel) :
  In x (mergeUniqueRefs seen l) -> In x l.
Proof.
  revert seen. induction l as [| y l IH]; intros seen; cbn [mergeUniqueRefs]; [tauto |].
  destruct (decide (hotelKey (snd y) ∈ seen)).
  - intros H. right. eauto.
  - intros [<- | H]; [now left | right; eauto].
Qed.

Lemma cityFilterH_runs (σ : Heap) (all : loc) (city : string) (l : list AggregatedHotel) :
  holds σ all l ->
  runs (cityFilterH all city) σ (fun r σ' => holds σ' r (cityFilter l city)).
Proof.
  intros Hall. unfold cityFilterH, cityFilter.
  destruct (cityGiven city); [| now apply runs_ret].
  set (cityLower := Str.toLowerCase city).
  apply runs_bind with (P := fun r σ1 => holds σ1 r (byExact l cityLower));
    [eapply runs_weaken; [apply filterH_runs; exact Hall | intros r σ1 _ [_ H]; exact H] |].
  intros ex σ1 Hsub1 Hex.
  apply runs_bind with (P := fun r σ2 => holds σ2 r (byAddress l cityLower)).
  { eapply runs_weaken; [apply filterH_runs; eapply holds_weaken; eassumption |].
    intros r σ2 _ [_ H]. exact H. }
  intros ad σ2 Hsub2 Had.
  assert (Hex2 : holds σ2 ex (byExact l cityLower)) by (eapply holds_weaken; eassumption).
  destruct Hex2 as (lex & Hvex & Hlex). destruct Had as (lad & Hvad & Hlad).
  pose proof (hotels_readable _ _ _ Hvex) as Hrex.
  pose proof (hotels_readable _ _ _ Hvad) as Hrad.
  apply (elementsAt_Some hotelAt hotelAt_stable) in Hvex as [Hex_arr _].
  apply (elementsAt_Some hotelAt hotelAt_stable) in Hvad as [Had_arr _].
  apply runs_bind
    with (P := fun r σ3 => holds σ3 r (byExact l cityLower ++ byAddress l cityLower)).
  { unfold concatH, runs.
    apply runsOver_get with (a := map fst lex); [now apply arrayAt_Some |].
    apply runsOver_get with (a := map fst lad); [now apply arrayAt_Some |].
    rewrite <- map_app, <- Hlex, <- Hlad, <- map_app.
    eapply runs_weaken; [apply runs_newArray_hotels; now apply List.Forall_app |].
    intros r σ3 _ [_ H]. exact H. }
  intros sp σ3 Hsub3 (lsp & Hvsp & Hlsp).
  set (union := byExact l cityLower ++ byAddress l cityLower) in *.
  apply runs_bind
    with (P := fun r σ4 => holds σ4 r (mergeUnique ∅ union)
                           /\ arrayAt σ4 r = Some (map fst (mergeUniqueRefs ∅ lsp))).
  { unfold mergeUniqueH, runs. apply runsOver_get with (a := lsp); [exact Hvsp |].
    eapply runs_weaken.
    - apply (runs_newArray hotelAt hotelAt_stable).
      apply hotels_readable in Hvsp. rewrite List.Forall_forall in Hvsp |- *.
      intros x Hx. apply Hvsp. eapply mergeUniqueRefs_In. exact Hx.
    - intros r σ4 _ [_ Hv]. split.
      + exists (mergeUniqueRefs ∅ lsp). split; [exact Hv |].
        now rewrite mergeUniqueRefs_snd, Hlsp.
      + apply (elementsAt_Some hotelAt hotelAt_stable) in Hv as [Hv _].
        now apply arrayAt_Some. }
  intros cand σ4 Hsub4 [Hcand Harr].
  assert (Hlen : length (map fst (mergeUniqueRefs ∅ lsp)) = length (mergeUnique ∅ union)).
  { now rewrite length_map, <- (length_map snd), mergeUniqueRefs_snd, Hlsp. }
  unfold runs.
  apply runsOver_pure with (a := length (mergeUnique ∅ union));
    [rewrite <- Hlen; now apply lengthH_eq |].
  destruct (length (mergeUnique ∅ union) =? 0)%nat.
  - apply runs_ret. intros _ _ _ Hs. eapply holds_weaken; [exact Hall | exact Hs].
  - apply runs_ret. intros _ _ _ _. exact Hcand.
Qed.


Lemma priceFilterH_runs (o : Options) (σ : Heap) (a : loc) (l : list AggregatedHotel) :
  holds σ a l ->
  runs (priceFilterH o a) σ (fun r σ' => holds σ' r (priceFilter o l)).
Proof.
  intros H. unfold priceFilterH, priceFilter.
  destruct (priceMin o), (priceMax o); try (now apply runs_ret).
  eapply runs_weaken; [apply filterH_runs; exact H | intros r σ' _ [_ Hr]; exact Hr].
Qed.

Lemma starFilterH_runs (o : Options) (σ : Heap) (a : loc) (l : list AggregatedHotel) :
  holds σ a l ->
  runs (starFilterH o a) σ (fun r σ' => holds σ' r (starFilter o l)).
Proof.
  intros H. unfold starFilterH, starFilter.
  destruct (starRatings o) as [[| s stars] |]; try (now apply runs_ret).
  eapply runs_weaken; [apply filterH_runs; exact H | intros r σ' _ [_ Hr]; exact Hr].
Qed.

Lemma ratingFilterH_runs (o : Options) (σ : Heap) (a : loc) (l : list AggregatedHotel) :
  holds σ a l ->
  runs (ratingFilterH o a) σ (fun r σ' => holds σ' r (ratingFilter o l)).
Proof.
  intros H. unfold ratingFilterH, ratingFilter.
  destruct (avgRatingMin o), (avgRatingMax o); try (now apply runs_ret);
    (eapply runs_weaken; [apply filterH_runs; exact H | intros r σ' _ [_ Hr]; exact Hr]).
Qed.

(** The hits of a search, each with the reference of its item. *)
Lemma searchH_eq (w : World) (opts : FuseOptions) (σ : Heap) (a : loc) (q : string)
    (l : list AggregatedHotel) :
  fuseItems w -> holds σ a l ->
  exists hits,
    searchH w opts a q σ = Some (hits, σ)
    /\ map snd hits = Fuse_search w opts l q
    /\ List.Forall (fun x => hotelAt σ (fst x) = Some (fst x, item (snd x))) hits.
Proof.
  intros Hfuse (lh & Hv & <-).
  pose proof (hotels_readable _ _ _ Hv) as Hread.
  assert (Hhits : forall rs,
    (forall r, In r rs -> map snd lh !! refIndex r = Some (item r)) ->
    exists hits,
      mapM (fun r => (fun x => (fst x, r)) <$> lh !! refIndex r) rs = Some hits
      /\ map snd hits = rs
      /\ List.Forall (fun x => hotelAt σ (fst x) = Some (fst x, item (snd x))) hits).
  { induction rs as [| r rs IH]; intros Hrs.
    - exists []. repeat split. constructor.
    - destruct IH as (hits & Hm & Hs & Hf); [intros r' Hr'; apply Hrs; now right |].
      pose proof (Hrs r (or_introl eq_refl)) as Hr.
      rewrite list_lookup_fmap in Hr.
      destruct (lh !! refIndex r) as [x |] eqn:Hx; [| discriminate].
      injection Hr as Hitem.
      exists ((fst x, r) :: hits). split; [| split].
      + apply mapM_Some. constructor; [now rewrite Hx | now apply mapM_Some].
      + cbn [map snd]. now rewrite Hs.
      + constructor; [| exact Hf]. cbn [fst snd]. rewrite <- Hitem.
        rewrite List.Forall_forall in Hread.
        rewrite (Hread x); [now destruct x |].
        apply list_elem_of_In. eapply list_elem_of_lookup_2. exact Hx. }
  destruct (Hhits (Fuse_search w opts (map snd lh) q)) as (hits & Hm & Hs & Hf).
  { intros r Hr. eapply Hfuse. exact Hr. }
  exists hits. split; [| split; assumption].
  unfold searchH. rewrite (bind_get _ _ σ lh Hv). unfold get. now rewrite Hm.
Qed.

Lemma sort_map {A B : Type} (f : A -> B) (cmp : A -> A -> number) (cmp' : B -> B -> number)
    (l : list A) :
  (forall x y, cmp' (f x) (f y) = cmp x y) ->
  Arr.sort cmp' (map f l) = map f (Arr.sort cmp l).
Proof.
  intros Hcmp.
  assert (Hins : forall x d,
    Arr.insertBy (Arr.after cmp') (f x) (map f d)
    = map f (Arr.insertBy (Arr.after cmp) x d)).
  { intros x d. induction d as [| y d IH]; [reflexivity |].
    cbn [map Arr.insertBy]. unfold Arr.after. rewrite Hcmp.
    destruct (Num.gt (cmp x y) Num.zero); [| reflexivity].
    cbn [map]. f_equal. exact IH. }
  unfold Arr.sort. induction l as [| x l IH]; [reflexivity |].
  cbn [map Arr.sortBy]. now rewrite IH, Hins.
Qed.


Lemma runs_over {A : Type} (σ0 : Heap) (m : M A) (σ : Heap) (Q : A -> Heap -> Prop) :
  σ0 ⊆ σ -> runs m σ Q -> runsOver σ0 m σ Q.
Proof.
  intros Hsub (a & σ' & Hm & Hs & HQ). exists a, σ'.
  split; [exact Hm |]. split; [etransitivity; eassumption | exact HQ].
Qed.

(** The cells allocated for a list, paired with the elements they were
    allocated for. *)
Lemma allocated_combine {X : Type} (g : X -> Cell) (σ : Heap) (ls : list loc) (xs : list X) :
  Forall2 (fun l c => σ !! l = Some c) ls (map g xs) ->
  map fst (combine ls xs) = ls
  /\ map snd (combine ls xs) = xs
  /\ List.Forall (fun t => σ !! fst t = Some (g (snd t))) (combine ls xs).
Proof.
  revert ls. induction xs as [| x xs IH]; intros ls H.
  - inversion H; subst. repeat split. constructor.
  - inversion H as [| l c ls' cs Hl Hrest]; subst.
    destruct (IH _ Hrest) as (E1 & E2 & E3).
    cbn [combine map fst snd]. rewrite E1, E2. repeat split.
    constructor; assumption.
Qed.

Lemma sortByDistanceH_runs (geo : Coordinates) (σ : Heap) (a : loc)
    (l : list AggregatedHotel) :
  holds σ a l ->
  runs (sortByDistanceH geo a) σ (fun r σ' => holds σ' r (sortByDistance geo l)).
Proof.
  intros (lh & Hv & <-). pose proof (hotels_readable _ _ _ Hv) as Hread.
  unfold sortByDistanceH, runs.
  apply runsOver_get with (a := lh); [exact Hv |].
  set (cellOf := fun x : loc * AggregatedHotel => PairObj (fst x) (distanceFrom geo (snd x))).
  eapply runsOver_step; [reflexivity | apply runs_allocAll |].
  intros records σ1 _ Hsub1 [Hcells Hfresh].
  destruct (allocated_combine cellOf σ1 records lh Hcells) as (Hfst & Hsnd & Hall).
  set (T := combine records lh) in *.
  set (pairOf := fun t : loc * (loc * AggregatedHotel) =>
                   (fst t, (fst (snd t), distanceFrom geo (snd (snd t))))).
  assert (Hps : List.Forall (fun p => pairAt σ1 (fst p) = Some p) (map pairOf T)).
  { apply List.Forall_map. eapply List.Forall_impl; [| exact Hall].
    intros t Ht. unfold pairAt. cbn [pairOf fst]. now rewrite Ht. }
  assert (Hrec : records = map fst (map pairOf T)).
  { rewrite <- Hfst at 1. rewrite map_map. reflexivity. }
  rewrite Hrec.
  eapply runsOver_step;
    [exact Hsub1 | apply (runs_newArray pairAt pairAt_stable); exact Hps |].
  intros decorated σ2 Hsub2 Hsub12 [Hnew Hview].
  set (byD := fun x y : loc * (loc * AggregatedHotel) =>
                Num.sub (distanceFrom geo (snd (snd x))) (distanceFrom geo (snd (snd y)))).
  eapply runsOver_bind.
  { apply (runsOver_sortH pairAt pairAt_stable) with (ls := map pairOf T);
      [exact Hsub2 | | exact Hview].
    now apply (lookup_None_weaken σ σ1). }
  intros [] σ3 Hsub3 Hsorted. cbn beta in Hsorted.
  rewrite (sort_map pairOf byD) in Hsorted by reflexivity.
  apply runsOver_get with (a := map pairOf (Arr.sort byD T)); [exact Hsorted |].
  set (Ts := Arr.sort byD T) in *.
  assert (Hmap : map (fun p : loc * (loc * number) => fst (snd p)) (map pairOf Ts)
                 = map fst (map snd Ts)).
  { rewrite !map_map. reflexivity. }
  rewrite Hmap.
  assert (Hpure : sortByDistance geo (map snd lh) = map snd (map snd Ts)).
  { unfold sortByDistance.
    set (decOf := fun t : loc * (loc * AggregatedHotel) =>
                    (snd (snd t), distanceFrom geo (snd (snd t)))).
    assert (Hdec : map (fun h => (h, distanceFrom geo h)) (map snd lh) = map decOf T)
      by (rewrite <- Hsnd, !map_map; reflexivity).
    rewrite Hdec, (sort_map decOf byD) by reflexivity.
    rewrite !map_map. reflexivity. }
  rewrite Hpure.
  apply runs_over; [exact Hsub3 |].
  eapply runs_weaken; [apply runs_newArray_hotels | intros r σ4 _ [_ H]; exact H].
  apply List.Forall_map. rewrite List.Forall_forall in Hread |- *.
  intros t Ht. apply sort_In in Ht.
  apply (proj1 hotelAt_stable σ); [| exact Hsub3].
  apply Hread. rewrite <- Hsnd. now apply in_map.
Qed.

Lemma areaFilterH_runs (w : World) (o : Options) (city : string) (σ : Heap) (a : loc)
    (l : list AggregatedHotel) :
  fuseItems w -> holds σ a l ->
  runs (areaFilterH w o city a) σ (fun r σ' => holds σ' r (areaFilter w o city l)).
Proof.
  intros Hfuse Ha. unfold areaFilterH, areaFilter.
  destruct (areaGiven o) as [ar |]; [| now apply runs_ret].
  destruct (searchH_eq w areaFuseOptions σ a (Str.trim ar) l Hfuse Ha)
    as (hits & Hs & Hmap & Hread).
  unfold runs. apply runsOver_pure with (a := hits); [exact Hs |].
  rewrite <- Hmap, length_map.
  destruct (length hits =? 0)%nat; cbn [negb].
  - destruct (geocode w _) as [geo |]; [| now apply runs_ret].
    now apply sortByDistanceH_runs.
  - assert (Hitems : map item (map snd hits)
                     = map snd (map (fun x => (fst x, item (snd x))) hits))
      by (rewrite !map_map; reflexivity).
    assert (Hrefs : map fst hits = map fst (map (fun x => (fst x, item (snd x))) hits))
      by (rewrite map_map; reflexivity).
    rewrite Hitems, Hrefs.
    eapply runs_weaken; [apply runs_newArray_hotels | intros r σ' _ [_ H]; exact H].
    apply List.Forall_map. exact Hread.
Qed.

Lemma applyOptionsH_runs (w : World) (options : option Options) (city : string)
    (σ : Heap) (a : loc) (l : list AggregatedHotel) :
  fuseItems w -> holds σ a l ->
  runs (applyOptionsH w options city a) σ
    (fun r σ' => holds σ' r (applyOptions w options city l)).
Proof.
  intros Hfuse Ha. unfold applyOptionsH, applyOptions.
  destruct options as [o |]; [| now apply runs_ret].
  apply runs_bind with (P := fun r σ1 => holds σ1 r (priceFilter o l));
    [apply priceFilterH_runs; exact Ha |].
  intros a1 σ1 _ H1.
  apply runs_bind with (P := fun r σ2 => holds σ2 r (starFilter o (priceFilter o l)));
    [apply starFilterH_runs; exact H1 |].
  intros a2 σ2 _ H2.
  apply runs_bind
    with (P := fun r σ3 => holds σ3 r (ratingFilter o (starFilter o (priceFilter o l))));
    [apply ratingFilterH_runs; exact H2 |].
  intros a3 σ3 _ H3.
  eapply runs_weaken; [apply areaFilterH_runs; [exact Hfuse | exact H3] |].
  intros r σ4 _ H _ _ _. exact H.
Qed.


(** *** Scoring, ranking *)

Lemma scoredCopies_eq (persona : string) (hits : list (loc * FuseResult)) :
  mapThrowing (scoredCopy persona) (map (fun x => (item (snd x), snd x)) hits)
  = match mapThrowing (scoreResult persona) (map snd hits) with
    | Normal scored => Normal (map cellOfScored scored)
    | Throw => Throw
    end.
Proof.
  induction hits as [| x hits IH]; [reflexivity |].
  cbn [map mapThrowing]. unfold scoredCopy at 1, scoreResult at 1. cbn [fst snd].
  destruct (calculateFinalScore (item (snd x)) persona (searchScoreOf (snd x))); [| reflexivity].
  rewrite IH. destruct (mapThrowing (scoreResult persona) (map snd hits)); reflexivity.
Qed.

(** New cells for scored copies, and a new array of them. *)
Lemma copies_runs (σ : Heap) (scored : list ScoredHotel) :
  runs (let! copies := allocAll (map cellOfScored scored) in newArray copies) σ
    (fun r σ' => σ !! r = None /\ holdsCopies σ σ' r scored).
Proof.
  apply runs_bind
    with (P := fun ls σ1 =>
                 Forall2 (fun l c => σ1 !! l = Some c) ls (map cellOfScored scored)
                 /\ List.Forall (fun l => σ !! l = None) ls);
    [apply runs_allocAll |].
  intros copies σ1 Hsub1 [Hcells Hfresh].
  destruct (allocated_combine cellOfScored σ1 copies scored Hcells) as (Hfst & Hsnd & Hall).
  set (T := combine copies scored) in *.
  assert (Hread : List.Forall (fun x => scoredAt σ1 (fst x) = Some x) T).
  { eapply List.Forall_impl; [| exact Hall]. intros [c [h s]] Ht.
    unfold scoredAt. cbn [fst snd cellOfScored hotel finalScore] in *. now rewrite Ht. }
  rewrite <- Hfst.
  eapply runs_weaken; [apply (runs_newArray scoredAt scoredAt_stable); exact Hread |].
  intros r σ2 _ [Hr Hview] _. split; [now apply (lookup_None_weaken σ σ1) |].
  exists T. split; [exact Hview |]. split; [exact Hsnd |].
  rewrite List.Forall_forall in Hfresh |- *. intros t Ht. apply Hfresh.
  rewrite <- Hfst. now apply in_map.
Qed.

Lemma scoreHitsH_runs (persona : string) (σ : Heap) (hits : list (loc * FuseResult)) :
  List.Forall (fun x => hotelAt σ (fst x) = Some (fst x, item (snd x))) hits ->
  runs (scoreHitsH persona hits) σ
    (fun r σ' =>
       match mapThrowing (scoreResult persona) (map snd hits), r with
       | Normal scored, Normal a => σ !! a = None /\ holdsCopies σ σ' a scored
       | Throw, Throw => True
       | _, _ => False
       end).
Proof.
  intros Hread. unfold scoreHitsH, runs.
  apply runsOver_get with (a := map (fun x => (item (snd x), snd x)) hits).
  { apply mapM_Some. induction Hread as [| x hits Hx _ IH]; constructor; [| exact IH].
    now rewrite Hx. }
  rewrite scoredCopies_eq.
  destruct (mapThrowing (scoreResult persona) (map snd hits)) as [scored |];
    [| now apply runs_ret].
  apply runs_bind
    with (P := fun ls σ1 =>
                 Forall2 (fun l c => σ1 !! l = Some c) ls (map cellOfScored scored)
                 /\ List.Forall (fun l => σ !! l = None) ls);
    [apply runs_allocAll |].
  intros copies σ1 Hsub1 [Hcells Hfresh].
  destruct (allocated_combine cellOfScored σ1 copies scored Hcells) as (Hfst & Hsnd & Hall).
  set (T := combine copies scored) in *.
  assert (HreadT : List.Forall (fun x => scoredAt σ1 (fst x) = Some x) T).
  { eapply List.Forall_impl; [| exact Hall]. intros [c [h s]] Ht.
    unfold scoredAt. cbn [fst snd cellOfScored hotel finalScore] in *. now rewrite Ht. }
  rewrite <- Hfst.
  apply runs_bind
    with (P := fun r σ2 => σ1 !! r = None /\ scoredHotelsAt σ2 r = Some T);
    [apply (runs_newArray scoredAt scoredAt_stable); exact HreadT |].
  intros r σ2 Hsub2 [Hr Hview]. apply runs_ret. intros _ _.
  split; [now apply (lookup_None_weaken σ σ1) |].
  exists T. split; [exact Hview |]. split; [exact Hsnd |].
  rewrite List.Forall_forall in Hfresh |- *. intros t Ht. apply Hfresh.
  rewrite <- Hfst. now apply in_map.
Qed.

Lemma scoreByPopularityH_runs (σ : Heap) (a : loc) (l : list AggregatedHotel) :
  holds σ a l ->
  runs (scoreByPopularityH a) σ
    (fun r σ' => σ !! r = None /\ holdsCopies σ σ' r (map popularityScore l)).
Proof.
  intros (lh & Hv & <-). unfold scoreByPopularityH, runs.
  apply runsOver_get with (a := lh); [exact Hv |].
  assert (Hcells :
    map (fun x : loc * AggregatedHotel =>
           HotelObj (snd x) (Some (finalScore (popularityScore (snd x))))) lh
    = map cellOfScored (map popularityScore (map snd lh)))
    by (rewrite !map_map; reflexivity).
  rewrite Hcells. apply copies_runs.
Qed.


Lemma holdsCopies_base (σ0 σ1 σ : Heap) (a : loc) (l : list ScoredHotel) :
  σ0 ⊆ σ1 -> holdsCopies σ1 σ a l -> holdsCopies σ0 σ a l.
Proof.
  intros Hsub (ls & Hv & Hl & Hfresh). exists ls. split; [exact Hv |]. split; [exact Hl |].
  eapply List.Forall_impl; [| exact Hfresh]. intros x Hx.
  now apply (lookup_None_weaken σ0 σ1).
Qed.

Lemma sliceH_runs (n : nat) (σ : Heap) (a : loc) (ls : list (loc * ScoredHotel)) :
  scoredHotelsAt σ a = Some ls ->
  runs (sliceH n a) σ
    (fun r σ' => σ !! r = None /\ scoredHotelsAt σ' r = Some (take n ls)).
Proof.
  intros Hv. pose proof Hv as Hs.
  apply (elementsAt_Some scoredAt scoredAt_stable) in Hs as [Harr Hread].
  unfold sliceH, runs.
  apply runsOver_get with (a := map fst ls); [now apply arrayAt_Some |].
  unfold Arr.slice0. rewrite firstn_map.
  apply (runs_newArray scoredAt scoredAt_stable).
  rewrite List.Forall_forall in Hread |- *. intros x Hx. apply Hread.
  eapply In_take. exact Hx.
Qed.

(** The sort in place of the scored array, the slice and the insights. *)
Lemma rank_tail (σ0 σ : Heap) (cands a : loc) (city : string)
    (lc : list AggregatedHotel) (scored : list ScoredHotel) :
  holds σ0 cands lc -> σ0 ⊆ σ -> σ0 !! a = None -> holdsCopies σ0 σ a scored ->
  runsOver σ0
    (let! sorted := sortScoredH a in
     let! top := sliceH 5 a in
     let! lh := get (fun σ => hotelsAt σ cands) in
     ret (Normal (top, generateInsights (map snd lh) city)))
    σ
    (refines σ0
       (Normal {| hotels := topHotels scored; insights := generateInsights lc city |})).
Proof.
  intros Hcands Hsub Ha (ls & Hv & Hl & Hfresh).
  eapply runsOver_bind.
  { apply (runsOver_sortH scoredAt scoredAt_stable byScoreDescending σ0 σ a ls); assumption. }
  intros [] σ1 Hsub1 Hsorted. cbn beta in Hsorted.
  set (sorted := Arr.sort (fun x y => byScoreDescending (snd x) (snd y)) ls) in *.
  eapply runsOver_step; [exact Hsub1 | apply sliceH_runs; exact Hsorted |].
  intros top σ2 Hsub2 Hsub12 [Htop Hview].
  destruct Hcands as (lh & Hvc & Hlc).
  apply runsOver_get with (a := lh).
  { eapply elementsAt_weaken; [apply hotelAt_stable | exact Hvc | exact Hsub2]. }
  apply runsOver_ret; [exact Hsub2 |].
  cbn [refines insights hotels]. rewrite Hlc. split; [reflexivity |].
  split; [now apply (lookup_None_weaken σ0 σ1) |].
  exists (take 5 sorted). split; [exact Hview |]. split.
  - rewrite <- firstn_map. unfold sorted.
    rewrite <- (sort_map snd (fun x y => byScoreDescending (snd x) (snd y)) byScoreDescending)
      by reflexivity.
    now rewrite Hl.
  - rewrite List.Forall_forall in Hfresh |- *. intros x Hx. apply Hfresh.
    apply In_take in Hx. now apply sort_In in Hx.
Qed.

Lemma rankH_runs (w : World) (persona city q : string) (σ : Heap) (cands : loc)
    (lc : list AggregatedHotel) :
  fuseItems w -> holds σ cands lc ->
  runs
    (let! searchResults := searchH w rankFuseOptions cands q in
     let! scored := scoreHitsH persona searchResults in
     match scored with
     | Normal scoredHotels =>
         let! n := lengthH scoredHotels in
         let! scoredHotels :=
           (if (n =? 0)%nat then scoreByPopularityH cands else ret scoredHotels) in
         let! sorted := sortScoredH scoredHotels in
         let! top := sliceH 5 scoredHotels in
         let! lh := get (fun σ => hotelsAt σ cands) in
         ret (Normal (top, generateInsights (map snd lh) city))
     | Throw => ret Throw
     end)
    σ
    (refines σ
       match scoredHotelsOf w lc persona q with
       | Normal scoredHotels =>
           Normal {| hotels := topHotels scoredHotels;
                     insights := generateInsights lc city |}
       | Throw => Throw
       end).
Proof.
  intros Hfuse Hcands.
  destruct (searchH_eq w rankFuseOptions σ cands q lc Hfuse Hcands)
    as (hits & Hs & Hmap & Hread).
  unfold runs. apply runsOver_pure with (a := hits); [exact Hs |].
  eapply runsOver_step; [reflexivity | apply scoreHitsH_runs; exact Hread |].
  intros r σ1 Hsub1 _ Hr. cbn beta in Hr.
  unfold scoredHotelsOf. rewrite <- Hmap.
  destruct (mapThrowing (scoreResult persona) (map snd hits)) as [scored |];
    destruct r as [a |]; try contradiction.
  2: { apply runsOver_ret; [exact Hsub1 | exact I]. }
  destruct Hr as [Ha Hcopies].
  pose proof Hcopies as (ls & Hv & Hl & Hfresh).
  pose proof Hv as Hv'. apply (elementsAt_Some scoredAt scoredAt_stable) in Hv' as [Harr _].
  apply runsOver_pure with (a := length scored).
  { rewrite <- Hl, length_map, <- (length_map fst). apply lengthH_eq. now apply arrayAt_Some. }
  unfold withFallback. destruct (length scored =? 0)%nat.
  - eapply runsOver_step;
      [exact Hsub1
      | apply scoreByPopularityH_runs; eapply holds_weaken; [exact Hcands | exact Hsub1] |].
    intros a' σ2 Hsub2 Hsub12 [Ha' Hcopies'].
    apply rank_tail; [exact Hcands | exact Hsub2 | |].
    + now apply (lookup_None_weaken σ σ1).
    + eapply holdsCopies_base; [exact Hsub1 | exact Hcopies'].
  - apply runsOver_pure with (a := a); [reflexivity |].
    now apply rank_tail.
Qed.

(** The request on the heap computes what the request on values computes,
    and leaves every cell of the heap it starts from as it is. *)
Lemma recommendH_refines (w : World) (σ : Heap) (all : loc) (l : list AggregatedHotel)
    (persona city : string) (preferences : list string) (options : option Options) :
  fuseItems w -> holds σ all l ->
  runs (recommendH w all persona city preferences options) σ
    (refines σ (recommend w l persona city preferences options)).
Proof.
  intros Hfuse Hall. unfold recommendH.
  apply runs_bind with (P := fun r σ1 => holds σ1 r (cityFilter l city));
    [now apply cityFilterH_runs |].
  intros a1 σ1 Hsub1 H1.
  apply runs_bind with (P := fun r σ2 => holds σ2 r (candidatesOf w l city options)).
  { apply applyOptionsH_runs; [exact Hfuse | exact H1]. }
  intros cands σ2 Hsub2 H2.
  eapply runs_weaken; [apply rankH_runs; [exact Hfuse | exact H2] |].
  intros r σ3 Hsub3 Href Hs1 Hs.
  unfold recommend.
  destruct (scoredHotelsOf w _ persona _) as [scored |]; destruct r as [[top ins] |];
    cbn [refines] in *; try contradiction; try exact I.
  destruct Href as (Hins & Htop & Hcopies). split; [exact Hins |].
  assert (Hsub02 : σ ⊆ σ2) by (transitivity σ1; assumption).
  split; [now apply (lookup_None_weaken σ σ2) |].
  eapply holdsCopies_base; [exact Hsub02 | exact Hcopies].
Qed.


(** *** The engine *)

Lemma initializeH_runs (w : World) (e : EngineRef) (σ : Heap) :
  (initializedRef e = true -> wellFormed σ e) ->
  runs (initializeH w e) σ
    (fun e' σ' =>
       initializedRef e' = true
       /\ (initializedRef e = true -> e' = e /\ σ' = σ)
       /\ exists l, holds σ' (aggregatedRef e') l).
Proof.
  intros Hwf. unfold initializeH. destruct (initializedRef e) eqn:Hinit.
  - apply runs_ret. split; [exact Hinit |]. split; [tauto |].
    destruct (Hwf eq_refl) as (lh & Hv). exists (map snd lh), lh. tauto.
  - set (l := aggregateHotelData w (loadHotelData w)).
    apply runs_bind
      with (P := fun ls σ1 =>
                   Forall2 (fun k c => σ1 !! k = Some c) ls (map (fun h => HotelObj h None) l)
                   /\ List.Forall (fun k => σ !! k = None) ls);
      [apply runs_allocAll |].
    intros records σ1 Hsub1 [Hcells _].
    destruct (allocated_combine (fun h => HotelObj h None) σ1 records l Hcells)
      as (Hfst & Hsnd & Hall).
    set (T := combine records l) in *.
    assert (Hread : List.Forall (fun x => hotelAt σ1 (fst x) = Some x) T).
    { eapply List.Forall_impl; [| exact Hall]. intros [k h] Ht.
      unfold hotelAt. cbn [fst snd] in *. now rewrite Ht. }
    rewrite <- Hfst.
    apply runs_bind with (P := fun r σ2 => holds σ2 r l).
    { eapply runs_weaken; [apply runs_newArray_hotels; exact Hread |].
      intros r σ2 _ [_ H]. now rewrite Hsnd in H. }
    intros r σ2 _ Hr. apply runs_ret. intros _ _. cbn [initializedRef aggregatedRef].
    split; [reflexivity |]. split; [discriminate |]. now exists l.
Qed.

(** One request on an engine that is initialized. *)
Lemma generateRecommendationsH_initialized (w : World) (e : EngineRef) (σ : Heap)
    (l : list AggregatedHotel)
    (persona city : string) (preferences : list string) (options : option Options) :
  fuseItems w -> initializedRef e = true -> holds σ (aggregatedRef e) l ->
  exists out σ',
    generateRecommendationsH w e persona city preferences options σ = Some ((e, out), σ')
    /\ σ ⊆ σ'
    /\ refines σ (recommend w l persona city preferences options) out σ'.
Proof.
  intros Hfuse Hinit Hl.
  destruct (recommendH_refines w σ (aggregatedRef e) l persona city preferences options
              Hfuse Hl) as (out & σ' & Hrun & Hsub & Href).
  exists out, σ'. split; [| split; assumption].
  unfold generateRecommendationsH, initializeH, bind, ret. rewrite Hinit, Hrun. reflexivity.
Qed.

Lemma serve_initialized (requests : list Request) (e : EngineRef) (σ : Heap)
    (l : list AggregatedHotel) :
  List.Forall (fun r => fuseItems (world r)) requests ->
  initializedRef e = true -> holds σ (aggregatedRef e) l ->
  exists σ', serve requests e σ = Some (e, σ') /\ σ ⊆ σ'.
Proof.
  intros Hfuse Hinit. revert σ.
  induction Hfuse as [| r requests Hr _ IH]; intros σ Hl.
  - exists σ. split; reflexivity.
  - destruct (generateRecommendationsH_initialized (world r) e σ l (persona r) (city r)
                (preferences r) (options r) Hr Hinit Hl) as (out & σ1 & Hrun & Hsub1 & _).
    destruct (IH σ1) as (σ' & Hserve & Hsub'); [eapply holds_weaken; eassumption |].
    exists σ'. split; [| etransitivity; eassumption].
    cbn [serve]. unfold bind. rewrite Hrun. exact Hserve.
Qed.

End SharedFacts.

(** C9.  The state right after aggregation is the heap [σ1] that
    [initialize] leaves, with the collection [l] in the array of the engine
    [e1].  The first request returns scored copies that are cells new with
    respect to [σ1], and after it and any number of further requests the
    engine is [e1] and every cell of [σ1] (the array of the collection and
    each hotel record) holds what it held: the collection is still [l]. *)
Theorem shared_collection_never_mutated (first : Shared.Request) (rest : list Shared.Request)
    (e : Shared.EngineRef) (σ : gmap nat Shared.Cell) :
  (Shared.initializedRef e = true -> Shared.wellFormed σ e) ->
  List.Forall (fun r => Shared.fuseItems (Shared.world r)) (first :: rest) ->
  exists (e1 : Shared.EngineRef) (σ1 : gmap nat Shared.Cell) (l : list AggregatedHotel)
         (out : completion (nat * Insights)) (σ2 σn : gmap nat Shared.Cell),
    Shared.initializeH (Shared.world first) e σ = Some (e1, σ1)
    /\ SharedSpec.holds σ1 (Shared.aggregatedRef e1) l
    /\ Shared.generateRecommendationsH (Shared.world first) e (Shared.persona first)
         (Shared.city first) (Shared.preferences first) (Shared.options first) σ
       = Some ((e1, out), σ2)
    /\ SharedSpec.refines σ1
         (recommend (Shared.world first) l (Shared.persona first) (Shared.city first)
            (Shared.preferences first) (Shared.options first))
         out σ2
    /\ Shared.serve (first :: rest) e σ = Some (e1, σn)
    /\ (forall (k : nat) (c : Shared.Cell), σ1 !! k = Some c -> σn !! k = Some c)
    /\ SharedSpec.holds σn (Shared.aggregatedRef e1) l.
Proof.
  intros Hwf Hfuse. apply List.Forall_cons_iff in Hfuse as [Hfirst Hrest].
  destruct (SharedFacts.initializeH_runs (Shared.world first) e σ Hwf)
    as (e1 & σ1 & Hinit & _ & Hready & _ & l & Hl).
  destruct (SharedFacts.recommendH_refines (Shared.world first) σ1 (Shared.aggregatedRef e1) l
              (Shared.persona first) (Shared.city first) (Shared.preferences first)
              (Shared.options first) Hfirst Hl) as (out & σ2 & Hrun & Hsub2 & Href).
  assert (Hl2 : SharedSpec.holds σ2 (Shared.aggregatedRef e1) l)
    by (eapply SharedFacts.holds_weaken; eassumption).
  destruct (SharedFacts.serve_initialized rest e1 σ2 l Hrest Hready Hl2)
    as (σn & Hserve & Hsubn).
  assert (Hcall :
    Shared.generateRecommendationsH (Shared.world first) e (Shared.persona first)
      (Shared.city first) (Shared.preferences first) (Shared.options first) σ
    = Some ((e1, out), σ2)).
  { unfold Shared.generateRecommendationsH, Shared.bind.
    rewrite Hinit, Hrun. reflexivity. }
  assert (Hsub : σ1 ⊆ σn) by (transitivity σ2; assumption).
  exists e1, σ1, l, out, σ2, σn.
  split; [exact Hinit |]. split; [exact Hl |]. split; [exact Hcall |].
  split; [exact Href |]. split.
  { cbn [Shared.serve]. unfold Shared.bind. rewrite Hcall. exact Hserve. }
  split.
  - intros k c Hk. eapply lookup_weaken; eassumption.
  - eapply SharedFacts.holds_weaken; eassumption.
Qed.

Lemma sampleHeap_wellFormed : Shared.wellFormed sampleHeap sampleEngine.
Proof. exists [(0%nat, poolHotel); (1%nat, plainHotel)]. reflexivity. Qed.

Lemma shared_collection_witness :
  exists σn : gmap nat Shared.Cell,
    Shared.serve [sampleRequest; sampleRequest] sampleEngine sampleHeap
    = Some (sampleEngine, σn)
    /\ forall (k : nat) (c : Shared.Cell), sampleHeap !! k = Some c -> σn !! k = Some c.
Proof.
  assert (Hwf : Shared.initializedRef sampleEngine = true
                -> Shared.wellFormed sampleHeap sampleEngine)
    by (intros _; apply sampleHeap_wellFormed).
  assert (Hfuse : List.Forall (fun r => Shared.fuseItems (Shared.world r))
                    [sampleRequest; sampleRequest])
    by (repeat constructor; intros opts l q r []).
  destruct (shared_collection_never_mutated sampleRequest [sampleRequest]
              sampleEngine sampleHeap Hwf Hfuse)
    as (e1 & σ1 & l & out & σ2 & σn & Hinit & _ & _ & _ & Hserve & Hframe & _).
  injection Hinit as <- <-.
  exists σn. split; [exact Hserve | exact Hframe].
Defined.

(** The heap does tell a mutation: sorting the array of the collection
    itself in place would change the cell of that array. *)
Example in_place_sort_is_seen :
  exists σ' : gmap nat Shared.Cell,
    Shared.setArray 2 [1%nat; 0%nat] sampleHeap = Some (tt, σ')
    /\ σ' !! 2%nat = Some (Shared.ArrayObj [1%nat; 0%nat])
    /\ sampleHeap !! 2%nat = Some (Shared.ArrayObj [0%nat; 1%nat]).
Proof.
  eexists. split; [reflexivity |]. split; reflexivity.
Qed.

(** * Further properties of the engine *)

(** ** Comparisons of reals *)

Lemma ge_fin (p a : R) : Num.ge (Fin p) (Fin a) = true <-> a <= p.
Proof.
  unfold Num.ge, Num.le. cbn [Num.lt Num.eq]. rewrite orb_true_iff, Rltb_spec, Reqb_spec. lra.
Qed.

Lemma le_fin (p a : R) : Num.le (Fin p) (Fin a) = true <-> p <= a.
Proof.
  unfold Num.le. cbn [Num.lt Num.eq]. rewrite orb_true_iff, Rltb_spec, Reqb_spec. lra.
Qed.

(** ** Case and prefixes *)

Lemma lower_idem (c : ascii) : Str.lower (Str.lower c) = Str.lower c.
Proof. destruct c as [[] [] [] [] [] [] [] []]; reflexivity. Qed.

Lemma toLowerCase_idem (s : string) : Str.toLowerCase (Str.toLowerCase s) = Str.toLowerCase s.
Proof. induction s as [| c s IH]; [reflexivity |]. cbn. now rewrite lower_idem, IH. Qed.

Lemma toLowerCase_nonempty (s : string) : Str.nonempty (Str.toLowerCase s) = Str.nonempty s.
Proof. destruct s; reflexivity. Qed.

Lemma prefix_includes (sub s : string) : String.prefix sub s = true -> Str.includes s sub = true.
Proof. destruct s; cbn [Str.includes]; intros ->; reflexivity. Qed.

Lemma prefix_app_includes (a b s : string) :
  String.prefix (a +:+ b) s = true -> Str.includes s b = true.
Proof.
  revert s. induction a as [| c a IH]; intros s.
  - rewrite append_empty. apply prefix_includes.
  - rewrite append_cons. destruct s as [| d s]; cbn [String.prefix]; [discriminate |].
    destruct (ascii_dec c d); [| discriminate].
    intros H. cbn [Str.includes]. rewrite (IH s H). apply orb_true_r.
Qed.

Lemma prefix_lower_substring (p s : string) :
  String.prefix (Str.toLowerCase p) (Str.toLowerCase s) = true ->
  Str.toLowerCase (String.substring 0 (String.length p) s) = Str.toLowerCase p.
Proof.
  revert s. induction p as [| c p IH]; intros s.
  - destruct s; reflexivity.
  - destruct s as [| d s]; cbn [Str.toLowerCase String.prefix]; [discriminate |].
    destruct (ascii_dec (Str.lower c) (Str.lower d)) as [Heq | _]; [| discriminate].
    intros H. cbn [String.length String.substring Str.toLowerCase].
    now rewrite (IH s H), Heq.
Qed.

(** ** The city read from an address *)

Lemma matchCI_eq (alternatives : list string) (s : string) :
  Str.matchCI alternatives s
  = match List.find (fun p => Str.startsWithCI p s) alternatives with
    | Some p => Some (String.substring 0 (String.length p) s)
    | None =>
        match s with
        | EmptyString => None
        | String _ s' => Str.matchCI alternatives s'
        end
    end.
Proof. destruct s; reflexivity. Qed.

Lemma matchCI_Some (alternatives : list string) (s m : string) :
  Str.matchCI alternatives s = Some m ->
  exists p, In p alternatives
    /\ Str.toLowerCase m = Str.toLowerCase p
    /\ Str.includes (Str.toLowerCase s) (Str.toLowerCase p) = true.
Proof.
  induction s as [| c s IH]; rewrite matchCI_eq;
    destruct (List.find _ alternatives) as [p |] eqn:E; try discriminate.
  - apply List.find_some in E as [Hin Hp]. intros [= <-]. exists p.
    split; [exact Hin |]. split; [exact (prefix_lower_substring p EmptyString Hp) |].
    now apply prefix_includes.
  - apply List.find_some in E as [Hin Hp]. intros [= <-]. exists p.
    split; [exact Hin |]. split; [exact (prefix_lower_substring p (String c s) Hp) |].
    now apply prefix_includes.
  - intros H. destruct (IH H) as (p & Hin & Hm & Hinc). exists p.
    split; [exact Hin |]. split; [exact Hm |].
    cbn [Str.toLowerCase Str.includes]. rewrite Hinc. apply orb_true_r.
Qed.

Lemma matchCI_None (alternatives : list string) (s p : string) :
  Str.matchCI alternatives s = None -> In p alternatives ->
  Str.includes (Str.toLowerCase s) (Str.toLowerCase p) = false.
Proof.
  intros H Hin. induction s as [| c s IH]; rewrite matchCI_eq in H;
    destruct (List.find _ alternatives) as [q |] eqn:E; try discriminate.
  - exact (List.find_none _ _ E p Hin).
  - cbn [Str.toLowerCase Str.includes]. rewrite (IH H), orb_false_r.
    exact (List.find_none _ _ E p Hin).
Qed.

(** The patterns that hold one name each. *)
Lemma firstPatternMatch_single (names : list string) (address : string) :
  match firstPatternMatch (map (fun n => [n]) names) address with
  | Some m =>
      List.find (fun c => Str.includes (Str.toLowerCase address) c) (map Str.toLowerCase names)
      = Some (Str.toLowerCase m)
  | None =>
      List.find (fun c => Str.includes (Str.toLowerCase address) c) (map Str.toLowerCase names)
      = None
  end.
Proof.
  induction names as [| n names IH]; [reflexivity |].
  cbn [map firstPatternMatch List.find].
  destruct (Str.matchCI [n] address) as [m |] eqn:E.
  - apply matchCI_Some in E as (p & [<- | []] & Hm & Hinc). now rewrite Hinc, Hm.
  - rewrite (matchCI_None [n] address n E) by now left. exact IH.
Qed.

Lemma firstPatternMatch_Some (patterns : list (list string)) (address m : string) :
  firstPatternMatch patterns address = Some m ->
  exists alternatives p,
    In alternatives patterns /\ In p alternatives /\ Str.toLowerCase m = Str.toLowerCase p.
Proof.
  induction patterns as [| alternatives patterns IH]; cbn [firstPatternMatch]; [discriminate |].
  destruct (Str.matchCI alternatives address) as [m' |] eqn:E.
  - intros [= <-]. apply matchCI_Some in E as (p & Hp & Hm & _).
    exists alternatives, p. split; [now left | tauto].
  - intros H. destruct (IH H) as (alts & p & Halts & Hp & Hm).
    exists alts, p. split; [now right | tauto].
Qed.

Lemma extractCity_nonempty (address : string) :
  Str.nonempty (extractCityFromAddress address) = true.
Proof.
  unfold extractCityFromAddress.
  destruct (firstPatternMatch cityPatterns address) as [m |] eqn:E; [| reflexivity].
  destruct (String.eqb (Str.toLowerCase m) "new delhi"); [reflexivity |].
  apply firstPatternMatch_Some in E as (alts & p & Halts & Hp & Hm).
  rewrite <- toLowerCase_nonempty, Hm, toLowerCase_nonempty.
  cbn in Halts. decompose [or] Halts; try contradiction; subst alts;
    cbn in Hp; decompose [or] Hp; try contradiction; subst p; reflexivity.
Qed.

(** The city read from an address is, case put aside, the first name of the
    fixed order Delhi, Mumbai, Bangalore, Chennai, Kolkata, Jaipur, Goa,
    Hyderabad, Pune, Agra that occurs in the address, wherever it occurs;
    it is Delhi when none occurs.  It is written as the address writes it,
    "New Delhi" becoming "Delhi". *)
Theorem extractCity_first_named (address : string) :
  Str.toLowerCase (extractCityFromAddress address)
  = match firstCityNamed address with Some c => c | None => "delhi" end.
Proof.
  unfold extractCityFromAddress, firstCityNamed.
  change cityPatterns
    with (["New Delhi"; "Delhi"]
          :: map (fun n => [n])
               ["Mumbai"; "Bangalore"; "Chennai"; "Kolkata"; "Jaipur"; "Goa";
                "Hyderabad"; "Pune"; "Agra"]).
  change cityNames
    with ("delhi"
          :: map Str.toLowerCase
               ["Mumbai"; "Bangalore"; "Chennai"; "Kolkata"; "Jaipur"; "Goa";
                "Hyderabad"; "Pune"; "Agra"]).
  cbn [firstPatternMatch List.find].
  destruct (Str.matchCI ["New Delhi"; "Delhi"] address) as [m |] eqn:E.
  - apply matchCI_Some in E as (p & Hin & Hm & Hinc).
    assert (Hdelhi : Str.includes (Str.toLowerCase address) "delhi" = true).
    { destruct Hin as [<- | [<- | []]]; [| exact Hinc].
      clear -Hinc. induction (Str.toLowerCase address) as [| c s IH]; [discriminate |].
      cbn [Str.includes] in Hinc |- *. apply orb_true_iff in Hinc as [H | H].
      - apply (prefix_app_includes "new " "delhi") in H. cbn [Str.includes] in H. exact H.
      - rewrite (IH H). apply orb_true_r. }
    rewrite Hdelhi.
    destruct Hin as [<- | [<- | []]].
    + rewrite Hm. reflexivity.
    + rewrite Hm at 1. exact Hm.
  - pose proof (matchCI_None _ address "Delhi" E ltac:(right; now left)) as Hd.
    change (Str.toLowerCase "Delhi") with "delhi" in Hd. rewrite Hd.
    pose proof (firstPatternMatch_single
                  ["Mumbai"; "Bangalore"; "Chennai"; "Kolkata"; "Jaipur"; "Goa";
                   "Hyderabad"; "Pune"; "Agra"] address) as H.
    destruct (firstPatternMatch _ address) as [m |]; rewrite H; [| reflexivity].
    apply List.find_some in H as [Hin _].
    assert (Hnew : String.eqb (Str.toLowerCase m) "new delhi" = false).
    { cbn in Hin. decompose [or] Hin; try contradiction;
        match goal with H : _ = Str.toLowerCase m |- _ => rewrite <- H end; reflexivity. }
    now rewrite Hnew.
Qed.

(** ** Initialization *)

(** ** Tags and stars *)

Lemma NoDup_take {A : Type} (n : nat) (l : list A) : List.NoDup l -> List.NoDup (take n l).
Proof.
  intros H. revert n. induction H as [| x l Hx _ IH]; intros [| n]; cbn [take]; try constructor.
  - intros Hin. apply Hx. eapply In_take. exact Hin.
  - apply IH.
Qed.

(** The tags of an aggregated hotel: at most ten, no tag twice, each the
    lower-cased trimmed text of a piece of the facilities field, not
    empty. *)
Theorem tags_after_aggregation (w : World) (i : nat) (row : Raw.HotelData) :
  let tags := Agg.tags (aggregateRow w i row) in
  (length tags <= 10)%nat
  /\ List.NoDup tags
  /\ (forall t, In t tags ->
        Str.nonempty t = true
        /\ Str.toLowerCase t = t
        /\ exists piece,
             In piece (Str.splitFacilities (Raw.hotel_facilities row))
             /\ t = Str.toLowerCase (Str.trim piece)).
Proof.
  cbv zeta. cbn [aggregateRow Agg.tags]. unfold Arr.slice0.
  split; [rewrite length_take; lia |]. split.
  - apply NoDup_take. destruct (Str.nonempty _); [apply distinct_NoDup | constructor].
  - intros t Ht. apply In_take in Ht.
    destruct (Str.nonempty (Raw.hotel_facilities row)); [| destruct Ht].
    apply distinct_In in Ht as [Ht _].
    apply in_map_iff in Ht as (token & <- & Htoken).
    unfold facilityTokens in Htoken. apply filter_In in Htoken as [Htoken Hne].
    apply in_map_iff in Htoken as (piece & <- & Hpiece).
    split; [now rewrite toLowerCase_nonempty |].
    split; [apply toLowerCase_idem |].
    exists piece. split; [exact Hpiece | reflexivity].
Qed.

(** ** The review summary *)

Lemma prefix_trans (a b c : string) :
  String.prefix a b = true -> String.prefix b c = true -> String.prefix a c = true.
Proof.
  revert b c. induction a as [| x a IH]; intros b c; [destruct c; reflexivity |].
  destruct b as [| y b]; cbn [String.prefix]; [discriminate |].
  destruct (ascii_dec x y) as [<- | _]; [| discriminate].
  destruct c as [| z c]; cbn [String.prefix]; [discriminate |].
  destruct (ascii_dec x z); [apply IH | discriminate].
Qed.

Lemma prefix_substring (n : nat) (s : string) : String.prefix (String.substring 0 n s) s = true.
Proof.
  revert n. induction s as [| c s IH]; intros [| n]; try reflexivity.
  cbn [String.substring String.prefix]. destruct (ascii_dec c c); [apply IH | contradiction].
Qed.

Lemma length_substring_le (n : nat) (s : string) :
  (String.length (String.substring 0 n s) <= n)%nat.
Proof.
  revert n. induction s as [| c s IH]; intros [| n]; cbn; try lia.
  specialize (IH n). lia.
Qed.

Lemma dropLastWord_eq (s : string) :
  Str.dropLastWord s
  = if Str.spacesThenWord s then EmptyString
    else match s with
         | EmptyString => EmptyString
         | String c s' => String c (Str.dropLastWord s')
         end.
Proof. destruct s; reflexivity. Qed.

Lemma dropLastWord_prefix (s : string) : String.prefix (Str.dropLastWord s) s = true.
Proof.
  induction s as [| c s IH]; [reflexivity |]. rewrite dropLastWord_eq.
  destruct (Str.spacesThenWord (String c s)); [reflexivity |].
  cbn [String.prefix]. destruct (ascii_dec c c); [exact IH | contradiction].
Qed.

Lemma dropLastWord_length (s : string) :
  (String.length (Str.dropLastWord s) <= String.length s)%nat.
Proof.
  induction s as [| c s IH]; [reflexivity |]. rewrite dropLastWord_eq.
  destruct (Str.spacesThenWord (String c s)); cbn; lia.
Qed.

(** What is kept never ends in white space. *)
Lemma dropLastWord_trimmed (s : string) : endsWithSpace (Str.dropLastWord s) = false.
Proof.
  induction s as [| c s IH]; [reflexivity |]. rewrite dropLastWord_eq.
  destruct (Str.spacesThenWord (String c s)) eqn:Hs; [reflexivity |].
  cbn [endsWithSpace]. destruct (Str.dropLastWord s) as [| d r] eqn:Hd; [| exact IH].
  destruct (Str.is_space c) eqn:Hc; [| reflexivity].
  rewrite dropLastWord_eq in Hd.
  cbn [Str.spacesThenWord Str.trimStart] in Hs. rewrite Hc in Hs. cbn [andb] in Hs.
  destruct s as [| e s']; [discriminate Hs |].
  destruct (Str.spacesThenWord (String e s')) eqn:He; [| discriminate Hd].
  cbn [Str.spacesThenWord] in He. apply andb_true_iff in He as [_ He]. congruence.
Qed.

Lemma nonempty_false (s : string) : Str.nonempty s = false <-> s = EmptyString.
Proof. destruct s; cbn; split; intros; congruence. Qed.

Lemma append_nil_r (s : string) : s +:+ EmptyString = s.
Proof. induction s as [| c s IH]; [reflexivity |]. rewrite append_cons. now rewrite IH. Qed.

(** ** Coordinates *)

Lemma assoc_known {A : Type} (key : string) (table : list (string * A)) :
  existsb (fun entry => String.eqb (fst entry) key) table = true ->
  exists v, assoc key table = Some v /\ In v (map snd table).
Proof.
  induction table as [| [k v] table IH]; cbn [existsb assoc fst map snd]; [discriminate |].
  destruct (String.eqb k key).
  - intros _. exists v. split; [reflexivity | now left].
  - cbn [orb]. intros H. destruct (IH H) as (v' & Hv & Hin). exists v'.
    split; [exact Hv | now right].
Qed.

Lemma assoc_unknown {A : Type} (key : string) (table : list (string * A)) :
  existsb (fun entry => String.eqb (fst entry) key) table = false -> assoc key table = None.
Proof.
  induction table as [| [k v] table IH]; cbn [existsb assoc fst]; [reflexivity |].
  destruct (String.eqb k key); [discriminate | exact IH].
Qed.

Lemma cityCoords_finite (c : Coordinates) : In c (map snd cityCoords) -> finitePoint c.
Proof.
  cbn. intros H. decompose [or] H; try contradiction; subst; split; reflexivity.
Qed.

(** The coordinates of an aggregated hotel are those of its row when the
    latitude and the longitude of the row are both neither zero nor NaN.
    Otherwise they are those the table of cities gives for the city of the
    hotel, looked up by its exact spelling, and those of Delhi for a city
    the table does not have.  Unless the city is a name that object
    literals inherit, rows with real coordinates give hotels with real
    coordinates. *)
Theorem coordinates_after_aggregation (w : World) (i : nat) (row : Raw.HotelData) :
  let h := aggregateRow w i row in
  let own := Num.truthy (Raw.latitude row) && Num.truthy (Raw.longitude row) in
  (own = true ->
     Agg.coordinates h = {| lat := Raw.latitude row; lng := Raw.longitude row |})
  /\ (own = false -> knownCity (Agg.city h) = true ->
        assoc (Agg.city h) cityCoords = Some (Agg.coordinates h))
  /\ (own = false -> knownCity (Agg.city h) = false -> inheritedName (Agg.city h) = false ->
        Agg.coordinates h = {| lat := Fin 28.6139; lng := Fin 77.2090 |})
  /\ (Num.is_finite (Raw.latitude row) = true -> Num.is_finite (Raw.longitude row) = true ->
        inheritedName (Agg.city h) = false -> finitePoint (Agg.coordinates h)).
Proof.
  cbv zeta. cbn [aggregateRow Agg.coordinates Agg.city].
  set (city := if Str.nonempty (Raw.city row) then Raw.city row
               else extractCityFromAddress (Raw.address row)).
  unfold getCoordinatesForRow, getCoordinatesForCity, getProperty, knownCity, inheritedName.
  destruct (Num.truthy (Raw.latitude row) && Num.truthy (Raw.longitude row)).
  - split; [reflexivity |]. split; [discriminate |]. split; [discriminate |].
    intros H1 H2 _. split; assumption.
  - split; [discriminate |].
    destruct (existsb (fun entry => String.eqb (fst entry) city) cityCoords) eqn:Hk.
    + apply assoc_known in Hk as (c & Hc & Hin). rewrite Hc.
      split; [reflexivity |]. split; [discriminate |].
      intros _ _ _. now apply cityCoords_finite.
    + apply assoc_unknown in Hk. rewrite Hk.
      split; [discriminate |]. split.
      * intros _ _ ->. reflexivity.
      * intros _ _ ->. split; reflexivity.
Qed.

(** ** The listing and the search by city *)

Lemma initialize_ready (w : World) (e : Engine) : isInitialized e = true -> initialize w e = e.
Proof. intros H. unfold initialize. now rewrite H. Qed.

(** Every city that [getAvailableCities] lists, given to
    [searchHotelsByCity], finds at least one hotel, and the hotels found are
    hotels of the collection; for a city that is not empty and is not "all"
    they are those whose city is that city, case put aside. *)
Theorem listed_city_has_hotels (w : World) (e : Engine) (c : string) :
  isInitialized e = true ->
  In c (snd (getAvailableCities e)) ->
  snd (searchHotelsByCity w e c) <> []
  /\ (forall h, In h (snd (searchHotelsByCity w e c)) -> In h (aggregatedHotels e))
  /\ (cityGiven c = true ->
        forall h, In h (snd (searchHotelsByCity w e c))
                  <-> In h (aggregatedHotels e)
                      /\ Str.toLowerCase (Agg.city h) = Str.toLowerCase c).
Proof.
  intros Hready Hc.
  apply (proj1 (getAvailableCities_cities e)) in Hc.
  apply in_map_iff in Hc as (h0 & Hcity & Hin0).
  cbn [searchHotelsByCity snd]. rewrite (initialize_ready w e Hready).
  unfold cityGiven.
  destruct (negb (Str.nonempty c) || String.eqb c "all") eqn:Hall.
  - split; [intros Hnil; rewrite Hnil in Hin0; destruct Hin0 |].
    split; [tauto |].
    intros Hgiven. apply andb_true_iff in Hgiven as [H1 H2].
    rewrite H1 in Hall. cbn [negb orb] in Hall. rewrite Hall in H2. discriminate.
  - assert (Hfilter : forall h,
      In h (List.filter
              (fun h => String.eqb (Str.toLowerCase (Agg.city h)) (Str.toLowerCase c))
              (aggregatedHotels e))
      <-> In h (aggregatedHotels e) /\ Str.toLowerCase (Agg.city h) = Str.toLowerCase c).
    { intros h. rewrite filter_In, String.eqb_eq. tauto. }
    split.
    + intros Hnil. assert (Hh0 : In h0 []).
      { rewrite <- Hnil. apply Hfilter. split; [exact Hin0 | now rewrite Hcity]. }
      destruct Hh0.
    + split; [intros h Hh; now apply Hfilter in Hh |].
      intros _. exact Hfilter.
Qed.

Lemma listed_city_has_hotels_witness :
  isInitialized readyEngine = true
  /\ In "Delhi" (snd (getAvailableCities readyEngine))
  /\ snd (searchHotelsByCity silentWorld readyEngine "Delhi") <> [].
Proof.
  assert (Hready : isInitialized readyEngine = true) by reflexivity.
  assert (Hin : In "Delhi" (snd (getAvailableCities readyEngine))) by (vm_compute; tauto).
  split; [exact Hready |]. split; [exact Hin |].
  exact (proj1 (listed_city_has_hotels silentWorld readyEngine "Delhi" Hready Hin)).
Defined.

(** ** The filters of a request *)

Lemma cityFilter_In (all : list AggregatedHotel) (city : string) (h : AggregatedHotel) :
  In h (cityFilter all city) -> In h all.
Proof.
  unfold cityFilter. destruct (cityGiven city); [| tauto].
  destruct (length _ =? 0)%nat; [tauto |].
  intros H. apply mergeUnique_In in H as [H _].
  apply in_app_iff in H as [H | H]; apply filter_In in H; tauto.
Qed.

Lemma fuseItems_In (w : World) (opts : FuseOptions) (l : list AggregatedHotel) (q : string)
    (r : FuseResult) :
  Shared.fuseItems w -> In r (Fuse_search w opts l q) -> In (item r) l.
Proof.
  intros Hfuse Hr. apply Hfuse in Hr. apply list_elem_of_In.
  eapply list_elem_of_lookup_2. exact Hr.
Qed.

Lemma areaFilter_In (w : World) (o : Options) (city : string) (l : list AggregatedHotel)
    (h : AggregatedHotel) :
  Shared.fuseItems w -> In h (areaFilter w o city l) -> In h l.
Proof.
  intros Hfuse. unfold areaFilter. destruct (areaGiven o) as [a |]; [| tauto].
  destruct (negb _).
  - intros H. apply in_map_iff in H as (r & <- & Hr). eapply fuseItems_In; eassumption.
  - destruct (geocode w _) as [geo |]; [| tauto].
    rewrite sortByDistance_sort. apply sort_In.
Qed.

Lemma candidates_pass_filters (w : World) (all : list AggregatedHotel) (city : string)
    (options : option Options) (h : AggregatedHotel) :
  Shared.fuseItems w ->
  In h (candidatesOf w all city options) ->
  In h all
  /\ forall o, options = Some o ->
       (forall lo hi, priceMin o = Some lo -> priceMax o = Some hi ->
          Num.ge (Agg.priceRange h) lo = true /\ Num.le (Agg.priceRange h) hi = true)
       /\ (forall s stars, starRatings o = Some (s :: stars) ->
             exists r, Agg.starRating h = Some r
                       /\ Num.truthy r = true
                       /\ existsb (Num.same_value_zero r) (s :: stars) = true)
       /\ (forall m, avgRatingMin o = Some m -> Num.lt (Agg.averageScore h) m = false)
       /\ (forall M, avgRatingMax o = Some M -> Num.gt (Agg.averageScore h) M = false).
Proof.
  intros Hfuse. unfold candidatesOf.
  destruct options as [o |]; cbn [applyOptions].
  - intros H. apply areaFilter_In in H; [| exact Hfuse].
    assert (Hrating : In h (starFilter o (priceFilter o (cityFilter all city)))
                      /\ (forall m, avgRatingMin o = Some m -> Num.lt (Agg.averageScore h) m = false)
                      /\ (forall M, avgRatingMax o = Some M -> Num.gt (Agg.averageScore h) M = false)).
    { revert H. unfold ratingFilter.
      destruct (avgRatingMin o) as [m |], (avgRatingMax o) as [M |];
        rewrite ?filter_In; unfold ratingMatches.
      - intros [Hh Hm]. destruct (Num.lt (Agg.averageScore h) m) eqn:E1; [discriminate |].
        apply negb_true_iff in Hm. split; [exact Hh |].
        split; intros ? [= <-]; assumption.
      - intros [Hh Hm]. destruct (Num.lt (Agg.averageScore h) m) eqn:E1; [discriminate |].
        split; [exact Hh |]. split; [intros ? [= <-]; assumption | discriminate].
      - intros [Hh Hm]. apply negb_true_iff in Hm. split; [exact Hh |].
        split; [discriminate | intros ? [= <-]; assumption].
      - intros Hh. split; [exact Hh |]. split; discriminate. }
    destruct Hrating as (Hstar & Hmin & Hmax).
    assert (Hstars : In h (priceFilter o (cityFilter all city))
                     /\ (forall s stars, starRatings o = Some (s :: stars) ->
                           exists r, Agg.starRating h = Some r
                                     /\ Num.truthy r = true
                                     /\ existsb (Num.same_value_zero r) (s :: stars) = true)).
    { revert Hstar. unfold starFilter.
      destruct (starRatings o) as [[| s stars] |];
        try (intros Hh; split; [exact Hh | intros; congruence]).
      rewrite filter_In. unfold starMatches. intros [Hh Hm]. split; [exact Hh |].
      intros s' stars' [= <- <-].
      destruct (Agg.starRating h) as [r |]; [| discriminate].
      apply andb_true_iff in Hm as [Ht Hs]. exists r. tauto. }
    destruct Hstars as (Hprice & Hstars).
    assert (Hprices : In h (cityFilter all city)
                      /\ (forall lo hi, priceMin o = Some lo -> priceMax o = Some hi ->
                            Num.ge (Agg.priceRange h) lo = true
                            /\ Num.le (Agg.priceRange h) hi = true)).
    { revert Hprice. unfold priceFilter.
      destruct (priceMin o) as [lo |], (priceMax o) as [hi |];
        try (intros Hh; split; [exact Hh | intros; congruence]).
      rewrite filter_In. intros [Hh Hm]. split; [exact Hh |].
      intros lo' hi' [= <-] [= <-]. now apply andb_true_iff in Hm. }
    destruct Hprices as (Hcity & Hprices).
    split; [eapply cityFilter_In; exact Hcity |].
    intros o' [= <-]. tauto.
  - intros H. split; [eapply cityFilter_In; exact H | discriminate].
Qed.

Lemma scoredHotels_In (w : World) (cands : list AggregatedHotel) (persona q : string)
    (scored : list ScoredHotel) (sh : ScoredHotel) :
  Shared.fuseItems w ->
  scoredHotelsOf w cands persona q = Normal scored ->
  In sh scored -> In (hotel sh) cands.
Proof.
  intros Hfuse. unfold scoredHotelsOf.
  destruct (mapThrowing _ _) as [ys |] eqn:E; [| discriminate].
  intros [= <-]. unfold withFallback.
  destruct (length ys =? 0)%nat.
  - intros H. apply in_map_iff in H as (h & <- & Hh). exact Hh.
  - intros H. apply mapThrowing_Normal in E.
    destruct (Forall2_In_r _ _ _ _ E H) as (r & Hr & Hscore).
    unfold scoreResult in Hscore.
    destruct (calculateFinalScore _ _ _); [| discriminate].
    injection Hscore as <-. cbn [hotel]. eapply fuseItems_In; eassumption.
Qed.

(** Every hotel a request returns is a hotel of the collection, and it
    passes each filter the request gives: its price is within the two
    bounds when both are given, its star rating is one of the requested
    ones when some are requested, and its average score is not below the
    minimum nor above the maximum.  (The search library returning as the
    item of a hit the element it found.) *)
Theorem recommended_hotels_pass_filters (w : World) (all : list AggregatedHotel)
    (persona city : string) (preferences : list string) (options : option Options)
    (res : RecommendationResult) (sh : ScoredHotel) :
  Shared.fuseItems w ->
  recommend w all persona city preferences options = Normal res ->
  In sh (hotels res) ->
  In (hotel sh) all
  /\ forall o, options = Some o ->
       (forall lo hi, priceMin o = Some lo -> priceMax o = Some hi ->
          Num.ge (Agg.priceRange (hotel sh)) lo = true
          /\ Num.le (Agg.priceRange (hotel sh)) hi = true)
       /\ (forall s stars, starRatings o = Some (s :: stars) ->
             exists r, Agg.starRating (hotel sh) = Some r
                       /\ Num.truthy r = true
                       /\ existsb (Num.same_value_zero r) (s :: stars) = true)
       /\ (forall m, avgRatingMin o = Some m ->
             Num.lt (Agg.averageScore (hotel sh)) m = false)
       /\ (forall M, avgRatingMax o = Some M ->
             Num.gt (Agg.averageScore (hotel sh)) M = false).
Proof.
  intros Hfuse Hres Hsh. unfold recommend in Hres.
  destruct (scoredHotelsOf w _ persona _) as [scored |] eqn:E; [| discriminate].
  injection Hres as <-. cbn [hotels] in Hsh.
  rewrite topHotels_unfold in Hsh. apply In_take in Hsh. apply sort_In in Hsh.
  apply (candidates_pass_filters w all city options (hotel sh) Hfuse).
  eapply scoredHotels_In; eassumption.
Qed.

Lemma matchingWorld_fuseItems : Shared.fuseItems matchingWorld.
Proof.
  intros opts l q r Hr. cbn [Fuse_search matchingWorld] in Hr. unfold hitEverything in Hr.
  apply list_elem_of_In, elem_of_lookup_imap in Hr as (i & h & -> & Hh). exact Hh.
Qed.

Lemma recommended_hotels_pass_filters_witness :
  Shared.fuseItems matchingWorld
  /\ exists res,
       recommend matchingWorld [poolHotel; plainHotel] "Family" "all" [] (Some priceOptions)
       = Normal res
       /\ forall sh, In sh (hotels res) ->
            In (hotel sh) [poolHotel; plainHotel]
            /\ Num.ge (Agg.priceRange (hotel sh)) (Fin 500) = true
            /\ Num.le (Agg.priceRange (hotel sh)) (Fin 1500) = true.
Proof.
  split; [exact matchingWorld_fuseItems |].
  destruct (recommend_returns matchingWorld [poolHotel; plainHotel] "Family" "all" []
              (Some priceOptions) eq_refl) as [res Hres].
  exists res. split; [exact Hres |]. intros sh Hsh.
  destruct (recommended_hotels_pass_filters matchingWorld [poolHotel; plainHotel]
              "Family" "all" [] (Some priceOptions) res sh matchingWorld_fuseItems Hres Hsh)
    as [Hin Hfilters].
  split; [exact Hin |].
  exact (proj1 (Hfilters priceOptions eq_refl) (Fin 500) (Fin 1500) eq_refl eq_refl).
Defined.

(** ** The range and the growth of the scores *)

Lemma Int_part_le (x y : R) : x <= y -> (Int_part x <= Int_part y)%Z.
Proof.
  intros H. destruct (base_Int_part x) as [Hx _], (base_Int_part y) as [_ Hy].
  apply Z.lt_succ_r, lt_IZR. rewrite succ_IZR. lra.
Qed.

Lemma ln_le (x y : R) : 0 < x -> x <= y -> ln x <= ln y.
Proof.
  intros Hx [Hlt | ->]; [| lra]. left. now apply ln_increasing.
Qed.

Lemma Rmin_le_compat (c x y : R) : x <= y -> Rmin c x <= Rmin c y.
Proof. intros H. unfold Rmin. destruct (Rle_dec c x), (Rle_dec c y); lra. Qed.

Lemma volume_confidence_range (t : R) : 0 <= t -> 0 <= Rmin 1 (ln (t + 1) / 8) <= 1.
Proof.
  intros Ht. pose proof (ln_nonneg (t + 1) ltac:(lra)) as Hln.
  split; [apply Rmin_glb; lra | apply Rmin_l].
Qed.

Lemma personaBonus_range (h : AggregatedHotel) (persona : string) :
  exists b : R, personaBonus h persona = Fin b /\ 0 <= b <= 0.1.
Proof.
  unfold personaBonus. destruct (assoc persona bonusKeywords) as [keywords |].
  - cbn [Num.mul Num.of_nat]. rewrite min_fin. eexists. split; [reflexivity |].
    set (n := INR _). assert (Hn : 0 <= n) by apply pos_INR.
    split; [apply Rmin_glb; lra | apply Rmin_r].
  - exists 0. split; [reflexivity | lra].
Qed.

Lemma getPersonaBonus_returns (h : AggregatedHotel) (persona : string) :
  inheritedName persona = false ->
  getPersonaBonus h persona = Normal (personaBonus h persona).
Proof.
  intros Hp. destruct (getPersonaBonus h persona) as [b |] eqn:E.
  - f_equal. now apply getPersonaBonus_Normal.
  - exfalso. unfold getPersonaBonus in E.
    pose proof (getProperty_not_inherited bonusKeywords persona Hp) as Hni.
    destruct (getProperty bonusKeywords persona); try discriminate. now apply Hni.
Qed.

(** The final score of a hotel whose fields are reals. *)
Lemma calculateFinalScore_fin (h : AggregatedHotel) (persona : string) (a t s b : R) :
  inheritedName persona = false ->
  plainCounts h ->
  Agg.averageScore h = Fin a -> Agg.totalReviews h = Fin t -> 0 <= t ->
  personaBonus h persona = Fin b ->
  calculateFinalScore h persona (Fin s)
  = Normal (Fin (IZR (Int_part (rawFinalScore a s t b + / 2)))).
Proof.
  intros Hp [Hpos Hneg] Ha Ht Ht0 Hb.
  destruct (calculateFinalScore h persona (Fin s)) as [v |] eqn:E.
  - apply calculateFinalScore_Normal in E. subst v. f_equal.
    rewrite Ha, Ht, Hpos, Hneg, Hb.
    unfold finalScoreFormula, reviewVolumeConfidence, sentimentRatio.
    cbn [Num.add]. rewrite log_fin by lra. rewrite !div_fin by lra. rewrite min_fin.
    reflexivity.
  - exfalso. unfold calculateFinalScore in E. cbv zeta in E.
    now rewrite (getPersonaBonus_returns h persona Hp) in E.
Qed.

(** A hotel that has the same tags and reviews as another and is at least
    as good on average score, on review total and on similarity never gets
    a lower final score. *)
Theorem final_score_monotone (h1 h2 : AggregatedHotel) (persona : string) (s1 s2 : R) :
  inheritedName persona = false ->
  plainCounts h1 -> plainCounts h2 ->
  Agg.tags h1 = Agg.tags h2 -> Agg.reviews h1 = Agg.reviews h2 ->
  realLe (Agg.averageScore h1) (Agg.averageScore h2) ->
  nonNegative (Agg.totalReviews h1) ->
  realLe (Agg.totalReviews h1) (Agg.totalReviews h2) ->
  s1 <= s2 ->
  exists z1 z2 : Z,
    calculateFinalScore h1 persona (Fin s1) = Normal (Fin (IZR z1))
    /\ calculateFinalScore h2 persona (Fin s2) = Normal (Fin (IZR z2))
    /\ (z1 <= z2)%Z.
Proof.
  intros Hp Hc1 Hc2 Htags Hrev (a1 & a2 & Ha1 & Ha2 & Ha) (t & Ht & Ht0)
         (t1 & t2 & Ht1 & Ht2 & Htt) Hs.
  rewrite Ht in Ht1. injection Ht1 as <-.
  destruct (personaBonus_range h1 persona) as (b & Hb & _).
  assert (Hb2 : personaBonus h2 persona = Fin b).
  { rewrite <- Hb. unfold personaBonus. now rewrite Htags, Hrev. }
  eexists _, _.
  split; [apply (calculateFinalScore_fin h1 persona a1 t s1 b); assumption |].
  split; [apply (calculateFinalScore_fin h2 persona a2 t2 s2 b); try assumption; lra |].
  apply Int_part_le. unfold rawFinalScore.
  assert (Hln : ln (t + 1) <= ln (t2 + 1)) by (apply ln_le; lra).
  pose proof (Rmin_le_compat 1 (ln (t + 1) / 8) (ln (t2 + 1) / 8) ltac:(lra)) as Hmin.
  lra.
Qed.

Lemma final_score_monotone_witness :
  exists z1 z2 : Z,
    calculateFinalScore poolHotel "Family" (Fin 0.25) = Normal (Fin (IZR z1))
    /\ calculateFinalScore poolHotel "Family" (Fin 0.75) = Normal (Fin (IZR z2))
    /\ (z1 <= z2)%Z.
Proof.
  apply (final_score_monotone poolHotel poolHotel "Family" 0.25 0.75).
  - reflexivity.
  - split; reflexivity.
  - split; reflexivity.
  - reflexivity.
  - reflexivity.
  - exists 8, 8. repeat split; first [reflexivity | lra].
  - exists 0. split; [reflexivity | lra].
  - exists 0, 0. repeat split; first [reflexivity | lra].
  - lra.
Defined.

(** The popularity score of the fallback is an integer from 0 to 100, for
    a hotel whose average score is on the scale from 0 to 10 and whose
    review total is not negative. *)
Theorem popularity_score_range (h : AggregatedHotel) :
  onTenScale (Agg.averageScore h) ->
  nonNegative (Agg.totalReviews h) ->
  hotel (popularityScore h) = h /\ percentage (finalScore (popularityScore h)).
Proof.
  intros (a & Ha & Ha0) (t & Ht & Ht0). rewrite popularityScore_formula.
  cbn [hotel finalScore]. split; [reflexivity |].
  rewrite Ha, Ht. unfold popularityFormula, reviewVolumeConfidence.
  cbn [Num.add]. rewrite log_fin by lra. rewrite !div_fin by lra. rewrite min_fin.
  cbn [Num.mul Num.add Num.round].
  pose proof (volume_confidence_range t Ht0) as Hv.
  set (c := Rmin 1 (ln (t + 1) / 8)) in *.
  eexists. split; [reflexivity |]. split.
  - apply Int_part_nonneg. lra.
  - assert (Hlt : (Int_part (100 * (0.7 * (a / 10) + 0.3 * c) + / 2) < 101)%Z)
      by (apply Int_part_lt; lra).
    lia.
Qed.

Lemma popularity_score_range_witness : percentage (finalScore (popularityScore plainHotel)).
Proof.
  apply (popularity_score_range plainHotel).
  - exists 6. split; [reflexivity | lra].
  - exists 0. split; [reflexivity | lra].
Defined.

(** ** Rows of a well-formed table *)

Lemma fold_counts (l : list (option PlatformRating)) (acc : R) :
  List.Forall (fun p => finiteEntry p /\ 0 <= ratingR p <= 10 /\ 0 <= countR p)
    (omap (fun p : option PlatformRating => p) l) ->
  0 <= acc ->
  nonNegative (fold_left (fun s p => Num.add s (countOf p)) l (Fin acc)).
Proof.
  revert acc. induction l as [| p l IH]; intros acc H Hacc.
  - exists acc. split; [reflexivity | exact Hacc].
  - cbn [fold_left]. destruct p as [e |]; cbn [countOf].
    + change (omap (fun p : option PlatformRating => p) (Some e :: l))
        with (e :: omap (fun p : option PlatformRating => p) l) in H.
      apply List.Forall_cons_iff in H as [(He & _ & Hc) H].
      destruct (finiteEntry_fin e He) as [_ ->]. cbn [Num.add]. apply IH; [exact H | lra].
    + change (omap (fun p : option PlatformRating => p) (None :: l))
        with (omap (fun p : option PlatformRating => p) l) in H.
      cbn [Num.add]. apply IH; [exact H | lra].
Qed.

Lemma wellFormed_average (w : World) (i : nat) (row : Raw.HotelData) :
  wellFormedRow w row -> onTenScale (Agg.averageScore (aggregateRow w i row)).
Proof.
  intros [Hsrc Hratings]. rewrite averageScore_unfold.
  destruct (Num.truthy (Raw.average_rating row)) eqn:Ht.
  - rewrite or_truthy by assumption. now apply Hsrc.
  - rewrite or_falsy by assumption. now apply computeWeightedAverage_onTenScale.
Qed.

Lemma wellFormed_total (w : World) (i : nat) (row : Raw.HotelData) :
  wellFormedRow w row -> nonNegative (Agg.totalReviews (aggregateRow w i row)).
Proof.
  intros [_ Hratings]. cbn [aggregateRow Agg.totalReviews].
  apply fold_counts; [exact Hratings | lra].
Qed.

Lemma wellFormed_confidence (w : World) (i : nat) (row : Raw.HotelData) :
  wellFormedRow w row -> percentage (Agg.confidenceScore (aggregateRow w i row)).
Proof.
  intros Hrow. rewrite confidenceScore_unfold.
  destruct (wellFormed_average w i row Hrow) as (a & -> & Ha).
  destruct (wellFormed_total w i row Hrow) as (t & -> & Ht).
  apply confidence_percentage; lra.
Qed.

(** ** The request that keeps no candidate *)

Lemma fuseItems_nil (w : World) (opts : FuseOptions) (q : string) :
  Shared.fuseItems w -> Fuse_search w opts [] q = [].
Proof.
  intros Hfuse. destruct (Fuse_search w opts [] q) as [| r hits] eqn:E; [reflexivity |].
  exfalso. apply (fuseItems_In w opts [] q r Hfuse). rewrite E. now left.
Qed.

Lemma cityFilter_nil (all : list AggregatedHotel) (city : string) :
  cityFilter all city = [] -> all = [].
Proof.
  unfold cityFilter. destruct (cityGiven city); [| tauto].
  destruct (mergeUnique _ _) as [| h merged]; cbn [length Nat.eqb]; [tauto | discriminate].
Qed.

Lemma areaFilter_nil (w : World) (o : Options) (city : string) (l : list AggregatedHotel) :
  areaFilter w o city l = [] -> l = [].
Proof.
  unfold areaFilter. destruct (areaGiven o) as [a |]; [| tauto].
  destruct (Fuse_search w areaFuseOptions l (Str.trim a)) as [| r hits];
    cbn [length Nat.eqb negb map]; [| discriminate].
  destruct (geocode w _) as [geo |]; [| tauto].
  intros H. apply (f_equal (@length _)) in H.
  rewrite sortByDistance_sort, sort_length in H. now destruct l.
Qed.

(** The candidates of a request are none only when the collection is empty
    or when the price, star and rating filters keep no hotel of the city
    stage: the city and the area never empty them.  A request with no
    candidate returns no hotel, and insights whose two averages are NaN.
    (The search library finding nothing in an empty list.) *)
Theorem no_candidate_result (w : World) (all : list AggregatedHotel)
    (persona city : string) (preferences : list string) (options : option Options) :
  Shared.fuseItems w ->
  (candidatesOf w all city options = [] ->
     all = [] \/ exists o, options = Some o /\ numericFilters o (cityFilter all city) = [])
  /\ (candidatesOf w all city options = [] ->
        recommend w all persona city preferences options
        = Normal {| hotels := []; insights := emptyInsights city |}).
Proof.
  intros Hfuse. split.
  - unfold candidatesOf. destruct options as [o |]; cbn [applyOptions].
    + intros H. apply areaFilter_nil in H. right. exists o. split; [reflexivity | exact H].
    + intros H. left. eapply cityFilter_nil. exact H.
  - intros H. unfold recommend. rewrite H.
    rewrite scoredHotelsOf_no_hit by (apply fuseItems_nil; exact Hfuse).
    now rewrite generateInsights_nil.
Qed.

Lemma no_candidate_result_witness :
  recommend silentWorld [poolHotel] "Family" "all" [] (Some steepOptions)
  = Normal {| hotels := []; insights := emptyInsights "all" |}.
Proof.
  assert (Hfuse : Shared.fuseItems silentWorld) by (intros opts l q r []).
  apply (no_candidate_result silentWorld [poolHotel] "Family" "all" [] (Some steepOptions) Hfuse).
  unfold candidatesOf. cbn [applyOptions]. unfold areaFilter, ratingFilter, starFilter, priceFilter.
  cbn [areaGiven steepOptions area avgRatingMin avgRatingMax starRatings priceMin priceMax].
  change (cityFilter [poolHotel] "all") with [poolHotel]. cbn [List.filter].
  change (Agg.priceRange poolHotel) with (Fin 1000).
  assert (Hge : Num.ge (Fin 1000) (Fin 5000) = false).
  { apply not_true_is_false. rewrite ge_fin. lra. }
  now rewrite Hge.
Defined.

(** ** The request that throws *)

Lemma inherited_has_no_keywords (persona : string) :
  inheritedName persona = true -> getProperty bonusKeywords persona = Inherited.
Proof.
  intros H. unfold getProperty.
  assert (Hassoc : assoc persona bonusKeywords = None).
  { unfold inheritedName in H. apply existsb_exists in H as (k & Hk & Heq).
    apply String.eqb_eq in Heq. subst k.
    cbn in Hk. decompose [or] Hk; try contradiction; subst persona; reflexivity. }
  rewrite Hassoc. unfold inheritedName in H. now rewrite H.
Qed.

(** ** The distance *)

(** ** The price estimate *)

Lemma inBracket_widen (lo hi lo' hi' : R) (a : number) :
  lo' <= lo -> hi <= hi' -> inBracket lo hi a -> inBracket lo' hi' a.
Proof. intros Hlo Hhi (z & Ha & Hz). exists z. split; [exact Ha | lra]. Qed.

(** The price estimate is an integer from 800 (included) to 7000
    (excluded) that never falls below the bracket of the average score: at
    least 4000 for a score above 9, at least 2500 above 8.5, at least 1500
    above 7.5; the words of the tags and of the address can only raise
    it. *)
Theorem estimate_not_below_score_tier (u : R) (tags : list string) (avg : number)
    (address : string) :
  0 <= u < 1 ->
  inBracket 800 7000 (estimatePriceRange u tags avg address)
  /\ (Num.gt avg (Fin 7.5) = true -> inBracket 1500 7000 (estimatePriceRange u tags avg address))
  /\ (Num.gt avg (Fin 8.5) = true -> inBracket 2500 7000 (estimatePriceRange u tags avg address))
  /\ (Num.gt avg (Fin 9.0) = true -> inBracket 4000 7000 (estimatePriceRange u tags avg address)).
Proof.
  intros Hu.
  assert (H4 : inBracket 4000 7000 (randomIn u 3000 4000)).
  { replace 7000 with (4000 + 3000) by lra.
    apply (randomIn_bracket u 3000 4000 3000 4000); [assumption | reflexivity | reflexivity | lra]. }
  assert (H3 : inBracket 2500 3500 (randomIn u 1000 2500)).
  { replace 3500 with (2500 + 1000) by lra.
    apply (randomIn_bracket u 1000 2500 1000 2500); [assumption | reflexivity | reflexivity | lra]. }
  assert (H2 : inBracket 1500 2500 (randomIn u 1000 1500)).
  { replace 2500 with (1500 + 1000) by lra.
    apply (randomIn_bracket u 1000 1500 1000 1500); [assumption | reflexivity | reflexivity | lra]. }
  assert (H1 : inBracket 800 1300 (randomIn u 500 800)).
  { replace 1300 with (800 + 500) by lra.
    apply (randomIn_bracket u 500 800 500 800); [assumption | reflexivity | reflexivity | lra]. }
  unfold estimatePriceRange.
  destruct (_ || Num.gt avg (Fin 9.0)) eqn:E9.
  { repeat split; intros; eapply inBracket_widen; try exact H4; lra. }
  apply orb_false_iff in E9 as [_ E9].
  destruct (_ || Num.gt avg (Fin 8.5)) eqn:E8.
  { repeat split; try (intros; eapply inBracket_widen; try exact H3; lra).
    intros H. rewrite H in E9. discriminate. }
  apply orb_false_iff in E8 as [_ E8].
  destruct (Num.gt avg (Fin 7.5)) eqn:E7.
  { repeat split; try (intros; eapply inBracket_widen; try exact H2; lra).
    - intros H. rewrite H in E8. discriminate.
    - intros H. rewrite H in E9. discriminate. }
  repeat split; try discriminate.
  - eapply inBracket_widen; try exact H1; lra.
  - intros H. rewrite H in E8. discriminate.
  - intros H. rewrite H in E9. discriminate.
Qed.

Lemma estimate_not_below_score_tier_witness :
  inBracket 800 7000 (estimatePriceRange 0 ["pool"] (Fin 8) "12 Ring Road").
Proof.
  apply (estimate_not_below_score_tier 0 ["pool"] (Fin 8) "12 Ring Road"). lra.
Defined.

(** ** The insights *)

(** ** The top features *)

Lemma bump_keys (tag : string) (acc : list (string * TagValue)) (k : string) :
  In k (map fst (bump tag acc)) -> k = tag \/ In k (map fst acc).
Proof.
  induction acc as [| [k0 v0] acc IH]; cbn [bump].
  - destruct (String.eqb tag "__proto__"); [tauto |].
    destruct (existsb _ _); cbn; intros [<- | []]; now left.
  - destruct (String.eqb k0 tag); cbn [map fst In]; [tauto |].
    intros [H | H]; [tauto |]. apply IH in H. tauto.
Qed.

Lemma bump_keys_kept (tag : string) (acc : list (string * TagValue)) (k : string) :
  In k (map fst acc) -> In k (map fst (bump tag acc)).
Proof.
  induction acc as [| [k0 v0] acc IH]; cbn [bump map fst In]; [tauto |].
  destruct (String.eqb k0 tag); cbn [map fst In]; tauto.
Qed.

Lemma bump_NoDup (tag : string) (acc : list (string * TagValue)) :
  List.NoDup (map fst acc) -> List.NoDup (map fst (bump tag acc)).
Proof.
  induction acc as [| [k0 v0] acc IH]; cbn [bump].
  - intros _. destruct (String.eqb tag "__proto__"); [constructor |].
    destruct (existsb _ _); repeat constructor; intros [].
  - cbn [map fst]. intros H. apply List.NoDup_cons_iff in H as [Hk H].
    destruct (String.eqb k0 tag) eqn:E; cbn [map fst].
    + now constructor.
    + constructor; [| now apply IH].
      intros Hin. apply bump_keys in Hin as [-> | Hin]; [| contradiction].
      rewrite String.eqb_refl in E. discriminate.
Qed.

Lemma fold_bump_keys (tags : list string) (acc : list (string * TagValue)) :
  List.NoDup (map fst acc) ->
  List.NoDup (map fst (fold_left (fun acc tag => bump tag acc) tags acc))
  /\ forall k, In k (map fst (fold_left (fun acc tag => bump tag acc) tags acc)) ->
               In k tags \/ In k (map fst acc).
Proof.
  revert acc. induction tags as [| t tags IH]; intros acc H; cbn [fold_left]; [tauto |].
  destruct (IH (bump t acc) (bump_NoDup t acc H)) as [Hnd Hin].
  split; [exact Hnd |]. intros k Hk. apply Hin in Hk as [Hk | Hk]; [left; now right |].
  apply bump_keys in Hk as [-> | Hk]; [left; now left | now right].
Qed.

Lemma filter_split_Permutation {A : Type} (p : A -> bool) (l : list A) :
  Permutation (List.filter p l ++ List.filter (fun x => negb (p x)) l) l.
Proof.
  induction l as [| x l IH]; [reflexivity |]. cbn [List.filter].
  destruct (p x); cbn [negb app].
  - now apply perm_skip.
  - rewrite <- Permutation_middle. now apply perm_skip.
Qed.

Lemma entries_Permutation (acc : list (string * TagValue)) : Permutation (entries acc) acc.
Proof.
  unfold entries. rewrite sortBy_Permutation. apply filter_split_Permutation.
Qed.

Lemma ranked_entries_Permutation (acc : list (string * TagValue)) :
  Permutation (Arr.sortBy fewerThan (entries acc)) acc.
Proof. rewrite sortBy_Permutation. apply entries_Permutation. Qed.

Lemma map_take {A B : Type} (f : A -> B) (n : nat) (l : list A) :
  map f (take n l) = take n (map f l).
Proof. revert n. induction l as [| x l IH]; intros [| n]; cbn; [reflexivity .. |]. now rewrite IH. Qed.

Lemma topFeatures_unfold (l : list AggregatedHotel) (city : string) :
  topFeatures (generateInsights l city)
  = take 5 (map fst
              (Arr.sortBy fewerThan
                 (entries (fold_left (fun acc tag => bump tag acc) (allTagsOf l) [])))).
Proof. unfold generateInsights. cbn [topFeatures]. unfold Arr.slice0. apply map_take. Qed.

(** The top features are at most five tags, no tag twice, each a tag of one
    of the hotels the insights are computed from. *)
Theorem topFeatures_are_tags (l : list AggregatedHotel) (city : string) :
  let top := topFeatures (generateInsights l city) in
  (length top <= 5)%nat
  /\ List.NoDup top
  /\ forall t, In t top -> exists h, In h l /\ In t (Agg.tags h).
Proof.
  cbv zeta. rewrite topFeatures_unfold.
  destruct (fold_bump_keys (allTagsOf l) [] ltac:(constructor)) as [Hnd Hin].
  set (counts := fold_left (fun acc tag => bump tag acc) (allTagsOf l) []) in *.
  pose proof (Permutation_map fst (ranked_entries_Permutation counts)) as Hperm.
  split; [rewrite length_take; lia |]. split.
  - apply NoDup_take. eapply Permutation_NoDup; [symmetry; exact Hperm | exact Hnd].
  - intros t Ht. apply In_take in Ht.
    apply (Permutation_in _ Hperm) in Ht. apply Hin in Ht as [Ht | []].
    apply in_flat_map in Ht. exact Ht.
Qed.

Lemma not_inherited_not_proto (tag : string) :
  inheritedName tag = false -> String.eqb tag "__proto__" = false.
Proof.
  intros H. destruct (String.eqb tag "__proto__") eqn:E; [| reflexivity].
  apply String.eqb_eq in E. subst tag. discriminate H.
Qed.

Lemma bump_key_added (tag : string) (acc : list (string * TagValue)) :
  inheritedName tag = false -> In tag (map fst (bump tag acc)).
Proof.
  intros H. induction acc as [| [k0 v0] acc IH]; cbn [bump].
  - rewrite (not_inherited_not_proto tag H). unfold inheritedName in H. rewrite H. now left.
  - destruct (String.eqb k0 tag) eqn:E; cbn [map fst In]; [| tauto].
    apply String.eqb_eq in E. now left.
Qed.

(** What a bump leaves in the table. *)
Lemma bump_entries (tag : string) (acc : list (string * TagValue)) (k : string) (v : TagValue) :
  inheritedName tag = false ->
  List.NoDup (map fst acc) ->
  In (k, v) (bump tag acc) ->
  (k <> tag /\ In (k, v) acc)
  \/ (k = tag /\ exists v0, In (tag, v0) acc
                           /\ v = match v0 with Count n => Count (S n) | Text => Text end)
  \/ (k = tag /\ v = Count 1 /\ ~ In tag (map fst acc)).
Proof.
  intros Htag. induction acc as [| [k0 v0] acc IH]; cbn [bump]; intros Hnd.
  - rewrite (not_inherited_not_proto tag Htag). unfold inheritedName in Htag. rewrite Htag.
    intros [[= <- <-] | []]. right; right. tauto.
  - cbn [map fst] in Hnd. apply List.NoDup_cons_iff in Hnd as [Hk0 Hnd].
    destruct (String.eqb k0 tag) eqn:E.
    + apply String.eqb_eq in E. subst k0. intros [[= <- <-] | Hin].
      * right; left. split; [reflexivity |]. exists v0. split; [now left | reflexivity].
      * left. split; [| now right]. intros ->. apply Hk0.
        apply in_map_iff. exists (tag, v). tauto.
    + apply String.eqb_neq in E. intros [[= <- <-] | Hin].
      * left. split; [exact E | now left].
      * destruct (IH Hnd Hin) as [[Hne H] | [[-> (v1 & H & Hv)] | [-> [Hv Hnot]]]].
        -- left. split; [exact Hne | now right].
        -- right; left. split; [reflexivity |]. exists v1. split; [now right | exact Hv].
        -- right; right. split; [reflexivity |]. split; [exact Hv |].
           cbn [map fst In]. tauto.
Qed.

Lemma count_occ_snoc (seen : list string) (tag k : string) :
  count_occ string_dec (seen ++ [tag]) k
  = (count_occ string_dec seen k + if string_dec tag k then 1 else 0)%nat.
Proof. rewrite count_occ_app. cbn [count_occ]. destruct (string_dec tag k); reflexivity. Qed.

Lemma bump_countsOf (seen : list string) (tag : string) (acc : list (string * TagValue)) :
  inheritedName tag = false -> countsOf seen acc -> countsOf (seen ++ [tag]) (bump tag acc).
Proof.
  intros Htag (Hnd & Hval & Hkeys). split; [now apply bump_NoDup |]. split.
  - intros k v Hin. rewrite count_occ_snoc.
    destruct (bump_entries tag acc k v Htag Hnd Hin)
      as [[Hne H] | [[-> (v0 & H & Hv)] | [-> [Hv Hnot]]]].
    + destruct (string_dec tag k) as [-> | _]; [contradiction |].
      rewrite (Hval k v H). f_equal. lia.
    + destruct (string_dec tag tag) as [_ | Hne]; [| contradiction].
      rewrite (Hval tag v0 H) in Hv. rewrite Hv. f_equal. lia.
    + destruct (string_dec tag tag) as [_ | Hne]; [| contradiction].
      assert (Hzero : count_occ string_dec seen tag = 0%nat).
      { apply count_occ_not_In. intros Hs. apply Hnot. now apply Hkeys. }
      now rewrite Hv, Hzero.
  - intros k Hk. apply in_app_iff in Hk as [Hk | [<- | []]].
    + apply bump_keys_kept. now apply Hkeys.
    + now apply bump_key_added.
Qed.

Lemma fold_bump_countsOf (tags seen : list string) (acc : list (string * TagValue)) :
  List.Forall (fun t => inheritedName t = false) tags ->
  countsOf seen acc ->
  countsOf (seen ++ tags) (fold_left (fun acc tag => bump tag acc) tags acc).
Proof.
  intros H. revert seen acc. induction H as [| t tags Ht _ IH]; intros seen acc Hacc.
  - now rewrite app_nil_r.
  - cbn [fold_left]. replace (seen ++ t :: tags) with ((seen ++ [t]) ++ tags)
      by (rewrite <- app_assoc; reflexivity).
    apply IH. now apply bump_countsOf.
Qed.

Lemma StronglySorted_app_inv {A : Type} (R : A -> A -> Prop) (l1 l2 : list A) (x y : A) :
  StronglySorted R (l1 ++ l2) -> In x l1 -> In y l2 -> R x y.
Proof.
  induction l1 as [| a l1 IH]; cbn [app]; [intros _ [] |].
  intros H. apply StronglySorted_inv in H as [Hs Ha]. intros [<- | Hx] Hy.
  - rewrite List.Forall_forall in Ha. apply Ha. apply in_app_iff. now right.
  - now apply IH.
Qed.

Lemma StronglySorted_map {A B : Type} (R : B -> B -> Prop) (f : A -> B) (l : list A) :
  StronglySorted (fun a b => R (f a) (f b)) l -> StronglySorted R (map f l).
Proof.
  induction 1 as [| x l _ IH Hx]; cbn [map]; constructor; [exact IH |].
  rewrite List.Forall_forall in Hx |- *. intros y Hy.
  apply in_map_iff in Hy as (a & <- & Ha). now apply Hx.
Qed.

Lemma ranked_entries_sorted (acc : list (string * TagValue)) :
  List.Forall counted acc ->
  StronglySorted (fun x y => fewerThan x y = false) (Arr.sortBy fewerThan (entries acc)).
Proof.
  intros Hacc. apply (sortBy_StronglySorted fewerThan counted).
  - intros [k1 v1] [k2 v2] [a Ha] [b Hb]. cbn [snd] in Ha, Hb. subst.
    unfold fewerThan. cbn [snd]. rewrite !Nat.ltb_lt, Nat.ltb_ge. lia.
  - intros [k1 v1] [k2 v2] [k3 v3] [a Ha] [b Hb] [c Hc]. cbn [snd] in Ha, Hb, Hc. subst.
    unfold fewerThan. cbn [snd]. rewrite !Nat.ltb_ge. lia.
  - rewrite List.Forall_forall in Hacc |- *. intros kv Hkv. apply Hacc.
    eapply Permutation_in; [apply entries_Permutation | exact Hkv].
Qed.

(** When no tag is a name that object literals inherit, the top features
    are the most frequent tags: they come in descending order of the number
    of times they occur among the tags of the hotels, and no tag left out
    occurs more often than a tag that is listed. *)
Theorem topFeatures_most_frequent (l : list AggregatedHotel) (city : string) :
  List.Forall (fun t => inheritedName t = false) (allTagsOf l) ->
  let top := topFeatures (generateInsights l city) in
  StronglySorted (fun t u => (tagCount l u <= tagCount l t)%nat) top
  /\ forall t u, In t top -> In u (allTagsOf l) -> ~ In u top ->
       (tagCount l u <= tagCount l t)%nat.
Proof.
  intros Htags. cbv zeta. rewrite topFeatures_unfold.
  assert (Hcounts : countsOf (allTagsOf l)
                      (fold_left (fun acc tag => bump tag acc) (allTagsOf l) [])).
  { apply (fold_bump_countsOf (allTagsOf l) [] [] Htags).
    split; [constructor |]. split; [intros k v [] | intros k []]. }
  set (counts := fold_left (fun acc tag => bump tag acc) (allTagsOf l) []) in *.
  destruct Hcounts as (Hnd & Hval & Hkeys).
  pose proof (ranked_entries_Permutation counts) as Hperm.
  set (ranked := Arr.sortBy fewerThan (entries counts)) in *.
  assert (Hranked : forall kv, In kv ranked -> snd kv = Count (tagCount l (fst kv))).
  { intros [k v] Hkv. apply (Permutation_in _ Hperm) in Hkv. exact (Hval k v Hkv). }
  assert (Hsorted : StronglySorted
                      (fun x y => (tagCount l (fst y) <= tagCount l (fst x))%nat) ranked).
  { apply StronglySorted_weaken
      with (R := fun x y => fewerThan x y = false)
           (P := fun kv => snd kv = Count (tagCount l (fst kv))).
    - intros x y Hx Hy. unfold fewerThan. rewrite Hx, Hy. now rewrite Nat.ltb_ge.
    - apply List.Forall_forall. exact Hranked.
    - apply ranked_entries_sorted. apply List.Forall_forall. intros [k v] Hkv.
      exists (count_occ string_dec (allTagsOf l) k). exact (Hval k v Hkv). }
  rewrite <- map_take. split.
  - apply StronglySorted_map. now apply StronglySorted_take.
  - intros t u Ht Hu Hnot.
    apply in_map_iff in Ht as (x & <- & Hx).
    apply Hkeys, in_map_iff in Hu as ([k v] & <- & Hkv). cbn [fst] in *.
    apply (Permutation_in _ (Permutation_sym Hperm)) in Hkv.
    rewrite <- (take_drop 5 ranked) in Hkv, Hsorted.
    apply in_app_iff in Hkv as [Hkv | Hkv].
    + exfalso. apply Hnot. apply in_map_iff. exists (k, v). tauto.
    + exact (StronglySorted_app_inv _ _ _ x (k, v) Hsorted Hx Hkv).
Qed.

Lemma topFeatures_most_frequent_witness :
  StronglySorted
    (fun t u => (tagCount [poolHotel; plainHotel] u <= tagCount [poolHotel; plainHotel] t)%nat)
    (topFeatures (generateInsights [poolHotel; plainHotel] "all")).
Proof.
  apply (topFeatures_most_frequent [poolHotel; plainHotel] "all").
  repeat constructor.
Defined.

(** * The screens *)

(** ** Price bands *)

Lemma inBand (p lo hi : R) :
  Num.ge (Fin p) (Fin lo) && Num.le (Fin p) (Fin hi) = true <-> lo <= p <= hi.
Proof. rewrite andb_true_iff, ge_fin, le_fin. tauto. Qed.

Lemma notInBand (p lo hi : R) :
  p < lo \/ hi < p -> Num.ge (Fin p) (Fin lo) && Num.le (Fin p) (Fin hi) = false.
Proof.
  intros H. apply not_true_is_false. rewrite inBand. lra.
Qed.

(** The band of a price is always one of the five bands.  For a price from
    500 to 10000 it is the first band that contains the price, so that a
    price on the boundary of two bands gets the lower one; for every other
    price, below 500, above 10000 or not a real, it is the last band,
    "Ultra Luxury". *)
Theorem getPriceRangeInfo_bands (price : number) :
  exists range : PriceUtils.PriceRange,
    PriceUtils.getPriceRangeInfo price = Some range
    /\ In range PriceUtils.priceRanges
    /\ (forall p : R, price = Fin p ->
          (500 <= p <= 1000 -> PriceUtils.tag range = "Budget Pick")
          /\ (1000 < p <= 2000 -> PriceUtils.tag range = "Mid-Range")
          /\ (2000 < p <= 3000 -> PriceUtils.tag range = "Premium")
          /\ (3000 < p <= 4000 -> PriceUtils.tag range = "Luxury")
          /\ (4000 < p <= 10000 -> PriceUtils.tag range = "Ultra Luxury")
          /\ (p < 500 \/ 10000 < p -> PriceUtils.tag range = "Ultra Luxury")
          /\ (500 <= p <= 10000 ->
                Num.ge price (PriceUtils.min range) = true
                /\ Num.le price (PriceUtils.max range) = true))
    /\ (Num.is_finite price = false -> PriceUtils.tag range = "Ultra Luxury").
Proof.
  unfold PriceUtils.getPriceRangeInfo, PriceUtils.priceRanges.
  destruct price as [p | | |];
    try (eexists; split; [reflexivity |]; split; [cbn; tauto |];
         split; [intros p; discriminate | reflexivity]).
  cbn [List.find PriceUtils.min PriceUtils.max].
  destruct (Rle_dec 500 p) as [H500 | H500];
    [| rewrite !notInBand by lra; eexists; split; [reflexivity |]; split; [cbn; tauto |];
       split; [intros q [= <-]; cbn [PriceUtils.tag PriceUtils.min PriceUtils.max];
               repeat split; intros; try reflexivity; lra
              | discriminate]].
  destruct (Rle_dec p 1000) as [H1 | H1].
  { rewrite (proj2 (inBand p 500 1000)) by lra.
    eexists; split; [reflexivity |]; split; [cbn; tauto |]; split; [| discriminate].
    intros q [= <-]; cbn [PriceUtils.tag PriceUtils.min PriceUtils.max].
    rewrite ge_fin, le_fin. repeat split; intros; try reflexivity; lra. }
  rewrite (notInBand p 500 1000) by lra.
  destruct (Rle_dec p 2000) as [H2 | H2].
  { rewrite (proj2 (inBand p 1000 2000)) by lra.
    eexists; split; [reflexivity |]; split; [cbn; tauto |]; split; [| discriminate].
    intros q [= <-]; cbn [PriceUtils.tag PriceUtils.min PriceUtils.max].
    rewrite ge_fin, le_fin. repeat split; intros; try reflexivity; lra. }
  rewrite (notInBand p 1000 2000) by lra.
  destruct (Rle_dec p 3000) as [H3 | H3].
  { rewrite (proj2 (inBand p 2000 3000)) by lra.
    eexists; split; [reflexivity |]; split; [cbn; tauto |]; split; [| discriminate].
    intros q [= <-]; cbn [PriceUtils.tag PriceUtils.min PriceUtils.max].
    rewrite ge_fin, le_fin. repeat split; intros; try reflexivity; lra. }
  rewrite (notInBand p 2000 3000) by lra.
  destruct (Rle_dec p 4000) as [H4 | H4].
  { rewrite (proj2 (inBand p 3000 4000)) by lra.
    eexists; split; [reflexivity |]; split; [cbn; tauto |]; split; [| discriminate].
    intros q [= <-]; cbn [PriceUtils.tag PriceUtils.min PriceUtils.max].
    rewrite ge_fin, le_fin. repeat split; intros; try reflexivity; lra. }
  rewrite (notInBand p 3000 4000) by lra.
  destruct (Rle_dec p 10000) as [H5 | H5].
  { rewrite (proj2 (inBand p 4000 10000)) by lra.
    eexists; split; [reflexivity |]; split; [cbn; tauto |]; split; [| discriminate].
    intros q [= <-]; cbn [PriceUtils.tag PriceUtils.min PriceUtils.max].
    rewrite ge_fin, le_fin. repeat split; intros; try reflexivity; lra. }
  rewrite (notInBand p 4000 10000) by lra.
  eexists; split; [reflexivity |]; split; [cbn; tauto |]; split; [| discriminate].
  intros q [= <-]; cbn [PriceUtils.tag PriceUtils.min PriceUtils.max].
  repeat split; intros; try reflexivity; lra.
Qed.

Lemma band_found (p : R) :
  500 <= p <= 10000 ->
  exists range : PriceUtils.PriceRange,
    PriceUtils.getPriceRangeInfo (Fin p) = Some range
    /\ Num.ge (Fin p) (PriceUtils.min range) = true
    /\ Num.le (Fin p) (PriceUtils.max range) = true.
Proof.
  intros Hp. unfold PriceUtils.getPriceRangeInfo.
  destruct (List.find _ PriceUtils.priceRanges) as [range |] eqn:E.
  - apply List.find_some in E as [_ E]. apply andb_true_iff in E. eauto.
  - exfalso. pose proof (List.find_none _ _ E) as Hnone.
    assert (H1 : ~ 500 <= p <= 1000).
    { rewrite <- inBand. intros H. eapply eq_true_false_abs; [exact H |].
      apply (Hnone (nth 0 PriceUtils.priceRanges (PriceUtils.Build_PriceRange NaN NaN
                                                     EmptyString EmptyString EmptyString))).
      cbn. tauto. }
    assert (H2 : ~ 1000 <= p <= 2000).
    { rewrite <- inBand. intros H. eapply eq_true_false_abs; [exact H |].
      apply (Hnone (nth 1 PriceUtils.priceRanges (PriceUtils.Build_PriceRange NaN NaN
                                                     EmptyString EmptyString EmptyString))).
      cbn. tauto. }
    assert (H3 : ~ 2000 <= p <= 3000).
    { rewrite <- inBand. intros H. eapply eq_true_false_abs; [exact H |].
      apply (Hnone (nth 2 PriceUtils.priceRanges (PriceUtils.Build_PriceRange NaN NaN
                                                     EmptyString EmptyString EmptyString))).
      cbn. tauto. }
    assert (H4 : ~ 3000 <= p <= 4000).
    { rewrite <- inBand. intros H. eapply eq_true_false_abs; [exact H |].
      apply (Hnone (nth 3 PriceUtils.priceRanges (PriceUtils.Build_PriceRange NaN NaN
                                                     EmptyString EmptyString EmptyString))).
      cbn. tauto. }
    assert (H5 : ~ 4000 <= p <= 10000).
    { rewrite <- inBand. intros H. eapply eq_true_false_abs; [exact H |].
      apply (Hnone (nth 4 PriceUtils.priceRanges (PriceUtils.Build_PriceRange NaN NaN
                                                     EmptyString EmptyString EmptyString))).
      cbn. tauto. }
    lra.
Qed.

Lemma inBracket_band (lo hi : R) (a : number) :
  500 <= lo -> hi <= 10000 -> inBracket lo hi a ->
  exists range : PriceUtils.PriceRange,
    PriceUtils.getPriceRangeInfo a = Some range
    /\ Num.ge a (PriceUtils.min range) = true
    /\ Num.le a (PriceUtils.max range) = true.
Proof. intros Hlo Hhi (z & -> & Hz). apply band_found. lra. Qed.

(** ** The card of a recommended hotel *)

(** The card of a hotel aggregated from a row of a well-formed table: the
    score it shows is the confidence score, an integer from 0 to 100,
    whatever the final score that ranked the hotel; its badges are the
    first three tags at most; and, the price being an estimate of the
    engine or a source price from 500 to 10000, its price band is a band
    that contains the price. *)
Theorem card_of_recommended_hotel (w : World) (i : nat) (row : Raw.HotelData)
    (score : number) :
  0 <= Math_random w i < 1 ->
  wellFormedRow w row ->
  (Num.gt (Raw.price row) (Fin 0) = true ->
     exists p : R, Raw.price row = Fin p /\ 500 <= p <= 10000) ->
  let h := aggregateRow w i row in
  let card := UseAI.toRecommended {| hotel := h; finalScore := score |} in
  UseAI.overall_score card = Agg.confidenceScore h
  /\ percentage (UseAI.overall_score card)
  /\ (length (UseAI.badges card) <= 3)%nat
  /\ (forall b, In b (UseAI.badges card) -> In b (Agg.tags h))
  /\ exists range : PriceUtils.PriceRange,
        PriceUtils.getPriceRangeInfo (UseAI.price_range card) = Some range
        /\ In range PriceUtils.priceRanges
        /\ Num.ge (UseAI.price_range card) (PriceUtils.min range) = true
        /\ Num.le (UseAI.price_range card) (PriceUtils.max range) = true.
Proof.
  intros Hu Hrow Hprice. cbv zeta.
  cbn [UseAI.toRecommended UseAI.overall_score UseAI.badges UseAI.price_range hotel].
  split; [reflexivity |]. split; [now apply wellFormed_confidence |].
  unfold Arr.slice0. split; [rewrite length_take; lia |].
  split; [intros b; apply In_take |].
  assert (Hband : exists range : PriceUtils.PriceRange,
    PriceUtils.getPriceRangeInfo (Agg.priceRange (aggregateRow w i row)) = Some range
    /\ Num.ge (Agg.priceRange (aggregateRow w i row)) (PriceUtils.min range) = true
    /\ Num.le (Agg.priceRange (aggregateRow w i row)) (PriceUtils.max range) = true).
  { destruct (priceRange_cases w i row) as [[Hgt ->] | (tags & avg & ->)].
    - destruct (Hprice Hgt) as (p & -> & Hp). now apply band_found.
    - destruct (estimatePriceRange_bracket (Math_random w i) tags avg (Raw.address row) Hu)
        as [H | [H | [H | H]]]; eapply inBracket_band; try exact H; lra. }
  destruct Hband as (range & Hinfo & Hge & Hle). exists range.
  split; [exact Hinfo |]. split; [| tauto].
  unfold PriceUtils.getPriceRangeInfo in Hinfo.
  destruct (List.find _ PriceUtils.priceRanges) as [r |] eqn:E.
  - injection Hinfo as <-. now apply List.find_some in E.
  - cbn in Hinfo. injection Hinfo as <-. cbn. tauto.
Qed.

Lemma card_of_recommended_hotel_witness :
  percentage
    (UseAI.overall_score
       (UseAI.toRecommended
          {| hotel := aggregateRow silentWorld 0 (ratedRow 8); finalScore := Fin 57 |})).
Proof.
  apply (card_of_recommended_hotel silentWorld 0 (ratedRow 8) (Fin 57)).
  - cbn. lra.
  - split; [intros _; exists 8; split; [reflexivity | lra] | constructor].
  - intros H. exfalso. cbn in H. apply Rltb_spec in H. lra.
Defined.

(** ** The average of the platform ratings *)

Lemma assoc_In {A : Type} (key : string) (table : list (string * A)) (v : A) :
  assoc key table = Some v -> In (key, v) table.
Proof.
  induction table as [| [k x] table IH]; cbn [assoc]; [discriminate |].
  destruct (String.eqb k key) eqn:E.
  - apply String.eqb_eq in E. intros [= <-]. left. now subst.
  - intros H. right. now apply IH.
Qed.

Lemma assoc_skip {A : Type} (key name : string) (x : A) (p1 p2 : list (string * A)) :
  name <> key -> assoc key (p1 ++ (name, x) :: p2) = assoc key (p1 ++ p2).
Proof.
  intros Hne. induction p1 as [| [k y] p1 IH]; cbn [app assoc].
  - apply String.eqb_neq in Hne. now rewrite Hne.
  - destruct (String.eqb k key); [reflexivity | exact IH].
Qed.

Lemma get_In (platforms : PlatformRatings) (k : string) (entry : PlatformRating) :
  UseAI.get platforms k = Some entry -> In (k, Some entry) platforms.
Proof.
  unfold UseAI.get. destruct (assoc k platforms) as [e |] eqn:E; [| discriminate].
  intros ->. now apply assoc_In.
Qed.

Lemma get_skip (platforms1 platforms2 : PlatformRatings) (name k : string)
    (x : option PlatformRating) :
  name <> k ->
  UseAI.get (platforms1 ++ (name, x) :: platforms2) k = UseAI.get (platforms1 ++ platforms2) k.
Proof. intros H. unfold UseAI.get. now rewrite assoc_skip. Qed.

(** ** The distance of the area search *)

(** ** The Dice coefficient *)

Lemma countGram_holds (bMap : gmap string nat) (X : gmultiset string) (g : string) :
  holdsCounts bMap X -> holdsCounts (Geo.countGram bMap g) ({[+ g +]} ⊎ X).
Proof.
  intros H k. unfold Geo.countGram. rewrite multiplicity_disj_union.
  destruct (decide (g = k)) as [-> | Hne].
  - rewrite lookup_insert_eq, multiplicity_singleton_eq. cbn. rewrite (H k). lia.
  - rewrite lookup_insert_ne by exact Hne.
    rewrite multiplicity_singleton_ne by congruence. apply H.
Qed.

Lemma countGrams_holds (grams : list string) (bMap : gmap string nat) (X : gmultiset string) :
  holdsCounts bMap X -> holdsCounts (fold_left Geo.countGram grams bMap) (gramsOf grams ⊎ X).
Proof.
  revert bMap X. induction grams as [| g grams IH]; intros bMap X H.
  - unfold gramsOf. rewrite list_to_set_disj_nil. intros k.
    rewrite multiplicity_disj_union, multiplicity_empty. apply H.
  - cbn [fold_left]. unfold gramsOf. rewrite list_to_set_disj_cons.
    replace ({[+ g +]} ⊎ list_to_set_disj grams ⊎ X)
      with (gramsOf grams ⊎ ({[+ g +]} ⊎ X)) by (unfold gramsOf; multiset_solver).
    apply IH. now apply countGram_holds.
Qed.

(** The loop over [aGrams] counts the grams the two lists have in common,
    as multisets. *)
Lemma matchGrams_count (aGrams : list string) (matches : nat) (bMap : gmap string nat)
    (X : gmultiset string) :
  holdsCounts bMap X ->
  fst (fold_left Geo.matchGram aGrams (matches, bMap))
  = (matches + size (gramsOf aGrams ∩ X))%nat.
Proof.
  revert matches bMap X. induction aGrams as [| g aGrams IH]; intros matches bMap X H.
  - cbn [fold_left fst]. unfold gramsOf. rewrite list_to_set_disj_nil.
    replace (∅ ∩ X) with (∅ : gmultiset string) by multiset_solver.
    rewrite gmultiset_size_empty. lia.
  - cbn [fold_left]. unfold Geo.matchGram at 2. cbn [fst snd].
    unfold gramsOf. rewrite list_to_set_disj_cons. fold (gramsOf aGrams).
    pose proof (H g) as Hg.
    destruct (0 <? default 0%nat (bMap !! g))%nat eqn:E.
    + apply Nat.ltb_lt in E.
      rewrite (IH (S matches) _ (X ∖ {[+ g +]})).
      * replace (({[+ g +]} ⊎ gramsOf aGrams) ∩ X)
          with ({[+ g +]} ⊎ (gramsOf aGrams ∩ (X ∖ {[+ g +]}))).
        { rewrite gmultiset_size_disj_union, gmultiset_size_singleton. lia. }
        apply gmultiset_eq. intros k.
        rewrite !multiplicity_disj_union, !multiplicity_intersection,
                multiplicity_difference, multiplicity_disj_union.
        destruct (decide (k = g)) as [-> | Hne].
        -- rewrite multiplicity_singleton_eq. lia.
        -- rewrite multiplicity_singleton_ne by exact Hne. lia.
      * intros k. rewrite multiplicity_difference.
        destruct (decide (g = k)) as [-> | Hne].
        -- rewrite lookup_insert_eq, multiplicity_singleton_eq. cbn. lia.
        -- rewrite lookup_insert_ne by exact Hne.
           rewrite multiplicity_singleton_ne by congruence. rewrite (H k). lia.
    + apply Nat.ltb_ge in E.
      rewrite (IH matches bMap X H). f_equal. f_equal.
      apply gmultiset_eq. intros k.
      rewrite !multiplicity_intersection, multiplicity_disj_union.
      destruct (decide (k = g)) as [-> | Hne].
      * rewrite multiplicity_singleton_eq. lia.
      * rewrite multiplicity_singleton_ne by exact Hne. lia.
Qed.

Lemma size_gramsOf (grams : list string) : size (gramsOf grams) = length grams.
Proof.
  unfold gramsOf. induction grams as [| g grams IH].
  - rewrite list_to_set_disj_nil. apply gmultiset_size_empty.
  - rewrite list_to_set_disj_cons, gmultiset_size_disj_union, gmultiset_size_singleton, IH.
    reflexivity.
Qed.

Lemma matches_common (aGrams bGrams : list string) :
  fst (fold_left Geo.matchGram aGrams (0%nat, fold_left Geo.countGram bGrams ∅))
  = size (gramsOf aGrams ∩ gramsOf bGrams).
Proof.
  rewrite (matchGrams_count aGrams 0 _ (gramsOf bGrams)); [reflexivity |].
  replace (gramsOf bGrams) with (gramsOf bGrams ⊎ (∅ : gmultiset string)) by multiset_solver.
  apply countGrams_holds. intros k. rewrite lookup_empty, multiplicity_empty. reflexivity.
Qed.

Lemma diceCoefficient_range (a b : string) :
  exists d : R, Geo.diceCoefficient a b = Fin d /\ 0 <= d <= 1.
Proof.
  unfold Geo.diceCoefficient.
  destruct (negb (Str.nonempty a) || negb (Str.nonempty b)) eqn:E0;
    [exists 0; split; [reflexivity | lra] |].
  destruct (String.eqb (Str.toLowerCase a) (Str.toLowerCase b)) eqn:E1;
    [exists 1; split; [reflexivity | lra] |].
  destruct ((length (Geo.bigrams a) =? 0)%nat || (length (Geo.bigrams b) =? 0)%nat) eqn:E2;
    [exists 0; split; [reflexivity | lra] |].
  cbv zeta. rewrite matches_common.
  apply orb_false_iff in E2 as [Ea Eb]. apply Nat.eqb_neq in Ea, Eb.
  set (m := size (gramsOf (Geo.bigrams a) ∩ gramsOf (Geo.bigrams b))).
  assert (Hma : (m <= length (Geo.bigrams a))%nat).
  { rewrite <- size_gramsOf. apply gmultiset_subseteq_size. multiset_solver. }
  assert (Hmb : (m <= length (Geo.bigrams b))%nat).
  { rewrite <- size_gramsOf. apply gmultiset_subseteq_size. multiset_solver. }
  apply le_INR in Hma, Hmb.
  assert (Hla : 0 < INR (length (Geo.bigrams a))) by (apply lt_0_INR; lia).
  assert (Hlb : 0 < INR (length (Geo.bigrams b))) by (apply lt_0_INR; lia).
  pose proof (pos_INR m) as Hm0.
  unfold Num.of_nat. cbn [Num.mul Num.add]. rewrite div_fin by lra.
  eexists. split; [reflexivity |].
  set (la := INR (length (Geo.bigrams a))) in *.
  set (lb := INR (length (Geo.bigrams b))) in *.
  split.
  - apply Rmult_le_pos; [lra |]. left. apply Rinv_0_lt_compat. lra.
  - apply (Rmult_le_reg_r (la + lb)); [lra |].
    unfold Rdiv. rewrite Rmult_assoc, Rinv_l by lra. lra.
Qed.

(** The Dice coefficient of two strings is a real from 0 to 1, twice the
    number of two-character grams the strings share (as multisets, case put
    aside and the ends trimmed) over the number of grams of both; it is the
    same in both directions; it is 0 when a string is empty and 1 for two
    strings that are not empty and are equal, case put aside. *)
Theorem diceCoefficient_symmetric (a b : string) :
  Geo.diceCoefficient a b = Geo.diceCoefficient b a
  /\ (exists d : R, Geo.diceCoefficient a b = Fin d /\ 0 <= d <= 1)
  /\ (a = EmptyString \/ b = EmptyString -> Geo.diceCoefficient a b = Fin 0)
  /\ (a <> EmptyString -> b <> EmptyString ->
      Str.toLowerCase a = Str.toLowerCase b -> Geo.diceCoefficient a b = Fin 1)
  /\ (a <> EmptyString -> b <> EmptyString ->
      Str.toLowerCase a <> Str.toLowerCase b ->
      Geo.bigrams a <> [] -> Geo.bigrams b <> [] ->
      Geo.diceCoefficient a b
      = Fin (2 * INR (size (gramsOf (Geo.bigrams a) ∩ gramsOf (Geo.bigrams b)))
             / (INR (length (Geo.bigrams a)) + INR (length (Geo.bigrams b))))).
Proof.
  split; [| split; [| split; [| split]]].
  - unfold Geo.diceCoefficient.
    rewrite (orb_comm (negb (Str.nonempty a))).
    destruct (negb (Str.nonempty b) || negb (Str.nonempty a)) eqn:E0; [reflexivity |].
    rewrite (String.eqb_sym (Str.toLowerCase a)).
    destruct (String.eqb (Str.toLowerCase b) (Str.toLowerCase a)) eqn:E1; [reflexivity |].
    rewrite (orb_comm (length (Geo.bigrams a) =? 0)%nat).
    destruct ((length (Geo.bigrams b) =? 0)%nat || (length (Geo.bigrams a) =? 0)%nat) eqn:E2;
      [reflexivity |].
    cbv zeta. rewrite !matches_common.
    rewrite (comm_L (∩) (gramsOf (Geo.bigrams a))).
    unfold Num.of_nat. cbn [Num.add]. now rewrite (Rplus_comm (INR (length (Geo.bigrams a)))).
  - apply diceCoefficient_range.
  - intros [-> | ->]; unfold Geo.diceCoefficient; cbn [Str.nonempty negb orb];
      [reflexivity | now rewrite orb_true_r].
  - intros Ha Hb Heq. unfold Geo.diceCoefficient.
    destruct a; [contradiction |]. destruct b; [contradiction |].
    cbn [Str.nonempty negb orb]. rewrite Heq, String.eqb_refl. reflexivity.
  - intros Ha Hb Hne Hga Hgb. unfold Geo.diceCoefficient.
    destruct a; [contradiction |]. destruct b; [contradiction |].
    cbn [Str.nonempty negb orb].
    apply String.eqb_neq in Hne. rewrite Hne.
    destruct (Geo.bigrams (String a a0)) as [| g ga] eqn:Ea; [contradiction |].
    destruct (Geo.bigrams (String a1 b)) as [| g' gb] eqn:Eb; [contradiction |].
    cbn [length Nat.eqb orb]. cbv zeta. rewrite matches_common.
    unfold Num.of_nat. cbn [Num.mul Num.add]. rewrite div_fin; [reflexivity |].
    pose proof (pos_INR (length ga)). pose proof (pos_INR (length gb)).
    rewrite !S_INR. lra.
Qed.

Lemma distinct_length (l : list string) (seen : gset string) :
  (length (Arr.distinct seen l) <= length l)%nat.
Proof.
  revert seen. induction l as [| x l IH]; intros seen; cbn [Arr.distinct length]; [lia |].
  destruct (decide (x ∈ seen)); [specialize (IH seen) | specialize (IH ({[x]} ∪ seen))];
    cbn [length]; lia.
Qed.

Lemma max2_fin (x y : R) : Geo.max2 (Fin x) (Fin y) = Fin (Rmax x y).
Proof.
  cbn [Geo.max2 Num.lt]. unfold Num.Rltb, Rmax.
  destruct (Rlt_dec x y), (Rle_dec x y); try reflexivity; try lra.
  f_equal. lra.
Qed.

Lemma scoreOf_range (query c : string) :
  exists x : R,
    Geo.scoreOf query c = Fin x
    /\ 0 <= x <= 1
    /\ (Str.includes (Str.toLowerCase c) (Str.toLowerCase query) = true -> 0.75 <= x).
Proof.
  unfold Geo.scoreOf.
  destruct (diceCoefficient_range query c) as (d & -> & Hd).
  destruct (Str.includes _ _); rewrite max2_fin; eexists; (split; [reflexivity |]).
  - split; [| intros _; apply Rmax_r].
    split; [etransitivity; [| apply Rmax_r]; lra | apply Rmax_lub; lra].
  - split; [| discriminate].
    split; [etransitivity; [| apply Rmax_r]; lra | apply Rmax_lub; lra].
Qed.

(** The close matches of a query among the choices are at most [n] choices,
    none twice, each scoring at least the cutoff; when there are no more
    than [n] choices, every choice that scores at least the cutoff is among
    them.  A score is a real from 0 to 1, and it is at least 0.75 for a
    choice that contains the query, case put aside. *)
Theorem getCloseMatches_sound (query : string) (choices : list string) (n : nat)
    (cutoff : number) :
  let out := Geo.getCloseMatches query choices n cutoff in
  (length out <= n)%nat
  /\ List.NoDup out
  /\ (forall c, In c out -> In c choices /\ Num.ge (Geo.scoreOf query c) cutoff = true)
  /\ ((length choices <= n)%nat ->
       forall c, In c choices -> Num.ge (Geo.scoreOf query c) cutoff = true -> In c out)
  /\ (forall c, exists x : R,
         Geo.scoreOf query c = Fin x
         /\ 0 <= x <= 1
         /\ (Str.includes (Str.toLowerCase c) (Str.toLowerCase query) = true -> 0.75 <= x)).
Proof.
  cbv zeta. unfold Geo.getCloseMatches, Arr.slice0.
  set (qualified := List.filter (fun x => Num.ge (snd x) cutoff)
                      (map (fun c => (c, Geo.scoreOf query c)) choices)).
  set (ranked := Arr.sort (fun a b => Num.sub (snd b) (snd a)) qualified).
  assert (Hqualified : forall c s,
    In (c, s) qualified <-> In c choices /\ s = Geo.scoreOf query c /\ Num.ge s cutoff = true).
  { intros c s. unfold qualified. rewrite filter_In, in_map_iff. cbn [snd]. split.
    - intros [(c' & [= <- <-] & Hc) Hs]. tauto.
    - intros (Hc & -> & Hs). split; [exists c; tauto | exact Hs]. }
  split; [| split; [| split; [| split]]].
  - etransitivity; [apply distinct_length |]. rewrite length_map, length_take. lia.
  - apply distinct_NoDup.
  - intros c Hc. apply distinct_In in Hc as [Hc _].
    apply in_map_iff in Hc as ([c' s] & <- & Hcs). cbn [fst].
    apply In_take in Hcs. apply sort_In in Hcs. apply Hqualified in Hcs as (Hc & -> & Hs).
    tauto.
  - intros Hlen c Hc Hs. apply distinct_In. split; [| apply not_elem_of_empty].
    apply in_map_iff. exists (c, Geo.scoreOf query c). split; [reflexivity |].
    rewrite take_ge.
    + apply sort_In. apply Hqualified. tauto.
    + unfold ranked. rewrite sort_length. unfold qualified.
      etransitivity; [apply List.filter_length_le |]. rewrite length_map. exact Hlen.
  - intros c. apply scoreOf_range.
Qed.
(** * Binary64 arithmetic: the rounding *)

(** ** Powers of two *)

Lemma pow2_pos (e : Z) : 0 < Binary64.pow2 e.
Proof. apply powerRZ_lt. lra. Qed.

Lemma pow2_add (a b : Z) : Binary64.pow2 (a + b) = Binary64.pow2 a * Binary64.pow2 b.
Proof. apply powerRZ_add. lra. Qed.

Lemma pow2_0 : Binary64.pow2 0 = 1.
Proof. reflexivity. Qed.

Lemma pow2_1 : Binary64.pow2 1 = 2.
Proof. unfold Binary64.pow2. simpl. lra. Qed.

Lemma pow2_opp (e : Z) : Binary64.pow2 (- e) = / Binary64.pow2 e.
Proof. apply powerRZ_neg'. Qed.

Lemma pow2_sub (a b : Z) : Binary64.pow2 (a - b) = Binary64.pow2 a / Binary64.pow2 b.
Proof.
  unfold Z.sub. rewrite pow2_add, pow2_opp. reflexivity.
Qed.

Lemma pow2_lt (a b : Z) : (a < b)%Z -> Binary64.pow2 a < Binary64.pow2 b.
Proof.
  intros H. unfold Binary64.pow2. rewrite !powerRZ_Rpower by lra.
  apply Rpower_lt; [lra |]. now apply IZR_lt.
Qed.

Lemma pow2_le (a b : Z) : (a <= b)%Z -> Binary64.pow2 a <= Binary64.pow2 b.
Proof.
  intros H. destruct (Z.eq_dec a b) as [-> | Hne]; [lra |].
  left. apply pow2_lt. lia.
Qed.

Lemma pow2_lt_inv (a b : Z) : Binary64.pow2 a < Binary64.pow2 b -> (a < b)%Z.
Proof.
  intros H. destruct (Z_lt_le_dec a b) as [Hlt | Hle]; [exact Hlt |].
  apply pow2_le in Hle. lra.
Qed.

Lemma pow2_IZR (z : Z) : (0 <= z)%Z -> Binary64.pow2 z = IZR (2 ^ z).
Proof.
  intros H. unfold Binary64.pow2. destruct z as [| p | p]; [reflexivity | | lia].
  change (2 ^ Z.pos p)%Z with (Z.pow_pos 2 p). now rewrite Zpower_pos_powerRZ.
Qed.

Lemma pow2_succ (e : Z) : Binary64.pow2 (e + 1) = 2 * Binary64.pow2 e.
Proof. rewrite pow2_add, pow2_1. lra. Qed.

Lemma Rabs_le_between (a b : R) : Rabs a <= b <-> - b <= a <= b.
Proof. unfold Rabs. destruct (Rcase_abs a); lra. Qed.

Lemma Rabs_lt_between (a b : R) : Rabs a < b <-> - b < a < b.
Proof. unfold Rabs. destruct (Rcase_abs a); lra. Qed.

(** ** The floor *)

Lemma floor_spec (x : R) : IZR (Int_part x) <= x < IZR (Int_part x) + 1.
Proof. destruct (base_Int_part x). lra. Qed.

Lemma floor_unique (x : R) (z : Z) : IZR z <= x < IZR z + 1 -> Int_part x = z.
Proof. intros H. symmetry. apply Int_part_spec. lra. Qed.

Lemma floor_IZR (z : Z) : Int_part (IZR z) = z.
Proof. apply floor_unique. lra. Qed.

Lemma floor_le (x y : R) : x <= y -> (Int_part x <= Int_part y)%Z.
Proof.
  intros H. pose proof (floor_spec x). pose proof (floor_spec y).
  apply Z.lt_succ_r. apply lt_IZR. rewrite succ_IZR. lra.
Qed.

Lemma floor_ge_int (x : R) (n : Z) : IZR n <= x -> (n <= Int_part x)%Z.
Proof. intros H. rewrite <- (floor_IZR n). now apply floor_le. Qed.

Lemma floor_lt_int (x : R) (n : Z) : x < IZR n -> (Int_part x < n)%Z.
Proof. intros H. pose proof (floor_spec x). apply lt_IZR. lra. Qed.

(** ** The nearest integer *)

Lemma nearestEven_cases (x : R) :
  let f := Int_part x in
  (x - IZR f < / 2 /\ Binary64.nearestEven x = f)
  \/ (/ 2 < x - IZR f /\ Binary64.nearestEven x = (f + 1)%Z)
  \/ (x - IZR f = / 2 /\ Z.even f = true /\ Binary64.nearestEven x = f)
  \/ (x - IZR f = / 2 /\ Z.even f = false /\ Binary64.nearestEven x = (f + 1)%Z).
Proof.
  cbv zeta. unfold Binary64.nearestEven, Num.Rltb.
  destruct (Rlt_dec (x - IZR (Int_part x)) (/ 2)) as [H1 | H1]; [now left |].
  destruct (Rlt_dec (/ 2) (x - IZR (Int_part x))) as [H2 | H2]; [right; now left |].
  assert (H : x - IZR (Int_part x) = / 2) by lra.
  destruct (Z.even (Int_part x)) eqn:E; right; right; [left | right]; tauto.
Qed.

Lemma nearestEven_IZR (n : Z) : Binary64.nearestEven (IZR n) = n.
Proof.
  destruct (nearestEven_cases (IZR n)) as [[_ H] | [[H _] | [[H _] | [H _]]]];
    rewrite floor_IZR in *; [exact H | lra ..].
Qed.

Lemma nearestEven_le_int (x : R) (n : Z) : x <= IZR n -> (Binary64.nearestEven x <= n)%Z.
Proof.
  intros H. pose proof (floor_spec x) as Hf.
  destruct (Req_dec_T x (IZR n)) as [-> | Hne]; [rewrite nearestEven_IZR; lia |].
  assert (Hlt : (Int_part x < n)%Z) by (apply floor_lt_int; lra).
  destruct (nearestEven_cases x) as [[_ ->] | [[_ ->] | [(_ & _ & ->) | (_ & _ & ->)]]]; lia.
Qed.

Lemma nearestEven_ge_int (x : R) (n : Z) : IZR n <= x -> (n <= Binary64.nearestEven x)%Z.
Proof.
  intros H. pose proof (floor_ge_int x n H).
  destruct (nearestEven_cases x) as [[_ ->] | [[_ ->] | [(_ & _ & ->) | (_ & _ & ->)]]]; lia.
Qed.

Lemma nearestEven_mono (x y : R) :
  x <= y -> (Binary64.nearestEven x <= Binary64.nearestEven y)%Z.
Proof.
  intros H. pose proof (floor_le x y H) as Hf.
  destruct (Z.eq_dec (Int_part x) (Int_part y)) as [E | Hne].
  - destruct (nearestEven_cases x) as [[Hx ->] | [[Hx ->] | [(Hx & Ex & ->) | (Hx & Ex & ->)]]];
      destruct (nearestEven_cases y) as [[Hy ->] | [[Hy ->] | [(Hy & Ey & ->) | (Hy & Ey & ->)]]];
      rewrite <- ?E in *; try lia; try lra; congruence.
  - assert (Hlt : (Int_part x + 1 <= Int_part y)%Z) by lia.
    destruct (nearestEven_cases x) as [[_ ->] | [[_ ->] | [(_ & _ & ->) | (_ & _ & ->)]]];
      destruct (nearestEven_cases y) as [[_ ->] | [[_ ->] | [(_ & _ & ->) | (_ & _ & ->)]]];
      lia.
Qed.

Lemma nearestEven_error (x : R) : Rabs (IZR (Binary64.nearestEven x) - x) <= / 2.
Proof.
  pose proof (floor_spec x) as Hf.
  destruct (nearestEven_cases x) as [[Hx ->] | [[Hx ->] | [(Hx & _ & ->) | (Hx & _ & ->)]]];
    rewrite ?plus_IZR; apply Rabs_le_between; lra.
Qed.

Lemma nearestEven_unique (x : R) (n : Z) :
  Rabs (x - IZR n) < / 2 -> Binary64.nearestEven x = n.
Proof.
  intros H. apply Rabs_lt_between in H.
  pose proof (nearestEven_error x) as He. apply Rabs_le_between in He.
  apply Z.le_antisymm; apply Z.lt_succ_r; apply lt_IZR; rewrite succ_IZR; lra.
Qed.

Lemma nearestEven_opp (x : R) : Binary64.nearestEven (- x) = (- Binary64.nearestEven x)%Z.
Proof.
  pose proof (floor_spec x) as Hf.
  destruct (Req_dec_T x (IZR (Int_part x))) as [E | Hne].
  - rewrite E, <- opp_IZR, !nearestEven_IZR. reflexivity.
  - assert (Hfo : Int_part (- x) = (- Int_part x - 1)%Z).
    { apply floor_unique. rewrite minus_IZR, opp_IZR. lra. }
    destruct (nearestEven_cases x) as [[Hx ->] | [[Hx ->] | [(Hx & Ex & ->) | (Hx & Ex & ->)]]];
      destruct (nearestEven_cases (- x))
        as [[Hy ->] | [[Hy ->] | [(Hy & Ey & ->) | (Hy & Ey & ->)]]];
      rewrite Hfo in *; rewrite ?minus_IZR, ?opp_IZR in *; try lia; try lra.
    + exfalso. rewrite Z.even_sub, Z.even_opp, Ex in Ey. discriminate.
    + exfalso. rewrite Z.even_sub, Z.even_opp, Ex in Ey. discriminate.
Qed.

(** ** The binary exponent *)

Lemma magnitude_bounds (x : R) :
  x <> 0 ->
  Binary64.pow2 (Binary64.magnitude x) <= Rabs x
  < Binary64.pow2 (Binary64.magnitude x + 1).
Proof.
  intros Hx. assert (Ha : 0 < Rabs x) by now apply Rabs_pos_lt.
  unfold Binary64.magnitude. set (t := ln (Rabs x) / ln 2).
  pose proof (floor_spec t) as [H1 H2]. pose proof ln_lt_2 as Hln.
  assert (Ht : ln (Rabs x) = t * ln 2) by (unfold t; field; lra).
  assert (He : Rabs x = exp (t * ln 2)) by (rewrite <- Ht; symmetry; now apply exp_ln).
  unfold Binary64.pow2. rewrite !powerRZ_Rpower by lra. unfold Rpower.
  rewrite plus_IZR. split.
  - rewrite He. destruct H1 as [H1 | H1];
      [left; apply exp_increasing; nra | right; now rewrite H1].
  - rewrite He at 1. apply exp_increasing. nra.
Qed.

Lemma magnitude_unique (x : R) (k : Z) :
  Binary64.pow2 k <= Rabs x < Binary64.pow2 (k + 1) -> Binary64.magnitude x = k.
Proof.
  intros [H1 H2]. pose proof (pow2_pos k) as Hk.
  assert (Hx : x <> 0).
  { intros ->. rewrite Rabs_R0 in H1. lra. }
  destruct (magnitude_bounds x Hx) as [H3 H4].
  assert (Binary64.magnitude x < k + 1)%Z by (apply pow2_lt_inv; lra).
  assert (k < Binary64.magnitude x + 1)%Z by (apply pow2_lt_inv; lra).
  lia.
Qed.

Lemma magnitude_opp (x : R) : Binary64.magnitude (- x) = Binary64.magnitude x.
Proof. unfold Binary64.magnitude. now rewrite Rabs_Ropp. Qed.

Lemma magnitude_mono (x y : R) :
  x <> 0 -> Rabs x <= Rabs y -> (Binary64.magnitude x <= Binary64.magnitude y)%Z.
Proof.
  intros Hx Hxy. assert (Ha : 0 < Rabs x) by now apply Rabs_pos_lt.
  assert (Hy : y <> 0).
  { intros ->. rewrite Rabs_R0 in Hxy. lra. }
  destruct (magnitude_bounds x Hx) as [H1 _]. destruct (magnitude_bounds y Hy) as [_ H2].
  assert (Binary64.magnitude x < Binary64.magnitude y + 1)%Z by (apply pow2_lt_inv; lra).
  lia.
Qed.

Lemma magnitude_0 : Binary64.magnitude 0 = 0%Z.
Proof.
  unfold Binary64.magnitude. rewrite Rabs_R0.
  assert (H : ln 0 = 0).
  { unfold ln. destruct (Rlt_dec 0 0) as [H | H]; [exfalso; lra | reflexivity]. }
  rewrite H. unfold Rdiv. rewrite Rmult_0_l. apply floor_IZR.
Qed.

Lemma exponent_opp (x : R) : Binary64.exponent (- x) = Binary64.exponent x.
Proof. unfold Binary64.exponent. now rewrite magnitude_opp. Qed.

Lemma exponent_min (x : R) : (-1074 <= Binary64.exponent x)%Z.
Proof. unfold Binary64.exponent. lia. Qed.

Lemma exponent_mono (x y : R) :
  x <> 0 -> Rabs x <= Rabs y -> (Binary64.exponent x <= Binary64.exponent y)%Z.
Proof.
  intros Hx Hxy. pose proof (magnitude_mono x y Hx Hxy). unfold Binary64.exponent. lia.
Qed.

(** Below [2^(e + 53)], where [e] is the exponent of the unit: the scaled
    value has at most 53 bits. *)
Lemma scaled_bound (x : R) :
  Rabs (x / Binary64.pow2 (Binary64.exponent x)) < IZR (2 ^ 53).
Proof.
  set (e := Binary64.exponent x). pose proof (pow2_pos e) as He.
  unfold Rdiv. rewrite Rabs_mult, (Rabs_pos_eq (/ _)) by (left; now apply Rinv_0_lt_compat).
  rewrite <- pow2_IZR by lia.
  apply Rmult_lt_reg_r with (Binary64.pow2 e); [exact He |].
  rewrite Rmult_assoc, Rinv_l, Rmult_1_r by lra. rewrite <- pow2_add.
  destruct (Req_dec_T x 0) as [-> | Hx]; [rewrite Rabs_R0; apply pow2_pos |].
  destruct (magnitude_bounds x Hx) as [_ H].
  eapply Rlt_le_trans; [exact H |]. apply pow2_le. unfold e, Binary64.exponent. lia.
Qed.

(** ** The nearest multiple of the unit in the last place *)

Lemma nearest_0 : Binary64.nearest 0 = 0.
Proof.
  unfold Binary64.nearest. unfold Rdiv at 1. rewrite Rmult_0_l.
  rewrite (nearestEven_IZR 0). lra.
Qed.

Lemma nearest_opp (x : R) : Binary64.nearest (- x) = - Binary64.nearest x.
Proof.
  unfold Binary64.nearest. rewrite exponent_opp.
  replace (- x / Binary64.pow2 (Binary64.exponent x))
    with (- (x / Binary64.pow2 (Binary64.exponent x))) by (unfold Rdiv; lra).
  rewrite nearestEven_opp, opp_IZR. lra.
Qed.

Lemma nearest_nonneg (x : R) : 0 <= x -> 0 <= Binary64.nearest x.
Proof.
  intros H. unfold Binary64.nearest. pose proof (pow2_pos (Binary64.exponent x)) as Hp.
  apply Rmult_le_pos; [| lra]. apply IZR_le. apply nearestEven_ge_int.
  apply Rmult_le_pos; [exact H |]. left. now apply Rinv_0_lt_compat.
Qed.

Lemma nearest_nonpos (x : R) : x <= 0 -> Binary64.nearest x <= 0.
Proof.
  intros H. pose proof (nearest_nonneg (- x)) as Hn. rewrite nearest_opp in Hn. lra.
Qed.

(** The nearest multiple is an integer of at most 53 bits times the unit. *)
Lemma nearest_shape (x : R) :
  exists n : Z,
    Binary64.nearest x = IZR n * Binary64.pow2 (Binary64.exponent x)
    /\ (Z.abs n <= 2 ^ 53)%Z.
Proof.
  exists (Binary64.nearestEven (x / Binary64.pow2 (Binary64.exponent x))).
  split; [reflexivity |].
  pose proof (scaled_bound x) as H. apply Rabs_lt_between in H.
  assert (H1 : (Binary64.nearestEven (x / Binary64.pow2 (Binary64.exponent x)) <= 2 ^ 53)%Z)
    by (apply nearestEven_le_int; lra).
  assert (H2 : (- 2 ^ 53 <= Binary64.nearestEven (x / Binary64.pow2 (Binary64.exponent x)))%Z)
    by (apply nearestEven_ge_int; rewrite opp_IZR; lra).
  lia.
Qed.

Lemma scaled_integer (x : R) (n : Z) :
  x / Binary64.pow2 (Binary64.exponent x) = IZR n -> Binary64.nearest x = x.
Proof.
  intros H. unfold Binary64.nearest. rewrite H, nearestEven_IZR, <- H.
  pose proof (pow2_pos (Binary64.exponent x)). field. lra.
Qed.

(** A multiple of a power of two by an integer of at most 53 bits is kept. *)
Lemma nearest_exact (x : R) (m e : Z) :
  x = IZR m * Binary64.pow2 e -> (Z.abs m <= 2 ^ 53)%Z -> (-1074 <= e)%Z ->
  Binary64.nearest x = x.
Proof.
  intros Hx Hm He.
  destruct (Req_dec_T x 0) as [-> | Hnz]; [apply nearest_0 |].
  destruct (magnitude_bounds x Hnz) as [Hk1 Hk2].
  set (k := Binary64.magnitude x) in *.
  pose proof (pow2_pos e) as Hpe.
  assert (Habs : Rabs x = IZR (Z.abs m) * Binary64.pow2 e).
  { rewrite Hx, Rabs_mult, (Rabs_pos_eq (Binary64.pow2 e)) by lra. now rewrite abs_IZR. }
  assert (Hle : Rabs x <= Binary64.pow2 (53 + e)).
  { rewrite Habs, pow2_add, (pow2_IZR 53) by lia.
    apply Rmult_le_compat_r; [lra |]. now apply IZR_le. }
  assert (Hk : (k < 53 + e + 1)%Z).
  { apply pow2_lt_inv. pose proof (pow2_lt (53 + e) (53 + e + 1) ltac:(lia)). lra. }
  destruct (Z_le_gt_dec k (52 + e)) as [Hsmall | Hbig].
  - assert (Hex : (Binary64.exponent x <= e)%Z) by (unfold Binary64.exponent; fold k; lia).
    apply scaled_integer with (n := (m * 2 ^ (e - Binary64.exponent x))%Z).
    set (ex := Binary64.exponent x) in *. pose proof (pow2_pos ex).
    rewrite mult_IZR, <- pow2_IZR by lia. rewrite pow2_sub, Hx. field. lra.
  - assert (Hkeq : k = (53 + e)%Z) by lia.
    assert (Hex : Binary64.exponent x = (e + 1)%Z) by (unfold Binary64.exponent; fold k; lia).
    assert (Hm2 : (2 ^ 53 <= Z.abs m)%Z).
    { apply le_IZR. apply Rmult_le_reg_r with (Binary64.pow2 e); [exact Hpe |].
      rewrite <- Habs, <- (pow2_IZR 53), <- pow2_add by lia. now rewrite <- Hkeq. }
    assert (Hm3 : (m = 2 * (m / 2))%Z).
    { assert (Z.abs m = 2 ^ 53)%Z by lia.
      destruct (Z.abs_eq_or_opp m) as [E | E]; rewrite E in H.
      - rewrite H. reflexivity.
      - assert (m = - 2 ^ 53)%Z by lia. subst m. reflexivity. }
    apply scaled_integer with (n := (m / 2)%Z).
    rewrite Hex, pow2_succ. rewrite Hx, Hm3 at 1. rewrite mult_IZR. field. lra.
Qed.

Lemma nearest_mono_pos (x y : R) :
  0 < x -> x <= y -> Binary64.nearest x <= Binary64.nearest y.
Proof.
  intros Hx Hxy.
  assert (Hxnz : x <> 0) by lra. assert (Hynz : y <> 0) by lra.
  assert (Habs : Rabs x <= Rabs y) by (rewrite !Rabs_pos_eq by lra; exact Hxy).
  pose proof (exponent_mono x y Hxnz Habs) as He.
  pose proof (pow2_pos (Binary64.exponent x)) as Hpx.
  pose proof (pow2_pos (Binary64.exponent y)) as Hpy.
  destruct (Z.eq_dec (Binary64.exponent x) (Binary64.exponent y)) as [E | Hne].
  - unfold Binary64.nearest. rewrite <- E.
    apply Rmult_le_compat_r; [lra |]. apply IZR_le. apply nearestEven_mono.
    apply Rmult_le_compat_r; [| exact Hxy]. left. now apply Rinv_0_lt_compat.
  - destruct (magnitude_bounds x Hxnz) as [_ Hx2].
    destruct (magnitude_bounds y Hynz) as [Hy1 _].
    rewrite Rabs_pos_eq in Hx2, Hy1 by lra.
    set (kx := Binary64.magnitude x) in *. set (ky := Binary64.magnitude y) in *.
    assert (Hey : Binary64.exponent y = (ky - 52)%Z).
    { pose proof (exponent_min x). unfold Binary64.exponent in *. fold ky. lia. }
    assert (Hk : (kx + 1 <= ky)%Z).
    { unfold Binary64.exponent in He, Hne, Hey. fold kx in He, Hne. fold ky in He, Hne, Hey. lia. }
    assert (Hxk : x <= Binary64.pow2 ky).
    { pose proof (pow2_le (kx + 1) ky Hk). lra. }
    apply Rle_trans with (Binary64.pow2 ky).
    + unfold Binary64.nearest.
      assert (Hd : (0 <= ky - Binary64.exponent x)%Z) by lia.
      replace (Binary64.pow2 ky)
        with (IZR (2 ^ (ky - Binary64.exponent x)) * Binary64.pow2 (Binary64.exponent x)).
      2:{ rewrite <- pow2_IZR, <- pow2_add by lia. f_equal. lia. }
      apply Rmult_le_compat_r; [lra |]. apply IZR_le. apply nearestEven_le_int.
      rewrite <- pow2_IZR, pow2_sub by lia.
      apply Rmult_le_compat_r; [| exact Hxk]. left. now apply Rinv_0_lt_compat.
    + unfold Binary64.nearest.
      replace (Binary64.pow2 ky) with (IZR (2 ^ 52) * Binary64.pow2 (Binary64.exponent y)) at 1.
      2:{ rewrite <- pow2_IZR, <- pow2_add by lia. f_equal. lia. }
      apply Rmult_le_compat_r; [lra |]. apply IZR_le. apply nearestEven_ge_int.
      rewrite <- pow2_IZR by lia.
      replace (Binary64.pow2 52) with (Binary64.pow2 ky / Binary64.pow2 (Binary64.exponent y)).
      2:{ rewrite <- pow2_sub. f_equal. lia. }
      apply Rmult_le_compat_r; [| exact Hy1]. left. now apply Rinv_0_lt_compat.
Qed.

(** Rounding keeps the order. *)
Lemma nearest_mono (x y : R) : x <= y -> Binary64.nearest x <= Binary64.nearest y.
Proof.
  intros H. destruct (Rlt_le_dec 0 x) as [Hx | Hx].
  - now apply nearest_mono_pos.
  - destruct (Rlt_le_dec y 0) as [Hy | Hy].
    + pose proof (nearest_mono_pos (- y) (- x)) as Hm. rewrite !nearest_opp in Hm. lra.
    + pose proof (nearest_nonpos x Hx). pose proof (nearest_nonneg y Hy). lra.
Qed.

(** ** Binary64 numbers *)

Lemma representable_0 : Binary64.representable 0.
Proof.
  exists 0%Z, 0%Z. rewrite Rabs_R0. pose proof (pow2_pos 1024).
  repeat split; try lia; lra.
Qed.

Lemma representable_opp (x : R) : Binary64.representable x -> Binary64.representable (- x).
Proof.
  intros (m & e & Hx & Hm & He & Hb). exists (- m)%Z, e.
  rewrite Rabs_Ropp, opp_IZR. repeat split; try lia; try lra.
Qed.

Lemma pow2_53_1024 : IZR (2 ^ 53) < Binary64.pow2 1024.
Proof. rewrite <- pow2_IZR by lia. apply pow2_lt. lia. Qed.

Lemma representable_IZR (n : Z) : (Z.abs n <= 2 ^ 53)%Z -> Binary64.representable (IZR n).
Proof.
  intros H. exists n, 0%Z. rewrite pow2_0, Rmult_1_r.
  repeat split; try lia. rewrite <- abs_IZR.
  apply Rle_lt_trans with (IZR (2 ^ 53)); [now apply IZR_le | apply pow2_53_1024].
Qed.


Lemma round_fin (x : R) :
  Rabs (Binary64.nearest x) < Binary64.pow2 1024 ->
  Binary64.round x = Fin (Binary64.nearest x).
Proof.
  intros H. unfold Binary64.round. apply Rltb_spec in H. now rewrite H.
Qed.

(** A binary64 number rounds to itself. *)
Lemma round_exact (x : R) : Binary64.representable x -> Binary64.round x = Fin x.
Proof.
  intros (m & e & Hx & Hm & He & Hb).
  rewrite round_fin; rewrite (nearest_exact x m e Hx Hm He); [reflexivity | exact Hb].
Qed.

(** What a real rounds to is a binary64 number. *)
Lemma round_representable (x y : R) :
  Binary64.round x = Fin y -> Binary64.representable y.
Proof.
  unfold Binary64.round.
  destruct (Num.Rltb (Rabs (Binary64.nearest x)) (Binary64.pow2 1024)) eqn:E.
  - intros [= <-]. apply Rltb_spec in E.
    destruct (nearest_shape x) as (n & Hn & Hb).
    exists n, (Binary64.exponent x). pose proof (exponent_min x). tauto.
  - destruct (Num.Rltb 0 x); discriminate.
Qed.

Lemma round_isDouble (x : R) : Binary64.isDouble (Binary64.round x).
Proof.
  destruct (Binary64.round x) as [y | | |] eqn:E; cbn; try exact I.
  eapply round_representable. exact E.
Qed.

Lemma fl_isDouble (a : number) : Binary64.isDouble (Binary64.fl a).
Proof. destruct a; cbn; try exact I. apply round_isDouble. Qed.

Lemma fl_exact (a : number) : Binary64.isDouble a -> Binary64.fl a = a.
Proof. destruct a; cbn; try reflexivity. apply round_exact. Qed.

Lemma round_opp (x : R) : Binary64.round (- x) = Num.neg (Binary64.round x).
Proof.
  unfold Binary64.round. rewrite nearest_opp, Rabs_Ropp.
  destruct (Num.Rltb (Rabs (Binary64.nearest x)) (Binary64.pow2 1024)) eqn:E;
    [reflexivity |].
  assert (Hx : x <> 0).
  { intros ->. rewrite nearest_0, Rabs_R0 in E.
    pose proof (pow2_pos 1024) as Hp. apply Rltb_spec in Hp. congruence. }
  unfold Num.Rltb. destruct (Rlt_dec 0 (- x)), (Rlt_dec 0 x); try reflexivity; exfalso; lra.
Qed.

(** Rounding keeps the order, the infinities included. *)
Lemma round_mono (x y : R) :
  x <= y -> Num.le (Binary64.round x) (Binary64.round y) = true.
Proof.
  intros H. pose proof (nearest_mono x y H) as Hn.
  pose proof (pow2_pos 1024) as Hp.
  unfold Binary64.round, Num.Rltb.
  destruct (Rlt_dec (Rabs (Binary64.nearest x)) (Binary64.pow2 1024)) as [Hx | Hx];
    destruct (Rlt_dec (Rabs (Binary64.nearest y)) (Binary64.pow2 1024)) as [Hy | Hy].
  - unfold Num.le. cbn [Num.lt Num.eq]. unfold Num.Rltb, Num.Reqb.
    destruct (Rlt_dec (Binary64.nearest x) (Binary64.nearest y)); [reflexivity |].
    destruct (Req_dec_T (Binary64.nearest x) (Binary64.nearest y)); [reflexivity | lra].
  - destruct (Rlt_dec 0 y) as [Hy0 | Hy0]; [reflexivity | exfalso].
    pose proof (nearest_nonpos y). apply Rabs_lt_between in Hx.
    apply Hy. apply Rabs_lt_between. lra.
  - destruct (Rlt_dec 0 x) as [Hx0 | Hx0]; [exfalso | reflexivity].
    pose proof (nearest_nonneg x). apply Rabs_lt_between in Hy.
    apply Hx. apply Rabs_lt_between. lra.
  - destruct (Rlt_dec 0 x) as [Hx0 | Hx0]; destruct (Rlt_dec 0 y) as [Hy0 | Hy0];
      try reflexivity. exfalso. lra.
Qed.

(** Between two binary64 numbers a real rounds to a binary64 number between
    them. *)
Lemma round_between (lo hi x : R) :
  Binary64.representable lo -> Binary64.representable hi -> lo <= x <= hi ->
  exists z : R, Binary64.round x = Fin z /\ lo <= z <= hi /\ Binary64.representable z.
Proof.
  intros Hlo Hhi [H1 H2].
  pose proof (nearest_mono lo x H1) as Hn1. pose proof (nearest_mono x hi H2) as Hn2.
  destruct Hlo as (m1 & e1 & Hx1 & Hm1 & He1 & Hb1).
  destruct Hhi as (m2 & e2 & Hx2 & Hm2 & He2 & Hb2).
  rewrite (nearest_exact lo m1 e1) in Hn1 by assumption.
  rewrite (nearest_exact hi m2 e2) in Hn2 by assumption.
  assert (Hfin : Rabs (Binary64.nearest x) < Binary64.pow2 1024).
  { apply Rabs_lt_between in Hb1, Hb2. apply Rabs_lt_between. lra. }
  exists (Binary64.nearest x). split; [now apply round_fin |]. split; [lra |].
  eapply round_representable. now apply round_fin.
Qed.

(** ** The sign of a difference *)





(** ** Enclosures

    A number known to be a real between two bounds; the result of an
    operation on enclosed numbers is enclosed by any two binary64 numbers
    that enclose the exact result. *)

Lemma within_fin (x : R) : Binary64.within x x (Fin x).
Proof. exists x. split; [reflexivity | lra]. Qed.

Lemma within_weaken (lo hi lo' hi' : R) (a : number) :
  Binary64.within lo hi a -> lo' <= lo -> hi <= hi' -> Binary64.within lo' hi' a.
Proof. intros (x & -> & Hx) H1 H2. exists x. split; [reflexivity | lra]. Qed.

Lemma within_round (lo hi x : R) :
  Binary64.representable lo -> Binary64.representable hi -> lo <= x <= hi ->
  Binary64.within lo hi (Binary64.round x).
Proof.
  intros Hlo Hhi Hx. destruct (round_between lo hi x Hlo Hhi Hx) as (z & -> & Hz & _).
  exists z. split; [reflexivity | exact Hz].
Qed.

Lemma within_lit (lo hi c : R) :
  Binary64.representable lo -> Binary64.representable hi -> lo <= c <= hi ->
  Binary64.within lo hi (Binary64.lit c).
Proof. apply within_round. Qed.

Lemma within_add (l1 h1 l2 h2 lo hi : R) (a b : number) :
  Binary64.within l1 h1 a -> Binary64.within l2 h2 b ->
  Binary64.representable lo -> Binary64.representable hi ->
  lo <= l1 + l2 -> h1 + h2 <= hi ->
  Binary64.within lo hi (Binary64.add a b).
Proof.
  intros (x & -> & Hx) (y & -> & Hy) Hlo Hhi H1 H2.
  unfold Binary64.add. cbn [Num.add Binary64.fl]. apply within_round; try assumption. lra.
Qed.

Lemma within_sub (l1 h1 l2 h2 lo hi : R) (a b : number) :
  Binary64.within l1 h1 a -> Binary64.within l2 h2 b ->
  Binary64.representable lo -> Binary64.representable hi ->
  lo <= l1 - h2 -> h1 - l2 <= hi ->
  Binary64.within lo hi (Binary64.sub a b).
Proof.
  intros (x & -> & Hx) (y & -> & Hy) Hlo Hhi H1 H2.
  unfold Binary64.sub. cbn [Num.sub Num.neg Num.add Binary64.fl].
  apply within_round; try assumption. lra.
Qed.

Lemma within_mul (l1 h1 l2 h2 lo hi : R) (a b : number) :
  Binary64.within l1 h1 a -> Binary64.within l2 h2 b ->
  0 <= l1 -> 0 <= l2 ->
  Binary64.representable lo -> Binary64.representable hi ->
  lo <= l1 * l2 -> h1 * h2 <= hi ->
  Binary64.within lo hi (Binary64.mul a b).
Proof.
  intros (x & -> & Hx) (y & -> & Hy) Hl1 Hl2 Hlo Hhi H1 H2.
  unfold Binary64.mul. cbn [Num.mul Binary64.fl]. apply within_round; try assumption.
  split; nra.
Qed.

Lemma within_div (l1 h1 l2 h2 lo hi : R) (a b : number) :
  Binary64.within l1 h1 a -> Binary64.within l2 h2 b ->
  0 <= l1 -> 0 < l2 ->
  Binary64.representable lo -> Binary64.representable hi ->
  lo * h2 <= l1 -> h1 <= hi * l2 ->
  Binary64.within lo hi (Binary64.div a b).
Proof.
  intros (x & -> & Hx) (y & -> & Hy) Hl1 Hl2 Hlo Hhi H1 H2.
  unfold Binary64.div. rewrite div_fin by lra. cbn [Binary64.fl].
  assert (Hlo0 : lo <= x / y).
  { destruct (Rle_lt_dec lo 0) as [Hneg | Hpos].
    - apply Rle_trans with 0; [exact Hneg |].
      apply Rmult_le_pos; [lra |]. left. apply Rinv_0_lt_compat. lra.
    - apply Rmult_le_reg_r with y; [lra |].
      unfold Rdiv. rewrite Rmult_assoc, Rinv_l, Rmult_1_r by lra. nra. }
  assert (Hhi0 : x / y <= hi).
  { assert (0 <= hi) by nra.
    apply Rmult_le_reg_r with y; [lra |].
    unfold Rdiv. rewrite Rmult_assoc, Rinv_l, Rmult_1_r by lra. nra. }
  apply within_round; try assumption. lra.
Qed.

Lemma within_min (l1 h1 l2 h2 : R) (a b : number) :
  Binary64.within l1 h1 a -> Binary64.within l2 h2 b ->
  Binary64.within (Rmin l1 l2) (Rmin h1 h2) (Num.min a b).
Proof.
  intros (x & -> & Hx) (y & -> & Hy). rewrite min_fin. exists (Rmin x y).
  split; [reflexivity |]. unfold Rmin.
  repeat match goal with |- context [Rle_dec ?u ?v] => destruct (Rle_dec u v) end; lra.
Qed.


Lemma round_half_up_between (lo hi : Z) (l h : R) (a : number) :
  Binary64.within l h a -> IZR lo - / 2 <= l -> h < IZR hi + / 2 ->
  exists n : Z, Num.round a = Fin (IZR n) /\ (lo <= n <= hi)%Z.
Proof.
  intros (x & -> & Hx) H1 H2. cbn [Num.round]. exists (Int_part (x + / 2)).
  split; [reflexivity |]. split.
  - apply floor_ge_int. lra.
  - apply Z.lt_succ_r. apply floor_lt_int. rewrite succ_IZR. lra.
Qed.



(** ** Evaluating a rounding *)

Lemma nearestEven_tie (x : R) (n : Z) :
  Rabs (x - IZR n) = / 2 -> Z.even n = true -> Binary64.nearestEven x = n.
Proof.
  intros Hx Hn.
  assert (Hcase : x = IZR n + / 2 \/ x = IZR n - / 2).
  { unfold Rabs in Hx. destruct (Rcase_abs (x - IZR n)); [right | left]; lra. }
  destruct Hcase as [-> | ->].
  - assert (Hf : Int_part (IZR n + / 2) = n) by (apply floor_unique; lra).
    destruct (nearestEven_cases (IZR n + / 2)) as [[H _] | [[H _] | [(_ & _ & H) | (_ & He & _)]]];
      rewrite Hf in *; [lra | lra | exact H | congruence].
  - assert (Hf : Int_part (IZR n - / 2) = (n - 1)%Z)
      by (apply floor_unique; rewrite minus_IZR; lra).
    assert (Hodd : Z.even (n - 1) = false).
    { rewrite Z.even_sub, Hn. reflexivity. }
    destruct (nearestEven_cases (IZR n - / 2)) as [[H _] | [[H _] | [(_ & He & _) | (_ & _ & H)]]];
      rewrite Hf in *; rewrite ?minus_IZR in *; [lra | lra | congruence |].
    rewrite H. lia.
Qed.

(** The rounding of a positive real of exponent [k]: the multiple of the
    unit in the last place [u] that is nearest, the even one at a tie. *)
Lemma round_eval_pos (x : R) (n k : Z) (u : R) :
  Binary64.pow2 (k - 52) = u ->
  (-1022 <= k <= 1022)%Z ->
  IZR (2 ^ 52) * u <= x < IZR (2 ^ 53) * u ->
  Rabs (x - IZR n * u) < u / 2 \/ (Rabs (x - IZR n * u) = u / 2 /\ Z.even n = true) ->
  Binary64.round x = Fin (IZR n * u).
Proof.
  intros Hu Hk Hx Hn.
  assert (Hu0 : 0 < u) by (rewrite <- Hu; apply pow2_pos).
  assert (H52 : 0 < IZR (2 ^ 52)) by (apply IZR_lt; reflexivity).
  assert (Hx0 : 0 < x) by nra.
  assert (Hmag : Binary64.magnitude x = k).
  { apply magnitude_unique. rewrite Rabs_pos_eq by lra.
    replace k with (52 + (k - 52))%Z at 1 by lia.
    replace (k + 1)%Z with (53 + (k - 52))%Z by lia.
    rewrite !pow2_add, Hu, !pow2_IZR by lia. exact Hx. }
  assert (Hexp : Binary64.exponent x = (k - 52)%Z).
  { unfold Binary64.exponent. rewrite Hmag. lia. }
  assert (Hscaled : x / u - IZR n = (x - IZR n * u) / u) by (field; lra).
  assert (Hnear : Binary64.nearestEven (x / u) = n).
  { destruct Hn as [Hn | [Hn He]].
    - apply nearestEven_unique. rewrite Hscaled. unfold Rdiv.
      rewrite Rabs_mult, (Rabs_pos_eq (/ u)) by (left; now apply Rinv_0_lt_compat).
      apply Rmult_lt_reg_r with u; [exact Hu0 |].
      rewrite Rmult_assoc, Rinv_l by lra. lra.
    - apply nearestEven_tie; [| exact He]. rewrite Hscaled. unfold Rdiv.
      rewrite Rabs_mult, (Rabs_pos_eq (/ u)) by (left; now apply Rinv_0_lt_compat).
      rewrite Hn. field. lra. }
  assert (Hval : Binary64.nearest x = IZR n * u).
  { unfold Binary64.nearest. now rewrite Hexp, Hu, Hnear. }
  rewrite round_fin; rewrite Hval; [reflexivity |].
  assert (Hle : Rabs (IZR n * u) <= x + u / 2).
  { assert (Hd : Rabs (x - IZR n * u) <= u / 2) by (destruct Hn as [Hn | [Hn _]]; lra).
    apply Rabs_le_between in Hd. apply Rabs_le_between. lra. }
  apply Rle_lt_trans with (x + u / 2); [exact Hle |].
  assert (Htop : IZR (2 ^ 53) * u + u / 2 < Binary64.pow2 1024).
  { apply Rlt_le_trans with (2 * (IZR (2 ^ 53) * u)); [nra |].
    rewrite <- Hu, <- (pow2_IZR 53), <- pow2_add, <- pow2_1, <- pow2_add by lia.
    destruct (Z.eq_dec (1 + (53 + (k - 52)))%Z 1024%Z) as [-> | Hne]; [lra |].
    left. apply pow2_lt. lia. }
  lra.
Qed.

(** The powers of two of the units in the last place. *)
Lemma pow2_neg_IZR (a : Z) : (0 <= a)%Z -> Binary64.pow2 (- a) = / IZR (2 ^ a).
Proof. intros H. now rewrite pow2_opp, pow2_IZR. Qed.

(** The same with the exponent of the unit and the bounds written out. *)
Lemma round_eval_at (x : R) (n e : Z) (u : R) :
  Binary64.pow2 e = u ->
  (-1074 <= e <= 970)%Z ->
  4503599627370496 * u <= x < 9007199254740992 * u ->
  Rabs (x - IZR n * u) < u / 2 \/ (Rabs (x - IZR n * u) = u / 2 /\ Z.even n = true) ->
  Binary64.round x = Fin (IZR n * u).
Proof.
  intros Hu He Hx Hn. apply (round_eval_pos x n (e + 52) u); [| lia | exact Hx | exact Hn].
  rewrite <- Hu. f_equal. lia.
Qed.

(** * The engine in binary64 arithmetic: properties *)

(** ** Operations on numbers of the program *)

Lemma add_isDouble (a b : number) : Binary64.isDouble (Binary64.add a b).
Proof. apply fl_isDouble. Qed.

Lemma sub_isDouble (a b : number) : Binary64.isDouble (Binary64.sub a b).
Proof. apply fl_isDouble. Qed.

Lemma mul_isDouble (a b : number) : Binary64.isDouble (Binary64.mul a b).
Proof. apply fl_isDouble. Qed.

Lemma div_isDouble (a b : number) : Binary64.isDouble (Binary64.div a b).
Proof. apply fl_isDouble. Qed.

Lemma mul64_comm (a b : number) : Binary64.mul a b = Binary64.mul b a.
Proof. unfold Binary64.mul. now rewrite mul_comm. Qed.

(** Adding to zero changes nothing. *)
Lemma add_zero_l (a : number) : Binary64.isDouble a -> Binary64.add (Fin 0) a = a.
Proof.
  intros Ha. unfold Binary64.add. destruct a as [x | | |]; try reflexivity.
  cbn [Num.add Binary64.fl]. rewrite Rplus_0_l. now apply round_exact.
Qed.

Lemma pow2_m1 : Binary64.pow2 (-1) = / 2.
Proof. unfold Binary64.pow2. simpl. lra. Qed.

(** A binary64 number from 2^52 on is an integer. *)
Lemma integer_of_large (x : R) :
  Binary64.representable x -> IZR (2 ^ 52) <= Rabs x -> exists n : Z, x = IZR n.
Proof.
  intros (m & e & Hx & Hm & He & _) Hbig.
  destruct (Z_le_gt_dec 0 e) as [Hpos | Hneg].
  - exists (m * 2 ^ e)%Z. rewrite mult_IZR, <- pow2_IZR by lia. exact Hx.
  - assert (Habs : Rabs x = IZR (Z.abs m) * Binary64.pow2 e).
    { pose proof (pow2_pos e). rewrite Hx, Rabs_mult, (Rabs_pos_eq (Binary64.pow2 e)) by lra.
      now rewrite abs_IZR. }
    assert (Hp : Binary64.pow2 e <= / 2) by (rewrite <- pow2_m1; apply pow2_le; lia).
    assert (Hm' : IZR (Z.abs m) <= IZR (2 ^ 53)) by now apply IZR_le.
    assert (H0 : 0 <= IZR (Z.abs m)) by (apply IZR_le; lia).
    pose proof (pow2_pos e) as Hpe.
    assert (H53 : IZR (2 ^ 53) = 2 * IZR (2 ^ 52)).
    { rewrite <- mult_IZR. f_equal. }
    assert (Heq : Rabs x = IZR (2 ^ 52)) by nra.
    unfold Rabs in Heq. destruct (Rcase_abs x).
    + exists (- 2 ^ 52)%Z. rewrite opp_IZR. lra.
    + exists (2 ^ 52)%Z. exact Heq.
Qed.


(** ** The formulas of the ranking *)

Lemma searchScoreOf_similarity (r : FuseResult) :
  Double.searchScoreOf r = Formula.similarity (score r).
Proof. unfold Double.searchScoreOf, Formula.similarity, orZero, Num.or. reflexivity. Qed.

Lemma iter_step_out {A : Type} (f : A -> A) (n : nat) (x : A) :
  Nat.iter n f (f x) = f (Nat.iter n f x).
Proof.
  induction n as [| n IH]; [reflexivity |].
  change (f (Nat.iter n f (f x)) = f (f (Nat.iter n f x))). now rewrite IH.
Qed.

Lemma bonus_fold64 (h : AggregatedHotel) (keywords : list string) (acc : number) :
  List.Forall (fun k => isWord k = true) keywords ->
  fold_left
    (Double.bonusStep (Str.toLowerCase (Str.join " " (Agg.tags h)))
                      (Str.toLowerCase (Str.join " " (Agg.reviews h))))
    keywords acc
  = Nat.iter (length (Formula.keywordsFound h keywords))
      (fun bonus => Binary64.add bonus (Binary64.lit 0.02)) acc.
Proof.
  intros H. revert acc. induction H as [| k keywords Hk _ IH]; intros acc; [reflexivity |].
  cbn [fold_left]. rewrite IH. unfold Double.bonusStep, Formula.keywordsFound.
  rewrite keyword_test by assumption. cbn [List.filter].
  destruct (occursIn k (Agg.tags h ++ Agg.reviews h)); [| reflexivity].
  exact (iter_step_out (fun bonus => Binary64.add bonus (Binary64.lit 0.02)) _ acc).
Qed.

Lemma lit_between (c : R) (lo hi : R) :
  Binary64.representable lo -> Binary64.representable hi -> lo <= c <= hi ->
  exists z : R, Binary64.lit c = Fin z /\ lo <= z <= hi /\ Binary64.representable z.
Proof. apply round_between. Qed.

Lemma representable_1 : Binary64.representable 1.
Proof. apply (representable_IZR 1). lia. Qed.

Lemma min_zero_lit (c : R) : 0 <= c <= 1 -> Num.min (Fin 0) (Binary64.lit c) = Fin 0.
Proof.
  intros Hc.
  destruct (lit_between c 0 1 representable_0 representable_1 Hc) as (z & -> & Hz & _).
  cbn [Num.min Num.lt]. now rewrite Rltb_false by lra.
Qed.

Lemma getPersonaBonus_formula (h : AggregatedHotel) (persona : string) (b : number) :
  Double.getPersonaBonus h persona = Normal b -> b = Formula.personaBonus h persona.
Proof.
  unfold Double.getPersonaBonus, Formula.personaBonus.
  destruct (getProperty bonusKeywords persona) as [keywords | |] eqn:E.
  - apply getProperty_Own in E. rewrite E. intros [= <-].
    now rewrite bonus_fold64 by (eapply bonusKeywords_words; exact E).
  - discriminate.
  - apply getProperty_Missing in E. rewrite E. intros [= <-].
    cbn [fold_left]. apply min_zero_lit. lra.
Qed.

Lemma reviewConfidence_formula (w : World) (h : AggregatedHotel) :
  Double.reviewConfidence w h = Formula.reviewVolumeConfidence w (Agg.totalReviews h).
Proof. reflexivity. Qed.

Lemma calculateFinalScore_formula (w : World) (h : AggregatedHotel) (persona : string)
    (similarity v : number) :
  Double.calculateFinalScore w h persona similarity = Normal v ->
  v = Formula.finalScore w (Agg.averageScore h) similarity (Agg.totalReviews h)
        (Agg.positiveWordCount h) (Agg.negativeWordCount h)
        (Formula.personaBonus h persona).
Proof.
  unfold Double.calculateFinalScore. cbv zeta.
  destruct (Double.getPersonaBonus h persona) as [b |] eqn:E; [| discriminate].
  apply getPersonaBonus_formula in E. subst b. intros [= <-].
  unfold Formula.finalScore. rewrite reviewConfidence_formula.
  fold (Formula.sentimentRatio (Agg.positiveWordCount h) (Agg.negativeWordCount h)).
  rewrite add_zero_l by apply mul_isDouble.
  rewrite (mul64_comm (Fin 100)), (mul64_comm (Binary64.lit 0.4)),
    (mul64_comm (Binary64.lit 0.3)), !(mul64_comm (Binary64.lit 0.15)).
  reflexivity.
Qed.

Lemma popularityScore_formula64 (w : World) (h : AggregatedHotel) :
  Double.popularityScore w h
  = {| hotel := h;
       finalScore := Formula.popularity w (Agg.averageScore h) (Agg.totalReviews h) |}.
Proof.
  unfold Double.popularityScore, Formula.popularity. rewrite reviewConfidence_formula.
  now rewrite (mul64_comm (Fin 100)), (mul64_comm (Binary64.lit 0.7)),
    (mul64_comm (Binary64.lit 0.3)).
Qed.

(** ** A request on the binary64 engine *)

Lemma initialize_initialized (w : World) (e : Engine) :
  isInitialized e = true -> Double.initialize w e = (e, Normal tt).
Proof. intros H. unfold Double.initialize. now rewrite H. Qed.

Lemma initialize_fresh (w : World) (e : Engine) :
  isInitialized e = false ->
  Double.initialize w e
  = match Double.aggregateHotelData w (loadHotelData w) with
    | Normal hotels =>
        ({| hotelData := loadHotelData w; aggregatedHotels := hotels;
            isInitialized := true |}, Normal tt)
    | Throw =>
        ({| hotelData := loadHotelData w; aggregatedHotels := aggregatedHotels e;
            isInitialized := false |}, Throw)
    end.
Proof. intros H. unfold Double.initialize. now rewrite H. Qed.

(** An initialization that returns leaves the engine initialized; one that
    throws leaves it uninitialized. *)
Lemma initialize_outcome (w : World) (e e' : Engine) (c : completion unit) :
  Double.initialize w e = (e', c) ->
  (c = Normal tt /\ isInitialized e' = true) \/ (c = Throw /\ isInitialized e' = false).
Proof.
  unfold Double.initialize. destruct (isInitialized e) eqn:E.
  - intros [= <- <-]. now left.
  - destruct (Double.aggregateHotelData w (loadHotelData w)); intros [= <- <-];
      [left | right]; split; reflexivity.
Qed.






Lemma scoreResult_hotel (w : World) (persona : string) (r : FuseResult) (sh : ScoredHotel) :
  Double.scoreResult w persona r = Normal sh ->
  hotel sh = item r
  /\ finalScore sh
     = Formula.finalScore w (Agg.averageScore (item r)) (Formula.similarity (score r))
         (Agg.totalReviews (item r)) (Agg.positiveWordCount (item r))
         (Agg.negativeWordCount (item r)) (Formula.personaBonus (item r) persona).
Proof.
  unfold Double.scoreResult.
  destruct (Double.calculateFinalScore w (item r) persona (Double.searchScoreOf r))
    as [v |] eqn:E; [| discriminate].
  intros [= <-]. cbn [hotel finalScore]. split; [reflexivity |].
  rewrite <- searchScoreOf_similarity. now apply calculateFinalScore_formula.
Qed.

Lemma Forall2_map_eq {A B C : Type} (f : A -> C) (g : B -> C) (l : list A) (k : list B) :
  Forall2 (fun x y => g y = f x) l k -> map g k = map f l.
Proof. induction 1 as [| x y l k H _ IH]; [reflexivity |]. cbn [map]. now rewrite H, IH. Qed.



(** ** The final score of a fuzzy match *)



(** ** The popularity fallback *)



(** ** The ranking: order, ties and length *)

Lemma round_0 : Binary64.round 0 = Fin 0.
Proof. apply round_exact, representable_0. Qed.











(** The scores of the twins. *)










(** ** The area stage *)









(** ** Initialization on the binary64 engine *)

Lemma aggregateRow_throws (w : World) (i : nat) (row : Raw.HotelData) :
  Double.aggregateRow w i row = Throw <-> rowThrows w row = true.
Proof.
  unfold Double.aggregateRow, rowThrows, pricedRow.
  destruct (Raw.has_address row), (Str.nonempty (Raw.city row)),
    (Double.parsePlatformRatings w row),
    (Num.truthy (Raw.price row) && Num.gt (Raw.price row) (Fin 0));
    cbn; split; intros H; (reflexivity || discriminate H).
Qed.

Lemma aggregateRow_hotel (w : World) (i : nat) (row : Raw.HotelData) (h : AggregatedHotel) :
  Double.aggregateRow w i row = Normal h ->
  Agg.name h = Raw.property_name row
  /\ Agg.address h = (if Raw.has_address row then Raw.address row else EmptyString)
  /\ Str.nonempty (Agg.city h) = true
  /\ exists ratings : PlatformRatings,
       Double.parsePlatformRatings w row = Some ratings
       /\ Agg.platformRatings h = ratings
       /\ Agg.averageScore h
          = Num.or (Raw.average_rating row) (Double.computeWeightedAverage ratings).
Proof.
  unfold Double.aggregateRow.
  destruct (negb (Str.nonempty (Raw.city row)) && negb (Raw.has_address row));
    [discriminate |].
  destruct (Double.parsePlatformRatings w row) as [ratings |]; [| discriminate].
  destruct (negb _ && negb (Raw.has_address row)); [discriminate |].
  intros [= <-]. cbn [Agg.name Agg.address Agg.city Agg.platformRatings Agg.averageScore].
  split; [reflexivity |]. split; [reflexivity |]. split.
  - destruct (Str.nonempty (Raw.city row)) eqn:E; [exact E | apply extractCity_nonempty].
  - exists ratings. repeat split.
Qed.

Lemma aggregateFrom_throws (w : World) (rows : list Raw.HotelData) (i : nat) :
  Double.aggregateFrom w i rows = Throw
  <-> exists row, In row rows /\ rowThrows w row = true.
Proof.
  revert i. induction rows as [| row rows IH]; intros i; cbn [Double.aggregateFrom].
  - split; [discriminate | intros (row & [] & _)].
  - destruct (Double.aggregateRow w i row) as [h |] eqn:E.
    + assert (Hrow : rowThrows w row <> true).
      { intros H. apply aggregateRow_throws with (i := i) in H. congruence. }
      specialize (IH (S i)).
      destruct (Double.aggregateFrom w (S i) rows) as [hs |].
      * split; [discriminate |]. intros (r & [<- | Hin] & Hr); [contradiction |].
        assert (Habs : Normal hs = Throw) by (apply IH; now exists r). discriminate Habs.
      * split; [| reflexivity]. intros _.
        destruct (proj1 IH eq_refl) as (r & Hin & Hr). exists r. split; [now right | exact Hr].
    + split; [| reflexivity]. intros _. exists row. split; [now left |].
      now apply (aggregateRow_throws w i).
Qed.

Lemma aggregateFrom_hotels (w : World) (rows : list Raw.HotelData) (i : nat)
    (hs : list AggregatedHotel) :
  Double.aggregateFrom w i rows = Normal hs ->
  Forall2 (fun row h => exists j, Double.aggregateRow w j row = Normal h) rows hs.
Proof.
  revert i hs. induction rows as [| row rows IH]; intros i hs; cbn [Double.aggregateFrom].
  - intros [= <-]. constructor.
  - destruct (Double.aggregateRow w i row) as [h |] eqn:E; [| discriminate].
    destruct (Double.aggregateFrom w (S i) rows) as [hs' |] eqn:E'; [| discriminate].
    intros [= <-]. constructor; [now exists i | now apply (IH (S i))].
Qed.

Lemma loadHotelData_named (w : World) (rows : list Raw.HotelData) :
  fetchTable w = Some rows -> loadHotelData w = List.filter named rows.
Proof. intros H. unfold loadHotelData. now rewrite H. Qed.

(** The outcome of the first initialization. *)
Lemma initialize_new (w : World) :
  Double.initialize w newEngine
  = match Double.aggregateHotelData w (loadHotelData w) with
    | Normal hotels =>
        ({| hotelData := loadHotelData w; aggregatedHotels := hotels;
            isInitialized := true |}, Normal tt)
    | Throw =>
        ({| hotelData := loadHotelData w; aggregatedHotels := [];
            isInitialized := false |}, Throw)
    end.
Proof. now rewrite initialize_fresh. Qed.

Lemma initialize_throws (w : World) (e : Engine) :
  snd (Double.initialize w e) = Throw
  <-> isInitialized e = false
      /\ exists row, In row (loadHotelData w) /\ rowThrows w row = true.
Proof.
  destruct (isInitialized e) eqn:E.
  - rewrite initialize_initialized by exact E. cbn [snd].
    split; [discriminate | intros [H _]; discriminate H].
  - rewrite initialize_fresh by exact E.
    pose proof (aggregateFrom_throws w (loadHotelData w) 0) as Hthrow.
    unfold Double.aggregateHotelData.
    destruct (Double.aggregateFrom w 0 (loadHotelData w)); cbn [snd].
    + split; [discriminate |]. intros [_ H]. now apply Hthrow in H.
    + split; [| reflexivity]. intros _. split; [reflexivity | now apply Hthrow].
Qed.

(** The table is loaded until an initialization succeeds: an initialization
    that returns marks the engine initialized, and then neither another
    initialization nor a request changes the engine, whatever the table has
    become; an initialization that throws has loaded the rows, leaves the
    collection as it was and the engine unmarked, so that the next call
    initializes again. *)
Theorem initialize_once (w w' : World) (e e1 : Engine) (c : completion unit) :
  Double.initialize w e = (e1, c) ->
  (c = Normal tt \/ c = Throw)
  /\ (c = Normal tt ->
      isInitialized e1 = true
      /\ Double.initialize w' e1 = (e1, Normal tt)
      /\ (forall (persona city : string) (preferences : list string)
                 (options : option Options),
            fst (Double.generateRecommendations w' e1 persona city preferences options) = e1)
      /\ (forall city : string, fst (Double.searchHotelsByCity w' e1 city) = e1))
  /\ (c = Throw ->
      isInitialized e = false
      /\ isInitialized e1 = false
      /\ hotelData e1 = loadHotelData w
      /\ aggregatedHotels e1 = aggregatedHotels e
      /\ fst (Double.initialize w' e1)
         = match Double.aggregateHotelData w' (loadHotelData w') with
           | Normal hotels =>
               {| hotelData := loadHotelData w'; aggregatedHotels := hotels;
                  isInitialized := true |}
           | Throw =>
               {| hotelData := loadHotelData w'; aggregatedHotels := aggregatedHotels e;
                  isInitialized := false |}
           end).
Proof.
  intros H. split; [| split].
  - destruct (initialize_outcome w e e1 c H) as [[-> _] | [-> _]]; tauto.
  - intros ->. destruct (initialize_outcome w e e1 _ H) as [[_ Hi] | [Hc _]];
      [| discriminate Hc].
    assert (Hsame : Double.initialize w' e1 = (e1, Normal tt))
      by now apply initialize_initialized.
    split; [exact Hi |]. split; [exact Hsame |].
    split; intros; unfold Double.generateRecommendations, Double.searchHotelsByCity;
      now rewrite Hsame.
  - intros ->. destruct (isInitialized e) eqn:E.
    + rewrite initialize_initialized in H by exact E. discriminate H.
    + rewrite initialize_fresh in H by exact E.
      destruct (Double.aggregateHotelData w (loadHotelData w)); [discriminate H |].
      injection H as <-. cbn [isInitialized hotelData aggregatedHotels].
      repeat split. rewrite initialize_fresh by reflexivity.
      cbn [aggregatedHotels]. now destruct (Double.aggregateHotelData w' (loadHotelData w')).
Qed.

Lemma nullWorld_throws :
  Double.initialize nullWorld newEngine
  = ({| hotelData := [summaryRow]; aggregatedHotels := []; isInitialized := false |}, Throw).
Proof. reflexivity. Qed.

Lemma initialize_once_witness :
  Double.initialize nullWorld newEngine
  = ({| hotelData := [summaryRow]; aggregatedHotels := []; isInitialized := false |}, Throw)
  /\ isInitialized
       (fst (Double.initialize ratingsWorld
               {| hotelData := [summaryRow]; aggregatedHotels := [];
                  isInitialized := false |}))
     = true.
Proof.
  split; [exact nullWorld_throws |].
  destruct (initialize_once nullWorld ratingsWorld newEngine _ _ nullWorld_throws)
    as (_ & _ & Hthrow).
  destruct (Hthrow eq_refl) as (_ & _ & _ & _ & Hnext).
  rewrite Hnext.
  destruct (Double.aggregateHotelData ratingsWorld (loadHotelData ratingsWorld)) eqn:E;
    [reflexivity |].
  apply aggregateFrom_throws in E. destruct E as (row & Hin & Hr).
  destruct Hin as [<- | []]. discriminate Hr.
Defined.

Lemma hotels_named (w : World) (rows : list Raw.HotelData) (hs : list AggregatedHotel) :
  Forall2 (fun row h => exists j, Double.aggregateRow w j row = Normal h) rows hs ->
  List.Forall (fun row => named row = true) rows ->
  List.Forall
    (fun h => Str.nonempty (Agg.name h) = true /\ Str.nonempty (Agg.city h) = true) hs.
Proof.
  induction 1 as [| row h rows hs [j Hj] _ IH]; intros Hnamed; [constructor |].
  apply List.Forall_cons_iff in Hnamed as [Hrow Hnamed].
  constructor; [| now apply IH].
  apply aggregateRow_hotel in Hj as (Hn & _ & Hc & _).
  split; [rewrite Hn; exact Hrow | exact Hc].
Qed.

(** After the first initialization the rows that have a name are loaded.
    The initialization throws exactly when one of them makes the
    aggregation throw: it has no address and needs one, or its ratings
    parse to [null]; the engine is then left uninitialized with an empty
    collection.  When it returns, the engine is initialized and the
    collection holds one hotel for each loaded row, in the order of the
    table, with the name and the address of its row; every hotel has a
    name and a city that are not empty. *)
Theorem one_hotel_per_named_row (w : World) :
  let out := Double.initialize w newEngine in
  let e := fst out in
  (forall rows, fetchTable w = Some rows -> hotelData e = List.filter named rows)
  /\ (snd out = Normal tt \/ snd out = Throw)
  /\ (snd out = Throw <-> exists row, In row (hotelData e) /\ rowThrows w row = true)
  /\ (snd out = Throw -> isInitialized e = false /\ aggregatedHotels e = [])
  /\ (snd out = Normal tt ->
      isInitialized e = true
      /\ map Agg.name (aggregatedHotels e) = map Raw.property_name (hotelData e)
      /\ map Agg.address (aggregatedHotels e)
         = map (fun row => if Raw.has_address row then Raw.address row else EmptyString)
             (hotelData e)
      /\ List.Forall
           (fun h => Str.nonempty (Agg.name h) = true /\ Str.nonempty (Agg.city h) = true)
           (aggregatedHotels e)).
Proof.
  cbv zeta. rewrite initialize_new. unfold Double.aggregateHotelData.
  pose proof (aggregateFrom_throws w (loadHotelData w) 0) as Hthrow.
  pose proof (aggregateFrom_hotels w (loadHotelData w) 0) as Hhotels.
  destruct (Double.aggregateFrom w 0 (loadHotelData w)) as [hs |];
    cbn [fst snd hotelData aggregatedHotels isInitialized].
  - specialize (Hhotels hs eq_refl).
    split; [apply loadHotelData_named |]. split; [now left |].
    split; [split; [discriminate | intros H; now apply Hthrow in H] |].
    split; [discriminate |]. intros _. split; [reflexivity |].
    split; [| split].
    + apply Forall2_map_eq. eapply Forall2_impl; [exact Hhotels |].
      intros row h [j Hj]. now apply aggregateRow_hotel in Hj.
    + apply Forall2_map_eq. eapply Forall2_impl; [exact Hhotels |].
      intros row h [j Hj]. now apply aggregateRow_hotel in Hj.
    + assert (Hnamed : List.Forall (fun row => named row = true) (loadHotelData w)).
      { apply List.Forall_forall. intros row Hrow. unfold loadHotelData in Hrow.
        destruct (fetchTable w) as [rows |]; [| destruct Hrow].
        now apply filter_In in Hrow. }
      exact (hotels_named w _ _ Hhotels Hnamed).
  - split; [apply loadHotelData_named |]. split; [now right |].
    split; [split; [intros _; now apply Hthrow | reflexivity] |].
    split; [split; reflexivity | discriminate].
Qed.

(** A row that has a city but neither an address nor a price makes the
    first initialization throw: the price cannot be estimated. *)
Example initialization_throws_without_address (w : World) :
  fetchTable w = Some [noAddressRow "Goa" 0] ->
  snd (Double.initialize w newEngine) = Throw
  /\ isInitialized (fst (Double.initialize w newEngine)) = false.
Proof.
  intros Htable.
  assert (Hthrow : snd (Double.initialize w newEngine) = Throw).
  { apply initialize_throws. split; [reflexivity |].
    exists (noAddressRow "Goa" 0). split.
    - rewrite (loadHotelData_named w _ Htable). now left.
    - unfold rowThrows, pricedRow. cbn [Raw.has_address Raw.city Raw.price noAddressRow].
      unfold Num.truthy. now rewrite (Reqb_true 0 0 eq_refl). }
  split; [exact Hthrow |].
  destruct (Double.initialize w newEngine) as [e1 c] eqn:E. cbn [fst snd] in *. subst c.
  destruct (initialize_outcome w newEngine e1 Throw E) as [[Hc _] | [_ Hi]];
    [discriminate Hc | exact Hi].
Qed.

Lemma getPersonaBonus_throws (h : AggregatedHotel) (persona : string) :
  Double.getPersonaBonus h persona = Throw <-> inheritedName persona = true.
Proof.
  unfold Double.getPersonaBonus. split.
  - intros H. destruct (inheritedName persona) eqn:Hp; [reflexivity |].
    pose proof (getProperty_not_inherited bonusKeywords persona Hp) as Hni.
    destruct (getProperty bonusKeywords persona); try discriminate H. now elim Hni.
  - intros Hp. now rewrite (inherited_has_no_keywords persona Hp).
Qed.

Lemma scoreResult_throws (w : World) (persona : string) (r : FuseResult) :
  Double.scoreResult w persona r = Throw <-> inheritedName persona = true.
Proof.
  unfold Double.scoreResult, Double.calculateFinalScore.
  rewrite <- (getPersonaBonus_throws (item r) persona).
  destruct (Double.getPersonaBonus (item r) persona); split; congruence.
Qed.

Lemma mapThrowing_throws {A B : Type} (f : A -> completion B) (l : list A) :
  mapThrowing f l = Throw <-> exists x, In x l /\ f x = Throw.
Proof.
  induction l as [| x l IH]; cbn [mapThrowing].
  - split; [discriminate | intros (x & [] & _)].
  - destruct (f x) as [y |] eqn:E.
    + destruct (mapThrowing f l) as [ys |].
      * split; [discriminate |]. intros (z & [<- | Hin] & Hz); [congruence |].
        assert (Habs : @Normal (list B) ys = Throw) by (apply IH; now exists z).
        discriminate Habs.
      * split; [| reflexivity]. intros _. destruct (proj1 IH eq_refl) as (z & Hin & Hz).
        exists z. split; [now right | exact Hz].
    + split; [| reflexivity]. intros _. exists x. split; [now left | exact E].
Qed.

Lemma recommend_throws64 (w : World) (all : list AggregatedHotel)
    (persona city : string) (preferences : list string) (options : option Options) :
  Double.recommend w all persona city preferences options = Throw
  <-> inheritedName persona = true
      /\ Fuse_search w rankFuseOptions (Double.candidatesOf w all city options)
           (searchQueryOf w persona preferences options) <> [].
Proof.
  unfold Double.recommend, Double.scoredHotelsOf.
  set (hits := Fuse_search w rankFuseOptions _ _).
  pose proof (mapThrowing_throws (Double.scoreResult w persona) hits) as Hmap.
  destruct (mapThrowing (Double.scoreResult w persona) hits) as [ys |].
  - split; [discriminate |]. intros [Hp Hne].
    assert (Habs : @Normal (list ScoredHotel) ys = Throw).
    { apply Hmap. destruct hits as [| r hits']; [contradiction |].
      exists r. split; [now left | now apply scoreResult_throws]. }
    discriminate Habs.
  - split; [| reflexivity]. intros _.
    destruct (proj1 Hmap eq_refl) as (r & Hin & Hr).
    split; [now apply scoreResult_throws in Hr |].
    intros Hnil. rewrite Hnil in Hin. destruct Hin.
Qed.

(** A request throws in two cases only.  Either the engine was not
    initialized and the initialization throws: a loaded row has no address
    and needs one, or its ratings parse to [null].  Or the persona is a
    name that object literals inherit (constructor, toString, ...) and the
    fuzzy search has a hit: scoring the first hit fails.  With no hit the
    popularity fallback answers, whatever the persona. *)
Theorem recommend_throws_iff (w : World) (e : Engine)
    (persona city : string) (preferences : list string) (options : option Options) :
  let ready := Double.initialize w e in
  snd (Double.generateRecommendations w e persona city preferences options) = Throw
  <-> (isInitialized e = false
       /\ exists row, In row (loadHotelData w) /\ rowThrows w row = true)
      \/ (snd ready = Normal tt
          /\ inheritedName persona = true
          /\ Fuse_search w rankFuseOptions
               (Double.candidatesOf w (aggregatedHotels (fst ready)) city options)
               (searchQueryOf w persona preferences options) <> []).
Proof.
  cbv zeta. rewrite <- initialize_throws. unfold Double.generateRecommendations.
  destruct (Double.initialize w e) as [e1 c] eqn:E. cbn [fst snd].
  destruct (initialize_outcome w e e1 c E) as [[-> _] | [-> _]]; cbn [snd].
  - rewrite recommend_throws64. split.
    + intros H. right. split; [reflexivity | exact H].
    + intros [H | [_ H]]; [discriminate H | exact H].
  - split; [now left | reflexivity].
Qed.

(** ** The entry points and the lazy initialization *)

Lemma initializing_call (w : World) :
  let ready := Double.initialize w newEngine in
  hotelData (fst ready) = loadHotelData w
  /\ (isInitialized (fst ready) = true
      <-> exists hotels, Double.aggregateHotelData w (loadHotelData w) = Normal hotels
                         /\ aggregatedHotels (fst ready) = hotels)
  /\ (isInitialized (fst ready) = false <-> snd ready = Throw).
Proof.
  cbv zeta. rewrite initialize_new.
  destruct (Double.aggregateHotelData w (loadHotelData w)) as [hs |];
    cbn [fst snd hotelData aggregatedHotels isInitialized].
  - split; [reflexivity |]. split.
    + split; [intros _; now exists hs | reflexivity].
    + split; discriminate.
  - split; [reflexivity |]. split.
    + split; [discriminate | intros (hs & H & _); discriminate H].
    + split; reflexivity.
Qed.

Lemma generateRecommendations_engine (w : World) (e : Engine)
    (persona city : string) (preferences : list string) (options : option Options) :
  fst (Double.generateRecommendations w e persona city preferences options)
  = fst (Double.initialize w e).
Proof.
  unfold Double.generateRecommendations.
  now destruct (Double.initialize w e) as [e1 [[] |]].
Qed.

Lemma searchHotelsByCity_engine (w : World) (e : Engine) (city : string) :
  fst (Double.searchHotelsByCity w e city) = fst (Double.initialize w e).
Proof.
  unfold Double.searchHotelsByCity.
  now destruct (Double.initialize w e) as [e1 [[] |]].
Qed.

Lemma initializing_call_throws {A : Type} (w : World) (e : Engine)
    (run : Engine -> completion A) :
  snd (Double.initialize w e) = Throw ->
  snd (match Double.initialize w e with
       | (e', Normal _) => (e', run e')
       | (e', Throw) => (e', Throw)
       end) = Throw.
Proof. destruct (Double.initialize w e) as [e1 [[] |]]; cbn [snd]; [discriminate | reflexivity]. Qed.

(** C10.  [getAvailableCities] reads the collection and leaves the engine as
    it is: on a new engine it returns no city and the engine stays
    uninitialized.  The two other queries run the initialization on a new
    engine: they load the table, and they leave the engine initialized,
    with the aggregated hotels, when the aggregation returns; when it
    throws they throw and the engine stays uninitialized.  What
    [getAvailableCities] returns is, in every state, the cities of the
    collection, each once, in ascending order. *)
Theorem getAvailableCities_does_not_initialize :
  getAvailableCities newEngine = (newEngine, [])
  /\ isInitialized (fst (getAvailableCities newEngine)) = false
  /\ (forall e : Engine, fst (getAvailableCities e) = e)
  /\ (forall (w : World) (persona city : string) (preferences : list string)
             (options : option Options),
        let out := Double.generateRecommendations w newEngine persona city preferences options in
        fst out = fst (Double.initialize w newEngine)
        /\ hotelData (fst out) = loadHotelData w
        /\ (isInitialized (fst out) = true
            <-> exists hotels,
                  Double.aggregateHotelData w (loadHotelData w) = Normal hotels
                  /\ aggregatedHotels (fst out) = hotels)
        /\ (isInitialized (fst out) = false -> snd out = Throw))
  /\ (forall (w : World) (city : string),
        let out := Double.searchHotelsByCity w newEngine city in
        fst out = fst (Double.initialize w newEngine)
        /\ hotelData (fst out) = loadHotelData w
        /\ (isInitialized (fst out) = true
            <-> exists hotels,
                  Double.aggregateHotelData w (loadHotelData w) = Normal hotels
                  /\ aggregatedHotels (fst out) = hotels)
        /\ (isInitialized (fst out) = false -> snd out = Throw))
  /\ (forall e : Engine,
        (forall c, In c (snd (getAvailableCities e))
                   <-> In c (map Agg.city (aggregatedHotels e)))
        /\ List.NoDup (snd (getAvailableCities e))
        /\ StronglySorted (fun a b => String.leb a b = true) (snd (getAvailableCities e))).
Proof.
  split; [reflexivity |]. split; [reflexivity |]. split; [reflexivity |].
  split; [| split].
  - intros w persona city preferences options. cbv zeta.
    destruct (initializing_call w) as (Hrows & Hready & Hthrow).
    rewrite generateRecommendations_engine.
    split; [reflexivity |]. split; [exact Hrows |]. split; [exact Hready |].
    intros Hi. apply Hthrow in Hi. unfold Double.generateRecommendations.
    now apply initializing_call_throws.
  - intros w city. cbv zeta.
    destruct (initializing_call w) as (Hrows & Hready & Hthrow).
    rewrite searchHotelsByCity_engine.
    split; [reflexivity |]. split; [exact Hrows |]. split; [exact Hready |].
    intros Hi. apply Hthrow in Hi. unfold Double.searchHotelsByCity.
    now apply initializing_call_throws.
  - intros e. apply getAvailableCities_cities.
Qed.

(** On the table of one row with two platforms, a first request initializes
    the engine; [getAvailableCities] before it finds no city. *)
Example first_request_initializes :
  snd (getAvailableCities newEngine) = []
  /\ isInitialized
       (fst (Double.generateRecommendations ratingsWorld newEngine "Family" "all" [] None))
     = true.
Proof.
  split; [reflexivity |].
  rewrite generateRecommendations_engine.
  apply (proj1 (proj2 (initializing_call ratingsWorld))).
  destruct (Double.aggregateHotelData ratingsWorld (loadHotelData ratingsWorld))
    as [hs |] eqn:E.
  - exists hs. split; [reflexivity |]. rewrite initialize_new, E. reflexivity.
  - apply aggregateFrom_throws in E. destruct E as (row & Hin & Hr).
    destruct Hin as [<- | []]. discriminate Hr.
Qed.

(** On the table whose row has ratings that parse to [null], a first
    request throws and leaves the engine uninitialized. *)
Example first_request_throws :
  Double.generateRecommendations nullWorld newEngine "Family" "all" [] None
  = ({| hotelData := [summaryRow]; aggregatedHotels := []; isInitialized := false |}, Throw).
Proof. reflexivity. Qed.

(** ** The average score *)

Lemma computeWeightedAverage_formula (ratings : PlatformRatings) :
  Double.computeWeightedAverage ratings
  = if (length (entriesOf ratings) =? 0)%nat then Fin 0
    else if Num.truthy (Formula.countTotal (entriesOf ratings))
         then Formula.weightedMean (entriesOf ratings)
         else Formula.plainMean (entriesOf ratings).
Proof. reflexivity. Qed.

Lemma sumR_counts_nonneg (P : list PlatformRating) :
  List.Forall wholeEntry P -> 0 <= sumR countR P.
Proof.
  induction 1 as [| p P [_ (c & Hc & Hc0)] _ IH]; cbn [sumR fold_right]; [lra |].
  fold (sumR countR P). unfold countR at 1. rewrite Hc. cbn [realOf].
  apply IZR_le in Hc0. lra.
Qed.

(** The review counts are summed exactly. *)
Lemma countTotal_from (P : list PlatformRating) (acc : Z) :
  List.Forall wholeEntry P ->
  (0 <= acc)%Z ->
  IZR acc + sumR countR P <= IZR (2 ^ 53) ->
  exists z : Z,
    fold_left (fun a p => Binary64.add a (orZero (reviews_count p))) P (Fin (IZR acc))
    = Fin (IZR z)
    /\ IZR z = IZR acc + sumR countR P /\ (0 <= z)%Z.
Proof.
  intros HP. revert acc.
  induction HP as [| p P [_ (c & Hc & Hc0)] HP IH]; intros acc Hacc Hb;
    cbn [fold_left sumR fold_right] in *.
  - exists acc. split; [reflexivity |]. split; [lra | exact Hacc].
  - fold (sumR countR P) in *.
    assert (HcR : countR p = IZR c) by (unfold countR; now rewrite Hc).
    rewrite HcR in *. rewrite Hc.
    pose proof (sumR_counts_nonneg P HP) as Hs.
    assert (Hstep : Binary64.add (Fin (IZR acc)) (Fin (IZR c)) = Fin (IZR (acc + c))).
    { unfold Binary64.add. cbn [Num.add Binary64.fl]. rewrite <- plus_IZR.
      apply round_exact, representable_IZR.
      assert (H : IZR (acc + c) <= IZR (2 ^ 53)) by (rewrite plus_IZR; lra).
      apply le_IZR in H. lia. }
    rewrite Hstep.
    destruct (IH (acc + c)%Z) as (z & Hz & Hsum & Hz0); [lia | rewrite plus_IZR; lra |].
    exists z. split; [exact Hz |]. split; [rewrite Hsum, plus_IZR; lra | exact Hz0].
Qed.

Lemma countTotal_whole (P : list PlatformRating) :
  List.Forall wholeEntry P ->
  sumR countR P <= IZR (2 ^ 53) ->
  exists z : Z,
    Formula.countTotal P = Fin (IZR z) /\ IZR z = sumR countR P /\ (0 <= z)%Z.
Proof.
  intros HP Hb. destruct (countTotal_from P 0 HP) as (z & Hz & Hsum & Hz0);
    [lia | lra |].
  exists z. split; [exact Hz |]. split; [lra | exact Hz0].
Qed.

Lemma ten_times_representable (z : Z) :
  (0 <= z)%Z -> 10 * IZR z <= IZR (2 ^ 53) -> Binary64.representable (10 * IZR z).
Proof.
  intros Hz Hb. rewrite <- mult_IZR. apply representable_IZR.
  rewrite <- mult_IZR in Hb. apply le_IZR in Hb. lia.
Qed.

(** The weighted sum stays under ten times the reviews counted. *)
Lemma weightedTotal_from (P : list PlatformRating) (t : R) (acc : Z) :
  List.Forall wholeEntry P ->
  (0 <= acc)%Z ->
  0 <= t <= 10 * IZR acc ->
  10 * (IZR acc + sumR countR P) <= IZR (2 ^ 53) ->
  exists t' : R,
    fold_left
      (fun a p => Binary64.add a (Binary64.mul (orZero (rating p)) (orZero (reviews_count p))))
      P (Fin t)
    = Fin t'
    /\ 0 <= t' <= 10 * (IZR acc + sumR countR P).
Proof.
  intros HP. revert t acc.
  induction HP as [| p P [(r & Hr & Hr10) (c & Hc & Hc0)] HP IH]; intros t acc Hacc Ht Hb;
    cbn [fold_left sumR fold_right] in *.
  - exists t. split; [reflexivity | lra].
  - fold (sumR countR P) in *.
    assert (HcR : countR p = IZR c) by (unfold countR; now rewrite Hc).
    rewrite HcR in *. rewrite Hr, Hc.
    pose proof (sumR_counts_nonneg P HP) as Hs.
    assert (Hc0' : 0 <= IZR c) by now apply IZR_le in Hc0.
    assert (Hacc' : 0 <= IZR acc) by now apply IZR_le in Hacc.
    assert (Hm : Binary64.within 0 (10 * IZR c) (Binary64.mul (Fin r) (Fin (IZR c)))).
    { unfold Binary64.mul. cbn [Num.mul Binary64.fl]. apply within_round.
      - apply representable_0.
      - apply ten_times_representable; [exact Hc0 | lra].
      - split; nra. }
    destruct Hm as (m & -> & Hm).
    assert (Hsum : Binary64.within 0 (10 * IZR (acc + c))
                     (Binary64.add (Fin t) (Fin m))).
    { unfold Binary64.add. cbn [Num.add Binary64.fl]. apply within_round.
      - apply representable_0.
      - apply ten_times_representable; [lia | rewrite plus_IZR; lra].
      - rewrite plus_IZR. lra. }
    destruct Hsum as (t1 & -> & Ht1).
    destruct (IH t1 (acc + c)%Z) as (t' & Ht' & Hb');
      [lia | exact Ht1 | rewrite plus_IZR; lra |].
    exists t'. split; [exact Ht' |]. rewrite plus_IZR in Hb'. lra.
Qed.

(** The sum of the ratings stays under ten times their number. *)
Lemma ratingTotal_from (P : list PlatformRating) (t : R) (k : Z) :
  List.Forall wholeEntry P ->
  (0 <= k)%Z ->
  0 <= t <= 10 * IZR k ->
  10 * (IZR k + INR (length P)) <= IZR (2 ^ 53) ->
  exists t' : R,
    fold_left (fun a p => Binary64.add a (orZero (rating p))) P (Fin t) = Fin t'
    /\ 0 <= t' <= 10 * (IZR k + INR (length P)).
Proof.
  intros HP. revert t k.
  induction HP as [| p P [(r & Hr & Hr10) _] HP IH]; intros t k Hk Ht Hb.
  - exists t. split; [reflexivity |]. cbn [length INR]. lra.
  - cbn [fold_left]. rewrite Hr. change (length (p :: P)) with (S (length P)) in *.
    rewrite S_INR in *. pose proof (pos_INR (length P)) as Hlen.
    assert (Hk' : 0 <= IZR k) by now apply IZR_le in Hk.
    assert (Hsum : Binary64.within 0 (10 * IZR (k + 1)) (Binary64.add (Fin t) (Fin r))).
    { unfold Binary64.add. cbn [Num.add Binary64.fl]. apply within_round.
      - apply representable_0.
      - apply ten_times_representable; [lia | rewrite plus_IZR; lra].
      - rewrite plus_IZR. lra. }
    destruct Hsum as (t1 & -> & Ht1).
    destruct (IH t1 (k + 1)%Z) as (t' & Ht' & Hb');
      [lia | exact Ht1 | rewrite plus_IZR; lra |].
    exists t'. split; [exact Ht' |]. rewrite plus_IZR in Hb'. lra.
Qed.

Lemma representable_10 : Binary64.representable 10.
Proof. apply (representable_IZR 10). lia. Qed.

Lemma computeWeightedAverage_onTenScale64 (ratings : PlatformRatings) :
  List.Forall wholeEntry (entriesOf ratings) ->
  INR (length (entriesOf ratings)) + sumR countR (entriesOf ratings) <= IZR (2 ^ 49) ->
  onTenScale (Double.computeWeightedAverage ratings).
Proof.
  intros HP Hb. rewrite computeWeightedAverage_formula.
  set (P := entriesOf ratings) in *.
  pose proof (sumR_counts_nonneg P HP) as Hs. pose proof (pos_INR (length P)) as Hlen.
  assert (H53 : IZR (2 ^ 53) = 16 * IZR (2 ^ 49))
    by (rewrite <- mult_IZR; apply f_equal; reflexivity).
  assert (H49 : 0 < IZR (2 ^ 49)) by (apply IZR_lt; reflexivity).
  destruct (length P =? 0)%nat eqn:En.
  - exists 0. split; [reflexivity | lra].
  - apply Nat.eqb_neq in En.
    assert (Hn : 1 <= INR (length P)).
    { destruct (length P); [contradiction | rewrite S_INR; pose proof (pos_INR n); lra]. }
    destruct (countTotal_whole P HP) as (z & Hz & Hsum & Hz0); [lra |].
    rewrite Hz. destruct (Num.truthy (Fin (IZR z))) eqn:Et.
    + apply truthy_fin in Et.
      assert (Hz1 : 1 <= IZR z).
      { assert (z <> 0)%Z by (intros ->; now apply Et). apply IZR_le. lia. }
      destruct (weightedTotal_from P 0 0 HP) as (t & Ht & Hb'); [lia | lra | lra |].
      unfold Formula.weightedMean, Formula.weightedTotal. rewrite Ht, Hz.
      unfold Binary64.div. rewrite div_fin by lra. cbn [Binary64.fl].
      apply within_round; [apply representable_0 | apply representable_10 |].
      split.
      * apply Rmult_le_pos; [lra | left; apply Rinv_0_lt_compat; lra].
      * apply Rmult_le_reg_r with (IZR z); [lra |]. unfold Rdiv.
        rewrite Rmult_assoc, Rinv_l by lra. lra.
    + destruct (ratingTotal_from P 0 0 HP) as (t & Ht & Hb'); [lia | lra | lra |].
      unfold Formula.plainMean, Formula.ratingTotal, Num.of_nat. rewrite Ht.
      unfold Binary64.div. rewrite div_fin by lra. cbn [Binary64.fl].
      apply within_round; [apply representable_0 | apply representable_10 |].
      split.
      * apply Rmult_le_pos; [lra | left; apply Rinv_0_lt_compat; lra].
      * apply Rmult_le_reg_r with (INR (length P)); [lra |]. unfold Rdiv.
        rewrite Rmult_assoc, Rinv_l by lra. lra.
Qed.

Lemma averageScore_onTenScale64 (w : World) (i : nat) (row : Raw.HotelData)
    (h : AggregatedHotel) :
  Double.aggregateRow w i row = Normal h ->
  wholeRow (Agg.platformRatings h) row ->
  onTenScale (Agg.averageScore h).
Proof.
  intros Hrow (Hsrc & HP & Hb).
  apply aggregateRow_hotel in Hrow as (_ & _ & _ & ratings & _ & Hr & Havg).
  rewrite Hr in *. rewrite Havg.
  destruct (Num.truthy (Raw.average_rating row)) eqn:Ht.
  - rewrite or_truthy by exact Ht. now apply Hsrc.
  - rewrite or_falsy by exact Ht. now apply computeWeightedAverage_onTenScale64.
Qed.


Lemma ratingsWorld_row_returns :
  exists h : AggregatedHotel, Double.aggregateRow ratingsWorld 0 summaryRow = Normal h.
Proof.
  destruct (Double.aggregateRow ratingsWorld 0 summaryRow) as [h |] eqn:E; [now exists h |].
  apply aggregateRow_throws in E. discriminate E.
Qed.

Lemma twoPlatforms_whole : wholeRow twoPlatforms summaryRow.
Proof.
  split; [| split].
  - intros H. apply truthy_fin in H. now elim H.
  - assert (H0 : Num.truthy (Fin 0) = false)
      by (unfold Num.truthy; now rewrite (Reqb_true 0 0 eq_refl)).
    assert (Ht : forall x : R, x <> 0 -> Num.or (Fin x) (Fin 0) = Fin x)
      by (intros x Hx; apply or_truthy, truthy_fin, Hx).
    repeat constructor; cbn [orZero rating reviews_count].
    + exists 8. split; [apply Ht; lra | lra].
    + exists 100%Z. split; [apply Ht; lra | lia].
    + exists 6. split; [apply Ht; lra | lra].
    + exists 300%Z. split; [apply Ht; lra | lia].
  - assert (HP : entriesOf twoPlatforms
                 = [ {| rating := Some (Fin 8); reviews_count := Some (Fin 100) |};
                     {| rating := Some (Fin 6); reviews_count := Some (Fin 300) |} ])
      by reflexivity.
    rewrite HP. unfold sumR, countR. cbn [length fold_right orZero reviews_count].
    rewrite !or_truthy by (apply truthy_fin; lra). cbn [realOf INR].
    assert (H : 1000 <= IZR (2 ^ 49)) by (apply IZR_le; lia). lra.
Qed.




(** ** Rows of a well-formed table *)

Lemma aggregateRow_scores (w : World) (i : nat) (row : Raw.HotelData) (h : AggregatedHotel) :
  Double.aggregateRow w i row = Normal h ->
  Agg.totalReviews h
  = fold_left (fun s p => Binary64.add s (countOf p)) (values (Agg.platformRatings h)) (Fin 0)
  /\ plainCounts h
  /\ Agg.confidenceScore h
     = Double.calculateConfidenceScore w (Agg.averageScore h) (Agg.totalReviews h)
         (Fin 1) (Fin 0).
Proof.
  unfold Double.aggregateRow.
  destruct (negb (Str.nonempty (Raw.city row)) && negb (Raw.has_address row));
    [discriminate |].
  destruct (Double.parsePlatformRatings w row) as [ratings |]; [| discriminate].
  destruct (negb _ && negb (Raw.has_address row)); [discriminate |].
  intros [= <-]. repeat split.
Qed.

(** The reviews are totalled exactly. *)
Lemma totalReviews_from (l : list (option PlatformRating)) (acc : Z) :
  List.Forall wholeEntry (omap (fun p : option PlatformRating => p) l) ->
  (0 <= acc)%Z ->
  IZR acc + sumR countR (omap (fun p : option PlatformRating => p) l) <= IZR (2 ^ 53) ->
  exists z : Z,
    fold_left (fun s p => Binary64.add s (countOf p)) l (Fin (IZR acc)) = Fin (IZR z)
    /\ IZR z = IZR acc + sumR countR (omap (fun p : option PlatformRating => p) l)
    /\ (0 <= z)%Z.
Proof.
  revert acc. induction l as [| p l IH]; intros acc H Hacc Hb.
  - exists acc. split; [reflexivity |]. split; [cbn; lra | exact Hacc].
  - cbn [fold_left]. destruct p as [e |]; cbn [countOf].
    + change (omap (fun p : option PlatformRating => p) (Some e :: l))
        with (e :: omap (fun p : option PlatformRating => p) l) in *.
      apply List.Forall_cons_iff in H as [[_ (c & Hc & Hc0)] H].
      cbn [sumR fold_right] in *.
      fold (sumR countR (omap (fun p : option PlatformRating => p) l)) in *.
      assert (HcR : countR e = IZR c) by (unfold countR; now rewrite Hc).
      rewrite HcR in *. rewrite Hc.
      pose proof (sumR_counts_nonneg _ H) as Hs.
      assert (Hstep : Binary64.add (Fin (IZR acc)) (Fin (IZR c)) = Fin (IZR (acc + c))).
      { unfold Binary64.add. cbn [Num.add Binary64.fl]. rewrite <- plus_IZR.
        apply round_exact, representable_IZR.
        assert (H' : IZR (acc + c) <= IZR (2 ^ 53)) by (rewrite plus_IZR; lra).
        apply le_IZR in H'. lia. }
      rewrite Hstep.
      destruct (IH (acc + c)%Z H) as (z & Hz & Hsum & Hz0); [lia | rewrite plus_IZR; lra |].
      exists z. split; [exact Hz |]. split; [rewrite Hsum, plus_IZR; lra | exact Hz0].
    + change (omap (fun p : option PlatformRating => p) (None :: l))
        with (omap (fun p : option PlatformRating => p) l) in *.
      pose proof (sumR_counts_nonneg _ H) as Hs.
      assert (Hstep : Binary64.add (Fin (IZR acc)) (Fin 0) = Fin (IZR acc)).
      { unfold Binary64.add. cbn [Num.add Binary64.fl]. rewrite Rplus_0_r.
        apply round_exact, representable_IZR.
        assert (H' : IZR acc <= IZR (2 ^ 53)) by lra.
        apply le_IZR in H'. lia. }
      rewrite Hstep. now apply IH.
Qed.

Lemma representable_128 : Binary64.representable 128.
Proof. apply (representable_IZR 128). lia. Qed.

Lemma representable_16384 : Binary64.representable 16384.
Proof. apply (representable_IZR 16384). lia. Qed.

(** The confidence score of an average on the scale and of a whole number
    of reviews is an integer from 0 to 100. *)
Lemma confidence_percentage64 (w : World) (a : R) (n : Z) :
  soundLog w ->
  0 <= a <= 10 -> (0 <= n)%Z -> IZR n + 1 <= IZR (2 ^ 53) ->
  percentage (Double.calculateConfidenceScore w (Fin a) (Fin (IZR n)) (Fin 1) (Fin 0)).
Proof.
  intros Hlog Ha Hn Hb. unfold Double.calculateConfidenceScore.
  assert (Hn' : 0 <= IZR n) by now apply IZR_le in Hn.
  assert (Hadd : Binary64.add (Fin (IZR n)) (Fin 1) = Fin (IZR (n + 1))).
  { unfold Binary64.add. cbn [Num.add Binary64.fl]. rewrite <- plus_IZR.
    apply round_exact, representable_IZR.
    assert (H' : IZR (n + 1) <= IZR (2 ^ 53)) by (rewrite plus_IZR; lra).
    apply le_IZR in H'. lia. }
  rewrite Hadd.
  destruct (Hlog (IZR (n + 1))) as (y & -> & Hy).
  { rewrite plus_IZR. pose proof pow2_53_1024. lra. }
  assert (Hweight : Binary64.within 0 128 (Binary64.div (Fin y) (Fin 10))).
  { apply (within_div 0 1024 10 10); try lra;
      [exists y; split; [reflexivity | lra] | apply within_fin
      | apply representable_0 | apply representable_128]. }
  assert (Hbase : Binary64.within 0 1 (Binary64.div (Fin a) (Fin 10))).
  { apply (within_div 0 10 10 10); try lra;
      [exists a; split; [reflexivity | lra] | apply within_fin
      | apply representable_0 | apply representable_1]. }
  assert (Hone : Binary64.within 1 1 (Binary64.add (Fin 1) (Fin 0))).
  { apply (within_add 1 1 0 0); try lra; try apply within_fin; apply representable_1. }
  assert (Htwo : Binary64.within 2 2
                   (Binary64.add (Binary64.add (Fin 1) (Fin 0)) (Fin 1))).
  { apply (within_add 1 1 1 1); try lra; [exact Hone | apply within_fin | |];
      apply (representable_IZR 2); lia. }
  assert (Hratio : Binary64.within 0 1
                     (Binary64.div (Fin 1)
                        (Binary64.add (Binary64.add (Fin 1) (Fin 0)) (Fin 1)))).
  { apply (within_div 1 1 2 2); try lra;
      [apply within_fin | exact Htwo | apply representable_0 | apply representable_1]. }
  assert (Hlit : forall c, 0 <= c <= 1 -> Binary64.within 0 1 (Binary64.lit c)).
  { intros c Hc. apply within_lit; [apply representable_0 | apply representable_1 | exact Hc]. }
  assert (Hraw : Binary64.within 0 16384
    (Binary64.mul
       (Binary64.add
          (Binary64.add
             (Binary64.mul (Binary64.div (Fin a) (Fin 10)) (Binary64.lit 0.5))
             (Binary64.mul (Binary64.div (Fin y) (Fin 10)) (Binary64.lit 0.3)))
          (Binary64.mul
             (Binary64.div (Fin 1) (Binary64.add (Binary64.add (Fin 1) (Fin 0)) (Fin 1)))
             (Binary64.lit 0.2)))
       (Fin 100))).
  { apply (within_mul 0 130 100 100); try lra;
      [| apply within_fin | apply representable_0 | apply representable_16384].
    apply (within_add 0 129 0 1); try lra;
      [| | apply representable_0 | apply (representable_IZR 130); lia].
    - apply (within_add 0 1 0 128); try lra;
        [| | apply representable_0 | apply (representable_IZR 129); lia].
      + apply (within_mul 0 1 0 1); try lra;
          [exact Hbase | apply Hlit; lra | apply representable_0 | apply representable_1].
      + apply (within_mul 0 128 0 1); try lra;
          [exact Hweight | apply Hlit; lra | apply representable_0 | apply representable_128].
    - apply (within_mul 0 1 0 1); try lra;
        [exact Hratio | apply Hlit; lra | apply representable_0 | apply representable_1]. }
  destruct (round_half_up_between 0 16384 0 16384 _ Hraw) as (z & -> & Hz); [lra | lra |].
  rewrite min_fin. unfold Rmin.
  destruct (Rle_dec 100 (IZR z)) as [Hle | Hgt].
  - exists 100%Z. split; [reflexivity | lia].
  - exists z. split; [reflexivity |].
    assert (Hlt : IZR z < IZR 100) by lra. apply lt_IZR in Hlt. lia.
Qed.

(** When the aggregation of a row of a well-formed table returns, and the
    logarithm of the implementation is sound, the scores of the hotel are
    in range: an average score on the scale from 0 to 10, a review total
    that is the whole number of the reviews counted, the word counts 1 and
    0, and a confidence score that is an integer from 0 to 100. *)
Theorem wellFormed_row_invariants (w : World) (i : nat) (row : Raw.HotelData)
    (h : AggregatedHotel) :
  soundLog w ->
  Double.aggregateRow w i row = Normal h ->
  wholeRow (Agg.platformRatings h) row ->
  onTenScale (Agg.averageScore h)
  /\ (exists n : Z,
        Agg.totalReviews h = Fin (IZR n) /\ (0 <= n)%Z
        /\ IZR n = sumR countR (entriesOf (Agg.platformRatings h)))
  /\ plainCounts h
  /\ percentage (Agg.confidenceScore h).
Proof.
  intros Hlog Hrow Hwhole.
  destruct (averageScore_onTenScale64 w i row h Hrow Hwhole) as (a & Ha & Ha10).
  destruct (aggregateRow_scores w i row h Hrow) as (Htotal & Hcounts & Hconf).
  destruct Hwhole as (_ & HP & Hb).
  pose proof (pos_INR (length (entriesOf (Agg.platformRatings h)))) as Hlen.
  assert (H53 : IZR (2 ^ 53) = 16 * IZR (2 ^ 49))
    by (rewrite <- mult_IZR; apply f_equal; reflexivity).
  assert (H49 : 0 < IZR (2 ^ 49)) by (apply IZR_lt; reflexivity).
  pose proof (sumR_counts_nonneg _ HP) as Hs.
  destruct (totalReviews_from (values (Agg.platformRatings h)) 0) as (n & Hn & Hsum & Hn0);
    [exact HP | lia | fold (entriesOf (Agg.platformRatings h)); lra |].
  fold (entriesOf (Agg.platformRatings h)) in Hsum.
  rewrite <- Htotal in Hn.
  split; [exists a; tauto |].
  split; [exists n; split; [exact Hn |]; split; [exact Hn0 | lra] |].
  split; [exact Hcounts |].
  rewrite Hconf, Ha, Hn. apply confidence_percentage64; [exact Hlog | exact Ha10 | exact Hn0 |].
  lra.
Qed.

(** The correctly rounded logarithm is sound. *)
Lemma ln_2_le_1 : ln 2 <= 1.
Proof.
  pose proof (exp_ineq1 1 ltac:(lra)) as He.
  rewrite <- (ln_exp 1). left. apply ln_increasing; lra.
Qed.

Lemma ln_pow2_1024 (x : R) : 1 <= x < Binary64.pow2 1024 -> 0 <= ln x <= 1024.
Proof.
  intros [H1 H2]. split.
  - rewrite <- ln_1. destruct H1 as [H1 | <-]; [left; apply ln_increasing; lra | lra].
  - apply Rle_trans with (ln (Binary64.pow2 1024)).
    + left. apply ln_increasing; lra.
    + change (Binary64.pow2 1024) with (2 ^ Pos.to_nat 1024).
      rewrite ln_pow by lra. rewrite INR_IZR_INZ, positive_nat_Z.
      pose proof ln_2_le_1. pose proof ln_lt_2. nra.
Qed.

Lemma binary64_log_sound (w : World) : Math_log w = Binary64.log -> soundLog w.
Proof.
  intros Hw x Hx. rewrite Hw. unfold Binary64.log.
  assert (Hlog : Num.log (Fin x) = Fin (ln x)).
  { cbn [Num.log]. rewrite Rltb_false by lra. now rewrite Reqb_false by lra. }
  rewrite Hlog. cbn [Binary64.fl].
  apply (within_round 0 1024); [apply representable_0 | apply (representable_IZR 1024); lia |].
  now apply ln_pow2_1024.
Qed.

Lemma wellFormed_row_invariants_witness :
  exists h : AggregatedHotel,
    Double.aggregateRow ratingsWorld 0 summaryRow = Normal h
    /\ percentage (Agg.confidenceScore h).
Proof.
  destruct ratingsWorld_row_returns as [h Hh]. exists h. split; [exact Hh |].
  assert (Hsample : Double.parsePlatformRatings ratingsWorld summaryRow = Some twoPlatforms)
    by reflexivity.
  assert (Hwhole : wholeRow (Agg.platformRatings h) summaryRow).
  { destruct (aggregateRow_hotel ratingsWorld 0 summaryRow h Hh)
      as (_ & _ & _ & ratings & Hparse & -> & _).
    rewrite Hsample in Hparse. injection Hparse as <-. exact twoPlatforms_whole. }
  exact (proj2 (proj2 (proj2
           (wellFormed_row_invariants ratingsWorld 0 summaryRow h
              (binary64_log_sound ratingsWorld eq_refl) Hh Hwhole)))).
Defined.

(** ** The average platform rating *)

Lemma length_omap_le {A B : Type} (f : A -> option B) (l : list A) :
  (length (omap f l) <= length l)%nat.
Proof.
  induction l as [| x l IH]; [reflexivity |].
  change (omap f (x :: l)) with (match f x with Some y => y :: omap f l | None => omap f l end).
  destruct (f x); cbn [length]; lia.
Qed.

(** The sum of ratings on a scale from 0 to a whole number stays under as
    many times that number. *)
Lemma fold_ratings64 (vals : list number) (top k : Z) (acc : R) :
  (0 <= top)%Z -> (0 <= k)%Z ->
  ((k + Z.of_nat (length vals)) * top <= 2 ^ 53)%Z ->
  List.Forall (fun r => exists x : R, r = Fin x /\ 0 <= x <= IZR top) vals ->
  0 <= acc <= IZR (k * top) ->
  Binary64.within 0 (IZR ((k + Z.of_nat (length vals)) * top))
    (fold_left Binary64.add vals (Fin acc)).
Proof.
  intros Htop Hk Hb H. revert k acc Hk Hb.
  induction H as [| r vals (x & -> & Hx) _ IH]; intros k acc Hk Hb Hacc.
  - cbn [fold_left length Z.of_nat]. rewrite Z.add_0_r. exists acc. split; [reflexivity | exact Hacc].
  - cbn [fold_left]. change (length (Fin x :: vals)) with (S (length vals)) in *.
    rewrite Nat2Z.inj_succ in *.
    assert (Hstep : Binary64.within 0 (IZR ((k + 1) * top))
                      (Binary64.add (Fin acc) (Fin x))).
    { unfold Binary64.add. cbn [Num.add Binary64.fl]. apply within_round.
      - apply representable_0.
      - apply representable_IZR. nia.
      - rewrite mult_IZR, plus_IZR. rewrite mult_IZR in Hacc. lra. }
    destruct Hstep as (acc' & -> & Hacc').
    replace (k + Z.succ (Z.of_nat (length vals)))%Z
      with ((k + 1) + Z.of_nat (length vals))%Z by lia.
    apply IH; [lia | | exact Hacc'].
    replace ((k + 1) + Z.of_nat (length vals))%Z
      with (k + Z.succ (Z.of_nat (length vals)))%Z by lia. exact Hb.
Qed.

(** The average platform rating of a recommended hotel is taken over the
    platforms the app knows only (Google, Booking.com or else Booking,
    MakeMyTrip, TripAdvisor, Agoda, Goibibo, Expedia): an entry under any
    other name does not change it.  It is the mean of the ratings that are
    there, review counts put aside, summed and divided in binary64: with
    ratings on a scale from 0 to a whole number (from 0 to 5, from 0 to 10)
    it is on that scale. *)
Theorem average_platform_rating_known_only :
  (forall (platforms1 platforms2 : PlatformRatings) (name : string)
          (x : option PlatformRating),
     ~ In name platformNames ->
     UseAI.avgPlatform (UseAI.normalizePlatforms (platforms1 ++ (name, x) :: platforms2))
     = UseAI.avgPlatform (UseAI.normalizePlatforms (platforms1 ++ platforms2)))
  /\ (forall (h : ScoredHotel) (top : Z) (average : number),
        (0 <= top <= 2 ^ 50)%Z ->
        ratingsWithin 0 (IZR top) (Agg.platformRatings (hotel h)) ->
        UseAI.average_platform_rating (UseAI.toRecommended h) = Some average ->
        exists x : R, average = Fin x /\ 0 <= x <= IZR top).
Proof.
  split.
  - intros p1 p2 name x Hname. unfold UseAI.normalizePlatforms.
    rewrite !get_skip; [reflexivity | intros ->; apply Hname; cbn; tauto ..].
  - intros h top average Htop Hwithin.
    cbn [UseAI.toRecommended UseAI.average_platform_rating].
    set (platforms := Agg.platformRatings (hotel h)) in *. unfold UseAI.avgPlatform.
    set (vals := omap UseAI.ratingOf (UseAI.valuesOf (UseAI.normalizePlatforms platforms))).
    assert (Hvals : List.Forall (fun r => exists x : R, r = Fin x /\ 0 <= x <= IZR top) vals).
    { apply List.Forall_forall. intros r Hr. apply list_elem_of_In in Hr.
      apply list_elem_of_omap in Hr as (v & Hv & Hr).
      destruct v as [entry |]; [| discriminate]. cbn [UseAI.ratingOf] in Hr.
      apply list_elem_of_In in Hv.
      assert (Hentry : exists k, In (k, Some entry) platforms).
      { cbn [UseAI.valuesOf UseAI.normalizePlatforms UseAI.Google UseAI.Booking
             UseAI.MakeMyTrip UseAI.TripAdvisor UseAI.Agoda UseAI.Goibibo UseAI.Expedia In]
          in Hv.
        unfold UseAI.orElse in Hv.
        destruct (UseAI.get platforms "Booking.com") eqn:Eb;
          decompose [or] Hv; try contradiction;
          match goal with
          | H : UseAI.get platforms ?k = Some entry |- _ => exists k; now apply get_In
          | H : Some _ = Some entry |- _ =>
              injection H as ->; exists "Booking.com"; now apply get_In
          end. }
      destruct Hentry as [k Hk]. exact (Hwithin k entry r Hk Hr). }
    assert (Hlen : (length vals <= 7)%nat).
    { unfold vals. etransitivity; [apply length_omap_le | reflexivity]. }
    destruct (length vals =? 0)%nat eqn:Elen; cbn [negb]; [discriminate |].
    apply Nat.eqb_neq in Elen. intros [= <-].
    destruct (fold_ratings64 vals top 0 0) as (s & -> & Hs);
      [lia | lia | nia | exact Hvals | rewrite Z.mul_0_l; lra |].
    rewrite Z.add_0_l, mult_IZR, <- INR_IZR_INZ in Hs.
    assert (Hn : 0 < INR (length vals)) by (apply lt_0_INR; lia).
    unfold Num.of_nat, Binary64.div. rewrite div_fin by lra. cbn [Binary64.fl].
    apply within_round; [apply representable_0 | apply representable_IZR; lia |].
    split.
    + apply Rmult_le_pos; [lra | left; now apply Rinv_0_lt_compat].
    + apply (Rmult_le_reg_r (INR (length vals))); [exact Hn |].
      unfold Rdiv. rewrite Rmult_assoc, Rinv_l by lra. lra.
Qed.

(** ** The star rating *)

Lemma aggregateRow_stars (w : World) (i : nat) (row : Raw.HotelData) (h : AggregatedHotel) :
  Double.aggregateRow w i row = Normal h ->
  Agg.starRating h
  = let stars := Double.parseIntDigits (Str.digitsOnly (Raw.hotel_star_rating row)) in
    if Num.truthy stars then Some stars else None.
Proof.
  unfold Double.aggregateRow.
  destruct (negb (Str.nonempty (Raw.city row)) && negb (Raw.has_address row));
    [discriminate |].
  destruct (Double.parsePlatformRatings w row) as [ratings |]; [| discriminate].
  destruct (negb _ && negb (Raw.has_address row)); [discriminate |].
  intros [= <-]. reflexivity.
Qed.

(** What a positive integer rounds to is a positive integer or infinite. *)
Lemma round_positive_integer (v : Z) :
  (0 < v)%Z ->
  Binary64.round (IZR v) = PInf
  \/ exists n : Z, Binary64.round (IZR v) = Fin (IZR n) /\ (0 < n)%Z.
Proof.
  intros Hv.
  assert (H1 : Num.le (Fin 1) (Binary64.round (IZR v)) = true).
  { rewrite <- (round_exact 1 representable_1). apply round_mono. apply (IZR_le 1). lia. }
  destruct (Binary64.round (IZR v)) as [z | | |] eqn:E; try discriminate; [| now left].
  right. apply le_fin in H1.
  destruct (Z_le_gt_dec v (2 ^ 53)%Z) as [Hsmall | Hbig].
  - rewrite round_exact in E by (apply representable_IZR; lia). injection E as <-.
    exists v. split; [reflexivity | exact Hv].
  - assert (H2 : Num.le (Fin (IZR (2 ^ 53))) (Fin z) = true).
    { rewrite <- E, <- (round_exact (IZR (2 ^ 53))) by (apply representable_IZR; lia).
      apply round_mono. apply IZR_le. lia. }
    apply le_fin in H2.
    assert (H52 : IZR (2 ^ 52) <= IZR (2 ^ 53)) by (apply IZR_le; lia).
    destruct (integer_of_large z) as [n Hn].
    + eapply round_representable. exact E.
    + rewrite Rabs_pos_eq by lra. lra.
    + exists n. split; [now rewrite Hn |]. apply lt_IZR. rewrite <- Hn. lra.
Qed.

(** The star rating of a hotel is read from all the digits of the star text
    run together (the text 4.5 reads as 45), as a binary64 number.  It is
    absent exactly when the text has no digit or its digits spell zero.
    When it is there it is what the integer the digits spell rounds to: a
    positive integer, that very integer up to 2^53, or infinite. *)
Theorem starRating_positive_integer (w : World) (i : nat) (row : Raw.HotelData)
    (h : AggregatedHotel) :
  Double.aggregateRow w i row = Normal h ->
  let value := Z.of_N (Str.digitsValue 0 (Str.digitsOnly (Raw.hotel_star_rating row))) in
  (Agg.starRating h = None <-> value = 0%Z)
  /\ (forall s, Agg.starRating h = Some s ->
        (0 < value)%Z
        /\ s = Binary64.round (IZR value)
        /\ (s = PInf \/ exists n : Z, s = Fin (IZR n) /\ (0 < n)%Z)
        /\ ((value <= 2 ^ 53)%Z -> s = Fin (IZR value))).
Proof.
  intros Hrow. cbv zeta. rewrite (aggregateRow_stars w i row h Hrow). cbv zeta.
  set (digits := Str.digitsOnly (Raw.hotel_star_rating row)).
  destruct digits as [| c d] eqn:E.
  - cbn. split; [tauto | discriminate].
  - unfold Double.parseIntDigits. set (v := Z.of_N (Str.digitsValue 0 (String c d))).
    assert (Hv0 : (0 <= v)%Z) by (unfold v; lia).
    destruct (Z.eq_dec v 0%Z) as [Hz | Hnz].
    + rewrite Hz. rewrite (round_exact 0 representable_0).
      unfold Num.truthy. rewrite (Reqb_true 0 0 eq_refl). cbn [negb].
      split; [tauto | discriminate].
    + assert (Hpos : (0 < v)%Z) by lia.
      assert (Ht : Num.truthy (Binary64.round (IZR v)) = true).
      { destruct (round_positive_integer v Hpos) as [-> | (n & -> & Hn)]; [reflexivity |].
        apply truthy_fin. apply not_0_IZR. lia. }
      rewrite Ht. split; [split; [discriminate | contradiction] |].
      intros s [= <-]. split; [exact Hpos |]. split; [reflexivity |].
      split; [apply round_positive_integer; exact Hpos |].
      intros Hsmall. apply round_exact, representable_IZR. lia.
Qed.

Lemma starRating_positive_integer_witness :
  exists h : AggregatedHotel,
    Double.aggregateRow silentWorld 0 starredRow = Normal h
    /\ Agg.starRating h = Some (Fin 45).
Proof.
  destruct (Double.aggregateRow silentWorld 0 starredRow) as [h |] eqn:E.
  - exists h. split; [reflexivity |].
    destruct (starRating_positive_integer silentWorld 0 starredRow h E) as [Hnone Hsome].
    destruct (Agg.starRating h) as [s |].
    + f_equal. apply (Hsome s eq_refl). vm_compute. discriminate.
    + discriminate (proj1 Hnone eq_refl).
  - apply aggregateRow_throws in E. discriminate E.
Defined.

(** ** The review summary *)

Lemma asciiText_app (a b : string) : asciiText (a +:+ b) = asciiText a && asciiText b.
Proof.
  induction a as [| c a IH]; [reflexivity |].
  rewrite append_cons. cbn [asciiText]. now rewrite IH, andb_assoc.
Qed.

Lemma utf16Length_app (a b : string) :
  utf16Length (a +:+ b) = (utf16Length a + utf16Length b)%nat.
Proof.
  induction a as [| c a IH]; [reflexivity |].
  rewrite append_cons. cbn [utf16Length]. rewrite IH. lia.
Qed.

(** The bytes of an ASCII text are its code units. *)
Lemma utf16Length_ascii (s : string) :
  asciiText s = true -> utf16Length s = String.length s.
Proof.
  induction s as [| c s IH]; [reflexivity |].
  cbn [asciiText utf16Length String.length]. intros H.
  apply andb_true_iff in H as [Hc Hs]. rewrite Hc, (IH Hs). reflexivity.
Qed.

Lemma asciiText_prefix (a s : string) :
  String.prefix a s = true -> asciiText s = true -> asciiText a = true.
Proof.
  revert s. induction a as [| c a IH]; intros s; [reflexivity |].
  destruct s as [| c' s]; cbn [String.prefix asciiText]; [discriminate |].
  destruct (Ascii.ascii_dec c c') as [<- | _]; [| discriminate].
  intros Hp H. apply andb_true_iff in H as [Hc Hs]. rewrite Hc. cbn [andb].
  now apply (IH s).
Qed.

Lemma asciiText_rev_app (s acc : string) :
  asciiText (String.rev_app s acc) = asciiText s && asciiText acc.
Proof.
  revert acc. induction s as [| c s IH]; intros acc; [reflexivity |].
  cbn [String.rev_app asciiText]. rewrite IH. cbn [asciiText].
  destruct (nat_of_ascii c <? 128)%nat, (asciiText s); reflexivity.
Qed.

Lemma asciiText_rev (s : string) : asciiText (String.rev s) = asciiText s.
Proof. unfold String.rev. rewrite asciiText_rev_app. cbn [asciiText]. apply andb_true_r. Qed.

Lemma asciiText_trimStart (s : string) :
  asciiText s = true -> asciiText (Str.trimStart s) = true.
Proof.
  induction s as [| c s IH]; [reflexivity |].
  cbn [Str.trimStart]. destruct (Str.is_space c); [| exact (fun H => H)].
  cbn [asciiText]. intros H. apply andb_true_iff in H as [_ Hs]. now apply IH.
Qed.

Lemma asciiText_trim (s : string) : asciiText s = true -> asciiText (Str.trim s) = true.
Proof.
  intros H. unfold Str.trim. rewrite asciiText_rev. apply asciiText_trimStart.
  rewrite asciiText_rev. now apply asciiText_trimStart.
Qed.

(** What [truncateSentence] keeps of a long text. *)
Lemma truncateSentence_kept (text : string) :
  (140 < String.length text)%nat ->
  exists kept,
    truncateSentence text = kept +:+ Str.ellipsis
    /\ String.prefix kept text = true
    /\ (String.length kept <= 140)%nat
    /\ endsWithSpace kept = false.
Proof.
  intros E. unfold truncateSentence.
  assert (Hb : (String.length text <=? 140)%nat = false) by (apply Nat.leb_gt; exact E).
  rewrite Hb. exists (Str.dropLastWord (Str.sliceTo 140 text)).
  split; [reflexivity |]. split; [| split].
  - eapply prefix_trans; [apply dropLastWord_prefix | apply prefix_substring].
  - etransitivity; [apply dropLastWord_length | apply length_substring_le].
  - apply dropLastWord_trimmed.
Qed.

Lemma truncateSentence_units (text : string) :
  asciiText text = true -> (utf16Length (truncateSentence text) <= 141)%nat.
Proof.
  intros Ha. destruct (Nat.le_gt_cases (String.length text) 140) as [Hle | Hgt].
  - unfold truncateSentence. apply Nat.leb_le in Hle as Hb. rewrite Hb.
    rewrite utf16Length_ascii by exact Ha. lia.
  - destruct (truncateSentence_kept text Hgt) as (kept & -> & Hp & Hlen & _).
    rewrite utf16Length_app, utf16Length_ascii by (eapply asciiText_prefix; eassumption).
    change (utf16Length Str.ellipsis) with 1%nat. lia.
Qed.

(** An ASCII text of at most 140 characters is kept as it is.  A longer one
    is cut: what is kept is a prefix of the text of at most 140 characters
    that does not end in white space, and the ellipsis follows it; the
    result is never longer than 141 UTF-16 code units. *)
Theorem truncateSentence_shape (text : string) :
  asciiText text = true ->
  utf16Length text = String.length text
  /\ ((String.length text <= 140)%nat -> truncateSentence text = text)
  /\ ((140 < String.length text)%nat ->
        exists kept,
          truncateSentence text = kept +:+ Str.ellipsis
          /\ String.prefix kept text = true
          /\ (String.length kept <= 140)%nat
          /\ endsWithSpace kept = false)
  /\ (utf16Length (truncateSentence text) <= 141)%nat.
Proof.
  intros Ha. split; [now apply utf16Length_ascii |]. split; [| split].
  - intros Hle. unfold truncateSentence. apply Nat.leb_le in Hle. now rewrite Hle.
  - apply truncateSentence_kept.
  - now apply truncateSentence_units.
Qed.

Lemma truncateSentence_shape_witness :
  truncateSentence "Clean rooms and a quiet street" = "Clean rooms and a quiet street".
Proof.
  apply (truncateSentence_shape "Clean rooms and a quiet street" eq_refl).
  cbn. lia.
Defined.

(** For ASCII review texts: the review summary is absent exactly when both
    texts are blank.  Otherwise it is the sentence "Guests appreciated ..."
    for a positive text that is not blank, then the sentence "Some
    mentioned ..." for a negative text that is not blank, each text trimmed
    and truncated; it always ends in a full stop, and it is never longer
    than 319 UTF-16 code units. *)
Theorem reviewSummary_shape (pos neg : string) :
  asciiText pos = true -> asciiText neg = true ->
  let p := Str.trim pos in
  let n := Str.trim neg in
  (buildSimpleReviewSummary pos neg = None <-> p = EmptyString /\ n = EmptyString)
  /\ (forall s, buildSimpleReviewSummary pos neg = Some s ->
        s = ((if Str.nonempty p then "Guests appreciated " +:+ truncateSentence p else EmptyString)
             +:+ (if Str.nonempty p && Str.nonempty n then ". " else EmptyString)
             +:+ (if Str.nonempty n then "Some mentioned " +:+ truncateSentence n else EmptyString))
            +:+ "."
        /\ (utf16Length s <= 319)%nat).
Proof.
  intros Hpos Hneg. cbv zeta. unfold buildSimpleReviewSummary.
  pose proof (truncateSentence_units (Str.trim pos) (asciiText_trim pos Hpos)) as Hp.
  pose proof (truncateSentence_units (Str.trim neg) (asciiText_trim neg Hneg)) as Hn.
  set (tp := truncateSentence (Str.trim pos)) in *.
  set (tn := truncateSentence (Str.trim neg)) in *.
  destruct (Str.nonempty (Str.trim pos)) eqn:Ep, (Str.nonempty (Str.trim neg)) eqn:En;
    cbn [negb andb].
  - split.
    + split; [discriminate |]. intros [H _]. apply nonempty_false in H. congruence.
    + intros s [= <-]. split; [reflexivity |].
      cbn [List.filter Str.nonempty Str.join String.concat orb].
      rewrite !utf16Length_app. vm_compute utf16Length at 1.
      repeat match goal with
        | |- context [utf16Length (String ?c ?s)] =>
            change (utf16Length (String c s)) with (1 + utf16Length s)%nat
        end;
        change (utf16Length EmptyString) with 0%nat; lia.
  - split.
    + split; [discriminate |]. intros [H _]. apply nonempty_false in H. congruence.
    + intros s [= <-]. rewrite !append_nil_r. split; [reflexivity |].
      cbn [List.filter Str.nonempty Str.join String.concat orb].
      rewrite !utf16Length_app. vm_compute utf16Length at 1.
      repeat match goal with
        | |- context [utf16Length (String ?c ?s)] =>
            change (utf16Length (String c s)) with (1 + utf16Length s)%nat
        end;
        change (utf16Length EmptyString) with 0%nat; lia.
  - split.
    + split; [discriminate |]. intros [_ H]. apply nonempty_false in H. congruence.
    + intros s [= <-]. split; [reflexivity |].
      cbn [List.filter Str.nonempty Str.join String.concat orb].
      rewrite !utf16Length_app. vm_compute utf16Length at 1.
      repeat match goal with
        | |- context [utf16Length (String ?c ?s)] =>
            change (utf16Length (String c s)) with (1 + utf16Length s)%nat
        end;
        change (utf16Length EmptyString) with 0%nat; lia.
  - split; [| discriminate].
    split; [| reflexivity]. intros _. now split; apply nonempty_false.
Qed.

Lemma reviewSummary_shape_witness :
  buildSimpleReviewSummary " Clean rooms " "" = Some "Guests appreciated Clean rooms.".
Proof.
  destruct (buildSimpleReviewSummary " Clean rooms " "") as [s |] eqn:E.
  - f_equal.
    exact (proj1 (proj2 (reviewSummary_shape " Clean rooms " "" eq_refl eq_refl) s E)).
  - discriminate E.
Defined.

(** ** Values that rounding moves *)

Lemma popularity_step_1 :
  (Binary64.add (Fin 0) (Fin 1)) = Fin 1.
Proof.
  unfold Binary64.add. cbn [Num.add Binary64.fl].
  rewrite (round_eval_at _ 4503599627370496 (-52) (/ 4503599627370496));
    [f_equal; lra | exact (pow2_neg_IZR 52 ltac:(lia)) | lia | lra | left; apply Rabs_lt_between; lra].
Qed.

Lemma log_of_no_review :
  (Math_log silentWorld (Binary64.add (Fin 0) (Fin 1))) = Fin 0.
Proof.
  rewrite popularity_step_1. change (Math_log silentWorld) with Binary64.log.
  unfold Binary64.log. cbn [Num.log].
  rewrite Reqb_false, Rltb_false by lra. cbn [Binary64.fl]. rewrite ln_1. apply round_0.
Qed.

Lemma popularity_step_2 :
  (Binary64.div (Fin 7.5) (Fin 10)) = Fin (3 / 4).
Proof.
  unfold Binary64.div. rewrite div_fin by lra. cbn [Binary64.fl].
  rewrite (round_eval_at _ 6755399441055744 (-53) (/ 9007199254740992));
    [f_equal; lra | exact (pow2_neg_IZR 53 ltac:(lia)) | lia | lra | left; apply Rabs_lt_between; lra].
Qed.

Lemma popularity_step_3 :
  (Binary64.lit 0.7) = Fin (3152519739159347 / 4503599627370496).
Proof.
  unfold Binary64.lit.
  rewrite (round_eval_at _ 6305039478318694 (-53) (/ 9007199254740992));
    [f_equal; lra | exact (pow2_neg_IZR 53 ltac:(lia)) | lia | lra | left; apply Rabs_lt_between; lra].
Qed.

Lemma popularity_step_4 :
  (Binary64.mul (Binary64.lit 0.7) (Binary64.div (Fin 7.5) (Fin 10))) = Fin (1182194902184755 / 2251799813685248).
Proof.
  rewrite popularity_step_3, popularity_step_2.
  unfold Binary64.mul. cbn [Num.mul Binary64.fl].
  rewrite (round_eval_at _ 4728779608739020 (-53) (/ 9007199254740992));
    [f_equal; lra | exact (pow2_neg_IZR 53 ltac:(lia)) | lia | lra | right; split; [unfold Rabs; destruct (Rcase_abs _); lra | reflexivity]].
Qed.

Lemma popularity_step_5 :
  (Binary64.lit 0.3) = Fin (5404319552844595 / 18014398509481984).
Proof.
  unfold Binary64.lit.
  rewrite (round_eval_at _ 5404319552844595 (-54) (/ 18014398509481984));
    [f_equal; lra | exact (pow2_neg_IZR 54 ltac:(lia)) | lia | lra | left; apply Rabs_lt_between; lra].
Qed.

Lemma popularity_step_6 :
  (Binary64.div (Math_log silentWorld (Binary64.add (Fin 0) (Fin 1))) (Fin 8)) = Fin 0.
Proof.
  rewrite log_of_no_review.
  unfold Binary64.div. rewrite div_fin by lra. cbn [Binary64.fl].
  match goal with |- Binary64.round ?x = _ => replace x with 0 by lra end.
  apply round_0.
Qed.

Lemma popularity_step_7 :
  (Num.min (Fin 1) (Binary64.div (Math_log silentWorld (Binary64.add (Fin 0) (Fin 1))) (Fin 8))) = Fin 0.
Proof.
  rewrite popularity_step_6.
  rewrite min_fin. f_equal. unfold Rmin. destruct (Rle_dec _ _); lra.
Qed.

Lemma popularity_step_8 :
  (Binary64.mul (Binary64.lit 0.3) (Num.min (Fin 1) (Binary64.div (Math_log silentWorld (Binary64.add (Fin 0) (Fin 1))) (Fin 8)))) = Fin 0.
Proof.
  rewrite popularity_step_5, popularity_step_7.
  unfold Binary64.mul. cbn [Num.mul Binary64.fl].
  match goal with |- Binary64.round ?x = _ => replace x with 0 by lra end.
  apply round_0.
Qed.

Lemma popularity_step_9 :
  (Binary64.add (Binary64.mul (Binary64.lit 0.7) (Binary64.div (Fin 7.5) (Fin 10))) (Binary64.mul (Binary64.lit 0.3) (Num.min (Fin 1) (Binary64.div (Math_log silentWorld (Binary64.add (Fin 0) (Fin 1))) (Fin 8))))) = Fin (1182194902184755 / 2251799813685248).
Proof.
  rewrite popularity_step_4, popularity_step_8.
  unfold Binary64.add. cbn [Num.add Binary64.fl].
  rewrite (round_eval_at _ 4728779608739020 (-53) (/ 9007199254740992));
    [f_equal; lra | exact (pow2_neg_IZR 53 ltac:(lia)) | lia | lra | left; apply Rabs_lt_between; lra].
Qed.

Lemma popularity_step_10 :
  (Binary64.mul (Fin 100) (Binary64.add (Binary64.mul (Binary64.lit 0.7) (Binary64.div (Fin 7.5) (Fin 10))) (Binary64.mul (Binary64.lit 0.3) (Num.min (Fin 1) (Binary64.div (Math_log silentWorld (Binary64.add (Fin 0) (Fin 1))) (Fin 8)))))) = Fin (7388718138654719 / 140737488355328).
Proof.
  rewrite popularity_step_9.
  unfold Binary64.mul. cbn [Num.mul Binary64.fl].
  rewrite (round_eval_at _ 7388718138654719 (-47) (/ 140737488355328));
    [f_equal; lra | exact (pow2_neg_IZR 47 ltac:(lia)) | lia | lra | left; apply Rabs_lt_between; lra].
Qed.

Lemma popularity_step_11 :
  (Num.round (Binary64.mul (Fin 100) (Binary64.add (Binary64.mul (Binary64.lit 0.7) (Binary64.div (Fin 7.5) (Fin 10))) (Binary64.mul (Binary64.lit 0.3) (Num.min (Fin 1) (Binary64.div (Math_log silentWorld (Binary64.add (Fin 0) (Fin 1))) (Fin 8))))))) = Fin 52.
Proof.
  rewrite popularity_step_10.
  cbn [Num.round]. do 2 f_equal. apply floor_unique. lra.
Qed.

(** In binary64 the popularity of an average score of 7.5 without reviews
    is 52: the product [0.7 * 0.75] falls on a tie and is rounded down, so
    that a hundred times the sum stays under 52.5. *)
Example popularity_of_seven_and_a_half :
  Formula.popularity silentWorld (Fin 7.5) (Fin 0) = Fin 52.
Proof. unfold Formula.popularity, Formula.reviewVolumeConfidence. exact popularity_step_11. Qed.

Lemma fractional_step_1 :
  (Binary64.lit 0.2) = Fin (3602879701896397 / 18014398509481984).
Proof.
  unfold Binary64.lit.
  rewrite (round_eval_at _ 7205759403792794 (-55) (/ 36028797018963968));
    [f_equal; lra | exact (pow2_neg_IZR 55 ltac:(lia)) | lia | lra | left; apply Rabs_lt_between; lra].
Qed.

Lemma fractional_step_2 :
  (Binary64.lit 0.7) = Fin (3152519739159347 / 4503599627370496).
Proof.
  unfold Binary64.lit.
  rewrite (round_eval_at _ 6305039478318694 (-53) (/ 9007199254740992));
    [f_equal; lra | exact (pow2_neg_IZR 53 ltac:(lia)) | lia | lra | left; apply Rabs_lt_between; lra].
Qed.

Lemma fractional_step_3 :
  (Binary64.mul (Fin 10) (Fin (3602879701896397 / 18014398509481984))) = Fin 2.
Proof.
  unfold Binary64.mul. cbn [Num.mul Binary64.fl].
  rewrite (round_eval_at _ 4503599627370496 (-51) (/ 2251799813685248));
    [f_equal; lra | exact (pow2_neg_IZR 51 ltac:(lia)) | lia | lra | left; apply Rabs_lt_between; lra].
Qed.

Lemma fractional_step_4 :
  (Binary64.add (Fin 0) (Binary64.mul (Fin 10) (Fin (3602879701896397 / 18014398509481984)))) = Fin 2.
Proof.
  rewrite fractional_step_3.
  unfold Binary64.add. cbn [Num.add Binary64.fl].
  rewrite (round_eval_at _ 4503599627370496 (-51) (/ 2251799813685248));
    [f_equal; lra | exact (pow2_neg_IZR 51 ltac:(lia)) | lia | lra | left; apply Rabs_lt_between; lra].
Qed.

Lemma fractional_step_5 :
  (Binary64.mul (Fin 10) (Fin (3152519739159347 / 4503599627370496))) = Fin 7.
Proof.
  unfold Binary64.mul. cbn [Num.mul Binary64.fl].
  rewrite (round_eval_at _ 7881299347898368 (-50) (/ 1125899906842624));
    [f_equal; lra | exact (pow2_neg_IZR 50 ltac:(lia)) | lia | lra | right; split; [unfold Rabs; destruct (Rcase_abs _); lra | reflexivity]].
Qed.

Lemma fractional_step_6 :
  (Binary64.add (Binary64.add (Fin 0) (Binary64.mul (Fin 10) (Fin (3602879701896397 / 18014398509481984)))) (Binary64.mul (Fin 10) (Fin (3152519739159347 / 4503599627370496)))) = Fin 9.
Proof.
  rewrite fractional_step_4, fractional_step_5.
  unfold Binary64.add. cbn [Num.add Binary64.fl].
  rewrite (round_eval_at _ 5066549580791808 (-49) (/ 562949953421312));
    [f_equal; lra | exact (pow2_neg_IZR 49 ltac:(lia)) | lia | lra | left; apply Rabs_lt_between; lra].
Qed.

Lemma fractional_step_7 :
  (Binary64.add (Fin 0) (Fin (3602879701896397 / 18014398509481984))) = Fin (3602879701896397 / 18014398509481984).
Proof.
  unfold Binary64.add. cbn [Num.add Binary64.fl].
  rewrite (round_eval_at _ 7205759403792794 (-55) (/ 36028797018963968));
    [f_equal; lra | exact (pow2_neg_IZR 55 ltac:(lia)) | lia | lra | left; apply Rabs_lt_between; lra].
Qed.

Lemma fractional_step_8 :
  (Binary64.add (Binary64.add (Fin 0) (Fin (3602879701896397 / 18014398509481984))) (Fin (3152519739159347 / 4503599627370496))) = Fin (2026619832316723 / 2251799813685248).
Proof.
  rewrite fractional_step_7.
  unfold Binary64.add. cbn [Num.add Binary64.fl].
  rewrite (round_eval_at _ 8106479329266892 (-53) (/ 9007199254740992));
    [f_equal; lra | exact (pow2_neg_IZR 53 ltac:(lia)) | lia | lra | right; split; [unfold Rabs; destruct (Rcase_abs _); lra | reflexivity]].
Qed.

Lemma fractional_step_9 :
  (Binary64.div (Binary64.add (Binary64.add (Fin 0) (Binary64.mul (Fin 10) (Fin (3602879701896397 / 18014398509481984)))) (Binary64.mul (Fin 10) (Fin (3152519739159347 / 4503599627370496)))) (Binary64.add (Binary64.add (Fin 0) (Fin (3602879701896397 / 18014398509481984))) (Fin (3152519739159347 / 4503599627370496)))) = Fin (5629499534213121 / 562949953421312).
Proof.
  rewrite fractional_step_6, fractional_step_8.
  unfold Binary64.div. rewrite div_fin by lra. cbn [Binary64.fl].
  rewrite (round_eval_at _ 5629499534213121 (-49) (/ 562949953421312));
    [f_equal; lra | exact (pow2_neg_IZR 49 ltac:(lia)) | lia | lra | left; apply Rabs_lt_between; lra].
Qed.

(** The engine gives that score to a hotel with this average and no
    review, on the fallback path. *)
Example popularity_score_of_cedar :
  Double.popularityScore silentWorld cedarHotel
  = {| hotel := cedarHotel; finalScore := Fin 52 |}.
Proof.
  rewrite popularityScore_formula64. f_equal. exact popularity_of_seven_and_a_half.
Qed.

(** With review counts that are not whole the weighted mean of two ratings
    of 10 is 10.000000000000002: the counts 0.2 and 0.7 sum to
    0.8999999999999999, by which 9 is divided. *)
Example weighted_mean_above_ten :
  Double.computeWeightedAverage fractionalCounts = Fin (5629499534213121 / 562949953421312)
  /\ ~ onTenScale (Double.computeWeightedAverage fractionalCounts).
Proof.
  assert (H : Double.computeWeightedAverage fractionalCounts = Fin (5629499534213121 / 562949953421312)).
  { unfold Double.computeWeightedAverage.
    change (entriesOf fractionalCounts)
      with [ {| rating := Some (Fin 10); reviews_count := Some (Binary64.lit 0.2) |};
             {| rating := Some (Fin 10); reviews_count := Some (Binary64.lit 0.7) |} ].
    cbn [length Nat.eqb fold_left orZero rating reviews_count].
    rewrite fractional_step_1, fractional_step_2.
    rewrite !or_truthy by (apply truthy_fin; lra).
    rewrite fractional_step_9, fractional_step_8. now rewrite (proj2 (truthy_fin _)) by lra. }
  split; [exact H |]. rewrite H. intros (x & Hx & Hx10). injection Hx as <-. lra.
Qed.

(** The row of the world of these ratings gets that average score. *)
Example average_score_above_ten :
  exists h : AggregatedHotel,
    Double.aggregateRow fractionalWorld 0 summaryRow = Normal h
    /\ Agg.averageScore h = Fin (5629499534213121 / 562949953421312)
    /\ ~ onTenScale (Agg.averageScore h).
Proof.
  destruct (Double.aggregateRow fractionalWorld 0 summaryRow) as [h |] eqn:E.
  - exists h. split; [reflexivity |].
    apply aggregateRow_hotel in E as (_ & _ & _ & ratings & Hparse & _ & Havg).
    assert (Hsample : Double.parsePlatformRatings fractionalWorld summaryRow
                      = Some fractionalCounts) by reflexivity.
    rewrite Hsample in Hparse. injection Hparse as <-.
    change (Raw.average_rating summaryRow) with (Fin 0) in Havg.
    rewrite Havg, or_falsy by (unfold Num.truthy; now rewrite (Reqb_true 0 0 eq_refl)).
    exact weighted_mean_above_ten.
  - apply aggregateRow_throws in E. discriminate E.
Qed.

Lemma tenth_step_1 :
  (Binary64.lit 0.1) = Fin (3602879701896397 / 36028797018963968).
Proof.
  unfold Binary64.lit.
  rewrite (round_eval_at _ 7205759403792794 (-56) (/ 72057594037927936));
    [f_equal; lra | exact (pow2_neg_IZR 56 ltac:(lia)) | lia | lra | left; apply Rabs_lt_between; lra].
Qed.

Lemma tenth_step_2 :
  (Binary64.add (Fin 0) (Fin (3602879701896397 / 36028797018963968))) = Fin (3602879701896397 / 36028797018963968).
Proof.
  unfold Binary64.add. cbn [Num.add Binary64.fl].
  rewrite (round_eval_at _ 7205759403792794 (-56) (/ 72057594037927936));
    [f_equal; lra | exact (pow2_neg_IZR 56 ltac:(lia)) | lia | lra | left; apply Rabs_lt_between; lra].
Qed.

Lemma tenth_step_3 :
  (Binary64.add (Binary64.add (Fin 0) (Fin (3602879701896397 / 36028797018963968))) (Fin (3602879701896397 / 36028797018963968))) = Fin (3602879701896397 / 18014398509481984).
Proof.
  rewrite tenth_step_2.
  unfold Binary64.add. cbn [Num.add Binary64.fl].
  rewrite (round_eval_at _ 7205759403792794 (-55) (/ 36028797018963968));
    [f_equal; lra | exact (pow2_neg_IZR 55 ltac:(lia)) | lia | lra | left; apply Rabs_lt_between; lra].
Qed.

Lemma tenth_step_4 :
  (Binary64.add (Binary64.add (Binary64.add (Fin 0) (Fin (3602879701896397 / 36028797018963968))) (Fin (3602879701896397 / 36028797018963968))) (Fin (3602879701896397 / 36028797018963968))) = Fin (1351079888211149 / 4503599627370496).
Proof.
  rewrite tenth_step_3.
  unfold Binary64.add. cbn [Num.add Binary64.fl].
  rewrite (round_eval_at _ 5404319552844596 (-54) (/ 18014398509481984));
    [f_equal; lra | exact (pow2_neg_IZR 54 ltac:(lia)) | lia | lra | right; split; [unfold Rabs; destruct (Rcase_abs _); lra | reflexivity]].
Qed.

Lemma tenth_step_5 :
  (Binary64.div (Binary64.add (Binary64.add (Binary64.add (Fin 0) (Fin (3602879701896397 / 36028797018963968))) (Fin (3602879701896397 / 36028797018963968))) (Fin (3602879701896397 / 36028797018963968))) (Fin 3)) = Fin (7205759403792795 / 72057594037927936).
Proof.
  rewrite tenth_step_4.
  unfold Binary64.div. rewrite div_fin by lra. cbn [Binary64.fl].
  rewrite (round_eval_at _ 7205759403792795 (-56) (/ 72057594037927936));
    [f_equal; lra | exact (pow2_neg_IZR 56 ltac:(lia)) | lia | lra | left; apply Rabs_lt_between; lra].
Qed.

(** The mean need not lie between the ratings: three ratings of 0.1 have
    the mean 0.10000000000000002. *)
Example mean_of_three_tenths :
  UseAI.avgPlatform (UseAI.normalizePlatforms tenthRatings) = Some (Fin (7205759403792795 / 72057594037927936))
  /\ Binary64.lit 0.1 = Fin (3602879701896397 / 36028797018963968).
Proof.
  split; [| exact tenth_step_1].
  unfold UseAI.avgPlatform.
  change (omap UseAI.ratingOf (UseAI.valuesOf (UseAI.normalizePlatforms tenthRatings)))
    with [Binary64.lit 0.1; Binary64.lit 0.1; Binary64.lit 0.1].
  cbn [length Nat.eqb negb fold_left]. unfold Num.of_nat.
  replace (INR 3) with 3 by (simpl; lra).
  rewrite tenth_step_1. f_equal. exact tenth_step_5.
Qed.


(** ** The greatest final score *)

Lemma literal_1 :
  (Binary64.lit 0.4) = Fin (3602879701896397 / 9007199254740992).
Proof.
  unfold Binary64.lit.
  rewrite (round_eval_at _ 7205759403792794 (-54) (/ 18014398509481984));
    [f_equal; lra | exact (pow2_neg_IZR 54 ltac:(lia)) | lia | lra | left; apply Rabs_lt_between; lra].
Qed.

Lemma literal_2 :
  (Binary64.lit 0.3) = Fin (5404319552844595 / 18014398509481984).
Proof.
  unfold Binary64.lit.
  rewrite (round_eval_at _ 5404319552844595 (-54) (/ 18014398509481984));
    [f_equal; lra | exact (pow2_neg_IZR 54 ltac:(lia)) | lia | lra | left; apply Rabs_lt_between; lra].
Qed.

Lemma literal_3 :
  (Binary64.lit 0.15) = Fin (5404319552844595 / 36028797018963968).
Proof.
  unfold Binary64.lit.
  rewrite (round_eval_at _ 5404319552844595 (-55) (/ 36028797018963968));
    [f_equal; lra | exact (pow2_neg_IZR 55 ltac:(lia)) | lia | lra | left; apply Rabs_lt_between; lra].
Qed.

Lemma literal_4 :
  (Binary64.lit 0.1) = Fin (3602879701896397 / 36028797018963968).
Proof.
  unfold Binary64.lit.
  rewrite (round_eval_at _ 7205759403792794 (-56) (/ 72057594037927936));
    [f_equal; lra | exact (pow2_neg_IZR 56 ltac:(lia)) | lia | lra | left; apply Rabs_lt_between; lra].
Qed.

Lemma literal_5 :
  (Binary64.lit 0.02) = Fin (5764607523034235 / 288230376151711744).
Proof.
  unfold Binary64.lit.
  rewrite (round_eval_at _ 5764607523034235 (-58) (/ 288230376151711744));
    [f_equal; lra | exact (pow2_neg_IZR 58 ltac:(lia)) | lia | lra | left; apply Rabs_lt_between; lra].
Qed.

Lemma top_step_1 :
  (Binary64.div (Fin 10) (Fin 10)) = Fin 1.
Proof.
  unfold Binary64.div. rewrite div_fin by lra. cbn [Binary64.fl].
  rewrite (round_eval_at _ 4503599627370496 (-52) (/ 4503599627370496));
    [f_equal; lra | exact (pow2_neg_IZR 52 ltac:(lia)) | lia | lra | left; apply Rabs_lt_between; lra].
Qed.

Lemma top_step_2 :
  (Binary64.mul (Fin 1) (Fin (3602879701896397 / 9007199254740992))) = Fin (3602879701896397 / 9007199254740992).
Proof.
  unfold Binary64.mul. cbn [Num.mul Binary64.fl].
  rewrite (round_eval_at _ 7205759403792794 (-54) (/ 18014398509481984));
    [f_equal; lra | exact (pow2_neg_IZR 54 ltac:(lia)) | lia | lra | left; apply Rabs_lt_between; lra].
Qed.

Lemma top_step_3 :
  (Binary64.add (Fin 0) (Fin (3602879701896397 / 9007199254740992))) = Fin (3602879701896397 / 9007199254740992).
Proof.
  unfold Binary64.add. cbn [Num.add Binary64.fl].
  rewrite (round_eval_at _ 7205759403792794 (-54) (/ 18014398509481984));
    [f_equal; lra | exact (pow2_neg_IZR 54 ltac:(lia)) | lia | lra | left; apply Rabs_lt_between; lra].
Qed.

Lemma top_step_4 :
  (Binary64.mul (Fin 1) (Fin (5404319552844595 / 18014398509481984))) = Fin (5404319552844595 / 18014398509481984).
Proof.
  unfold Binary64.mul. cbn [Num.mul Binary64.fl].
  rewrite (round_eval_at _ 5404319552844595 (-54) (/ 18014398509481984));
    [f_equal; lra | exact (pow2_neg_IZR 54 ltac:(lia)) | lia | lra | left; apply Rabs_lt_between; lra].
Qed.

Lemma top_step_5 :
  (Binary64.add (Fin (3602879701896397 / 9007199254740992)) (Fin (5404319552844595 / 18014398509481984))) = Fin (3152519739159347 / 4503599627370496).
Proof.
  unfold Binary64.add. cbn [Num.add Binary64.fl].
  rewrite (round_eval_at _ 6305039478318694 (-53) (/ 9007199254740992));
    [f_equal; lra | exact (pow2_neg_IZR 53 ltac:(lia)) | lia | lra | right; split; [unfold Rabs; destruct (Rcase_abs _); lra | reflexivity]].
Qed.

Lemma top_step_6 :
  (Binary64.mul (Fin 1) (Fin (5404319552844595 / 36028797018963968))) = Fin (5404319552844595 / 36028797018963968).
Proof.
  unfold Binary64.mul. cbn [Num.mul Binary64.fl].
  rewrite (round_eval_at _ 5404319552844595 (-55) (/ 36028797018963968));
    [f_equal; lra | exact (pow2_neg_IZR 55 ltac:(lia)) | lia | lra | left; apply Rabs_lt_between; lra].
Qed.

Lemma top_step_7 :
  (Binary64.add (Fin (3152519739159347 / 4503599627370496)) (Fin (5404319552844595 / 36028797018963968))) = Fin (7656119366529843 / 9007199254740992).
Proof.
  unfold Binary64.add. cbn [Num.add Binary64.fl].
  rewrite (round_eval_at _ 7656119366529843 (-53) (/ 9007199254740992));
    [f_equal; lra | exact (pow2_neg_IZR 53 ltac:(lia)) | lia | lra | left; apply Rabs_lt_between; lra].
Qed.

Lemma top_step_8 :
  (Binary64.add (Fin 1) (Fin 0)) = Fin 1.
Proof.
  unfold Binary64.add. cbn [Num.add Binary64.fl].
  rewrite (round_eval_at _ 4503599627370496 (-52) (/ 4503599627370496));
    [f_equal; lra | exact (pow2_neg_IZR 52 ltac:(lia)) | lia | lra | left; apply Rabs_lt_between; lra].
Qed.

Lemma top_step_9 :
  (Binary64.add (Binary64.add (Fin 1) (Fin 0)) (Fin 1)) = Fin 2.
Proof.
  rewrite top_step_8.
  unfold Binary64.add. cbn [Num.add Binary64.fl].
  rewrite (round_eval_at _ 4503599627370496 (-51) (/ 2251799813685248));
    [f_equal; lra | exact (pow2_neg_IZR 51 ltac:(lia)) | lia | lra | left; apply Rabs_lt_between; lra].
Qed.

Lemma top_step_10 :
  (Binary64.div (Fin 1) (Binary64.add (Binary64.add (Fin 1) (Fin 0)) (Fin 1))) = Fin (1 / 2).
Proof.
  rewrite top_step_9.
  unfold Binary64.div. rewrite div_fin by lra. cbn [Binary64.fl].
  rewrite (round_eval_at _ 4503599627370496 (-53) (/ 9007199254740992));
    [f_equal; lra | exact (pow2_neg_IZR 53 ltac:(lia)) | lia | lra | left; apply Rabs_lt_between; lra].
Qed.

Lemma top_step_11 :
  (Binary64.mul (Binary64.div (Fin 1) (Binary64.add (Binary64.add (Fin 1) (Fin 0)) (Fin 1))) (Binary64.lit 0.15)) = Fin (5404319552844595 / 72057594037927936).
Proof.
  rewrite top_step_10, literal_3.
  unfold Binary64.mul. cbn [Num.mul Binary64.fl].
  rewrite (round_eval_at _ 5404319552844595 (-56) (/ 72057594037927936));
    [f_equal; lra | exact (pow2_neg_IZR 56 ltac:(lia)) | lia | lra | left; apply Rabs_lt_between; lra].
Qed.

Lemma top_step_12 :
  (Binary64.add (Fin (7656119366529843 / 9007199254740992)) (Fin (5404319552844595 / 72057594037927936))) = Fin (8331659310635417 / 9007199254740992).
Proof.
  unfold Binary64.add. cbn [Num.add Binary64.fl].
  rewrite (round_eval_at _ 8331659310635417 (-53) (/ 9007199254740992));
    [f_equal; lra | exact (pow2_neg_IZR 53 ltac:(lia)) | lia | lra | left; apply Rabs_lt_between; lra].
Qed.

Lemma top_step_13 :
  (Binary64.add (Fin (8331659310635417 / 9007199254740992)) (Fin (3602879701896397 / 36028797018963968))) = Fin (2308094809027379 / 2251799813685248).
Proof.
  unfold Binary64.add. cbn [Num.add Binary64.fl].
  rewrite (round_eval_at _ 4616189618054758 (-52) (/ 4503599627370496));
    [f_equal; lra | exact (pow2_neg_IZR 52 ltac:(lia)) | lia | lra | left; apply Rabs_lt_between; lra].
Qed.

Lemma top_step_14 :
  (Binary64.mul (Fin (2308094809027379 / 2251799813685248)) (Fin 100)) = Fin (7212796278210559 / 70368744177664).
Proof.
  unfold Binary64.mul. cbn [Num.mul Binary64.fl].
  rewrite (round_eval_at _ 7212796278210559 (-46) (/ 70368744177664));
    [f_equal; lra | exact (pow2_neg_IZR 46 ltac:(lia)) | lia | lra | left; apply Rabs_lt_between; lra].
Qed.

Lemma grand_step_1 :
  (Binary64.add (Fin 0) (Binary64.lit 0.02)) = Fin (5764607523034235 / 288230376151711744).
Proof.
  rewrite literal_5.
  unfold Binary64.add. cbn [Num.add Binary64.fl].
  rewrite (round_eval_at _ 5764607523034235 (-58) (/ 288230376151711744));
    [f_equal; lra | exact (pow2_neg_IZR 58 ltac:(lia)) | lia | lra | left; apply Rabs_lt_between; lra].
Qed.

Lemma grand_step_2 :
  (Binary64.add (Binary64.add (Fin 0) (Binary64.lit 0.02)) (Binary64.lit 0.02)) = Fin (5764607523034235 / 144115188075855872).
Proof.
  rewrite grand_step_1, literal_5.
  unfold Binary64.add. cbn [Num.add Binary64.fl].
  rewrite (round_eval_at _ 5764607523034235 (-57) (/ 144115188075855872));
    [f_equal; lra | exact (pow2_neg_IZR 57 ltac:(lia)) | lia | lra | left; apply Rabs_lt_between; lra].
Qed.

Lemma grand_step_3 :
  (Binary64.add (Binary64.add (Binary64.add (Fin 0) (Binary64.lit 0.02)) (Binary64.lit 0.02)) (Binary64.lit 0.02)) = Fin (1080863910568919 / 18014398509481984).
Proof.
  rewrite grand_step_2, literal_5.
  unfold Binary64.add. cbn [Num.add Binary64.fl].
  rewrite (round_eval_at _ 8646911284551352 (-57) (/ 144115188075855872));
    [f_equal; lra | exact (pow2_neg_IZR 57 ltac:(lia)) | lia | lra | right; split; [unfold Rabs; destruct (Rcase_abs _); lra | reflexivity]].
Qed.

Lemma grand_step_4 :
  (Binary64.add (Binary64.add (Binary64.add (Binary64.add (Fin 0) (Binary64.lit 0.02)) (Binary64.lit 0.02)) (Binary64.lit 0.02)) (Binary64.lit 0.02)) = Fin (5764607523034235 / 72057594037927936).
Proof.
  rewrite grand_step_3, literal_5.
  unfold Binary64.add. cbn [Num.add Binary64.fl].
  rewrite (round_eval_at _ 5764607523034235 (-56) (/ 72057594037927936));
    [f_equal; lra | exact (pow2_neg_IZR 56 ltac:(lia)) | lia | lra | left; apply Rabs_lt_between; lra].
Qed.

Lemma grand_step_5 :
  (Binary64.add (Binary64.add (Binary64.add (Binary64.add (Binary64.add (Fin 0) (Binary64.lit 0.02)) (Binary64.lit 0.02)) (Binary64.lit 0.02)) (Binary64.lit 0.02)) (Binary64.lit 0.02)) = Fin (3602879701896397 / 36028797018963968).
Proof.
  rewrite grand_step_4, literal_5.
  unfold Binary64.add. cbn [Num.add Binary64.fl].
  rewrite (round_eval_at _ 7205759403792794 (-56) (/ 72057594037927936));
    [f_equal; lra | exact (pow2_neg_IZR 56 ltac:(lia)) | lia | lra | left; apply Rabs_lt_between; lra].
Qed.

Lemma grand_step_6 :
  (Num.min (Binary64.add (Binary64.add (Binary64.add (Binary64.add (Binary64.add (Fin 0) (Binary64.lit 0.02)) (Binary64.lit 0.02)) (Binary64.lit 0.02)) (Binary64.lit 0.02)) (Binary64.lit 0.02)) (Binary64.lit 0.1)) = Fin (3602879701896397 / 36028797018963968).
Proof.
  rewrite grand_step_5, literal_4.
  rewrite min_fin. f_equal. unfold Rmin. destruct (Rle_dec _ _); lra.
Qed.

(** ** The range of the final score *)

Lemma within_round_upper (lo x X hi : R) :
  Binary64.representable lo -> lo <= x <= X -> Binary64.round X = Fin hi ->
  Binary64.within lo hi (Binary64.round x).
Proof.
  intros Hlo [H1 H2] HX.
  pose proof (round_mono lo x H1) as Hl. pose proof (round_mono x X H2) as Hu.
  rewrite round_exact in Hl by exact Hlo. rewrite HX in Hu.
  destruct (Binary64.round x) as [z | | |]; try discriminate.
  apply le_fin in Hl. apply le_fin in Hu. exists z. split; [reflexivity | lra].
Qed.

Lemma add_upper (a b : number) (ha hb hi : R) :
  Binary64.within 0 ha a -> Binary64.within 0 hb b ->
  Binary64.add (Fin ha) (Fin hb) = Fin hi ->
  Binary64.within 0 hi (Binary64.add a b).
Proof.
  intros (x & -> & Hx) (y & -> & Hy). unfold Binary64.add. cbn [Num.add Binary64.fl].
  apply within_round_upper; [apply representable_0 | lra].
Qed.

Lemma mul_upper (a b : number) (ha hb hi : R) :
  Binary64.within 0 ha a -> Binary64.within 0 hb b ->
  Binary64.mul (Fin ha) (Fin hb) = Fin hi ->
  Binary64.within 0 hi (Binary64.mul a b).
Proof.
  intros (x & -> & Hx) (y & -> & Hy). unfold Binary64.mul. cbn [Num.mul Binary64.fl].
  apply within_round_upper; [apply representable_0 | nra].
Qed.

Lemma div_upper (a : number) (ha d hi : R) :
  Binary64.within 0 ha a -> 0 < d ->
  Binary64.div (Fin ha) (Fin d) = Fin hi ->
  Binary64.within 0 hi (Binary64.div a (Fin d)).
Proof.
  intros (x & -> & Hx) Hd. unfold Binary64.div. rewrite !div_fin by lra. cbn [Binary64.fl].
  apply within_round_upper; [apply representable_0 |].
  pose proof (Rinv_0_lt_compat d Hd). unfold Rdiv. split; nra.
Qed.

Lemma lit_within (c hi : R) :
  Binary64.lit c = Fin hi -> 0 <= hi -> Binary64.within 0 hi (Binary64.lit c).
Proof. intros -> H. exists hi. split; [reflexivity | lra]. Qed.

Lemma bonusKeywords_length (persona : string) (keywords : list string) :
  assoc persona bonusKeywords = Some keywords -> length keywords = 5%nat.
Proof.
  unfold bonusKeywords. cbn [assoc].
  repeat match goal with
    | |- context [String.eqb ?a persona] => destruct (String.eqb a persona)
    end;
    intros [= <-] || discriminate; reflexivity.
Qed.

Lemma bonus_sum_within (n : nat) :
  (n <= 5)%nat ->
  Binary64.within 0 (INR n)
    (Nat.iter n (fun bonus => Binary64.add bonus (Binary64.lit 0.02)) (Fin 0)).
Proof.
  induction n as [| n IH]; intros Hn.
  - exists 0. split; [reflexivity | cbn; lra].
  - change (Nat.iter (S n) (fun bonus => Binary64.add bonus (Binary64.lit 0.02)) (Fin 0))
      with (Binary64.add
              (Nat.iter n (fun bonus => Binary64.add bonus (Binary64.lit 0.02)) (Fin 0))
              (Binary64.lit 0.02)).
    rewrite S_INR. pose proof (pos_INR n) as Hpos.
    assert (Hn5 : INR n <= 5) by (replace 5 with (INR 5) by (simpl; lra); apply le_INR; lia).
    apply (within_add 0 (INR n) 0 1); try lra.
    + apply IH. lia.
    + apply within_lit; [apply representable_0 | apply representable_1 | lra].
    + apply representable_0.
    + rewrite <- S_INR, INR_IZR_INZ. apply representable_IZR. lia.
Qed.

(** The persona bonus is at most the literal 0.1. *)
Lemma personaBonus_within (h : AggregatedHotel) (persona : string) (hi : R) :
  Binary64.lit 0.1 = Fin hi -> 0 <= hi ->
  Binary64.within 0 hi (Formula.personaBonus h persona).
Proof.
  intros Hlit Hhi. unfold Formula.personaBonus.
  destruct (assoc persona bonusKeywords) as [keywords |] eqn:E.
  - rewrite Hlit.
    assert (Hn : (length (Formula.keywordsFound h keywords) <= 5)%nat).
    { rewrite <- (bonusKeywords_length persona keywords E).
      unfold Formula.keywordsFound. apply List.filter_length_le. }
    destruct (bonus_sum_within _ Hn) as (x & -> & Hx).
    rewrite min_fin. exists (Rmin x hi). split; [reflexivity |].
    unfold Rmin. destruct (Rle_dec x hi); lra.
  - exists 0. split; [reflexivity | lra].
Qed.

(** The confidence in the review volume is a real from 0 to 1. *)
Lemma reviewVolumeConfidence_within (w : World) (total : number) :
  soundLog w -> wholeNumber total ->
  Binary64.within 0 1 (Formula.reviewVolumeConfidence w total).
Proof.
  intros Hlog (n & -> & Hn). unfold Formula.reviewVolumeConfidence.
  assert (Hadd : Binary64.add (Fin (IZR n)) (Fin 1) = Fin (IZR (n + 1))).
  { unfold Binary64.add. cbn [Num.add Binary64.fl]. rewrite <- plus_IZR.
    apply round_exact, representable_IZR. lia. }
  rewrite Hadd.
  destruct (Hlog (IZR (n + 1))) as (y & -> & Hy).
  { split; [apply (IZR_le 1); lia |].
    apply Rle_lt_trans with (IZR (2 ^ 53)); [apply IZR_le; lia | apply pow2_53_1024]. }
  assert (Hweight : Binary64.within 0 128 (Binary64.div (Fin y) (Fin 8))).
  { apply (within_div 0 1024 8 8); try lra;
      [exists y; split; [reflexivity | lra] | apply within_fin
      | apply representable_0 | apply representable_128]. }
  destruct Hweight as (z & -> & Hz). rewrite min_fin. exists (Rmin 1 z).
  split; [reflexivity |]. unfold Rmin. destruct (Rle_dec 1 z); lra.
Qed.

Lemma calculateFinalScore_throws (w : World) (h : AggregatedHotel) (persona : string)
    (similarity : number) :
  Double.calculateFinalScore w h persona similarity = Throw <-> inheritedName persona = true.
Proof.
  unfold Double.calculateFinalScore.
  rewrite <- (getPersonaBonus_throws h persona).
  destruct (Double.getPersonaBonus h persona); split; congruence.
Qed.

(** The final score of a fuzzy match is an integer from 0 to 102, for a
    hotel whose average score is on the scale from 0 to 10, whose review
    total is a whole number and whose word counts are those of the
    aggregation, at a similarity from 0 to 1, when the logarithm of the
    implementation is sound. *)
Theorem final_score_range (w : World) (h : AggregatedHotel) (persona : string) (s : R) :
  soundLog w ->
  inheritedName persona = false ->
  plainCounts h ->
  onTenScale (Agg.averageScore h) ->
  wholeNumber (Agg.totalReviews h) ->
  0 <= s <= 1 ->
  exists v : number,
    Double.calculateFinalScore w h persona (Fin s) = Normal v /\ integerBetween 0 102 v.
Proof.
  intros Hlog Hp [Hpos Hneg] (a & Ha & Ha10) Htotal Hs.
  destruct (Double.calculateFinalScore w h persona (Fin s)) as [v |] eqn:E.
  2:{ apply calculateFinalScore_throws in E. congruence. }
  exists v. split; [reflexivity |].
  unfold Double.calculateFinalScore in E. cbv zeta in E.
  destruct (Double.getPersonaBonus h persona) as [b |] eqn:Eb; [| discriminate E].
  apply getPersonaBonus_formula in Eb. subst b. injection E as <-.
  rewrite Hpos, Hneg, Ha, reviewConfidence_formula.
  pose proof (lit_within 0.4 _ literal_1 ltac:(lra)) as H4.
  pose proof (lit_within 0.3 _ literal_2 ltac:(lra)) as H3.
  pose proof (lit_within 0.15 _ literal_3 ltac:(lra)) as H15.
  pose proof (personaBonus_within h persona _ literal_4 ltac:(lra)) as Hbonus.
  pose proof (reviewVolumeConfidence_within w _ Hlog Htotal) as Hvolume.
  assert (Hzero : Binary64.within 0 0 (Fin 0)) by apply within_fin.
  assert (Hbase : Binary64.within 0 1 (Binary64.div (Fin a) (Fin 10))).
  { apply (div_upper (Fin a) 10 10 1); [exists a; split; [reflexivity | lra] | lra |].
    exact top_step_1. }
  pose proof (mul_upper _ _ _ _ _ Hbase H4 top_step_2) as Hm1.
  pose proof (add_upper _ _ _ _ _ Hzero Hm1 top_step_3) as Ht1.
  assert (Hsim : Binary64.within 0 1 (Fin s)) by (exists s; split; [reflexivity | lra]).
  pose proof (mul_upper _ _ _ _ _ Hsim H3 top_step_4) as Hm2.
  pose proof (add_upper _ _ _ _ _ Ht1 Hm2 top_step_5) as Ht2.
  pose proof (mul_upper _ _ _ _ _ Hvolume H15 top_step_6) as Hm3.
  pose proof (add_upper _ _ _ _ _ Ht2 Hm3 top_step_7) as Ht3.
  rewrite top_step_11 in *.
  assert (Hm4 : Binary64.within 0 (5404319552844595 / 72057594037927936)
                  (Fin (5404319552844595 / 72057594037927936)))
    by (eexists; split; [reflexivity | lra]).
  pose proof (add_upper _ _ _ _ _ Ht3 Hm4 top_step_12) as Ht4.
  pose proof (add_upper _ _ _ _ _ Ht4 Hbonus top_step_13) as Ht5.
  assert (Hhundred : Binary64.within 0 100 (Fin 100)) by (exists 100; split; [reflexivity | lra]).
  pose proof (mul_upper _ _ _ _ _ Ht5 Hhundred top_step_14) as Ht6.
  destruct (round_half_up_between 0 102 _ _ _ Ht6) as (z & Hz & Hrange); [lra | lra |].
  exists z. split; [exact Hz | exact Hrange].
Qed.

Lemma final_score_range_witness :
  exists v : number,
    Double.calculateFinalScore silentWorld poolHotel "Family" (Fin 0.5) = Normal v
    /\ integerBetween 0 102 v.
Proof.
  apply (final_score_range silentWorld poolHotel "Family" 0.5).
  - now apply binary64_log_sound.
  - reflexivity.
  - split; reflexivity.
  - exists 8. split; [reflexivity | lra].
  - exists 0%Z. split; [reflexivity | lia].
  - lra.
Defined.

(** ** A final score above 100 *)

Lemma exp_8_le : exp 8 <= 6561.
Proof.
  pose proof exp_le_3 as H1. pose proof (exp_pos 1) as P1.
  assert (H2 : exp 2 <= 9).
  { replace 2 with (1 + 1) by lra. rewrite exp_plus. nra. }
  pose proof (exp_pos 2) as P2.
  assert (H4 : exp 4 <= 81).
  { replace 4 with (2 + 2) by lra. rewrite exp_plus. nra. }
  pose proof (exp_pos 4) as P4.
  replace 8 with (4 + 4) by lra. rewrite exp_plus. nra.
Qed.

Lemma grand_volume : Formula.reviewVolumeConfidence silentWorld (Fin 7000) = Fin 1.
Proof.
  unfold Formula.reviewVolumeConfidence.
  assert (Hadd : Binary64.add (Fin 7000) (Fin 1) = Fin 7001).
  { unfold Binary64.add. cbn [Num.add Binary64.fl].
    replace (7000 + 1) with (IZR 7001) by lra.
    apply round_exact, representable_IZR. lia. }
  rewrite Hadd. change (Math_log silentWorld) with Binary64.log.
  assert (Hln : 8 <= ln 7001 <= 1024).
  { split.
    - rewrite <- (ln_exp 8). pose proof exp_8_le as He. pose proof (exp_pos 8) as Hp.
      destruct (Rle_lt_or_eq_dec _ _ He) as [Hlt | Heq].
      + left. apply ln_increasing; lra.
      + left. apply ln_increasing; lra.
    - apply ln_pow2_1024. split; [lra |].
      apply Rle_lt_trans with (IZR (2 ^ 53)); [apply IZR_le; lia | apply pow2_53_1024]. }
  assert (Hlog : Binary64.within 8 1024 (Binary64.log (Fin 7001))).
  { unfold Binary64.log. cbn [Num.log].
    rewrite Reqb_false, Rltb_false by lra. cbn [Binary64.fl].
    apply within_round; [apply (representable_IZR 8); lia
                        | apply (representable_IZR 1024); lia | exact Hln]. }
  assert (Hweight : Binary64.within 1 128 (Binary64.div (Binary64.log (Fin 7001)) (Fin 8))).
  { apply (within_div 8 1024 8 8); try lra;
      [exact Hlog | apply within_fin | apply representable_1 | apply representable_128]. }
  destruct Hweight as (z & -> & Hz). rewrite min_fin. f_equal.
  unfold Rmin. destruct (Rle_dec 1 z); lra.
Qed.

Lemma plain_sentiment : Formula.sentimentRatio (Fin 1) (Fin 0) = Fin (1 / 2).
Proof. exact top_step_10. Qed.

Lemma similarity_at_zero : Formula.similarity (Some (Fin 0)) = Fin 1.
Proof.
  unfold Formula.similarity, Num.truthy. rewrite (Reqb_true 0 0 eq_refl). cbn [negb].
  unfold Binary64.sub. cbn [Num.sub Num.neg Num.add Binary64.fl].
  replace (1 + - 0) with 1 by lra. apply round_exact, representable_1.
Qed.

Lemma grand_bonus : Formula.personaBonus grandHotel "Family" = Fin (3602879701896397 / 36028797018963968).
Proof.
  unfold Formula.personaBonus.
  change (assoc "Family" bonusKeywords)
    with (Some ["family"; "kids"; "children"; "pool"; "playground"]).
  replace (length (Formula.keywordsFound grandHotel
                     ["family"; "kids"; "children"; "pool"; "playground"]))
    with 5%nat by reflexivity.
  exact grand_step_6.
Qed.
Lemma grand_step_7 :
  (Binary64.div (Fin 10) (Fin 10)) = Fin 1.
Proof.
  unfold Binary64.div. rewrite div_fin by lra. cbn [Binary64.fl].
  rewrite (round_eval_at _ 4503599627370496 (-52) (/ 4503599627370496));
    [f_equal; lra | exact (pow2_neg_IZR 52 ltac:(lia)) | lia | lra | left; apply Rabs_lt_between; lra].
Qed.

Lemma grand_step_8 :
  (Binary64.mul (Binary64.lit 0.4) (Binary64.div (Fin 10) (Fin 10))) = Fin (3602879701896397 / 9007199254740992).
Proof.
  rewrite literal_1, grand_step_7.
  unfold Binary64.mul. cbn [Num.mul Binary64.fl].
  rewrite (round_eval_at _ 7205759403792794 (-54) (/ 18014398509481984));
    [f_equal; lra | exact (pow2_neg_IZR 54 ltac:(lia)) | lia | lra | left; apply Rabs_lt_between; lra].
Qed.

Lemma grand_step_9 :
  (Binary64.mul (Binary64.lit 0.3) (Formula.similarity (Some (Fin 0)))) = Fin (5404319552844595 / 18014398509481984).
Proof.
  rewrite literal_2, similarity_at_zero.
  unfold Binary64.mul. cbn [Num.mul Binary64.fl].
  rewrite (round_eval_at _ 5404319552844595 (-54) (/ 18014398509481984));
    [f_equal; lra | exact (pow2_neg_IZR 54 ltac:(lia)) | lia | lra | left; apply Rabs_lt_between; lra].
Qed.

Lemma grand_step_10 :
  (Binary64.add (Binary64.mul (Binary64.lit 0.4) (Binary64.div (Fin 10) (Fin 10))) (Binary64.mul (Binary64.lit 0.3) (Formula.similarity (Some (Fin 0))))) = Fin (3152519739159347 / 4503599627370496).
Proof.
  rewrite grand_step_8, grand_step_9.
  unfold Binary64.add. cbn [Num.add Binary64.fl].
  rewrite (round_eval_at _ 6305039478318694 (-53) (/ 9007199254740992));
    [f_equal; lra | exact (pow2_neg_IZR 53 ltac:(lia)) | lia | lra | right; split; [unfold Rabs; destruct (Rcase_abs _); lra | reflexivity]].
Qed.

Lemma grand_step_11 :
  (Binary64.mul (Binary64.lit 0.15) (Formula.reviewVolumeConfidence silentWorld (Fin 7000))) = Fin (5404319552844595 / 36028797018963968).
Proof.
  rewrite literal_3, grand_volume.
  unfold Binary64.mul. cbn [Num.mul Binary64.fl].
  rewrite (round_eval_at _ 5404319552844595 (-55) (/ 36028797018963968));
    [f_equal; lra | exact (pow2_neg_IZR 55 ltac:(lia)) | lia | lra | left; apply Rabs_lt_between; lra].
Qed.

Lemma grand_step_12 :
  (Binary64.add (Binary64.add (Binary64.mul (Binary64.lit 0.4) (Binary64.div (Fin 10) (Fin 10))) (Binary64.mul (Binary64.lit 0.3) (Formula.similarity (Some (Fin 0))))) (Binary64.mul (Binary64.lit 0.15) (Formula.reviewVolumeConfidence silentWorld (Fin 7000)))) = Fin (7656119366529843 / 9007199254740992).
Proof.
  rewrite grand_step_10, grand_step_11.
  unfold Binary64.add. cbn [Num.add Binary64.fl].
  rewrite (round_eval_at _ 7656119366529843 (-53) (/ 9007199254740992));
    [f_equal; lra | exact (pow2_neg_IZR 53 ltac:(lia)) | lia | lra | left; apply Rabs_lt_between; lra].
Qed.

Lemma grand_step_13 :
  (Binary64.mul (Binary64.lit 0.15) (Formula.sentimentRatio (Fin 1) (Fin 0))) = Fin (5404319552844595 / 72057594037927936).
Proof.
  rewrite literal_3, plain_sentiment.
  unfold Binary64.mul. cbn [Num.mul Binary64.fl].
  rewrite (round_eval_at _ 5404319552844595 (-56) (/ 72057594037927936));
    [f_equal; lra | exact (pow2_neg_IZR 56 ltac:(lia)) | lia | lra | left; apply Rabs_lt_between; lra].
Qed.

Lemma grand_step_14 :
  (Binary64.add (Binary64.add (Binary64.add (Binary64.mul (Binary64.lit 0.4) (Binary64.div (Fin 10) (Fin 10))) (Binary64.mul (Binary64.lit 0.3) (Formula.similarity (Some (Fin 0))))) (Binary64.mul (Binary64.lit 0.15) (Formula.reviewVolumeConfidence silentWorld (Fin 7000)))) (Binary64.mul (Binary64.lit 0.15) (Formula.sentimentRatio (Fin 1) (Fin 0)))) = Fin (8331659310635417 / 9007199254740992).
Proof.
  rewrite grand_step_12, grand_step_13.
  unfold Binary64.add. cbn [Num.add Binary64.fl].
  rewrite (round_eval_at _ 8331659310635417 (-53) (/ 9007199254740992));
    [f_equal; lra | exact (pow2_neg_IZR 53 ltac:(lia)) | lia | lra | left; apply Rabs_lt_between; lra].
Qed.

Lemma grand_step_15 :
  (Binary64.add (Binary64.add (Binary64.add (Binary64.add (Binary64.mul (Binary64.lit 0.4) (Binary64.div (Fin 10) (Fin 10))) (Binary64.mul (Binary64.lit 0.3) (Formula.similarity (Some (Fin 0))))) (Binary64.mul (Binary64.lit 0.15) (Formula.reviewVolumeConfidence silentWorld (Fin 7000)))) (Binary64.mul (Binary64.lit 0.15) (Formula.sentimentRatio (Fin 1) (Fin 0)))) (Formula.personaBonus grandHotel "Family")) = Fin (2308094809027379 / 2251799813685248).
Proof.
  rewrite grand_step_14, grand_bonus.
  unfold Binary64.add. cbn [Num.add Binary64.fl].
  rewrite (round_eval_at _ 4616189618054758 (-52) (/ 4503599627370496));
    [f_equal; lra | exact (pow2_neg_IZR 52 ltac:(lia)) | lia | lra | left; apply Rabs_lt_between; lra].
Qed.

Lemma grand_step_16 :
  (Binary64.mul (Fin 100) (Binary64.add (Binary64.add (Binary64.add (Binary64.add (Binary64.mul (Binary64.lit 0.4) (Binary64.div (Fin 10) (Fin 10))) (Binary64.mul (Binary64.lit 0.3) (Formula.similarity (Some (Fin 0))))) (Binary64.mul (Binary64.lit 0.15) (Formula.reviewVolumeConfidence silentWorld (Fin 7000)))) (Binary64.mul (Binary64.lit 0.15) (Formula.sentimentRatio (Fin 1) (Fin 0)))) (Formula.personaBonus grandHotel "Family"))) = Fin (7212796278210559 / 70368744177664).
Proof.
  rewrite grand_step_15.
  unfold Binary64.mul. cbn [Num.mul Binary64.fl].
  rewrite (round_eval_at _ 7212796278210559 (-46) (/ 70368744177664));
    [f_equal; lra | exact (pow2_neg_IZR 46 ltac:(lia)) | lia | lra | left; apply Rabs_lt_between; lra].
Qed.

Lemma grand_step_17 :
  (Num.round (Binary64.mul (Fin 100) (Binary64.add (Binary64.add (Binary64.add (Binary64.add (Binary64.mul (Binary64.lit 0.4) (Binary64.div (Fin 10) (Fin 10))) (Binary64.mul (Binary64.lit 0.3) (Formula.similarity (Some (Fin 0))))) (Binary64.mul (Binary64.lit 0.15) (Formula.reviewVolumeConfidence silentWorld (Fin 7000)))) (Binary64.mul (Binary64.lit 0.15) (Formula.sentimentRatio (Fin 1) (Fin 0)))) (Formula.personaBonus grandHotel "Family")))) = Fin 102.
Proof.
  rewrite grand_step_16.
  cbn [Num.round]. do 2 f_equal. apply floor_unique. lra.
Qed.

Lemma grand_score :
  Formula.finalScore silentWorld (Fin 10) (Formula.similarity (Some (Fin 0))) (Fin 7000)
    (Fin 1) (Fin 0) (Formula.personaBonus grandHotel "Family")
  = Fin 102.
Proof. unfold Formula.finalScore. exact grand_step_17. Qed.

(** The final score can exceed 100: a hit at the distance 0 of a hotel with
    the best average score, 7000 reviews and the five keywords of the
    persona scores 102.  A hundred times the sum is 102.49999999999999 in
    binary64, where the sum of the exact terms is 1.025. *)
Example final_score_above_hundred :
  Double.scoreResult silentWorld "Family" grandHit
  = Normal {| hotel := grandHotel; finalScore := Fin 102 |}.
Proof.
  destruct (Double.scoreResult silentWorld "Family" grandHit) as [sh |] eqn:E.
  - apply scoreResult_hotel in E as [Hh Hs]. destruct sh as [h v]. cbn [hotel finalScore] in *.
    subst h. f_equal. f_equal. rewrite Hs. exact grand_score.
  - apply scoreResult_throws in E. discriminate E.
Qed.
